(** * ext2-lite: a shallow embedding of the filesystem sources

    The development follows the C sources of the ext2-lite kernel module
    (super.c, balloc.c, ialloc.c, inode.c, dir.c, namei.c).  C integers are
    modelled by [Z] with the wrap-around of their width written out, bitmaps
    by [Z] read with [Z.testbit], directory pages by lists of bytes, and the
    mutable filesystem by explicit state passing. *)

From Stdlib Require Import ZArith Lia List Bool String.
From stdpp Require Import base list.
Import ListNotations.
Local Open Scope Z_scope.

(* ================================================================= *)
(** ** Machine integers *)

Definition u8  (x : Z) : Z := x mod 2 ^ 8.
Definition u16 (x : Z) : Z := x mod 2 ^ 16.
Definition u32 (x : Z) : Z := x mod 2 ^ 32.
(** [unsigned long], [sector_t] and [ino_t] on an LP64 kernel. *)
Definition u64 (x : Z) : Z := x mod 2 ^ 64.
(** Conversion of an unsigned value to [int]. *)
Definition s32 (x : Z) : Z := (x + 2 ^ 31) mod 2 ^ 32 - 2 ^ 31.

(** Byte order.  [be] tells whether the host is big-endian; a raw [__le32]
    word is the value the CPU sees when it loads the on-disk bytes. *)
Definition bswap32 (x : Z) : Z :=
  Z.lor (Z.shiftl (Z.land x 255) 24)
    (Z.lor (Z.shiftl (Z.land (Z.shiftr x 8) 255) 16)
       (Z.lor (Z.shiftl (Z.land (Z.shiftr x 16) 255) 8)
          (Z.land (Z.shiftr x 24) 255))).
Definition le32_to_cpu (be : bool) (x : Z) : Z := if be then bswap32 x else x.
Definition cpu_to_le32 (be : bool) (x : Z) : Z := if be then bswap32 x else x.

(* ================================================================= *)
(** ** Error numbers and results *)

Inductive errno : Set :=
  | ENOENT | EIO | ENOMEM | EEXIST | EINVAL | ENOSPC
  | ENAMETOOLONG | ENOTEMPTY | EUCLEAN.

Inductive result (A : Type) : Type :=
  | Ok (a : A)
  | Err (e : errno).
Arguments Ok {A} a.
Arguments Err {A} e.

(* ================================================================= *)
(** ** Constants of the kernel and of ext2.h *)

Definition PAGE_SHIFT : Z := 12.
Definition PAGE_SIZE : Z := 4096.
Definition BLOCK_SIZE : Z := 1024.

(** Modelled from the spec: ext2.h is not among the sources.  The spec fixes
    twelve direct blocks, root inode 2, first non-reserved inode 11, inode
    size 128, magic 0xEF53, and a direct-block array of 60 bytes
    (twelve direct slots and the reserved tail, fifteen words). *)
Definition EXT2_NDIR_BLOCKS : Z := 12.
Definition EXT2_N_BLOCKS : Z := 15.
Definition EXT2_ROOT_INO : Z := 2.
Definition EXT2_GOOD_OLD_FIRST_INO : Z := 11.
Definition EXT2_GOOD_OLD_INODE_SIZE : Z := 128.
Definition EXT2_GOOD_OLD_REV : Z := 0.
Definition EXT2_SUPER_MAGIC : Z := 0xEF53.
Definition EXT2_VALID_FS : Z := 1.
Definition EXT2_ERROR_FS : Z := 2.
(** [sizeof(struct ext2_group_desc)]: three block numbers, three 16-bit
    counters, padding and reserved words. *)
Definition EXT2_DESC_SIZE : Z := 32.

(** File types in [i_mode]. *)
Definition S_IFMT  : Z := 0xF000.
Definition S_IFDIR : Z := 0x4000.
Definition S_IFCHR : Z := 0x2000.
Definition S_IFBLK : Z := 0x6000.
Definition S_IFREG : Z := 0x8000.
Definition S_IFLNK : Z := 0xA000.
Definition S_IRWXUGO : Z := 0x1FF.
Definition S_ISDIR (m : Z) : bool := Z.land m S_IFMT =? S_IFDIR.
Definition S_ISREG (m : Z) : bool := Z.land m S_IFMT =? S_IFREG.
Definition S_ISLNK (m : Z) : bool := Z.land m S_IFMT =? S_IFLNK.
Definition S_ISCHR (m : Z) : bool := Z.land m S_IFMT =? S_IFCHR.
Definition S_ISBLK (m : Z) : bool := Z.land m S_IFMT =? S_IFBLK.

(* ================================================================= *)
(** ** Superblock *)

(** The on-disk superblock, fields decoded from little-endian. *)
Record ext2_super_block : Type := {
  s_magic : Z;
  s_rev_level : Z;
  s_log_block_size : Z;
  s_blocks_count : Z;
  s_inodes_count : Z;
  s_first_data_block : Z;
  es_blocks_per_group : Z;
  es_inodes_per_group : Z;
  es_inode_size : Z;
  es_first_ino : Z;
  s_feature_compat : Z;
  s_feature_incompat : Z;
  s_feature_ro_compat : Z;
}.

(** The in-memory superblock information [struct ext2_sb_info], together
    with [sb->s_blocksize] and the superblock it points to ([s_es]). *)
Record ext2_sb_info : Type := {
  s_es : ext2_super_block;
  s_blocksize : Z;
  s_inode_size : Z;
  s_first_ino : Z;
  s_blocks_per_group : Z;
  s_inodes_per_group : Z;
  s_inodes_per_block : Z;
  s_itb_per_group : Z;
  s_desc_per_block : Z;
  s_groups_count : Z;
  s_gdb_count : Z;
  s_sb_block : Z;
}.

Definition is_power_of_2 (n : Z) : bool :=
  (0 <? n) && (Z.land n (n - 1) =? 0).

(** The layout computations of [ext2_fill_super] (super.c), from the magic
    check to [s_groups_count] and [db_count].  Reading the blocks, option
    parsing, the descriptor check and the root inode lie outside; the
    block-size change is accepted as [sb_set_blocksize] accepts it: a power
    of two between 512 and the page size.  The block size is
    [BLOCK_SIZE << s_log_block_size], a shift of an [int]: the source does
    not check the count, C leaves a count of 32 or more undefined, and the
    shift instruction takes it modulo 32, which is what the model does. *)
Definition ext2_fill_super (es : ext2_super_block) : result ext2_sb_info :=
  if negb (s_magic es =? EXT2_SUPER_MAGIC) then Err EINVAL
  else if negb (s_feature_ro_compat es =? 0) || negb (s_feature_compat es =? 0)
          || negb (s_feature_incompat es =? 0) then Err EINVAL
  else
    let blocksize :=
      s32 (Z.shiftl BLOCK_SIZE (Z.land (s_log_block_size es) 31)) in
    if negb ((512 <=? blocksize) && (blocksize <=? PAGE_SIZE)
             && is_power_of_2 blocksize) then Err EINVAL
    else
      let inode_size :=
        if s_rev_level es =? EXT2_GOOD_OLD_REV
        then EXT2_GOOD_OLD_INODE_SIZE else es_inode_size es in
      let first_ino :=
        if s_rev_level es =? EXT2_GOOD_OLD_REV
        then EXT2_GOOD_OLD_FIRST_INO else es_first_ino es in
      if negb (s_rev_level es =? EXT2_GOOD_OLD_REV)
         && ((inode_size <? EXT2_GOOD_OLD_INODE_SIZE)
             || negb (is_power_of_2 inode_size)
             || (blocksize <? inode_size)) then Err EINVAL
      else
        let blocks_per_group := es_blocks_per_group es in
        let inodes_per_group := es_inodes_per_group es in
        let inodes_per_block := blocksize / inode_size in
        if (inodes_per_block =? 0) || (inodes_per_group =? 0) then Err EINVAL
        else
          let itb_per_group := inodes_per_group / inodes_per_block in
          let desc_per_block := blocksize / EXT2_DESC_SIZE in
          if blocksize * 8 <? blocks_per_group then Err EINVAL
          else if blocksize * 8 <? inodes_per_group then Err EINVAL
          else if blocks_per_group =? 0 then Err EINVAL
          else
            let groups_count :=
              u32 (s_blocks_count es - s_first_data_block es - 1)
              / blocks_per_group + 1 in
            let db_count :=
              (groups_count + desc_per_block - 1) / desc_per_block in
            Ok {| s_es := es;
                  s_blocksize := blocksize;
                  s_inode_size := inode_size;
                  s_first_ino := first_ino;
                  s_blocks_per_group := blocks_per_group;
                  s_inodes_per_group := inodes_per_group;
                  s_inodes_per_block := inodes_per_block;
                  s_itb_per_group := itb_per_group;
                  s_desc_per_block := desc_per_block;
                  s_groups_count := groups_count;
                  s_gdb_count := db_count;
                  s_sb_block := 1 |}.

(** The group count as the specification words it: a ceiling. *)
Definition ceil_div (a b : Z) : Z := (a + b - 1) / b.
Definition spec_groups_count (es : ext2_super_block) : Z :=
  ceil_div (s_blocks_count es - s_first_data_block es - 1)
           (es_blocks_per_group es) + 1.

(* ================================================================= *)
(** ** Filesystem state *)

(** A group descriptor, fields decoded from little-endian: every access of
    the sources goes through [le32_to_cpu], [le16_to_cpu] and their
    inverses.  The three counters are 16 bits wide. *)
Record ext2_group_desc : Type := {
  bg_block_bitmap : Z;
  bg_inode_bitmap : Z;
  bg_inode_table : Z;
  bg_free_blocks_count : Z;
  bg_free_inodes_count : Z;
  bg_used_dirs_count : Z;
}.

(** A block group: its descriptor, the data of its block-bitmap buffer with
    the buffer's up-to-date flag, and the data of its inode bitmap.  Bit [k]
    of a bitmap is [Z.testbit bitmap k]. *)
Record ext2_group : Type := {
  g_desc : ext2_group_desc;
  g_block_bitmap : Z;
  g_bb_uptodate : bool;
  g_inode_bitmap : Z;
}.

Inductive errors_policy : Set := ERRORS_CONT | ERRORS_RO | ERRORS_PANIC.

(** An on-disk inode record [struct ext2_inode]: the fields the sources
    read and write, decoded from little-endian except [i_block], which keeps
    the fifteen raw [__le32] words. *)
Record ext2_inode : Type := {
  d_mode : Z;
  d_links_count : Z;
  d_size : Z;
  d_blocks : Z;
  d_dtime : Z;
  d_flags : Z;
  i_block : list Z;
}.

(** The mounted filesystem.  [fs_groups] is the loaded descriptor table,
    [fs_bad_blocks] the device blocks whose read fails, [fs_itable] the
    inode records of the device by block and offset, [fs_log] the
    messages of [ext2_error], [fs_panic] whether [panic] was reached.  The
    per-CPU counters are modelled by their exact sum.  Timestamps, dirty
    marks, reference counts and locks are not part of the state. *)
Record ext2_fs : Type := {
  fs_sbi : ext2_sb_info;
  fs_groups : list ext2_group;
  s_freeblocks_counter : Z;
  s_freeinodes_counter : Z;
  s_dirs_counter : Z;
  fs_bad_blocks : list Z;
  fs_itable : list (Z * Z * ext2_inode);
  s_mount_state : Z;
  es_state : Z;
  es_free_blocks_count : Z;
  es_free_inodes_count : Z;
  s_mount_opt : errors_policy;
  sb_rdonly : bool;
  fs_panic : bool;
  fs_log : list string;
}.

Definition set_groups (fs : ext2_fs) (gs : list ext2_group) : ext2_fs :=
  {| fs_sbi := fs_sbi fs; fs_groups := gs;
     s_freeblocks_counter := s_freeblocks_counter fs;
     s_freeinodes_counter := s_freeinodes_counter fs;
     s_dirs_counter := s_dirs_counter fs;
     fs_bad_blocks := fs_bad_blocks fs; fs_itable := fs_itable fs;
     s_mount_state := s_mount_state fs; es_state := es_state fs;
     es_free_blocks_count := es_free_blocks_count fs;
     es_free_inodes_count := es_free_inodes_count fs;
     s_mount_opt := s_mount_opt fs; sb_rdonly := sb_rdonly fs;
     fs_panic := fs_panic fs; fs_log := fs_log fs |}.

Definition set_itable (fs : ext2_fs) (t : list (Z * Z * ext2_inode))
  : ext2_fs :=
  {| fs_sbi := fs_sbi fs; fs_groups := fs_groups fs;
     s_freeblocks_counter := s_freeblocks_counter fs;
     s_freeinodes_counter := s_freeinodes_counter fs;
     s_dirs_counter := s_dirs_counter fs;
     fs_bad_blocks := fs_bad_blocks fs; fs_itable := t;
     s_mount_state := s_mount_state fs; es_state := es_state fs;
     es_free_blocks_count := es_free_blocks_count fs;
     es_free_inodes_count := es_free_inodes_count fs;
     s_mount_opt := s_mount_opt fs; sb_rdonly := sb_rdonly fs;
     fs_panic := fs_panic fs; fs_log := fs_log fs |}.

Definition set_counters (fs : ext2_fs) (fb fi d : Z) : ext2_fs :=
  {| fs_sbi := fs_sbi fs; fs_groups := fs_groups fs;
     s_freeblocks_counter := fb;
     s_freeinodes_counter := fi;
     s_dirs_counter := d;
     fs_bad_blocks := fs_bad_blocks fs; fs_itable := fs_itable fs;
     s_mount_state := s_mount_state fs; es_state := es_state fs;
     es_free_blocks_count := es_free_blocks_count fs;
     es_free_inodes_count := es_free_inodes_count fs;
     s_mount_opt := s_mount_opt fs; sb_rdonly := sb_rdonly fs;
     fs_panic := fs_panic fs; fs_log := fs_log fs |}.

Definition percpu_counter_add_freeblocks (fs : ext2_fs) (n : Z) : ext2_fs :=
  set_counters fs (s_freeblocks_counter fs + n)
    (s_freeinodes_counter fs) (s_dirs_counter fs).
Definition percpu_counter_add_freeinodes (fs : ext2_fs) (n : Z) : ext2_fs :=
  set_counters fs (s_freeblocks_counter fs)
    (s_freeinodes_counter fs + n) (s_dirs_counter fs).
Definition percpu_counter_add_dirs (fs : ext2_fs) (n : Z) : ext2_fs :=
  set_counters fs (s_freeblocks_counter fs)
    (s_freeinodes_counter fs) (s_dirs_counter fs + n).
Definition percpu_counter_read_positive (c : Z) : Z := Z.max 0 c.

(** [sb_bread]: the read of a device block succeeds unless the block is bad. *)
Definition sb_bread (fs : ext2_fs) (block : Z) : bool :=
  negb (existsb (Z.eqb block) (fs_bad_blocks fs)).

Definition group_at (fs : ext2_fs) (g : Z) : option ext2_group :=
  if g <? 0 then None else fs_groups fs !! Z.to_nat g.

Definition update_group (fs : ext2_fs) (g : Z) (grp : ext2_group) : ext2_fs :=
  set_groups fs (<[Z.to_nat g := grp]> (fs_groups fs)).

Definition sum_desc (f : ext2_group_desc -> Z) (fs : ext2_fs) : Z :=
  fold_left (fun acc grp => acc + f (g_desc grp))
    (firstn (Z.to_nat (s_groups_count (fs_sbi fs))) (fs_groups fs)) 0.

(** balloc.c and ialloc.c: the sums of the descriptors' counters. *)
Definition ext2_count_free_blocks (fs : ext2_fs) : Z :=
  sum_desc bg_free_blocks_count fs.
Definition ext2_count_free_inodes (fs : ext2_fs) : Z :=
  sum_desc bg_free_inodes_count fs.
Definition ext2_count_dirs (fs : ext2_fs) : Z :=
  sum_desc bg_used_dirs_count fs.

(** super.c, [ext2_error]: flag the filesystem, write the superblock
    counters back ([ext2_sync_super]), log, then follow the error policy. *)
Definition ext2_error (fs : ext2_fs) (msg : string) : ext2_fs :=
  let ro := sb_rdonly fs in
  {| fs_sbi := fs_sbi fs; fs_groups := fs_groups fs;
     s_freeblocks_counter := s_freeblocks_counter fs;
     s_freeinodes_counter := s_freeinodes_counter fs;
     s_dirs_counter := s_dirs_counter fs;
     fs_bad_blocks := fs_bad_blocks fs; fs_itable := fs_itable fs;
     s_mount_state :=
       if ro then s_mount_state fs else Z.lor (s_mount_state fs) EXT2_ERROR_FS;
     es_state := if ro then es_state fs else Z.lor (es_state fs) EXT2_ERROR_FS;
     es_free_blocks_count :=
       if ro then es_free_blocks_count fs else u32 (ext2_count_free_blocks fs);
     es_free_inodes_count :=
       if ro then es_free_inodes_count fs else u32 (ext2_count_free_inodes fs);
     s_mount_opt := s_mount_opt fs;
     sb_rdonly :=
       match s_mount_opt fs with
       | ERRORS_RO => true
       | _ => ro
       end;
     fs_panic :=
       match s_mount_opt fs with
       | ERRORS_PANIC => true
       | _ => fs_panic fs
       end;
     fs_log := fs_log fs ++ [msg] |}.

(** The kernel's [BUG ()]: the machine stops. *)
Definition BUG (fs : ext2_fs) : ext2_fs :=
  {| fs_sbi := fs_sbi fs; fs_groups := fs_groups fs;
     s_freeblocks_counter := s_freeblocks_counter fs;
     s_freeinodes_counter := s_freeinodes_counter fs;
     s_dirs_counter := s_dirs_counter fs;
     fs_bad_blocks := fs_bad_blocks fs; fs_itable := fs_itable fs;
     s_mount_state := s_mount_state fs; es_state := es_state fs;
     es_free_blocks_count := es_free_blocks_count fs;
     es_free_inodes_count := es_free_inodes_count fs;
     s_mount_opt := s_mount_opt fs; sb_rdonly := sb_rdonly fs;
     fs_panic := true; fs_log := fs_log fs |}.

(* ================================================================= *)
(** ** In-memory inodes and the page cache *)

(** A cached directory page: its bytes and the [checked] flag. *)
Record folio : Type := {
  f_data : list Z;
  f_checked : bool;
}.

Inductive inode_ops : Set :=
  | OP_NONE
  | ext2_file_inode_operations
  | ext2_dir_inode_operations
  | ext2_special_inode_operations
  | simple_symlink_inode_operations
  | page_symlink_inode_operations.

(** [struct inode] with its [ext2_inode_info].  [i_data] holds the fifteen
    raw [__le32] words of the block array; [i_mapping] is the page cache of
    the inode, where [None] stands for a page that cannot be read. *)
Record inode : Type := {
  i_ino : Z;
  i_mode : Z;
  i_nlink : Z;
  i_size : Z;
  i_blocks : Z;
  i_data : list Z;
  i_flags : Z;
  i_dtime : Z;
  i_block_group : Z;
  i_state : Z;
  i_rdev : Z;
  i_op : inode_ops;
  i_mapping : list (option folio);
  i_bad : bool;
}.

Definition EXT2_STATE_NEW : Z := 1.

Definition set_i_data (ino : inode) (d : list Z) : inode :=
  {| i_ino := i_ino ino; i_mode := i_mode ino; i_nlink := i_nlink ino;
     i_size := i_size ino; i_blocks := i_blocks ino; i_data := d;
     i_flags := i_flags ino; i_dtime := i_dtime ino;
     i_block_group := i_block_group ino; i_state := i_state ino;
     i_rdev := i_rdev ino; i_op := i_op ino; i_mapping := i_mapping ino;
     i_bad := i_bad ino |}.
Definition set_i_blocks (ino : inode) (b : Z) : inode :=
  {| i_ino := i_ino ino; i_mode := i_mode ino; i_nlink := i_nlink ino;
     i_size := i_size ino; i_blocks := b; i_data := i_data ino;
     i_flags := i_flags ino; i_dtime := i_dtime ino;
     i_block_group := i_block_group ino; i_state := i_state ino;
     i_rdev := i_rdev ino; i_op := i_op ino; i_mapping := i_mapping ino;
     i_bad := i_bad ino |}.
Definition set_i_size (ino : inode) (sz : Z) : inode :=
  {| i_ino := i_ino ino; i_mode := i_mode ino; i_nlink := i_nlink ino;
     i_size := sz; i_blocks := i_blocks ino; i_data := i_data ino;
     i_flags := i_flags ino; i_dtime := i_dtime ino;
     i_block_group := i_block_group ino; i_state := i_state ino;
     i_rdev := i_rdev ino; i_op := i_op ino; i_mapping := i_mapping ino;
     i_bad := i_bad ino |}.
Definition set_i_nlink (ino : inode) (n : Z) : inode :=
  {| i_ino := i_ino ino; i_mode := i_mode ino; i_nlink := n;
     i_size := i_size ino; i_blocks := i_blocks ino; i_data := i_data ino;
     i_flags := i_flags ino; i_dtime := i_dtime ino;
     i_block_group := i_block_group ino; i_state := i_state ino;
     i_rdev := i_rdev ino; i_op := i_op ino; i_mapping := i_mapping ino;
     i_bad := i_bad ino |}.
Definition set_i_op (ino : inode) (op : inode_ops) : inode :=
  {| i_ino := i_ino ino; i_mode := i_mode ino; i_nlink := i_nlink ino;
     i_size := i_size ino; i_blocks := i_blocks ino; i_data := i_data ino;
     i_flags := i_flags ino; i_dtime := i_dtime ino;
     i_block_group := i_block_group ino; i_state := i_state ino;
     i_rdev := i_rdev ino; i_op := op; i_mapping := i_mapping ino;
     i_bad := i_bad ino |}.
Definition set_i_mapping (ino : inode) (m : list (option folio)) : inode :=
  {| i_ino := i_ino ino; i_mode := i_mode ino; i_nlink := i_nlink ino;
     i_size := i_size ino; i_blocks := i_blocks ino; i_data := i_data ino;
     i_flags := i_flags ino; i_dtime := i_dtime ino;
     i_block_group := i_block_group ino; i_state := i_state ino;
     i_rdev := i_rdev ino; i_op := i_op ino; i_mapping := m;
     i_bad := i_bad ino |}.
Definition set_i_dtime (ino : inode) (t : Z) : inode :=
  {| i_ino := i_ino ino; i_mode := i_mode ino; i_nlink := i_nlink ino;
     i_size := i_size ino; i_blocks := i_blocks ino; i_data := i_data ino;
     i_flags := i_flags ino; i_dtime := t;
     i_block_group := i_block_group ino; i_state := i_state ino;
     i_rdev := i_rdev ino; i_op := i_op ino; i_mapping := i_mapping ino;
     i_bad := i_bad ino |}.
Definition set_i_state (ino : inode) (st : Z) : inode :=
  {| i_ino := i_ino ino; i_mode := i_mode ino; i_nlink := i_nlink ino;
     i_size := i_size ino; i_blocks := i_blocks ino; i_data := i_data ino;
     i_flags := i_flags ino; i_dtime := i_dtime ino;
     i_block_group := i_block_group ino; i_state := st;
     i_rdev := i_rdev ino; i_op := i_op ino; i_mapping := i_mapping ino;
     i_bad := i_bad ino |}.

Definition inode_inc_link_count (ino : inode) : inode :=
  set_i_nlink ino (u32 (i_nlink ino + 1)).
Definition inode_dec_link_count (ino : inode) : inode :=
  set_i_nlink ino (u32 (i_nlink ino - 1)).

(* ================================================================= *)
(** ** balloc.c: the block allocator *)

Definition test_bit_le (nr : Z) (bm : Z) : bool := Z.testbit bm nr.

(** First zero bit at or after [i], looking at [fuel] positions. *)
Fixpoint find_zero_from (bm : Z) (fuel : nat) (i : Z) : Z :=
  match fuel with
  | O => i
  | S k => if Z.testbit bm i then find_zero_from bm k (i + 1) else i
  end.

(** The kernel's [find_next_zero_bit_le (addr, size, offset)]: the first zero
    bit in [offset, size), or [size]. *)
Definition find_next_zero_bit_le (bm size offset : Z) : Z :=
  if size <=? offset then size
  else find_zero_from bm (Z.to_nat (size - offset)) offset.

(** Atomic test-and-set and test-and-clear: the old bit and the new bitmap. *)
Definition ext2_set_bit_atomic (nr : Z) (bm : Z) : bool * Z :=
  (Z.testbit bm nr, Z.setbit bm nr).
Definition ext2_clear_bit_atomic (nr : Z) (bm : Z) : bool * Z :=
  (Z.testbit bm nr, Z.clearbit bm nr).

(** The macro [ext2_in_range (b, first, len)], in [unsigned long]. *)
Definition ext2_in_range (b first len : Z) : bool :=
  (first <=? b) && (b <=? u64 (first + len - 1)).

(** Modelled from the spec: the two helpers of ext2.h that bound a group.
    Bit [k] of the bitmap of group [g] stands for block
    [first_block_of_group + k]; the last group ends with the device. *)
Definition ext2_group_first_block_no (sbi : ext2_sb_info) (g : Z) : Z :=
  g * s_blocks_per_group sbi + s_first_data_block (s_es sbi).
Definition ext2_group_last_block_no (sbi : ext2_sb_info) (g : Z) : Z :=
  if g =? s_groups_count sbi - 1
  then s_blocks_count (s_es sbi) - 1
  else ext2_group_first_block_no sbi g + (s_blocks_per_group sbi - 1).

(** [ext2_get_group_desc]: the descriptor of [block_group] (an
    [unsigned int]), or NULL with an error report. *)
Definition ext2_get_group_desc (fs : ext2_fs) (block_group : Z)
  : option ext2_group_desc * ext2_fs :=
  let block_group := u32 block_group in
  if s_groups_count (fs_sbi fs) <=? block_group
  then (None, ext2_error fs "block_group >= groups_count")
  else match group_at fs block_group with
       | None => (None, ext2_error fs "Group descriptor not loaded")
       | Some grp => (Some (g_desc grp), fs)
       end.

Definition ext2_block_bitmap_valid (fs : ext2_fs) (desc : ext2_group_desc)
    (block_group : Z) (bm : Z) : bool * ext2_fs :=
  let group_first_block := ext2_group_first_block_no (fs_sbi fs) block_group in
  let itb := s_itb_per_group (fs_sbi fs) in
  let err := ext2_error fs "Invalid block bitmap" in
  let offset := s32 (bg_block_bitmap desc - group_first_block) in
  if negb (test_bit_le offset bm) then (false, err)
  else
    let offset := s32 (bg_inode_bitmap desc - group_first_block) in
    if negb (test_bit_le offset bm) then (false, err)
    else
      let offset := s32 (bg_inode_table desc - group_first_block) in
      let next_zero_bit :=
        s32 (find_next_zero_bit_le bm (offset + itb) offset) in
      if next_zero_bit <? offset + itb then (false, err)
      else (true, fs).

(** [ext2_read_block_bitmap]: the bitmap buffer of the group, or NULL.  A
    buffer that is up to date is returned at once; otherwise it is read, and
    the source returns the buffer also when that read fails ([ret < 0]);
    after a successful read the bitmap is validated. *)
Definition ext2_read_block_bitmap (fs : ext2_fs) (block_group : Z)
  : option Z * ext2_fs :=
  match ext2_get_group_desc fs block_group with
  | (None, fs) => (None, fs)
  | (Some desc, fs) =>
      match group_at fs (u32 block_group) with
      | None => (None, fs)
      | Some grp =>
          if g_bb_uptodate grp then (Some (g_block_bitmap grp), fs)
          else if negb (sb_bread fs (bg_block_bitmap desc))
          then (Some (g_block_bitmap grp), fs)
          else
            let fs :=
              update_group fs (u32 block_group)
                {| g_desc := g_desc grp;
                   g_block_bitmap := g_block_bitmap grp;
                   g_bb_uptodate := true;
                   g_inode_bitmap := g_inode_bitmap grp |} in
            match ext2_block_bitmap_valid fs desc (u32 block_group)
                    (g_block_bitmap grp) with
            | (false, fs) =>
                (None, ext2_error fs "Block bitmap is not valid")
            | (true, fs) => (Some (g_block_bitmap grp), fs)
            end
      end
  end.

Definition set_block_bitmap (fs : ext2_fs) (g : Z) (bm : Z) : ext2_fs :=
  match group_at fs g with
  | None => fs
  | Some grp =>
      update_group fs g
        {| g_desc := g_desc grp; g_block_bitmap := bm;
           g_bb_uptodate := g_bb_uptodate grp;
           g_inode_bitmap := g_inode_bitmap grp |}
  end.

Definition set_desc (fs : ext2_fs) (g : Z) (d : ext2_group_desc) : ext2_fs :=
  match group_at fs g with
  | None => fs
  | Some grp =>
      update_group fs g
        {| g_desc := d; g_block_bitmap := g_block_bitmap grp;
           g_bb_uptodate := g_bb_uptodate grp;
           g_inode_bitmap := g_inode_bitmap grp |}
  end.

(** [group_update_free_blocks]: add the [int] [count] to the 16-bit counter
    of the descriptor. *)
Definition group_update_free_blocks (fs : ext2_fs) (group_no : Z) (count : Z)
  : ext2_fs :=
  if count =? 0 then fs
  else match group_at fs group_no with
       | None => fs
       | Some grp =>
           let desc := g_desc grp in
           set_desc fs group_no
             {| bg_block_bitmap := bg_block_bitmap desc;
                bg_inode_bitmap := bg_inode_bitmap desc;
                bg_inode_table := bg_inode_table desc;
                bg_free_blocks_count :=
                  u16 (bg_free_blocks_count desc + count);
                bg_free_inodes_count := bg_free_inodes_count desc;
                bg_used_dirs_count := bg_used_dirs_count desc |}
       end.

(** [count] arrives as an [unsigned int]; block numbers are
    [unsigned long]. *)
Definition ext2_data_blocks_valid (sbi : ext2_sb_info) (start_blk count : Z)
  : bool :=
  let count := u32 count in
  let end_blk := u64 (start_blk + count - 1) in
  if end_blk <? start_blk then false
  else if start_blk <=? s_first_data_block (s_es sbi) then false
  else if s_blocks_count (s_es sbi) <=? end_blk then false
  else if (start_blk <=? s_sb_block sbi) && (s_sb_block sbi <=? end_blk)
  then false
  else true.

Definition ext2_data_blocks_valid_bg (desc : ext2_group_desc)
    (sbi : ext2_sb_info) (start_blk count : Z) : bool :=
  let count := u32 count in
  let end_blk := u64 (start_blk + count - 1) in
  if end_blk <? start_blk then false
  else if ext2_in_range (bg_block_bitmap desc) start_blk count then false
  else if ext2_in_range (bg_inode_bitmap desc) start_blk count then false
  else if ext2_in_range start_blk (bg_inode_table desc) (s_itb_per_group sbi)
  then false
  else if ext2_in_range end_blk (bg_inode_table desc) (s_itb_per_group sbi)
  then false
  else true.

(** The clearing loop of [ext2_free_blocks]: bits [bit + i] for
    [i = done .. done + todo - 1]; an already clear bit is reported and
    the loop goes on.  The bitmap of the model has no end, where the buffer
    of the source has [8 * blocksize] bits and the loop does not stop at the
    last bit of the group: what a run that goes past the end of its group
    does to the memory behind the buffer is not modelled, and a statement
    about the bits that a call clears keeps the run within its group. *)
Fixpoint free_bits (todo : nat) (bit i : Z) (bm : Z) (freed : Z) (fs : ext2_fs)
  : Z * Z * ext2_fs :=
  match todo with
  | O => (bm, freed, fs)
  | S k =>
      let '(old, bm') := ext2_clear_bit_atomic (bit + i) bm in
      if old then free_bits k bit (i + 1) bm' (u32 (freed + 1)) fs
      else free_bits k bit (i + 1) bm' freed
             (ext2_error fs "bit already cleared for block")
  end.

(** [ext2_free_blocks (inode, block, count)]. *)
Definition ext2_free_blocks (fs : ext2_fs) (ino : inode) (block count : Z)
  : ext2_fs * inode :=
  let sbi := fs_sbi fs in
  let fdb := s_first_data_block (s_es sbi) in
  if negb (ext2_data_blocks_valid sbi block count)
  then (ext2_error fs "Freeing invalid data blocks", ino)
  else
    let block_group := u64 (block - fdb) / s_blocks_per_group sbi in
    let bit := u64 (block - fdb) mod s_blocks_per_group sbi in
    match ext2_read_block_bitmap fs block_group with
    | (None, fs) => (fs, ino)
    | (Some bm, fs) =>
        match ext2_get_group_desc fs block_group with
        | (None, fs) => (fs, ino)
        | (Some desc, fs) =>
            if negb (ext2_data_blocks_valid_bg desc sbi block count)
            then (ext2_error fs "Freeing blocks in system zones", ino)
            else
              let '(bm', freed, fs) :=
                free_bits (Z.to_nat count) bit 0 bm 0 fs in
              let fs := set_block_bitmap fs (u32 block_group) bm' in
              let fs :=
                group_update_free_blocks fs (u32 block_group) (s32 freed) in
              if freed =? 0 then (fs, ino)
              else
                (percpu_counter_add_freeblocks fs freed,
                 set_i_blocks ino
                   (u64 (i_blocks ino
                         - u64 (freed * s_blocksize sbi) / 512)))
        end
    end.

(** The allocation loop of [ext2_allocate_in_bg]: test-and-set consecutive
    bits from [first_free_bit + num] while fewer than [count] are taken, the
    group is not exhausted and the bit was clear. *)
Fixpoint alloc_run (fuel : nat) (bm first_free_bit num count nblocks : Z)
  : Z * Z :=
  match fuel with
  | O => (bm, num)
  | S k =>
      if (num <? count) && (first_free_bit + num <? nblocks) then
        let '(old, bm') := ext2_set_bit_atomic (first_free_bit + num) bm in
        if old then (bm', num)
        else alloc_run k bm' first_free_bit (num + 1) count nblocks
      else (bm, num)
  end.

(** [ext2_allocate_in_bg]: the group-relative first bit (or -1), the new
    bitmap and the new [*count]. *)
Definition ext2_allocate_in_bg (sbi : ext2_sb_info) (group : Z) (bm : Z)
    (count : Z) : Z * Z * Z :=
  let group_first_block := ext2_group_first_block_no sbi group in
  let group_last_block := ext2_group_last_block_no sbi group in
  let nblocks := s32 (group_last_block - group_first_block + 1) in
  let first_free_bit := s32 (find_next_zero_bit_le bm nblocks 0) in
  if nblocks <=? first_free_bit then (-1, bm, count)
  else
    let '(bm', num) :=
      alloc_run (Z.to_nat nblocks) bm first_free_bit 0 count nblocks in
    if num =? 0 then (-1, bm', count)
    else (first_free_bit, bm', num).

(** The group loop of [ext2_new_blocks]: [todo] iterations remain, the
    candidate is [group_no]. *)
Fixpoint new_blocks_scan (todo : nat) (fs : ext2_fs) (group_no : Z)
    (count : Z) : result (Z * Z) * ext2_fs :=
  match todo with
  | O => (Err ENOSPC, fs)
  | S k =>
      let ngroups := s_groups_count (fs_sbi fs) in
      let next := u32 (group_no + 1) mod ngroups in
      match ext2_get_group_desc fs group_no with
      | (None, fs) => (Err EIO, fs)
      | (Some gdp, fs) =>
          if u16 (bg_free_blocks_count gdp) =? 0
          then new_blocks_scan k fs next count
          else
            match ext2_read_block_bitmap fs group_no with
            | (None, fs) => (Err EIO, fs)
            | (Some bm, fs) =>
                let '(grp_alloc_blk, bm', count') :=
                  ext2_allocate_in_bg (fs_sbi fs) group_no bm count in
                let fs := set_block_bitmap fs group_no bm' in
                if grp_alloc_blk <? 0
                then new_blocks_scan k fs next count'
                else
                  let ret_block :=
                    u64 (grp_alloc_blk
                         + ext2_group_first_block_no (fs_sbi fs) group_no) in
                  let fs :=
                    group_update_free_blocks fs group_no
                      (s32 (u64 (- count'))) in
                  let fs := percpu_counter_add_freeblocks fs (- count') in
                  (Ok (ret_block, count'), fs)
            end
      end
  end.

(** [ext2_new_blocks (inode, countp, errp)]: the first allocated block and
    the achieved count, or the error left in [*errp]. *)
Definition ext2_new_blocks (fs : ext2_fs) (ino : inode) (count : Z)
  : result (Z * Z) * ext2_fs :=
  let ngroups := s_groups_count (fs_sbi fs) in
  let free_blocks :=
    u16 (percpu_counter_read_positive (s_freeblocks_counter fs)) in
  if free_blocks =? 0 then (Err ENOSPC, fs)
  else new_blocks_scan (Z.to_nat ngroups) fs (u32 (i_block_group ino)) count.

(* ================================================================= *)
(** ** ialloc.c: the inode allocator *)

(** [read_inode_bitmap]: the inode bitmap of the group, read with
    [sb_bread]. *)
Definition read_inode_bitmap (fs : ext2_fs) (block_group : Z)
  : option Z * ext2_fs :=
  match ext2_get_group_desc fs block_group with
  | (None, fs) => (None, fs)
  | (Some desc, fs) =>
      if sb_bread fs (bg_inode_bitmap desc)
      then match group_at fs (u32 block_group) with
           | Some grp => (Some (g_inode_bitmap grp), fs)
           | None => (None, fs)
           end
      else (None, ext2_error fs "Cannot read inode bitmap")
  end.

Definition set_inode_bitmap (fs : ext2_fs) (g : Z) (bm : Z) : ext2_fs :=
  match group_at fs g with
  | None => fs
  | Some grp =>
      update_group fs g
        {| g_desc := g_desc grp; g_block_bitmap := g_block_bitmap grp;
           g_bb_uptodate := g_bb_uptodate grp;
           g_inode_bitmap := bm |}
  end.

(** [le16_add_cpu] on the two inode counters of a descriptor. *)
Definition desc_add_inodes (d : ext2_group_desc) (dfree ddirs : Z)
  : ext2_group_desc :=
  {| bg_block_bitmap := bg_block_bitmap d;
     bg_inode_bitmap := bg_inode_bitmap d;
     bg_inode_table := bg_inode_table d;
     bg_free_blocks_count := bg_free_blocks_count d;
     bg_free_inodes_count := u16 (bg_free_inodes_count d + dfree);
     bg_used_dirs_count := u16 (bg_used_dirs_count d + ddirs) |}.

(** [ext2_release_inode (sb, group, dir)]. *)
Definition ext2_release_inode (fs : ext2_fs) (group : Z) (dir : bool)
  : ext2_fs :=
  match ext2_get_group_desc fs group with
  | (None, fs) => ext2_error fs "can't get descriptor for group"
  | (Some desc, fs) =>
      let fs :=
        set_desc fs (u32 group)
          (desc_add_inodes desc 1 (if dir then -1 else 0)) in
      let fs := percpu_counter_add_freeinodes fs 1 in
      if dir then percpu_counter_add_dirs fs (-1) else fs
  end.

(** [ext2_free_inode (inode)]. *)
Definition ext2_free_inode (fs : ext2_fs) (ino : inode) : ext2_fs :=
  let sbi := fs_sbi fs in
  let n := i_ino ino in
  if (n <? s_first_ino sbi) || (s_inodes_count (s_es sbi) <? n)
  then ext2_error fs "reserved or nonexistent inode"
  else
    let block_group := u64 (n - 1) / s_inodes_per_group sbi in
    let bit := u64 (n - 1) mod s_inodes_per_group sbi in
    match read_inode_bitmap fs block_group with
    | (None, fs) => fs
    | (Some bm, fs) =>
        let '(old, bm') := ext2_clear_bit_atomic bit bm in
        let fs := set_inode_bitmap fs (u32 block_group) bm' in
        if old
        then ext2_release_inode fs (s32 block_group) (S_ISDIR (i_mode ino))
        else ext2_error fs "bit already cleared for inode"
    end.

Definition desc_has_inodes_and_blocks (d : option ext2_group_desc) : bool :=
  match d with
  | Some desc =>
      negb (bg_free_inodes_count desc =? 0)
      && negb (bg_free_blocks_count desc =? 0)
  | None => false
  end.

Definition desc_has_inodes (d : option ext2_group_desc) : bool :=
  match d with
  | Some desc => negb (bg_free_inodes_count desc =? 0)
  | None => false
  end.

(** The quadratic-hash loop of [find_group]: [i] doubles while below
    [ngroups]. *)
Fixpoint find_group_hash (fuel : nat) (fs : ext2_fs) (group i ngroups : Z)
  : option Z * ext2_fs :=
  match fuel with
  | O => (None, fs)
  | S k =>
      if i <? ngroups then
        let group := s32 (group + i) in
        let group := if ngroups <=? group then s32 (group - ngroups) else group in
        let '(desc, fs) := ext2_get_group_desc fs group in
        if desc_has_inodes_and_blocks desc then (Some group, fs)
        else find_group_hash k fs group (s32 (Z.shiftl i 1)) ngroups
      else (None, fs)
  end.

(** The linear loop of [find_group]; [(group+1) % ngroups] is a remainder
    of two [int]s, which truncates toward zero. *)
Fixpoint find_group_linear (todo : nat) (fs : ext2_fs) (group ngroups : Z)
  : Z * ext2_fs :=
  match todo with
  | O => (-1, fs)
  | S k =>
      let group := Z.rem (s32 (group + 1)) ngroups in
      let '(desc, fs) := ext2_get_group_desc fs group in
      if desc_has_inodes desc then (group, fs)
      else find_group_linear k fs group ngroups
  end.

(** [find_group (sb, parent)]: the group for a new inode, or -1. *)
Definition find_group (fs : ext2_fs) (parent : inode) : Z * ext2_fs :=
  let parent_group := s32 (i_block_group parent) in
  let ngroups := s32 (s_groups_count (fs_sbi fs)) in
  let group := parent_group in
  let '(desc, fs) := ext2_get_group_desc fs group in
  if desc_has_inodes_and_blocks desc then (group, fs)
  else
    let group := s32 (u64 (group + i_ino parent) mod u64 ngroups) in
    match find_group_hash 32 fs group 1 ngroups with
    | (Some g, fs) => (g, fs)
    | (None, fs) =>
        find_group_linear (Z.to_nat ngroups) fs parent_group ngroups
    end.

(** The search inside one group, [repeat_in_this_group]: first zero bit at
    or after [ino], then test-and-set; a lost race moves on. *)
Fixpoint new_inode_in_group (fuel : nat) (bm : Z) (inodes_pg ino : Z)
  : option Z * Z :=
  match fuel with
  | O => (None, bm)
  | S k =>
      let ino := find_next_zero_bit_le bm inodes_pg ino in
      if inodes_pg <=? ino then (None, bm)
      else
        let '(old, bm') := ext2_set_bit_atomic ino bm in
        if old then
          if inodes_pg <=? ino + 1 then (None, bm')
          else new_inode_in_group k bm' inodes_pg (ino + 1)
        else (Some ino, bm')
  end.

(** The group loop of [ext2_new_inode]: the group and bit found, or an
    error. *)
Fixpoint new_inode_scan (todo : nat) (fs : ext2_fs) (group : Z)
  : result (Z * Z) * ext2_fs :=
  match todo with
  | O => (Err ENOSPC, fs)
  | S k =>
      let ngroups := s_groups_count (fs_sbi fs) in
      let inodes_pg := s_inodes_per_group (fs_sbi fs) in
      let next := s32 (u64 (group + 1) mod ngroups) in
      match ext2_get_group_desc fs group with
      | (None, fs) => new_inode_scan k fs next
      | (Some gdp, fs) =>
          match read_inode_bitmap fs group with
          | (None, fs) => (Err EIO, fs)
          | (Some bm, fs) =>
              match new_inode_in_group (S (Z.to_nat inodes_pg)) bm
                      inodes_pg 0 with
              | (None, bm') =>
                  new_inode_scan k (set_inode_bitmap fs (u32 group) bm') next
              | (Some bit, bm') =>
                  (Ok (group, bit), set_inode_bitmap fs (u32 group) bm')
              end
          end
      end
  end.

Definition make_bad_inode (ino : inode) : inode :=
  {| i_ino := i_ino ino; i_mode := S_IFREG; i_nlink := i_nlink ino;
     i_size := i_size ino; i_blocks := i_blocks ino; i_data := i_data ino;
     i_flags := i_flags ino; i_dtime := i_dtime ino;
     i_block_group := i_block_group ino; i_state := i_state ino;
     i_rdev := i_rdev ino; i_op := OP_NONE; i_mapping := i_mapping ino;
     i_bad := true |}.

(** The inode that the VFS's [new_inode] hands out: one link, nothing
    else. *)
Definition new_inode : inode :=
  {| i_ino := 0; i_mode := 0; i_nlink := 1; i_size := 0; i_blocks := 0;
     i_data := repeat 0 (Z.to_nat EXT2_N_BLOCKS); i_flags := 0; i_dtime := 0;
     i_block_group := 0; i_state := 0; i_rdev := 0; i_op := OP_NONE;
     i_mapping := []; i_bad := false |}.

(** [ext2_new_inode (dir, mode)].  The VFS allocation [new_inode] and
    [insert_inode_locked] are taken to succeed. *)
Definition ext2_new_inode (fs : ext2_fs) (dir : inode) (mode : Z)
  : result inode * ext2_fs :=
  let sbi := fs_sbi fs in
  let inodes_pg := s_inodes_per_group sbi in
  let '(group, fs) := find_group fs dir in
  if group =? -1 then (Err ENOSPC, fs)
  else
    match new_inode_scan (Z.to_nat (s_groups_count sbi)) fs group with
    | (Err e, fs) => (Err e, fs)
    | (Ok (group, bit), fs) =>
        let ino := u64 (bit + u64 (group * inodes_pg) + 1) in
        if (ino <? s_first_ino sbi) || (s_inodes_count (s_es sbi) <? ino)
        then (Err EIO, ext2_error fs "reserved inode or inode > inodes count")
        else
          let fs := percpu_counter_add_freeinodes fs (-1) in
          let fs :=
            if S_ISDIR mode then percpu_counter_add_dirs fs 1 else fs in
          let fs :=
            match group_at fs (u32 group) with
            | Some grp =>
                set_desc fs (u32 group)
                  (desc_add_inodes (g_desc grp) (-1)
                     (if S_ISDIR mode then 1 else 0))
            | None => fs
            end in
          (Ok {| i_ino := ino; i_mode := mode; i_nlink := 1; i_size := 0;
                 i_blocks := 0;
                 i_data := repeat 0 (Z.to_nat EXT2_N_BLOCKS);
                 i_flags := i_flags dir; i_dtime := 0;
                 i_block_group := u32 group;
                 i_state := EXT2_STATE_NEW; i_rdev := 0; i_op := OP_NONE;
                 i_mapping := []; i_bad := false |}, fs)
    end.

(* ================================================================= *)
(** ** inode.c: block mapping, truncation, inode records *)

Definition ext2_inode_is_fast_symlink (ino : inode) : bool :=
  S_ISLNK (i_mode ino) && (i_blocks ino =? 0).

(** Slot [n] of a word array. *)
Definition word_at (ws : list Z) (n : Z) : Z :=
  default 0 (ws !! Z.to_nat n).

(** What [ext2_get_blocks] hands back: the return value, [*bno], [*new]. *)
Record get_blocks_ret : Type := {
  gb_ret : Z;
  gb_bno : Z;
  gb_new : bool;
}.

(** [ext2_get_blocks (inode, iblock, maxblocks, bno, new, create)] on a
    host of byte order [be]. *)
Definition ext2_get_blocks (be : bool) (fs : ext2_fs) (ino : inode)
    (iblock maxblocks : Z) (create : bool)
  : result get_blocks_ret * ext2_fs * inode :=
  if EXT2_NDIR_BLOCKS <=? iblock then (Err EIO, fs, ino)
  else
    let block_no := le32_to_cpu be (word_at (i_data ino) iblock) in
    if 0 <? block_no
    then (Ok {| gb_ret := 1; gb_bno := block_no; gb_new := false |}, fs, ino)
    else if negb create
    then (Ok {| gb_ret := 0; gb_bno := 0; gb_new := false |}, fs, ino)
    else
      match ext2_new_blocks fs ino 1 with
      | (Err e, fs) => (Err e, fs, ino)
      | (Ok (resb, count), fs) =>
          let ino :=
            set_i_data ino (<[Z.to_nat iblock := u32 resb]> (i_data ino)) in
          let ino :=
            set_i_blocks ino
              (u64 (i_blocks ino
                    + u64 (count * s_blocksize (fs_sbi fs)) / 512)) in
          (Ok {| gb_ret := s32 count; gb_bno := u32 resb; gb_new := true |},
           fs, ino)
      end.

(** [ext2_get_block]: zero on success, with the mapping of the buffer
    ([b_blocknr], [b_size], [BH_New]) when a block was found or made. *)
Definition ext2_get_block (be : bool) (fs : ext2_fs) (ino : inode)
    (iblock b_size : Z) (create : bool)
  : result (option (Z * Z * bool)) * ext2_fs * inode :=
  let blkbits := Z.log2 (s_blocksize (fs_sbi fs)) in
  let max_blocks := u32 (Z.shiftr b_size blkbits) in
  match ext2_get_blocks be fs ino iblock max_blocks create with
  | (Err e, fs, ino) => (Err e, fs, ino)
  | (Ok r, fs, ino) =>
      if gb_ret r <=? 0 then (Ok None, fs, ino)
      else (Ok (Some (gb_bno r, Z.shiftl (gb_ret r) blkbits, gb_new r)),
            fs, ino)
  end.

(** The loop of [ext2_free_data] over the slots [p .. q-1] of [i_data]:
    [todo] slots remain, runs of contiguous numbers are gathered in
    [block_to_free] and [count]. *)
Fixpoint free_data_loop (be : bool) (todo : nat) (p : Z) (fs : ext2_fs)
    (ino : inode) (block_to_free count : Z) : ext2_fs * inode * Z * Z :=
  match todo with
  | O => (fs, ino, block_to_free, count)
  | S k =>
      let nr := le32_to_cpu be (word_at (i_data ino) p) in
      if nr =? 0
      then free_data_loop be k (p + 1) fs ino block_to_free count
      else
        let ino := set_i_data ino (<[Z.to_nat p := 0]> (i_data ino)) in
        if count =? 0
        then free_data_loop be k (p + 1) fs ino nr 1
        else if block_to_free =? u64 (nr - count)
        then free_data_loop be k (p + 1) fs ino block_to_free (count + 1)
        else
          let '(fs, ino) := ext2_free_blocks fs ino block_to_free count in
          free_data_loop be k (p + 1) fs ino nr 1
  end.

(** [ext2_free_data (inode, p, q)], with [p] and [q] as slot indexes. *)
Definition ext2_free_data (be : bool) (fs : ext2_fs) (ino : inode) (p q : Z)
  : ext2_fs * inode :=
  let '(fs, ino, block_to_free, count) :=
    free_data_loop be (Z.to_nat (q - p)) p fs ino 0 0 in
  if 0 <? count then ext2_free_blocks fs ino block_to_free count
  else (fs, ino).

(** [ext2_truncate_blocks (inode, offset)]. *)
Definition ext2_truncate_blocks (be : bool) (fs : ext2_fs) (ino : inode)
    (offset : Z) : ext2_fs * inode :=
  if negb (S_ISREG (i_mode ino) || S_ISDIR (i_mode ino)
           || S_ISLNK (i_mode ino))
  then (fs, ino)
  else if ext2_inode_is_fast_symlink ino then (fs, ino)
  else
    let blocksize := u32 (s_blocksize (fs_sbi fs)) in
    let iblock :=
      Z.shiftr (offset + blocksize - 1) (Z.log2 (s_blocksize (fs_sbi fs))) in
    ext2_free_data be fs ino iblock EXT2_NDIR_BLOCKS.

(** Where [ext2_get_inode] finds an inode record. *)
Record inode_loc : Type := {
  loc_group : Z;
  loc_block : Z;
  loc_offset : Z;
}.

(** [ext2_get_inode (sb, ino, p)]: the place of the record of [ino] in the
    inode table, with the block read through the buffer cache. *)
Definition ext2_get_inode (fs : ext2_fs) (ino : Z)
  : result inode_loc * ext2_fs :=
  let sbi := fs_sbi fs in
  let inodes_pg := s_inodes_per_group sbi in
  let inode_sz := s_inode_size sbi in
  let blocksize := s_blocksize sbi in
  if (negb (ino =? EXT2_ROOT_INO) && (ino <? s_first_ino sbi))
     || (s_inodes_count (s_es sbi) <? ino)
  then (Err EINVAL, ext2_error fs "bad inode number")
  else
    let block_group := u64 (ino - 1) / inodes_pg in
    match ext2_get_group_desc fs block_group with
    | (None, fs) => (Err EINVAL, ext2_error fs "bad inode number")
    | (Some gdp, fs) =>
        let offset := u64 (u64 (ino - 1) mod inodes_pg * inode_sz) in
        let block := u64 (bg_inode_table gdp + offset / blocksize) in
        let offset := offset mod blocksize in
        if sb_bread fs block
        then (Ok {| loc_group := block_group; loc_block := block;
                    loc_offset := offset |}, fs)
        else (Err EIO, ext2_error fs "unable to read inode block")
    end.

Definition zero_ext2_inode : ext2_inode :=
  {| d_mode := 0; d_links_count := 0; d_size := 0; d_blocks := 0;
     d_dtime := 0; d_flags := 0;
     i_block := repeat 0 (Z.to_nat EXT2_N_BLOCKS) |}.

(** The record stored at a place of the inode table. *)
Fixpoint itable_get (t : list (Z * Z * ext2_inode)) (block offset : Z)
  : ext2_inode :=
  match t with
  | [] => zero_ext2_inode
  | (b, o, r) :: t' =>
      if (b =? block) && (o =? offset) then r else itable_get t' block offset
  end.

Definition itable_put (t : list (Z * Z * ext2_inode)) (block offset : Z)
    (r : ext2_inode) : list (Z * Z * ext2_inode) :=
  (block, offset, r) :: t.

(** Device numbers, as the kernel encodes them. *)
Definition MAJOR (dev : Z) : Z := Z.shiftr dev 20.
Definition MINOR (dev : Z) : Z := Z.land dev (2 ^ 20 - 1).

(** [ext2_iget (sb, ino)] for an inode that is not cached.  The source
    declares [ei] without a value and gives it one ([ei = EXT2_I(inode)])
    only after the fields of the VFS inode are filled; the first statement
    that fills a field of [ei] ([ei->i_dtime = ...]) comes before that and
    stores through the pointer as it was declared.  Every call that has read
    its record reaches this store, so the model has no value for it:
    [None] stands for the store through the unset pointer, [Some] for the
    return with the error of [ext2_get_inode]. *)
Definition ext2_iget (be : bool) (fs : ext2_fs) (ino : Z)
  : option (result inode * ext2_fs) :=
  match ext2_get_inode fs ino with
  | (Err e, fs) => Some (Err e, fs)
  | (Ok loc, fs) => None
  end.

Definition old_valid_dev (dev : Z) : bool :=
  (MAJOR dev <? 256) && (MINOR dev <? 256).
Definition old_encode_dev (dev : Z) : Z :=
  Z.lor (Z.shiftl (MAJOR dev) 8) (MINOR dev).
Definition new_encode_dev (dev : Z) : Z :=
  Z.lor (Z.lor (Z.land (MINOR dev) 255) (Z.shiftl (MAJOR dev) 8))
        (Z.shiftl (Z.land (MINOR dev) (Z.lnot 255)) 12).

(** [ext2_do_write_inode (inode, do_sync)]: zero or [-EIO], the device with
    the record written, the inode with [EXT2_STATE_NEW] cleared. *)
Definition ext2_do_write_inode (be : bool) (fs : ext2_fs) (ino : inode)
  : result unit * ext2_fs * inode :=
  match ext2_get_inode fs (i_ino ino) with
  | (Err _, fs) => (Err EIO, fs, ino)
  | (Ok loc, fs) =>
      let raw := itable_get (fs_itable fs) (loc_block loc) (loc_offset loc) in
      let raw :=
        if Z.testbit (i_state ino) 0 then zero_ext2_inode else raw in
      let blocks :=
        if S_ISCHR (i_mode ino) || S_ISBLK (i_mode ino) then
          if old_valid_dev (i_rdev ino) then
            <[1%nat := 0]>
              (<[0%nat := cpu_to_le32 be (old_encode_dev (i_rdev ino))]>
                 (i_block raw))
          else
            <[2%nat := 0]>
              (<[1%nat := cpu_to_le32 be (new_encode_dev (i_rdev ino))]>
                 (<[0%nat := 0]> (i_block raw)))
        else firstn (Z.to_nat EXT2_N_BLOCKS) (i_data ino) in
      let raw :=
        {| d_mode := u16 (i_mode ino);
           d_links_count := u16 (i_nlink ino);
           d_size := u32 (i_size ino);
           d_blocks := u32 (i_blocks ino);
           d_dtime := u32 (i_dtime ino);
           d_flags := u32 (i_flags ino);
           i_block := blocks |} in
      (Ok tt,
       set_itable fs
         (itable_put (fs_itable fs) (loc_block loc) (loc_offset loc) raw),
       set_i_state ino (Z.land (i_state ino) (Z.lnot EXT2_STATE_NEW)))
  end.

(** [ext2_evict_inode (inode)], called when the last reference goes;
    [now] is the time stamped into [i_dtime]. *)
Definition ext2_evict_inode (be : bool) (fs : ext2_fs) (ino : inode) (now : Z)
  : ext2_fs * inode :=
  let want_delete := (i_nlink ino =? 0) && negb (i_bad ino) in
  let ino := set_i_mapping ino [] in
  let '(fs, ino) :=
    if want_delete then
      let ino := set_i_dtime ino (u32 now) in
      let '(_, fs, ino) := ext2_do_write_inode be fs ino in
      let ino := set_i_size ino 0 in
      if negb (i_blocks ino =? 0) then ext2_truncate_blocks be fs ino 0
      else (fs, ino)
    else (fs, ino) in
  if want_delete then (ext2_free_inode fs ino, ino) else (fs, ino).

(* ================================================================= *)
(** ** dir.c: directory records *)

(** Bytes of a page; a byte outside the page reads as zero. *)
Definition byte_at (d : list Z) (off : Z) : Z :=
  if off <? 0 then 0 else u8 (default 0 (d !! Z.to_nat off)).
Definition le16_at (d : list Z) (off : Z) : Z :=
  byte_at d off + 256 * byte_at d (off + 1).
Definition le32_at (d : list Z) (off : Z) : Z :=
  byte_at d off + 256 * byte_at d (off + 1)
  + 65536 * byte_at d (off + 2) + 16777216 * byte_at d (off + 3).

(** Store bytes at an offset; a store outside the page is dropped. *)
Fixpoint write_bytes (d : list Z) (off : nat) (bs : list Z) : list Z :=
  match bs with
  | [] => d
  | b :: bs' => write_bytes (<[off := b]> d) (S off) bs'
  end.
Definition put_bytes (d : list Z) (off : Z) (bs : list Z) : list Z :=
  if off <? 0 then d else write_bytes d (Z.to_nat off) bs.
Definition put_u8 (d : list Z) (off v : Z) : list Z :=
  put_bytes d off [u8 v].
Definition put_le16 (d : list Z) (off v : Z) : list Z :=
  put_bytes d off [u8 v; u8 (v / 256)].
Definition put_le32 (d : list Z) (off v : Z) : list Z :=
  put_bytes d off [u8 v; u8 (v / 256); u8 (v / 65536); u8 (v / 16777216)].

(** The fields of the record [ext2_dirent] at offset [de] of a page:
    [inode] (u32), [rec_len] (u16), [name_len], [file_type], [name]. *)
Definition de_inode (d : list Z) (de : Z) : Z := le32_at d de.
Definition de_rec_len (d : list Z) (de : Z) : Z := le16_at d (de + 4).
Definition de_name_len (d : list Z) (de : Z) : Z := byte_at d (de + 6).
Definition de_name_byte (d : list Z) (de k : Z) : Z := byte_at d (de + 8 + k).

(** Modelled from the spec: the canonical record length of ext2.h,
    [round_up_to_4 (8 + n)]. *)
Definition EXT2_DIR_REC_LEN (name_len : Z) : Z :=
  Z.land (name_len + 8 + 3) (Z.lnot 3).

Definition ext2_chunk_size (fs : ext2_fs) : Z := u32 (s_blocksize (fs_sbi fs)).

Definition dir_pages (ino : inode) : Z :=
  Z.shiftr (u64 (i_size ino + PAGE_SIZE - 1)) PAGE_SHIFT.

(** [ext2_last_byte (inode, page_nr)]. *)
Definition ext2_last_byte (ino : inode) (page_nr : Z) : Z :=
  let last_byte := u32 (i_size ino) in
  let last_byte := u32 (last_byte - u64 (Z.shiftl page_nr PAGE_SHIFT)) in
  if PAGE_SIZE <? last_byte then PAGE_SIZE else last_byte.

Definition zero_page : list Z := repeat 0 (Z.to_nat PAGE_SIZE).
Definition zero_folio : folio :=
  {| f_data := zero_page; f_checked := false |}.

(** [read_mapping_folio]: the cached page, an error for a page that cannot
    be read, a page of zeros where nothing is cached. *)
Definition read_mapping_folio (ino : inode) (n : Z) : result folio :=
  if n <? 0 then Err EIO
  else match i_mapping ino !! Z.to_nat n with
       | Some (Some f) => Ok f
       | Some None => Err EIO
       | None => Ok zero_folio
       end.

Definition store_folio (ino : inode) (n : Z) (f : folio) : inode :=
  let m := i_mapping ino in
  let k := Z.to_nat n in
  set_i_mapping ino
    (if (k <? length m)%nat then <[k := Some f]> m
     else m ++ repeat (Some zero_folio) (k - length m) ++ [Some f]).

Inductive check_outcome : Set :=
  | CheckEnd (offs : Z)
  | CheckBad (msg : string).

(** The record loop of [ext2_check_folio]. *)
Fixpoint check_records (fuel : nat) (d : list Z)
    (chunk_size max_inumber limit offs : Z) : check_outcome :=
  match fuel with
  | O => CheckEnd offs
  | S k =>
      if offs <=? u32 (limit - EXT2_DIR_REC_LEN 1) then
        let rec_len := de_rec_len d offs in
        if rec_len <? EXT2_DIR_REC_LEN 1
        then CheckBad "rec_len is smaller than minimal"%string
        else if negb (Z.land rec_len 3 =? 0)
        then CheckBad "unaligned directory entry"%string
        else if rec_len <? EXT2_DIR_REC_LEN (de_name_len d offs)
        then CheckBad "rec_len is too small for name_len"%string
        else if negb (Z.land (Z.lxor (u32 (offs + rec_len - 1)) offs)
                        (u32 (Z.lnot (chunk_size - 1))) =? 0)
        then CheckBad "directory entry across blocks"%string
        else if max_inumber <? de_inode d offs
        then CheckBad "inode out of bounds"%string
        else check_records k d chunk_size max_inumber limit
               (u32 (offs + rec_len))
      else CheckEnd offs
  end.

(** [ext2_check_folio (folio, quiet, kaddr)] for page [n] of [dir]. *)
Definition ext2_check_folio (fs : ext2_fs) (dir : inode) (n : Z)
    (quiet : bool) (d : list Z) : bool * ext2_fs :=
  let chunk_size := ext2_chunk_size fs in
  let max_inumber := s_inodes_count (s_es (fs_sbi fs)) in
  let fail (msg : string) := (false, if quiet then fs else ext2_error fs msg) in
  let records (limit : Z) :=
    match check_records (S (Z.to_nat limit)) d chunk_size max_inumber
            limit 0 with
    | CheckBad msg => fail msg
    | CheckEnd offs =>
        if offs =? limit then (true, fs)
        else fail "entry in directory spans the page boundary"%string
    end in
  if i_size dir <? n * PAGE_SIZE + PAGE_SIZE then
    let limit := Z.land (i_size dir) (PAGE_SIZE - 1) in
    if negb (Z.land limit (chunk_size - 1) =? 0)
    then fail "size of directory is not a multiple of chunk size"%string
    else if limit =? 0 then (true, fs)
    else records limit
  else records PAGE_SIZE.

(** [ext2_get_folio (dir, n, quiet, foliop)]: the bytes of page [n], checked
    on first use. *)
Definition ext2_get_folio (fs : ext2_fs) (dir : inode) (n : Z) (quiet : bool)
  : result (list Z) * ext2_fs * inode :=
  match read_mapping_folio dir n with
  | Err e => (Err e, fs, dir)
  | Ok f =>
      if f_checked f then (Ok (f_data f), fs, dir)
      else
        match ext2_check_folio fs dir n quiet (f_data f) with
        | (false, fs) => (Err EIO, fs, dir)
        | (true, fs) =>
            (Ok (f_data f), fs,
             store_folio dir n {| f_data := f_data f; f_checked := true |})
        end
  end.

(** [memcmp (name, de->name, len) == 0]. *)
Fixpoint name_eq (d : list Z) (de : Z) (name : list Z) (k : Z) : bool :=
  match name with
  | [] => true
  | c :: name' => (u8 c =? de_name_byte d de k) && name_eq d de name' (k + 1)
  end.

(** [ext2_match (len, name, de)]. *)
Definition ext2_match (name : list Z) (d : list Z) (de : Z) : bool :=
  if negb (Z.of_nat (length name) =? de_name_len d de) then false
  else if de_inode d de =? 0 then false
  else name_eq d de name 0.

Definition ext2_next_entry (d : list Z) (p : Z) : Z := p + de_rec_len d p.

Inductive find_outcome : Set :=
  | Found (de : Z)
  | ZeroLength
  | NotInPage.

(** The record loop of [ext2_find_entry] in one page. *)
Fixpoint find_entry_page (fuel : nat) (d : list Z) (name : list Z)
    (limit de : Z) : find_outcome :=
  match fuel with
  | O => NotInPage
  | S k =>
      if de <=? limit then
        if de_rec_len d de =? 0 then ZeroLength
        else if ext2_match name d de then Found de
        else find_entry_page k d name limit (ext2_next_entry d de)
      else NotInPage
  end.

(** The page loop of [ext2_find_entry]: a page that cannot be had is
    skipped.  The limit is the pointer [kaddr + last_byte - 12], an offset
    that is negative where the directory ends within the first twelve bytes
    of the page. *)
Fixpoint find_entry_pages (todo : nat) (fs : ext2_fs) (dir : inode)
    (name : list Z) (i : Z) : result (Z * Z) * ext2_fs * inode :=
  match todo with
  | O => (Err ENOENT, fs, dir)
  | S k =>
      match ext2_get_folio fs dir i false with
      | (Err _, fs, dir) => find_entry_pages k fs dir name (i + 1)
      | (Ok d, fs, dir) =>
          let limit := ext2_last_byte dir i - EXT2_DIR_REC_LEN 1 in
          match find_entry_page (S (length d)) d name limit 0 with
          | Found de => (Ok (i, de), fs, dir)
          | ZeroLength => (Err EIO, fs, dir)
          | NotInPage => find_entry_pages k fs dir name (i + 1)
          end
      end
  end.

(** [ext2_find_entry (dir, child, foliop)]: the page and the offset of the
    record. *)
Definition ext2_find_entry (fs : ext2_fs) (dir : inode) (name : list Z)
  : result (Z * Z) * ext2_fs * inode :=
  let npages := dir_pages dir in
  if npages =? 0 then (Err ENOENT, fs, dir)
  else find_entry_pages (Z.to_nat npages) fs dir name 0.

(** [ext2_dotdot (dir, foliop)]: the record that follows the first one of
    page 0. *)
Definition ext2_dotdot (fs : ext2_fs) (dir : inode)
  : result Z * ext2_fs * inode :=
  match ext2_get_folio fs dir 0 false with
  | (Err e, fs, dir) => (Err e, fs, dir)
  | (Ok d, fs, dir) => (Ok (ext2_next_entry d 0), fs, dir)
  end.

(** [ext2_inode_by_name (dir, child, ino)]: the inode number that the
    record of the name holds. *)
Definition ext2_inode_by_name (fs : ext2_fs) (dir : inode) (name : list Z)
  : result Z * ext2_fs * inode :=
  match ext2_find_entry fs dir name with
  | (Err e, fs, dir) => (Err e, fs, dir)
  | (Ok (n, de), fs, dir) =>
      match read_mapping_folio dir n with
      | Ok f => (Ok (de_inode (f_data f) de), fs, dir)
      | Err e => (Err e, fs, dir)
      end
  end.

(** The kernel's [__block_write_begin] as this filesystem sees it: every
    block of the byte range is asked of [ext2_get_block] with [create]. *)
Fixpoint prepare_blocks (be : bool) (todo : nat) (fs : ext2_fs) (ino : inode)
    (iblock : Z) : result unit * ext2_fs * inode :=
  match todo with
  | O => (Ok tt, fs, ino)
  | S k =>
      match ext2_get_block be fs ino iblock (s_blocksize (fs_sbi fs)) true with
      | (Err e, fs, ino) => (Err e, fs, ino)
      | (Ok _, fs, ino) => prepare_blocks be k fs ino (iblock + 1)
      end
  end.

Definition ext2_prepare_chunk (be : bool) (fs : ext2_fs) (ino : inode)
    (pos len : Z) : result unit * ext2_fs * inode :=
  let bs := s_blocksize (fs_sbi fs) in
  if len <=? 0 then (Ok tt, fs, ino)
  else prepare_blocks be (Z.to_nat ((pos + len - 1) / bs - pos / bs + 1))
         fs ino (pos / bs).

(** [ext2_commit_chunk (folio, pos, len)]: the directory grows to the end
    of the chunk. *)
Definition ext2_commit_chunk (dir : inode) (pos len : Z) : inode :=
  if i_size dir <? pos + len then set_i_size dir (pos + len) else dir.

(** [sync_inode_metadata (inode, 1)] writes the dirty inode through
    [ext2_write_inode]; the write of the pages before it
    ([filemap_write_and_wait]) is taken to succeed. *)
Definition sync_inode_metadata (be : bool) (fs : ext2_fs) (ino : inode)
  : result unit * ext2_fs * inode :=
  ext2_do_write_inode be fs ino.

Inductive add_link_outcome : Type :=
  | GotIt (d : list Z) (de name_len rec_len : Z)
  | ScanErr (e : errno)
  | ZeroLengthEntry
  | NextPage.

(** The record loop of [ext2_add_link] in one page: [kaddr_end] is the last
    offset where a record of [reclen] bytes still fits, [dir_end] the end of
    the directory in this page. *)
Fixpoint add_link_scan (fuel : nat) (d : list Z) (name : list Z)
    (chunk_size reclen kaddr_end dir_end de : Z) : add_link_outcome :=
  match fuel with
  | O => NextPage
  | S k =>
      if de <=? kaddr_end then
        if de =? dir_end then
          let d := put_le16 d (de + 4) chunk_size in
          let d := put_le32 d de 0 in
          GotIt d de 0 (u16 chunk_size)
        else if de_rec_len d de =? 0 then ZeroLengthEntry
        else if ext2_match name d de then ScanErr EEXIST
        else
          let name_len := u16 (EXT2_DIR_REC_LEN (de_name_len d de)) in
          let rec_len := de_rec_len d de in
          if (de_inode d de =? 0) && (reclen <=? rec_len)
          then GotIt d de name_len rec_len
          else if name_len + reclen <=? rec_len
          then GotIt d de name_len rec_len
          else add_link_scan k d name chunk_size reclen kaddr_end dir_end
                 (de + rec_len)
      else NextPage
  end.

(** The part of [ext2_add_link] after [got_it], on page [n]. *)
Definition add_link_got_it (be : bool) (fs : ext2_fs) (dir : inode) (n : Z)
    (name : list Z) (child_ino : Z) (d : list Z) (de name_len rec_len : Z)
  : result unit * ext2_fs * inode :=
  let namelen := Z.of_nat (length name) in
  let pos := n * PAGE_SIZE + de in
  let dir := store_folio dir n {| f_data := d; f_checked := true |} in
  match ext2_prepare_chunk be fs dir pos rec_len with
  | (Err e, fs, dir) => (Err e, fs, dir)
  | (Ok _, fs, dir) =>
      let '(d, de) :=
        if negb (de_inode d de =? 0) then
          let de1 := de + name_len in
          let d := put_le16 d (de1 + 4) (u16 (rec_len - name_len)) in
          let d := put_le16 d (de + 4) name_len in
          (d, de1)
        else (d, de) in
      let d := put_u8 d (de + 6) namelen in
      let d := put_bytes d (de + 8) (map u8 name) in
      let d := put_le32 d de (u32 child_ino) in
      let d := put_u8 d (de + 7) 0 in
      let dir := store_folio dir n {| f_data := d; f_checked := true |} in
      let dir := ext2_commit_chunk dir pos rec_len in
      sync_inode_metadata be fs dir
  end.

(** The page loop of [ext2_add_link], pages [n .. npages]. *)
Fixpoint add_link_pages (be : bool) (todo : nat) (fs : ext2_fs) (dir : inode)
    (name : list Z) (child_ino : Z) (n : Z)
  : result unit * ext2_fs * inode :=
  match todo with
  | O => (Err EINVAL, BUG fs, dir)
  | S k =>
      match ext2_get_folio fs dir n false with
      | (Err e, fs, dir) => (Err e, fs, dir)
      | (Ok d, fs, dir) =>
          let reclen := u32 (EXT2_DIR_REC_LEN (Z.of_nat (length name))) in
          let dir_end := ext2_last_byte dir n in
          match add_link_scan (S (length d)) d name (ext2_chunk_size fs)
                  reclen (u64 (PAGE_SIZE - reclen)) dir_end 0 with
          | GotIt d de name_len rec_len =>
              add_link_got_it be fs dir n name child_ino d de name_len rec_len
          | ZeroLengthEntry =>
              (Err EIO, ext2_error fs "zero-length directory entry", dir)
          | ScanErr e => (Err e, fs, dir)
          | NextPage => add_link_pages be k fs dir name child_ino (n + 1)
          end
      end
  end.

(** [ext2_add_link (dentry, inode)]: [dir] is the parent of the dentry,
    [name] its name, [child_ino] the number of the inode to link. *)
Definition ext2_add_link (be : bool) (fs : ext2_fs) (dir : inode)
    (name : list Z) (child_ino : Z) : result unit * ext2_fs * inode :=
  add_link_pages be (S (Z.to_nat (dir_pages dir))) fs dir name child_ino 0.

(** The loop of [ext2_delete_entry] that walks the chunk up to the record:
    the record before it, if any. *)
Fixpoint delete_entry_walk (fuel : nat) (d : list Z) (target de : Z)
    (pde : option Z) : result (option Z) :=
  match fuel with
  | O => Ok pde
  | S k =>
      if de <? target then
        if de_rec_len d de =? 0 then Err EIO
        else delete_entry_walk k d target (ext2_next_entry d de) (Some de)
      else Ok pde
  end.

(** [ext2_delete_entry (dir, folio)] for the record at offset [de] of page
    [n] of the directory [dir]. *)
Definition ext2_delete_entry (be : bool) (fs : ext2_fs) (dir : inode)
    (n de : Z) : result unit * ext2_fs * inode :=
  match read_mapping_folio dir n with
  | Err e => (Err e, fs, dir)
  | Ok f =>
      let d := f_data f in
      let from := de in
      let to := from + de_rec_len d de in
      let from := Z.land from (u32 (Z.lnot (ext2_chunk_size fs - 1))) in
      match delete_entry_walk (S (length d)) d de from None with
      | Err e => (Err e, ext2_error fs "zero-length directory entry", dir)
      | Ok pde =>
          let from := match pde with Some p => p | None => from end in
          let pos := n * PAGE_SIZE + from in
          match ext2_prepare_chunk be fs dir pos (to - from) with
          | (Err e, fs, dir) => (Err e, fs, dir)
          | (Ok _, fs, dir) =>
              let d :=
                match pde with
                | Some p => put_le16 d (p + 4) (u16 (to - from))
                | None => d
                end in
              let d := put_le32 d de 0 in
              let dir :=
                store_folio dir n
                  {| f_data := d; f_checked := f_checked f |} in
              let dir := ext2_commit_chunk dir pos (to - from) in
              sync_inode_metadata be fs dir
          end
      end
  end.

(** [ext2_make_empty (inode, parent)]: the first chunk of a new directory,
    with the records of "." and "..". *)
Definition ext2_make_empty (be : bool) (fs : ext2_fs) (ino : inode)
    (parent : inode) : result unit * ext2_fs * inode :=
  let chunk_size := ext2_chunk_size fs in
  match ext2_prepare_chunk be fs ino 0 chunk_size with
  | (Err e, fs, ino) => (Err e, fs, ino)
  | (Ok _, fs, ino) =>
      let d :=
        match read_mapping_folio ino 0 with
        | Ok f => f_data f
        | Err _ => f_data zero_folio
        end in
      let d := put_bytes d 0 (repeat 0 (Z.to_nat chunk_size)) in
      let d := put_u8 d 6 1 in
      let d := put_le16 d 4 (u16 (EXT2_DIR_REC_LEN 1)) in
      let d := put_bytes d 8 [46; 0; 0; 0] in
      let d := put_le32 d 0 (u32 (i_ino ino)) in
      let d := put_u8 d 7 0 in
      let de := EXT2_DIR_REC_LEN 1 in
      let d := put_u8 d (de + 6) 2 in
      let d := put_le16 d (de + 4) (u16 (chunk_size - EXT2_DIR_REC_LEN 1)) in
      let d := put_le32 d de (u32 (i_ino parent)) in
      let d := put_bytes d (de + 8) [46; 46; 0; 0] in
      let d := put_u8 d (de + 7) 0 in
      let ino := store_folio ino 0 {| f_data := d; f_checked := false |} in
      let ino := ext2_commit_chunk ino 0 chunk_size in
      sync_inode_metadata be fs ino
  end.

Inductive empty_outcome : Set :=
  | PageEmpty
  | PageNotEmpty
  | PageZeroLength.

(** The record loop of [ext2_empty_dir] in one page. *)
Fixpoint empty_dir_page (fuel : nat) (d : list Z) (self limit de : Z)
  : empty_outcome :=
  match fuel with
  | O => PageEmpty
  | S k =>
      if de <=? limit then
        if de_rec_len d de =? 0 then PageZeroLength
        else if negb (de_inode d de =? 0) then
          if negb (de_name_byte d de 0 =? 46) then PageNotEmpty
          else if 2 <? de_name_len d de then PageNotEmpty
          else if de_name_len d de <? 2 then
            if negb (de_inode d de =? u32 self) then PageNotEmpty
            else empty_dir_page k d self limit (ext2_next_entry d de)
          else if negb (de_name_byte d de 1 =? 46) then PageNotEmpty
          else empty_dir_page k d self limit (ext2_next_entry d de)
        else empty_dir_page k d self limit (ext2_next_entry d de)
      else PageEmpty
  end.

(** The page loop of [ext2_empty_dir]. *)
Fixpoint empty_dir_pages (todo : nat) (fs : ext2_fs) (ino : inode) (i : Z)
  : bool * ext2_fs * inode :=
  match todo with
  | O => (true, fs, ino)
  | S k =>
      match ext2_get_folio fs ino i false with
      | (Err _, fs, ino) => (false, fs, ino)
      | (Ok d, fs, ino) =>
          let limit := u32 (ext2_last_byte ino i - EXT2_DIR_REC_LEN 1) in
          match empty_dir_page (S (length d)) d (i_ino ino) limit 0 with
          | PageZeroLength =>
              (false, ext2_error fs "zero-length directory entry", ino)
          | PageNotEmpty => (false, fs, ino)
          | PageEmpty => empty_dir_pages k fs ino (i + 1)
          end
      end
  end.

(** [ext2_empty_dir (inode)]: whether the directory holds nothing but "."
    and "..". *)
Definition ext2_empty_dir (fs : ext2_fs) (ino : inode)
  : bool * ext2_fs * inode :=
  empty_dir_pages (Z.to_nat (dir_pages ino)) fs ino 0.

(* ================================================================= *)
(** ** namei.c: namespace operations *)

(** [discard_new_inode] and the last [iput]: the inode is evicted. *)
Definition discard_new_inode (be : bool) (fs : ext2_fs) (ino : inode) (now : Z)
  : ext2_fs * inode :=
  ext2_evict_inode be fs ino now.

(** [ext2_add_nondir (dentry, inode)]. *)
Definition ext2_add_nondir (be : bool) (fs : ext2_fs) (dir : inode)
    (name : list Z) (ino : inode) (now : Z)
  : result unit * ext2_fs * inode * inode :=
  match ext2_add_link be fs dir name (i_ino ino) with
  | (Err e, fs, dir) =>
      let ino := inode_dec_link_count ino in
      let '(fs, ino) := discard_new_inode be fs ino now in
      (Err e, fs, dir, ino)
  | (Ok _, fs, dir) => (Ok tt, fs, dir, ino)
  end.

(** [ext2_create (idmap, dir, dentry, mode, excl)]. *)
Definition ext2_create (be : bool) (fs : ext2_fs) (dir : inode)
    (name : list Z) (mode : Z) (now : Z)
  : result unit * ext2_fs * inode * option inode :=
  match ext2_new_inode fs dir mode with
  | (Err e, fs) => (Err e, fs, dir, None)
  | (Ok ino, fs) =>
      let ino := set_i_op ino ext2_file_inode_operations in
      let '(r, fs, dir, ino) := ext2_add_nondir be fs dir name ino now in
      (r, fs, dir, Some ino)
  end.

(** [ext2_link (old_dentry, dir, dentry)], [ino] being the inode of
    [old_dentry]; the [iput] of the error path is not the last one.  The
    inode of the model has no time stamps, so the [inode_set_ctime_current]
    with which the source begins leaves no trace here: what is proved of
    [ext2_link] is about the link count, the mode, the size and the block
    array of the inode, never about the inode as a whole. *)
Definition ext2_link (be : bool) (fs : ext2_fs) (dir : inode)
    (name : list Z) (ino : inode) : result unit * ext2_fs * inode * inode :=
  let ino := inode_inc_link_count ino in
  match ext2_add_link be fs dir name (i_ino ino) with
  | (Err e, fs, dir) => (Err e, fs, dir, inode_dec_link_count ino)
  | (Ok _, fs, dir) => (Ok tt, fs, dir, ino)
  end.

(** [ext2_unlink (dir, dentry)], [ino] being the inode of the dentry. *)
Definition ext2_unlink (be : bool) (fs : ext2_fs) (dir : inode)
    (name : list Z) (ino : inode) : result unit * ext2_fs * inode * inode :=
  match ext2_find_entry fs dir name with
  | (Err e, fs, dir) => (Err e, fs, dir, ino)
  | (Ok (n, de), fs, dir) =>
      match ext2_delete_entry be fs dir n de with
      | (Err e, fs, dir) => (Err e, fs, dir, ino)
      | (Ok _, fs, dir) => (Ok tt, fs, dir, inode_dec_link_count ino)
      end
  end.

(** The byte view of the block array, in the byte order of the host. *)
Definition bytes_of_word (be : bool) (w : Z) : list Z :=
  let bs := [u8 w; u8 (w / 256); u8 (w / 65536); u8 (w / 16777216)] in
  if be then rev bs else bs.
Definition word_of_bytes (be : bool) (b0 b1 b2 b3 : Z) : Z :=
  if be then b3 + 256 * b2 + 65536 * b1 + 16777216 * b0
  else b0 + 256 * b1 + 65536 * b2 + 16777216 * b3.
Definition words_to_bytes (be : bool) (ws : list Z) : list Z :=
  flat_map (bytes_of_word be) ws.
Fixpoint bytes_to_words (be : bool) (bs : list Z) : list Z :=
  match bs with
  | b0 :: b1 :: b2 :: b3 :: bs' =>
      word_of_bytes be b0 b1 b2 b3 :: bytes_to_words be bs'
  | _ => []
  end.

(** [memcpy ((char * ) i_data, src, n)]. *)
Definition memcpy_i_data (be : bool) (ws : list Z) (src : list Z) : list Z :=
  bytes_to_words be (write_bytes (words_to_bytes be ws) 0 (map u8 src)).

(** The kernel's [page_symlink (inode, symname, len)] as this filesystem
    sees it: [ext2_write_begin] prepares the blocks of the first [len - 1]
    bytes (undoing with [ext2_write_failed] on error), the bytes go to page
    0 and the size grows to [len - 1]. *)
Definition page_symlink (be : bool) (fs : ext2_fs) (ino : inode)
    (symname : list Z) (len : Z) : result unit * ext2_fs * inode :=
  match ext2_prepare_chunk be fs ino 0 (len - 1) with
  | (Err e, fs, ino) =>
      let '(fs, ino) :=
        if i_size ino <? len - 1
        then ext2_truncate_blocks be fs ino (i_size ino)
        else (fs, ino) in
      (Err e, fs, ino)
  | (Ok _, fs, ino) =>
      let d := put_bytes (f_data zero_folio) 0 (map u8 symname) in
      let ino := store_folio ino 0 {| f_data := d; f_checked := false |} in
      (Ok tt, fs, if i_size ino <? len - 1 then set_i_size ino (len - 1)
                  else ino)
  end.

(** [strlen] of a C string given by its bytes before the terminator. *)
Definition strlen (s : list Z) : Z := Z.of_nat (length s).

(** [sizeof (EXT2_I (inode)->i_data)]. *)
Definition SIZEOF_I_DATA : Z := 4 * EXT2_N_BLOCKS.

(** [ext2_symlink (idmap, dir, dentry, symname)]. *)
Definition ext2_symlink (be : bool) (fs : ext2_fs) (dir : inode)
    (name : list Z) (symname : list Z) (now : Z)
  : result unit * ext2_fs * inode * option inode :=
  let l := u32 (strlen symname + 1) in
  if s_blocksize (fs_sbi fs) <? l then (Err ENAMETOOLONG, fs, dir, None)
  else
    match ext2_new_inode fs dir (Z.lor S_IFLNK S_IRWXUGO) with
    | (Err e, fs) => (Err e, fs, dir, None)
    | (Ok ino, fs) =>
        if SIZEOF_I_DATA <? l then
          let ino := set_i_op ino page_symlink_inode_operations in
          match page_symlink be fs ino symname l with
          | (Err e, fs, ino) =>
              let ino := inode_dec_link_count ino in
              let '(fs, ino) := discard_new_inode be fs ino now in
              (Err e, fs, dir, Some ino)
          | (Ok _, fs, ino) =>
              let '(r, fs, dir, ino) :=
                ext2_add_nondir be fs dir name ino now in
              (r, fs, dir, Some ino)
          end
        else
          let ino := set_i_op ino simple_symlink_inode_operations in
          let ino :=
            set_i_data ino (memcpy_i_data be (i_data ino) (symname ++ [0])) in
          let ino := set_i_size ino (l - 1) in
          let '(r, fs, dir, ino) := ext2_add_nondir be fs dir name ino now in
          (r, fs, dir, Some ino)
    end.

(** [ext2_mkdir (idmap, dir, dentry, mode)]. *)
Definition ext2_mkdir (be : bool) (fs : ext2_fs) (dir : inode)
    (name : list Z) (mode : Z) (now : Z)
  : result unit * ext2_fs * inode * option inode :=
  let dir := inode_inc_link_count dir in
  match ext2_new_inode fs dir (Z.lor S_IFDIR mode) with
  | (Err e, fs) => (Err e, fs, inode_dec_link_count dir, None)
  | (Ok ino, fs) =>
      let ino := set_i_op ino ext2_dir_inode_operations in
      let ino := inode_inc_link_count ino in
      let out_fail (e : errno) (fs : ext2_fs) (dir ino : inode) :=
        let ino := inode_dec_link_count ino in
        let ino := inode_dec_link_count ino in
        let '(fs, ino) := discard_new_inode be fs ino now in
        (Err e, fs, inode_dec_link_count dir, Some ino) in
      match ext2_make_empty be fs ino dir with
      | (Err e, fs, ino) => out_fail e fs dir ino
      | (Ok _, fs, ino) =>
          match ext2_add_link be fs dir name (i_ino ino) with
          | (Err e, fs, dir) => out_fail e fs dir ino
          | (Ok _, fs, dir) => (Ok tt, fs, dir, Some ino)
          end
      end
  end.

(** [ext2_rmdir (dir, dentry)], [ino] being the inode of the dentry. *)
Definition ext2_rmdir (be : bool) (fs : ext2_fs) (dir : inode)
    (name : list Z) (ino : inode) : result unit * ext2_fs * inode * inode :=
  match ext2_empty_dir fs ino with
  | (false, fs, ino) => (Err ENOTEMPTY, fs, dir, ino)
  | (true, fs, ino) =>
      match ext2_unlink be fs dir name ino with
      | (Err e, fs, dir, ino) => (Err e, fs, dir, ino)
      | (Ok _, fs, dir, ino) =>
          let ino := set_i_size ino 0 in
          let ino := inode_dec_link_count ino in
          (Ok tt, fs, inode_dec_link_count dir, ino)
      end
  end.

(* ================================================================= *)
(** ** super.c: the descriptor check of the mount *)

(** The loop of [ext2_check_descriptors] over the groups from [i] on.  The
    source reads the descriptor that [ext2_get_group_desc] returns without
    a test for NULL: a descriptor that is not there is a fault, [None]
    here.  The three block numbers and the last block of the inode table
    are [__u32]; the bounds of the group are [unsigned long]. *)
Fixpoint check_descriptors_loop (todo : nat) (fs : ext2_fs) (i : Z)
  : option bool * ext2_fs :=
  match todo with
  | O => (Some true, fs)
  | S k =>
      match ext2_get_group_desc fs i with
      | (None, fs) => (None, fs)
      | (Some gdp, fs) =>
          let first_block := ext2_group_first_block_no (fs_sbi fs) i in
          let last_block := ext2_group_last_block_no (fs_sbi fs) i in
          let block_bitmap := u32 (bg_block_bitmap gdp) in
          if (block_bitmap <? first_block) || (last_block <? block_bitmap)
          then (Some false,
                ext2_error fs "Block bitmap for group not in group")
          else
            let inode_bitmap := u32 (bg_inode_bitmap gdp) in
            if (inode_bitmap <? first_block) || (last_block <? inode_bitmap)
            then (Some false,
                  ext2_error fs "Inode bitmap for group not in group")
            else
              let inode_table := u32 (bg_inode_table gdp) in
              let inode_table_last :=
                u32 (inode_table + s_itb_per_group (fs_sbi fs) - 1) in
              if (inode_table <? first_block)
                 || (last_block <? inode_table_last)
              then (Some false,
                    ext2_error fs "Inode table for group not in group")
              else check_descriptors_loop k fs (i + 1)
      end
  end.

(** [ext2_check_descriptors (sb)], for a group count that fits an [int]. *)
Definition ext2_check_descriptors (fs : ext2_fs) : option bool * ext2_fs :=
  check_descriptors_loop (Z.to_nat (s_groups_count (fs_sbi fs))) fs 0.

(* ================================================================= *)
(** ** A small filesystem to run the model on *)

(** One group of 8192 blocks of 1024 bytes and 2048 inodes: superblock in
    block 1, descriptors in block 2, bitmaps in blocks 3 and 4, the inode
    table in blocks 5 to 260, the root directory in block 261. *)
Definition sample_super_block : ext2_super_block :=
  {| s_magic := 0xEF53; s_rev_level := 0; s_log_block_size := 0;
     s_blocks_count := 8192; s_inodes_count := 2048;
     s_first_data_block := 1;
     es_blocks_per_group := 8192; es_inodes_per_group := 2048;
     es_inode_size := 128; es_first_ino := 11;
     s_feature_compat := 0; s_feature_incompat := 0;
     s_feature_ro_compat := 0 |}.

Definition sample_sbi : ext2_sb_info :=
  {| s_es := sample_super_block; s_blocksize := 1024; s_inode_size := 128;
     s_first_ino := 11; s_blocks_per_group := 8192;
     s_inodes_per_group := 2048; s_inodes_per_block := 8;
     s_itb_per_group := 256; s_desc_per_block := 32; s_groups_count := 1;
     s_gdb_count := 1; s_sb_block := 1 |}.

Definition sample_group : ext2_group :=
  {| g_desc :=
       {| bg_block_bitmap := 3; bg_inode_bitmap := 4; bg_inode_table := 5;
          bg_free_blocks_count := 7930; bg_free_inodes_count := 2038;
          bg_used_dirs_count := 1 |};
     g_block_bitmap := 2 ^ 261 - 1;
     g_bb_uptodate := false;
     g_inode_bitmap := 2 ^ 10 - 1 |}.

Definition sample_fs : ext2_fs :=
  {| fs_sbi := sample_sbi; fs_groups := [sample_group];
     s_freeblocks_counter := 7930; s_freeinodes_counter := 2038;
     s_dirs_counter := 1; fs_bad_blocks := []; fs_itable := [];
     s_mount_state := 1; es_state := 1;
     es_free_blocks_count := 7930; es_free_inodes_count := 2038;
     s_mount_opt := ERRORS_CONT; sb_rdonly := false; fs_panic := false;
     fs_log := [] |}.

(** A directory record as bytes: inode, [rec_len], the name, padding up to
    [rec_len]. *)
Definition mk_dirent (ino rec_len : Z) (name : list Z) : list Z :=
  let hdr :=
    [u8 ino; u8 (ino / 256); u8 (ino / 65536); u8 (ino / 16777216);
     u8 rec_len; u8 (rec_len / 256); u8 (Z.of_nat (length name)); 0] in
  hdr ++ name ++ repeat 0 (Z.to_nat rec_len - 8 - length name).

Definition pad_page (d : list Z) : list Z :=
  d ++ repeat 0 (Z.to_nat PAGE_SIZE - length d).

(** The root directory: "." and "..", both inode 2, in one chunk. *)
Definition sample_root_page : list Z :=
  pad_page (mk_dirent 2 12 [46] ++ mk_dirent 2 1012 [46; 46]).

Definition sample_root : inode :=
  {| i_ino := 2; i_mode := Z.lor S_IFDIR 0x1ED; i_nlink := 2;
     i_size := 1024; i_blocks := 2;
     i_data := 261 :: repeat 0 14; i_flags := 0; i_dtime := 0;
     i_block_group := 0; i_state := 0; i_rdev := 0;
     i_op := ext2_dir_inode_operations;
     i_mapping := [Some {| f_data := sample_root_page; f_checked := false |}];
     i_bad := false |}.

(** A regular file without blocks. *)
Definition sample_file : inode :=
  {| i_ino := 12; i_mode := Z.lor S_IFREG 0x1A4; i_nlink := 1;
     i_size := 0; i_blocks := 0;
     i_data := repeat 0 15; i_flags := 0; i_dtime := 0;
     i_block_group := 0; i_state := 0; i_rdev := 0;
     i_op := ext2_file_inode_operations;
     i_mapping := []; i_bad := false |}.

(** The sample filesystem with the block bitmap in the buffer cache. *)
Definition sample_group_cached : ext2_group :=
  {| g_desc := g_desc sample_group;
     g_block_bitmap := g_block_bitmap sample_group;
     g_bb_uptodate := true;
     g_inode_bitmap := g_inode_bitmap sample_group |}.

Definition sample_fs_cached : ext2_fs :=
  set_groups sample_fs [sample_group_cached].

(** One group of 32768 blocks of 4096 bytes and 8192 inodes: the first data
    block is 0, the bitmaps are blocks 2 and 3, the inode table blocks 4 to
    259. *)
Definition sample4k_super_block : ext2_super_block :=
  {| s_magic := 0xEF53; s_rev_level := 0; s_log_block_size := 2;
     s_blocks_count := 32768; s_inodes_count := 8192;
     s_first_data_block := 0;
     es_blocks_per_group := 32768; es_inodes_per_group := 8192;
     es_inode_size := 128; es_first_ino := 11;
     s_feature_compat := 0; s_feature_incompat := 0;
     s_feature_ro_compat := 0 |}.

Definition sample4k_sbi : ext2_sb_info :=
  {| s_es := sample4k_super_block; s_blocksize := 4096; s_inode_size := 128;
     s_first_ino := 11; s_blocks_per_group := 32768;
     s_inodes_per_group := 8192; s_inodes_per_block := 32;
     s_itb_per_group := 256; s_desc_per_block := 128; s_groups_count := 1;
     s_gdb_count := 1; s_sb_block := 1 |}.

Definition sample4k_fs : ext2_fs :=
  {| fs_sbi := sample4k_sbi;
     fs_groups :=
       [{| g_desc :=
             {| bg_block_bitmap := 2; bg_inode_bitmap := 3;
                bg_inode_table := 4;
                bg_free_blocks_count := 32507; bg_free_inodes_count := 8182;
                bg_used_dirs_count := 1 |};
           g_block_bitmap := 2 ^ 261 - 1;
           g_bb_uptodate := true;
           g_inode_bitmap := 2 ^ 10 - 1 |}];
     s_freeblocks_counter := 32507; s_freeinodes_counter := 8182;
     s_dirs_counter := 1; fs_bad_blocks := []; fs_itable := [];
     s_mount_state := 1; es_state := 1;
     es_free_blocks_count := 32507; es_free_inodes_count := 8182;
     s_mount_opt := ERRORS_CONT; sb_rdonly := false; fs_panic := false;
     fs_log := [] |}.

(** The sample filesystem with the inode table moved to blocks 10 to 265,
    which leaves blocks 5 to 9 and 266 as data blocks, here in use. *)
Definition sample_gap_fs : ext2_fs :=
  set_groups sample_fs
    [{| g_desc :=
          {| bg_block_bitmap := 3; bg_inode_bitmap := 4; bg_inode_table := 10;
             bg_free_blocks_count := 7925; bg_free_inodes_count := 2038;
             bg_used_dirs_count := 1 |};
        g_block_bitmap := 2 ^ 266 - 1;
        g_bb_uptodate := true;
        g_inode_bitmap := 2 ^ 10 - 1 |}].


(** A subdirectory, inode 12, whose only page holds "." and ".." and then
    zeros where the record that fills the chunk should be. *)
Definition sample_torn_page : list Z :=
  pad_page (mk_dirent 12 12 [46] ++ mk_dirent 2 12 [46; 46]).

Definition sample_torn_dir : inode :=
  {| i_ino := 12; i_mode := Z.lor S_IFDIR 0x1ED; i_nlink := 2;
     i_size := 1024; i_blocks := 2;
     i_data := 262 :: repeat 0 14; i_flags := 0; i_dtime := 0;
     i_block_group := 0; i_state := 0; i_rdev := 0;
     i_op := ext2_dir_inode_operations;
     i_mapping := [Some {| f_data := sample_torn_page; f_checked := false |}];
     i_bad := false |}.

(** The same subdirectory with a page that cannot be read. *)
Definition sample_unreadable_dir : inode :=
  set_i_mapping sample_torn_dir [None].

(** The root directory after "a" was removed and merged into "..": ".",
    ".." with twelve spare bytes, and a live "c", inode 13. *)
Definition sample_slot_page : list Z :=
  pad_page (mk_dirent 2 12 [46] ++ mk_dirent 2 24 [46; 46]
            ++ mk_dirent 13 988 [99]).

Definition sample_slot_dir : inode :=
  set_i_mapping sample_root
    [Some {| f_data := sample_slot_page; f_checked := false |}].

(** The root directory with ".", ".." and a live "c" that fills the
    chunk. *)
Definition sample_named_page : list Z :=
  pad_page (mk_dirent 2 12 [46] ++ mk_dirent 2 12 [46; 46]
            ++ mk_dirent 13 1000 [99]).

Definition sample_named_dir : inode :=
  set_i_mapping sample_root
    [Some {| f_data := sample_named_page; f_checked := false |}].

(** The conditions of the free path as the specification words them. *)
Definition spec_free_conditions (sbi : ext2_sb_info) (desc : ext2_group_desc)
    (block count : Z) : Prop :=
  let last := block + count - 1 in
  s_first_data_block (s_es sbi) <= block
  /\ last < s_blocks_count (s_es sbi)
  /\ ~ (block <= s_sb_block sbi <= last)
  /\ ~ (block <= bg_block_bitmap desc <= last)
  /\ ~ (block <= bg_inode_bitmap desc <= last)
  /\ (forall b, block <= b <= last ->
        ~ (bg_inode_table desc <= b
           <= bg_inode_table desc + s_itb_per_group sbi - 1)).

(* ================================================================= *)
(** ** Properties *)

(** *** Arithmetic helpers *)

Lemma u64_small x : 0 <= x < 2 ^ 64 -> u64 x = x.
Proof. intros H. unfold u64. apply Z.mod_small. exact H. Qed.

Lemma u32_small x : 0 <= x < 2 ^ 32 -> u32 x = x.
Proof. intros H. unfold u32. apply Z.mod_small. exact H. Qed.

Lemma u16_small x : 0 <= x < 2 ^ 16 -> u16 x = x.
Proof. intros H. unfold u16. apply Z.mod_small. exact H. Qed.

Lemma s32_small x : - 2 ^ 31 <= x < 2 ^ 31 -> s32 x = x.
Proof.
  intros H. unfold s32. rewrite Z.mod_small; lia.
Qed.

Lemma ceil_div_succ a b : 0 < b -> ceil_div (a + 1) b = a / b + 1.
Proof.
  intros Hb. unfold ceil_div.
  replace (a + 1 + b - 1) with (a + 1 * b) by lia.
  apply Z.div_add. lia.
Qed.

(** *** C7: the number of block groups *)

Lemma ext2_fill_super_groups_count es sbi :
  ext2_fill_super es = Ok sbi ->
  s_groups_count sbi =
    u32 (s_blocks_count es - s_first_data_block es - 1)
    / es_blocks_per_group es + 1.
Proof.
  unfold ext2_fill_super.
  repeat match goal with
         | |- context [if ?c then _ else _] =>
             destruct c; try discriminate
         end;
  intros [= <-]; reflexivity.
Qed.

(** C7, counterexample: 8193 blocks, first data block 1 and 8192 blocks per
    group mount with one group, where the ceiling of the specification gives
    two. *)
Lemma groups_count_ceiling_counterexample :
  let es :=
    {| s_magic := 0xEF53; s_rev_level := 0; s_log_block_size := 0;
       s_blocks_count := 8193; s_inodes_count := 2048;
       s_first_data_block := 1;
       es_blocks_per_group := 8192; es_inodes_per_group := 2048;
       es_inode_size := 128; es_first_ino := 11;
       s_feature_compat := 0; s_feature_incompat := 0;
       s_feature_ro_compat := 0 |} in
  0 < es_blocks_per_group es
  /\ spec_groups_count es = 2
  /\ exists sbi, ext2_fill_super es = Ok sbi /\ s_groups_count sbi = 1.
Proof.
  cbv zeta. split; [reflexivity|]. split; [reflexivity|].
  eexists. split; [vm_compute; reflexivity | reflexivity].
Qed.

(** C7, amended: for every superblock that mounts, with
    [blocks_per_group > 0] and [first_data_block < total_blocks < 2^32], the
    number of block groups computed at mount is
    [floor ((total_blocks - first_data_block - 1) / blocks_per_group) + 1],
    which is the ceiling of
    [(total_blocks - first_data_block) / blocks_per_group]. *)
Theorem ext2_fill_super_groups_count_floor es sbi :
  ext2_fill_super es = Ok sbi ->
  0 < es_blocks_per_group es ->
  0 <= s_first_data_block es < s_blocks_count es ->
  s_blocks_count es < 2 ^ 32 ->
  s_groups_count sbi =
    (s_blocks_count es - s_first_data_block es - 1)
    / es_blocks_per_group es + 1
  /\ s_groups_count sbi =
       ceil_div (s_blocks_count es - s_first_data_block es)
                (es_blocks_per_group es).
Proof.
  intros Hm Hb Hf Ht.
  rewrite (ext2_fill_super_groups_count _ _ Hm).
  rewrite u32_small by lia. split; [reflexivity|].
  replace (s_blocks_count es - s_first_data_block es)
    with (s_blocks_count es - s_first_data_block es - 1 + 1) at 2 by lia.
  rewrite ceil_div_succ by lia. reflexivity.
Qed.

Lemma ext2_fill_super_groups_count_floor_witness :
  s_groups_count sample_sbi = (8192 - 1 - 1) / 8192 + 1
  /\ s_groups_count sample_sbi = ceil_div (8192 - 1) 8192.
Proof.
  apply (ext2_fill_super_groups_count_floor sample_super_block sample_sbi).
  - vm_compute; reflexivity.
  - reflexivity.
  - split; [discriminate | reflexivity].
  - reflexivity.
Defined.

(** *** C1: block mapping beyond the direct blocks *)

(** C1, counterexample: at [iblock = 12] the error is [EIO], not
    [EINVAL]. *)
Lemma ext2_get_blocks_beyond_counterexample :
  fst (fst (ext2_get_blocks false sample_fs sample_file 12 1 true)) = Err EIO
  /\ fst (fst (ext2_get_blocks false sample_fs sample_file 12 1 true))
     <> Err EINVAL.
Proof. split; [reflexivity | discriminate]. Qed.

(** C1, amended: for every inode and every logical block index
    [iblock >= 12], [ext2_get_blocks] fails with [EIO] (the IO error kind),
    for both values of [create], and leaves the inode, with its direct-block
    array, and the filesystem, with the allocator state, unchanged;
    [ext2_get_block] hands the same error on. *)
Theorem ext2_get_blocks_beyond_direct be fs ino iblock maxblocks create :
  EXT2_NDIR_BLOCKS <= iblock ->
  ext2_get_blocks be fs ino iblock maxblocks create = (Err EIO, fs, ino)
  /\ ext2_get_block be fs ino iblock maxblocks create = (Err EIO, fs, ino).
Proof.
  intros H. unfold ext2_get_block, ext2_get_blocks.
  apply Z.leb_le in H. rewrite H. split; reflexivity.
Qed.

Lemma ext2_get_blocks_beyond_direct_witness :
  ext2_get_blocks false sample_fs sample_file 12 1 true
    = (Err EIO, sample_fs, sample_file)
  /\ ext2_get_block false sample_fs sample_file 12 1 true
    = (Err EIO, sample_fs, sample_file).
Proof.
  apply (ext2_get_blocks_beyond_direct false sample_fs sample_file 12 1 true).
  unfold EXT2_NDIR_BLOCKS. lia.
Defined.

(** *** C6: the place of an inode record *)


Lemma ext2_get_group_desc_some fs g grp :
  0 <= g < 2 ^ 32 ->
  g < s_groups_count (fs_sbi fs) ->
  group_at fs g = Some grp ->
  ext2_get_group_desc fs g = (Some (g_desc grp), fs).
Proof.
  intros Hr Hg Hat. unfold ext2_get_group_desc.
  rewrite u32_small by exact Hr.
  destruct (Z.leb_spec (s_groups_count (fs_sbi fs)) g); [lia|].
  rewrite Hat. reflexivity.
Qed.



(** *** C8: the byte order of the block array *)

(** Writing an inode back copies the block array word by word, unless the
    inode is a character or block device, whose first words carry the device
    number. *)
Lemma ext2_do_write_inode_block_array_verbatim be fs ino fs' ino' :
  ext2_do_write_inode be fs ino = (Ok tt, fs', ino') ->
  S_ISCHR (i_mode ino) || S_ISBLK (i_mode ino) = false ->
  exists loc fs1,
    ext2_get_inode fs (i_ino ino) = (Ok loc, fs1)
    /\ i_block (itable_get (fs_itable fs') (loc_block loc) (loc_offset loc))
       = firstn (Z.to_nat EXT2_N_BLOCKS) (i_data ino)
    /\ i_data ino' = i_data ino.
Proof.
  unfold ext2_do_write_inode.
  destruct (ext2_get_inode fs (i_ino ino)) as [[loc | e] fs1]; [|discriminate].
  intros [= <- <-] Hdev. exists loc, fs1. rewrite Hdev.
  split; [reflexivity|]. split; [|reflexivity].
  simpl. rewrite !Z.eqb_refl. reflexivity.
Qed.

(** On a little-endian host the slot written by allocate-on-write reads back
    as the block number that was handed out. *)
Lemma ext2_get_blocks_little_endian_host fs ino iblock maxblocks r fs' ino' :
  0 <= iblock ->
  (Z.to_nat iblock < length (i_data ino))%nat ->
  ext2_get_blocks false fs ino iblock maxblocks true = (Ok r, fs', ino') ->
  gb_new r = true ->
  le32_to_cpu false (word_at (i_data ino') iblock) = gb_bno r.
Proof.
  intros H0 Hlen. unfold ext2_get_blocks.
  destruct (EXT2_NDIR_BLOCKS <=? iblock); [discriminate|].
  destruct (0 <? le32_to_cpu false (word_at (i_data ino) iblock)).
  { intros [= <- <- <-]. discriminate. }
  simpl negb. cbv iota.
  destruct (ext2_new_blocks fs ino 1) as [[[resb count] | e] fs1];
    [|discriminate].
  intros [= <- <- <-] _. simpl.
  unfold word_at. rewrite list_lookup_insert_eq by exact Hlen. reflexivity.
Qed.

(** C8, at the failing input: on a big-endian host, allocate-on-write for
    block 0 of an empty file takes block 262 and stores the word 262 in host
    order; read as little-endian, as every reader of [i_data] does, the slot
    holds 100728832, and the next lookup of the same block returns that
    number. *)
Theorem ext2_get_blocks_big_endian_store :
  exists fs1 ino1,
    ext2_get_blocks true sample_fs sample_file 0 1 true
      = (Ok {| gb_ret := 1; gb_bno := 262; gb_new := true |}, fs1, ino1)
    /\ word_at (i_data ino1) 0 = 262
    /\ le32_to_cpu true (word_at (i_data ino1) 0) = 100728832
    /\ fst (fst (ext2_get_blocks true fs1 ino1 0 1 false))
       = Ok {| gb_ret := 1; gb_bno := 100728832; gb_new := false |}.
Proof.
  eexists. eexists. split; [vm_compute; reflexivity|].
  split; [reflexivity|]. split; [reflexivity|]. vm_compute. reflexivity.
Qed.

(** *** Byte views *)

Definition is_byte (b : Z) : Prop := 0 <= b < 256.

Lemma u8_is_byte x : is_byte (u8 x).
Proof. unfold is_byte, u8. change (2 ^ 8) with 256. apply Z.mod_pos_bound. lia. Qed.

Lemma u8_byte b : is_byte b -> u8 b = b.
Proof. unfold is_byte, u8. change (2 ^ 8) with 256. intros H. apply Z.mod_small. exact H. Qed.

Lemma bytes_of_word_of_bytes be b0 b1 b2 b3 :
  is_byte b0 -> is_byte b1 -> is_byte b2 -> is_byte b3 ->
  bytes_of_word be (word_of_bytes be b0 b1 b2 b3) = [b0; b1; b2; b3].
Proof.
  unfold is_byte, bytes_of_word, word_of_bytes, u8. change (2 ^ 8) with 256.
  intros H0 H1 H2 H3.
  destruct be; simpl rev; simpl app;
    repeat f_equal; Z.div_mod_to_equations; lia.
Qed.

Lemma words_to_bytes_to_words be bs :
  Forall is_byte bs ->
  (exists n, length bs = (4 * n)%nat) ->
  words_to_bytes be (bytes_to_words be bs) = bs.
Proof.
  intros Hb [n Hn]. revert bs Hb Hn.
  induction n as [|n IH]; intros bs Hb Hn.
  - destruct bs; [reflexivity | simpl in Hn; lia].
  - destruct bs as [|b0 [|b1 [|b2 [|b3 bs]]]]; simpl in Hn; try lia.
    inversion Hb as [|? ? H0 Hb0]; subst.
    inversion Hb0 as [|? ? H1 Hb1]; subst.
    inversion Hb1 as [|? ? H2 Hb2]; subst.
    inversion Hb2 as [|? ? H3 Hb3]; subst.
    simpl bytes_to_words. unfold words_to_bytes. simpl flat_map.
    rewrite bytes_of_word_of_bytes by assumption.
    fold (words_to_bytes be (bytes_to_words be bs)).
    rewrite IH; [reflexivity | assumption | lia].
Qed.

Lemma write_bytes_length d off bs : length (write_bytes d off bs) = length d.
Proof.
  revert d off. induction bs as [|b bs IH]; intros d off; simpl; [reflexivity|].
  rewrite IH. apply length_insert.
Qed.

Lemma write_bytes_Forall (P : Z -> Prop) d off bs :
  Forall P d -> Forall P bs -> Forall P (write_bytes d off bs).
Proof.
  revert d off. induction bs as [|b bs IH]; intros d off Hd Hbs; simpl.
  - exact Hd.
  - inversion Hbs; subst. apply IH; [|assumption].
    apply Forall_insert; assumption.
Qed.

Lemma write_bytes_lookup_lt d off bs k :
  (k < off)%nat -> write_bytes d off bs !! k = d !! k.
Proof.
  revert d off. induction bs as [|b bs IH]; intros d off Hk; simpl.
  - reflexivity.
  - rewrite IH by lia. apply list_lookup_insert_ne. lia.
Qed.

Lemma write_bytes_lookup_in d off bs k b :
  (off + length bs <= length d)%nat ->
  bs !! k = Some b ->
  write_bytes d off bs !! (off + k)%nat = Some b.
Proof.
  revert d off k. induction bs as [|b0 bs IH]; intros d off k Hlen Hk.
  - discriminate.
  - simpl in *. destruct k as [|k].
    + injection Hk as ->. rewrite write_bytes_lookup_lt by lia.
      rewrite Nat.add_0_r. apply list_lookup_insert_eq. lia.
    + replace (off + S k)%nat with (S off + k)%nat by lia.
      apply IH; [rewrite length_insert; lia | exact Hk].
Qed.

Lemma write_bytes_prefix d bs :
  (length bs <= length d)%nat ->
  firstn (length bs) (write_bytes d 0 bs) = bs.
Proof.
  intros Hlen. apply list_eq. intros k.
  destruct (bs !! k) as [b|] eqn:Hk.
  - pose proof (lookup_lt_Some _ _ _ Hk) as Hlt.
    change firstn with (@take Z).
    rewrite lookup_take_lt by exact Hlt.
    apply (write_bytes_lookup_in d 0 bs k b); [lia | exact Hk].
  - pose proof (proj1 (lookup_ge_None _ _) Hk) as Hge.
    change firstn with (@take Z).
    apply lookup_ge_None. rewrite length_take, write_bytes_length. lia.
Qed.

Lemma Forall_map_u8 bs : Forall is_byte (map u8 bs).
Proof. induction bs; simpl; constructor; [apply u8_is_byte | assumption]. Qed.

(** *** What the block mapping changes in an inode *)

(** The mapping layer touches only the block array and the block count. *)
Definition touch (ino : inode) (d : list Z) (b : Z) : inode :=
  set_i_blocks (set_i_data ino d) b.

Lemma touch_self ino : ino = touch ino (i_data ino) (i_blocks ino).
Proof. destruct ino; reflexivity. Qed.

Lemma touch_touch ino d b d' b' : touch (touch ino d b) d' b' = touch ino d' b'.
Proof. reflexivity. Qed.

Lemma ext2_get_blocks_inode be fs ino iblock mb create r fs' ino' :
  ext2_get_blocks be fs ino iblock mb create = (r, fs', ino') ->
  exists d b, ino' = touch ino d b.
Proof.
  unfold ext2_get_blocks.
  destruct (EXT2_NDIR_BLOCKS <=? iblock).
  { intros [= <- <- <-]. eexists _, _. apply touch_self. }
  destruct (0 <? le32_to_cpu be (word_at (i_data ino) iblock)).
  { intros [= <- <- <-]. eexists _, _. apply touch_self. }
  destruct (negb create).
  { intros [= <- <- <-]. eexists _, _. apply touch_self. }
  destruct (ext2_new_blocks fs ino 1) as [[[resb count] | e] fs1].
  - intros [= <- <- <-]. eexists _, _. reflexivity.
  - intros [= <- <- <-]. eexists _, _. apply touch_self.
Qed.

Lemma ext2_get_block_inode be fs ino iblock sz create r fs' ino' :
  ext2_get_block be fs ino iblock sz create = (r, fs', ino') ->
  exists d b, ino' = touch ino d b.
Proof.
  unfold ext2_get_block.
  destruct (ext2_get_blocks be fs ino iblock _ create) as [[r0 fs0] ino0] eqn:E.
  apply ext2_get_blocks_inode in E. destruct E as (d & b & ->).
  destruct r0 as [r0 | e].
  - destruct (gb_ret r0 <=? 0); intros [= <- <- <-]; eexists _, _; reflexivity.
  - intros [= <- <- <-]. eexists _, _. reflexivity.
Qed.

Lemma prepare_blocks_inode be todo fs ino iblock r fs' ino' :
  prepare_blocks be todo fs ino iblock = (r, fs', ino') ->
  exists d b, ino' = touch ino d b.
Proof.
  revert fs ino iblock. induction todo as [|k IH]; intros fs ino iblock; simpl.
  - intros [= <- <- <-]. eexists _, _. apply touch_self.
  - destruct (ext2_get_block be fs ino iblock _ true) as [[r0 fs0] ino0] eqn:E.
    apply ext2_get_block_inode in E. destruct E as (d & b & ->).
    destruct r0 as [r0 | e].
    + intros H. apply IH in H. destruct H as (d' & b' & ->).
      eexists _, _. reflexivity.
    + intros [= <- <- <-]. eexists _, _. reflexivity.
Qed.

Lemma ext2_prepare_chunk_inode be fs ino pos len r fs' ino' :
  ext2_prepare_chunk be fs ino pos len = (r, fs', ino') ->
  exists d b, ino' = touch ino d b.
Proof.
  unfold ext2_prepare_chunk. destruct (len <=? 0).
  - intros [= <- <- <-]. eexists _, _. apply touch_self.
  - apply prepare_blocks_inode.
Qed.

(** A freshly allocated inode: no blocks, no size, no pages. *)
Lemma ext2_new_inode_fresh fs dir mode ino fs' :
  ext2_new_inode fs dir mode = (Ok ino, fs') ->
  i_data ino = repeat 0 (Z.to_nat EXT2_N_BLOCKS)
  /\ i_blocks ino = 0 /\ i_size ino = 0 /\ i_mapping ino = []
  /\ i_nlink ino = 1 /\ i_mode ino = mode /\ i_bad ino = false.
Proof.
  unfold ext2_new_inode. destruct (find_group fs dir) as [group fs0].
  destruct (group =? -1); [discriminate|].
  destruct (new_inode_scan _ fs0 group) as [[[g bit] | e] fs1]; [|discriminate].
  match goal with |- context [if ?c then _ else _] => destruct c end;
    [discriminate|].
  intros [= <- <-]. simpl. repeat split; reflexivity.
Qed.

(** *** C2: fast and slow symbolic links *)

Lemma zero_page_length : length zero_page = 4096%nat.
Proof. unfold zero_page. apply repeat_length. Qed.

Opaque zero_page.

Lemma ext2_add_nondir_ok be fs dir name ino now u fs' dir' ino' :
  ext2_add_nondir be fs dir name ino now = (Ok u, fs', dir', ino') ->
  ino' = ino.
Proof.
  unfold ext2_add_nondir.
  destruct (ext2_add_link be fs dir name (i_ino ino)) as [[[u0 | e] fs0] dir0].
  - intros [= _ _ _ <-]. reflexivity.
  - destruct (discard_new_inode be fs0 _ now). discriminate.
Qed.

Lemma words_to_bytes_zero be :
  words_to_bytes be (repeat 0 (Z.to_nat EXT2_N_BLOCKS)) = repeat 0 60.
Proof. destruct be; reflexivity. Qed.

Lemma memcpy_i_data_reads_back be (src : list Z) :
  (length src <= 60)%nat ->
  firstn (length src)
    (words_to_bytes be
       (memcpy_i_data be (repeat 0 (Z.to_nat EXT2_N_BLOCKS)) src))
  = map u8 src.
Proof.
  intros Hlen. unfold memcpy_i_data. rewrite words_to_bytes_zero.
  rewrite words_to_bytes_to_words.
  - rewrite <- (length_map u8 src). apply write_bytes_prefix.
    rewrite length_map, repeat_length. exact Hlen.
  - apply write_bytes_Forall; [|apply Forall_map_u8].
    apply Forall_forall. intros x Hx. apply list_elem_of_In, repeat_spec in Hx.
    subst. unfold is_byte. lia.
  - exists 15%nat. rewrite write_bytes_length, repeat_length. reflexivity.
Qed.

(** C2, counterexample: on the sample filesystem a target of 60 bytes goes
    through the page mapping and takes a data block, and a target of
    [block_size] bytes is refused. *)
Lemma ext2_symlink_boundary_counterexample :
  (exists fs' dir' ino,
     ext2_symlink false sample_fs sample_root [108] (repeat 97 60) 1000
       = (Ok tt, fs', dir', Some ino)
     /\ strlen (repeat 97 60) <= 60
     /\ i_op ino = page_symlink_inode_operations
     /\ i_blocks ino = 2
     /\ s_freeblocks_counter fs' = s_freeblocks_counter sample_fs - 1)
  /\ strlen (repeat 97 1024) <= s_blocksize (fs_sbi sample_fs)
  /\ ext2_symlink false sample_fs sample_root [108] (repeat 97 1024) 1000
     = (Err ENAMETOOLONG, sample_fs, sample_root, None).
Proof.
  split.
  - eexists _, _, _. split; [vm_compute; reflexivity|].
    repeat split; vm_compute; congruence.
  - split; [vm_compute; discriminate | vm_compute; reflexivity].
Qed.

(** C2, amended: the thresholds count the terminating NUL.  For every
    target [s] (shorter than 2^32 bytes, on a filesystem whose block fits a
    page): if [length s >= block_size], [ext2_symlink] fails with
    [ENAMETOOLONG] and changes nothing, so no inode is allocated; when it
    succeeds, [length s < block_size], and either [length s <= 59] and the
    target is stored inline in the block array of the inode, with its NUL
    (fast symlink: no data block, no page), or [60 <= length s] and the
    target is stored in page 0 through the page mapping (slow symlink). *)
Theorem ext2_symlink_thresholds be fs dir name symname now :
  strlen symname + 1 < 2 ^ 32 ->
  s_blocksize (fs_sbi fs) <= PAGE_SIZE ->
  (s_blocksize (fs_sbi fs) <= strlen symname ->
   ext2_symlink be fs dir name symname now = (Err ENAMETOOLONG, fs, dir, None))
  /\ (forall fs' dir' ino,
        ext2_symlink be fs dir name symname now = (Ok tt, fs', dir', Some ino) ->
        strlen symname < s_blocksize (fs_sbi fs)
        /\ (strlen symname <= 59 ->
            i_op ino = simple_symlink_inode_operations
            /\ i_blocks ino = 0
            /\ i_mapping ino = []
            /\ i_size ino = strlen symname
            /\ firstn (S (length symname)) (words_to_bytes be (i_data ino))
               = map u8 symname ++ [0])
        /\ (60 <= strlen symname ->
            i_op ino = page_symlink_inode_operations
            /\ i_size ino = strlen symname
            /\ exists f, i_mapping ino = [Some f]
                 /\ firstn (length symname) (f_data f) = map u8 symname)).
Proof.
  intros Hl Hbs.
  assert (Hlen0 : 0 <= strlen symname) by (unfold strlen; lia).
  unfold ext2_symlink. rewrite (u32_small (strlen symname + 1)) by lia.
  split.
  - intros Hlong.
    destruct (Z.ltb_spec (s_blocksize (fs_sbi fs)) (strlen symname + 1));
      [reflexivity | lia].
  - intros fs' dir' ino.
    destruct (Z.ltb_spec (s_blocksize (fs_sbi fs)) (strlen symname + 1));
      [discriminate|].
    destruct (ext2_new_inode fs dir (Z.lor S_IFLNK S_IRWXUGO))
      as [[ino0 | e] fs0] eqn:Hnew; [|discriminate].
    apply ext2_new_inode_fresh in Hnew.
    destruct Hnew as (Hdata & Hblocks & Hsize & Hmap & _).
    unfold SIZEOF_I_DATA, EXT2_N_BLOCKS. change (4 * 15) with 60.
    destruct (Z.ltb_spec 60 (strlen symname + 1)) as [Hslow | Hfast].
    + (* slow symlink *)
      unfold page_symlink.
      destruct (ext2_prepare_chunk be fs0
                  (set_i_op ino0 page_symlink_inode_operations) 0
                  (strlen symname + 1 - 1)) as [[[u | e] fs1] ino1] eqn:Hprep.
      2:{ destruct (if i_size ino1 <? _ then _ else _) as [fs2 ino2].
          destruct (discard_new_inode be fs2 _ now). discriminate. }
      apply ext2_prepare_chunk_inode in Hprep. destruct Hprep as (d & b & ->).
      match goal with
      | |- context [ext2_add_nondir be fs1 dir name ?i now] =>
          destruct (ext2_add_nondir be fs1 dir name i now)
            as [[[r fs2] dir2] ino2] eqn:Hadd
      end.
      intros [= -> <- <- <-].
      apply ext2_add_nondir_ok in Hadd. subst ino2.
      split; [lia|]. split; [intros; lia|]. intros _.
      simpl i_size. rewrite Hsize.
      destruct (Z.ltb_spec 0 (strlen symname + 1 - 1)); [|lia].
      split; [reflexivity|]. split; [simpl; lia|].
      eexists. split.
      * simpl. rewrite Hmap. reflexivity.
      * simpl f_data. unfold put_bytes. simpl (0 <? 0). cbv iota.
        rewrite <- (length_map u8 symname) at 1.
        apply write_bytes_prefix.
        rewrite length_map, zero_page_length.
        unfold strlen, PAGE_SIZE in *. lia.
    + (* fast symlink *)
      match goal with
      | |- context [ext2_add_nondir be fs0 dir name ?i now] =>
          destruct (ext2_add_nondir be fs0 dir name i now)
            as [[[r fs2] dir2] ino2] eqn:Hadd
      end.
      intros [= -> <- <- <-].
      apply ext2_add_nondir_ok in Hadd. subst ino2.
      split; [lia|]. split; [|intros; lia]. intros _.
      split; [reflexivity|]. split; [exact Hblocks|].
      split; [exact Hmap|]. split; [simpl; lia|].
      simpl i_data. rewrite Hdata.
      replace (S (length symname)) with (length (symname ++ [0]))
        by (rewrite length_app; simpl; lia).
      rewrite memcpy_i_data_reads_back.
      * rewrite map_app. reflexivity.
      * rewrite length_app. simpl. unfold strlen in *. lia.
Qed.

Lemma ext2_symlink_thresholds_witness :
  ext2_symlink false sample_fs sample_root [108] (repeat 97 1024) 1000
  = (Err ENAMETOOLONG, sample_fs, sample_root, None).
Proof.
  apply (proj1 (ext2_symlink_thresholds false sample_fs sample_root [108]
                  (repeat 97 1024) 1000 ltac:(vm_compute; reflexivity)
                  ltac:(vm_compute; discriminate))).
  vm_compute. discriminate.
Defined.

(** *** Frames: what the allocator paths leave alone *)

(** Two states with the same geometry, groups, counters, bad blocks and
    inode table: they differ at most in the error flags and the log. *)
Definition same_core (fs fs' : ext2_fs) : Prop :=
  fs_sbi fs' = fs_sbi fs
  /\ fs_groups fs' = fs_groups fs
  /\ s_freeblocks_counter fs' = s_freeblocks_counter fs
  /\ s_freeinodes_counter fs' = s_freeinodes_counter fs
  /\ s_dirs_counter fs' = s_dirs_counter fs
  /\ fs_bad_blocks fs' = fs_bad_blocks fs
  /\ fs_itable fs' = fs_itable fs
  /\ (length (fs_log fs) <= length (fs_log fs'))%nat.

Lemma same_core_refl fs : same_core fs fs.
Proof. unfold same_core. repeat split; reflexivity. Qed.

Lemma same_core_trans a b c : same_core a b -> same_core b c -> same_core a c.
Proof.
  unfold same_core. intros (H1 & H2 & H3 & H4 & H5 & H6 & H7 & H8)
                           (K1 & K2 & K3 & K4 & K5 & K6 & K7 & K8).
  repeat split; try congruence. lia.
Qed.

Lemma ext2_error_same_core fs msg : same_core fs (ext2_error fs msg).
Proof.
  unfold same_core, ext2_error; simpl. repeat split.
  rewrite length_app. lia.
Qed.

Lemma ext2_error_log fs msg :
  (length (fs_log fs) < length (fs_log (ext2_error fs msg)))%nat.
Proof. unfold ext2_error; simpl. rewrite length_app. simpl. lia. Qed.

Lemma same_core_group_at fs fs' g :
  same_core fs fs' -> group_at fs' g = group_at fs g.
Proof. intros (_ & H & _). unfold group_at. rewrite H. reflexivity. Qed.

Lemma same_core_sb_bread fs fs' b :
  same_core fs fs' -> sb_bread fs' b = sb_bread fs b.
Proof. intros (_ & _ & _ & _ & _ & H & _). unfold sb_bread. rewrite H. reflexivity. Qed.

(** [ext2_get_group_desc] answers from the table and may only log. *)
Lemma ext2_get_group_desc_spec fs g r fs' :
  ext2_get_group_desc fs g = (r, fs') ->
  same_core fs fs'
  /\ match r with
     | Some d =>
         fs' = fs /\ u32 g < s_groups_count (fs_sbi fs)
         /\ exists grp, group_at fs (u32 g) = Some grp /\ d = g_desc grp
     | None =>
         (length (fs_log fs) < length (fs_log fs'))%nat
         /\ (s_groups_count (fs_sbi fs) <= u32 g \/ group_at fs (u32 g) = None)
     end.
Proof.
  unfold ext2_get_group_desc.
  destruct (Z.leb_spec (s_groups_count (fs_sbi fs)) (u32 g)).
  - intros [= <- <-]. split; [apply ext2_error_same_core|].
    split; [apply ext2_error_log | left; assumption].
  - destruct (group_at fs (u32 g)) as [grp|] eqn:Hat.
    + intros [= <- <-]. split; [apply same_core_refl|].
      split; [reflexivity|]. split; [assumption|]. exists grp. split; reflexivity.
    + intros [= <- <-]. split; [apply ext2_error_same_core|].
      split; [apply ext2_error_log | right; reflexivity].
Qed.

(** Groups that agree on descriptor and bitmaps; the buffer of the second
    is up to date if that of the first is. *)
Definition grp_same (a b : ext2_group) : Prop :=
  g_desc b = g_desc a
  /\ g_block_bitmap b = g_block_bitmap a
  /\ g_inode_bitmap b = g_inode_bitmap a
  /\ (g_bb_uptodate a = true -> g_bb_uptodate b = true).

(** States that agree on everything the allocators count. *)
Definition same_alloc (fs fs' : ext2_fs) : Prop :=
  fs_sbi fs' = fs_sbi fs
  /\ Forall2 grp_same (fs_groups fs) (fs_groups fs')
  /\ s_freeblocks_counter fs' = s_freeblocks_counter fs
  /\ s_freeinodes_counter fs' = s_freeinodes_counter fs
  /\ s_dirs_counter fs' = s_dirs_counter fs
  /\ fs_bad_blocks fs' = fs_bad_blocks fs
  /\ (length (fs_log fs) <= length (fs_log fs'))%nat.

Lemma grp_same_refl a : grp_same a a.
Proof. unfold grp_same. repeat split; auto. Qed.

Lemma grp_same_trans a b c : grp_same a b -> grp_same b c -> grp_same a c.
Proof.
  unfold grp_same. intros (H1 & H2 & H3 & H4) (K1 & K2 & K3 & K4).
  repeat split; try congruence. auto.
Qed.

Lemma Forall2_grp_same_refl l : Forall2 grp_same l l.
Proof. induction l; constructor; [apply grp_same_refl | assumption]. Qed.

Lemma Forall2_grp_same_trans l1 l2 l3 :
  Forall2 grp_same l1 l2 -> Forall2 grp_same l2 l3 -> Forall2 grp_same l1 l3.
Proof.
  intros H. revert l3. induction H as [|a b l1 l2 Hab _ IH]; intros l3 H3.
  - inversion H3. constructor.
  - inversion H3 as [|? c ? l3' Hbc H3']; subst. constructor.
    + eapply grp_same_trans; eassumption.
    + apply IH. assumption.
Qed.

Lemma same_alloc_refl fs : same_alloc fs fs.
Proof.
  unfold same_alloc. repeat split; try reflexivity.
  apply Forall2_grp_same_refl.
Qed.

Lemma same_alloc_trans a b c : same_alloc a b -> same_alloc b c -> same_alloc a c.
Proof.
  unfold same_alloc. intros (H1 & H2 & H3 & H4 & H5 & H6 & H7)
                            (K1 & K2 & K3 & K4 & K5 & K6 & K7).
  repeat split; try congruence; [|lia].
  eapply Forall2_grp_same_trans; eassumption.
Qed.

Lemma same_core_alloc fs fs' : same_core fs fs' -> same_alloc fs fs'.
Proof.
  intros (H1 & H2 & H3 & H4 & H5 & H6 & _ & H8).
  unfold same_alloc. repeat split; try assumption.
  rewrite H2. apply Forall2_grp_same_refl.
Qed.

Lemma same_alloc_group_at fs fs' g grp :
  same_alloc fs fs' ->
  group_at fs g = Some grp ->
  exists grp', group_at fs' g = Some grp' /\ grp_same grp grp'.
Proof.
  intros (_ & H & _). unfold group_at. destruct (g <? 0); [discriminate|].
  intros Hat. destruct (Forall2_lookup_l _ _ _ _ _ H Hat) as (grp' & H1 & H2).
  exists grp'. split; assumption.
Qed.

Lemma same_alloc_group_at_none fs fs' g :
  same_alloc fs fs' -> group_at fs g = None -> group_at fs' g = None.
Proof.
  intros (_ & H & _). unfold group_at. destruct (g <? 0); [reflexivity|].
  intros Hat. apply lookup_ge_None in Hat. apply lookup_ge_None.
  rewrite <- (Forall2_length _ _ _ H). exact Hat.
Qed.

Lemma same_alloc_sb_bread fs fs' b :
  same_alloc fs fs' -> sb_bread fs' b = sb_bread fs b.
Proof. intros (_ & _ & _ & _ & _ & H & _). unfold sb_bread. rewrite H. reflexivity. Qed.

Lemma group_at_update_eq fs g grp grp0 :
  group_at fs g = Some grp0 ->
  group_at (update_group fs g grp) g = Some grp.
Proof.
  unfold group_at, update_group. destruct (g <? 0); [discriminate|].
  intros H. simpl. apply list_lookup_insert_eq.
  eapply lookup_lt_Some. exact H.
Qed.

Lemma group_at_update_ne fs g k grp :
  0 <= g -> 0 <= k -> k <> g ->
  group_at (update_group fs g grp) k = group_at fs k.
Proof.
  unfold group_at, update_group. intros Hg Hk Hne.
  destruct (k <? 0); [reflexivity|]. simpl.
  apply list_lookup_insert_ne. lia.
Qed.

Lemma update_group_same_alloc fs g grp grp0 :
  group_at fs g = Some grp0 ->
  grp_same grp0 grp ->
  same_alloc fs (update_group fs g grp).
Proof.
  intros Hat Hs. unfold same_alloc, update_group; simpl.
  repeat split; try reflexivity.
  unfold group_at in Hat. destruct (g <? 0); [discriminate|].
  apply Forall2_same_length_lookup_2.
  - rewrite length_insert. reflexivity.
  - intros i x y Hx Hy.
    destruct (decide (i = Z.to_nat g)) as [-> | Hne].
    + rewrite list_lookup_insert_eq in Hy by (eapply lookup_lt_Some; eassumption).
      congruence.
    + rewrite list_lookup_insert_ne in Hy by congruence.
      assert (x = y) by congruence. subst. apply grp_same_refl.
Qed.

(** *** The block bitmap of a group, as the allocator obtains it *)

Lemma ext2_block_bitmap_valid_same_core fs desc g bm r fs' :
  ext2_block_bitmap_valid fs desc g bm = (r, fs') ->
  same_core fs fs'
  /\ (r = false -> (length (fs_log fs) < length (fs_log fs'))%nat).
Proof.
  unfold ext2_block_bitmap_valid.
  repeat match goal with
         | |- context [if ?c then _ else _] => destruct c
         end;
    intros [= <- <-];
    (split; [first [apply ext2_error_same_core | apply same_core_refl]
            | intros; first [apply ext2_error_log | discriminate]]).
Qed.

(** The bitmap buffer of group [g] can be had without a fresh validation:
    it is up to date, or its block cannot be read (the source then hands
    the buffer out all the same). *)
Definition bitmap_ready (fs : ext2_fs) (g : Z) : Prop :=
  exists grp,
    group_at fs g = Some grp
    /\ (g_bb_uptodate grp = true
        \/ sb_bread fs (bg_block_bitmap (g_desc grp)) = false).

Lemma bitmap_ready_same_alloc fs fs' g :
  same_alloc fs fs' -> bitmap_ready fs g -> bitmap_ready fs' g.
Proof.
  intros Hs (grp & Hat & Hr).
  destruct (same_alloc_group_at _ _ _ _ Hs Hat) as (grp' & Hat' & Hd & _ & _ & Hu).
  exists grp'. split; [assumption|]. destruct Hr as [Hr | Hr].
  - left. auto.
  - right. rewrite (same_alloc_sb_bread _ _ _ Hs), Hd. exact Hr.
Qed.

Lemma ext2_read_block_bitmap_ready fs g grp :
  0 <= g < 2 ^ 32 ->
  g < s_groups_count (fs_sbi fs) ->
  group_at fs g = Some grp ->
  g_bb_uptodate grp = true
  \/ sb_bread fs (bg_block_bitmap (g_desc grp)) = false ->
  ext2_read_block_bitmap fs g = (Some (g_block_bitmap grp), fs).
Proof.
  intros Hr Hg Hat Hready. unfold ext2_read_block_bitmap.
  rewrite (ext2_get_group_desc_some fs g grp Hr Hg Hat).
  rewrite u32_small by exact Hr. rewrite Hat.
  destruct (g_bb_uptodate grp); [reflexivity|].
  destruct Hready as [Hu | Hb]; [discriminate|]. rewrite Hb. reflexivity.
Qed.

Lemma ext2_read_block_bitmap_spec fs g r fs' :
  ext2_read_block_bitmap fs g = (r, fs') ->
  same_alloc fs fs'
  /\ match r with
     | Some bm =>
         u32 g < s_groups_count (fs_sbi fs)
         /\ (exists grp, group_at fs (u32 g) = Some grp
                         /\ bm = g_block_bitmap grp)
         /\ bitmap_ready fs' (u32 g)
     | None => (length (fs_log fs) < length (fs_log fs'))%nat
     end.
Proof.
  unfold ext2_read_block_bitmap.
  destruct (ext2_get_group_desc fs g) as [[desc|] fs0] eqn:Hd;
    apply ext2_get_group_desc_spec in Hd; destruct Hd as (Hc & Hd).
  2:{ intros [= <- <-]. split; [apply same_core_alloc; assumption | tauto]. }
  destruct Hd as (-> & Hlt & grp & Hat & ->). rewrite Hat.
  destruct (g_bb_uptodate grp) eqn:Hu.
  { intros [= <- <-]. split; [apply same_alloc_refl|].
    split; [assumption|]. split; [eauto|]. exists grp. tauto. }
  destruct (sb_bread fs (bg_block_bitmap (g_desc grp))) eqn:Hb; simpl negb; cbv iota.
  2:{ intros [= <- <-]. split; [apply same_alloc_refl|].
      split; [assumption|]. split; [eauto|]. exists grp. tauto. }
  set (grp1 := {| g_desc := g_desc grp; g_block_bitmap := g_block_bitmap grp;
                  g_bb_uptodate := true;
                  g_inode_bitmap := g_inode_bitmap grp |}).
  assert (Hs1 : same_alloc fs (update_group fs (u32 g) grp1)).
  { apply (update_group_same_alloc fs (u32 g) grp1 grp Hat).
    unfold grp_same; simpl. tauto. }
  assert (Hat1 : group_at (update_group fs (u32 g) grp1) (u32 g) = Some grp1).
  { eapply group_at_update_eq. exact Hat. }
  destruct (ext2_block_bitmap_valid _ (g_desc grp) (u32 g) (g_block_bitmap grp))
    as [[|] fs1] eqn:Hv;
    apply ext2_block_bitmap_valid_same_core in Hv; destruct Hv as (Hc1 & Hlog).
  - intros [= <- <-]. split.
    { eapply same_alloc_trans; [exact Hs1 | apply same_core_alloc; exact Hc1]. }
    split; [assumption|]. split; [eauto|].
    exists grp1. rewrite (same_core_group_at _ _ _ Hc1). split; [exact Hat1|].
    left. reflexivity.
  - intros [= <- <-]. split.
    { eapply same_alloc_trans; [exact Hs1|].
      apply same_core_alloc. eapply same_core_trans; [exact Hc1|].
      apply ext2_error_same_core. }
    pose proof (ext2_error_log fs1 "Block bitmap is not valid") as Hl.
    destruct Hs1 as (_ & _ & _ & _ & _ & _ & Hl1).
    destruct Hc1 as (_ & _ & _ & _ & _ & _ & _ & Hl2). lia.
Qed.

(** *** Runs of bits *)

(** The number of set bits among [n] bits from [from]. *)
Fixpoint count_set (bm : Z) (from : Z) (n : nat) : Z :=
  match n with
  | O => 0
  | S k => (if Z.testbit bm from then 1 else 0) + count_set bm (from + 1) k
  end.

(** The bitmap with [n] bits from [from] cleared, and with them set. *)
Fixpoint clear_run (bm : Z) (from : Z) (n : nat) : Z :=
  match n with
  | O => bm
  | S k => clear_run (Z.clearbit bm from) (from + 1) k
  end.

Fixpoint set_run (bm : Z) (from : Z) (n : nat) : Z :=
  match n with
  | O => bm
  | S k => set_run (Z.setbit bm from) (from + 1) k
  end.

Lemma count_set_bounds bm from n : 0 <= count_set bm from n <= Z.of_nat n.
Proof.
  revert from. induction n as [|n IH]; intros from; simpl count_set; [lia|].
  specialize (IH (from + 1)). destruct (Z.testbit bm from); lia.
Qed.

Lemma count_set_ext bm bm' from n :
  (forall k, from <= k < from + Z.of_nat n -> Z.testbit bm' k = Z.testbit bm k) ->
  count_set bm' from n = count_set bm from n.
Proof.
  revert from. induction n as [|n IH]; intros from H; simpl; [reflexivity|].
  rewrite H by lia. rewrite IH; [reflexivity|]. intros k Hk. apply H. lia.
Qed.

Lemma testbit_clear_run bm from n k :
  0 <= from -> 0 <= k ->
  Z.testbit (clear_run bm from n) k
  = if (from <=? k) && (k <? from + Z.of_nat n) then false else Z.testbit bm k.
Proof.
  revert bm from. induction n as [|n IH]; intros bm from Hf Hk; simpl clear_run.
  - destruct (Z.leb_spec from k), (Z.ltb_spec k (from + Z.of_nat 0));
      simpl; try reflexivity; lia.
  - rewrite IH by lia.
    destruct (Z.leb_spec (from + 1) k), (Z.ltb_spec k (from + 1 + Z.of_nat n)),
      (Z.leb_spec from k), (Z.ltb_spec k (from + Z.of_nat (S n)));
      simpl; try reflexivity; try lia;
      first [ rewrite Z.clearbit_neq by lia; reflexivity
            | assert (k = from) by lia; subst; apply Z.clearbit_eq; lia ].
Qed.

Lemma testbit_set_run bm from n k :
  0 <= from -> 0 <= k ->
  Z.testbit (set_run bm from n) k
  = if (from <=? k) && (k <? from + Z.of_nat n) then true else Z.testbit bm k.
Proof.
  revert bm from. induction n as [|n IH]; intros bm from Hf Hk; simpl set_run.
  - destruct (Z.leb_spec from k), (Z.ltb_spec k (from + Z.of_nat 0));
      simpl; try reflexivity; lia.
  - rewrite IH by lia.
    destruct (Z.leb_spec (from + 1) k), (Z.ltb_spec k (from + 1 + Z.of_nat n)),
      (Z.leb_spec from k), (Z.ltb_spec k (from + Z.of_nat (S n)));
      simpl; try reflexivity; try lia;
      first [ rewrite Z.setbit_neq by lia; reflexivity
            | assert (k = from) by lia; subst; apply Z.setbit_eq; lia ].
Qed.

Lemma free_bits_spec todo bit i bm freed fs bm' freed' fs' :
  0 <= bit + i -> 0 <= freed -> freed + Z.of_nat todo < 2 ^ 32 ->
  free_bits todo bit i bm freed fs = (bm', freed', fs') ->
  bm' = clear_run bm (bit + i) todo
  /\ freed' = freed + count_set bm (bit + i) todo
  /\ same_core fs fs'.
Proof.
  revert i bm freed fs.
  induction todo as [|k IH]; intros i bm freed fs Hb Hf Hlt; simpl free_bits.
  - intros [= <- <- <-]. simpl. split; [reflexivity|]. split; [lia|].
    apply same_core_refl.
  - simpl clear_run. simpl count_set. destruct (Z.testbit bm (bit + i)) eqn:Hbit.
    + intros H. apply IH in H; [|lia | unfold u32; apply Z.mod_pos_bound; lia
                                 | rewrite u32_small; lia].
      destruct H as (-> & -> & Hc). rewrite u32_small by lia.
      replace (bit + (i + 1)) with (bit + i + 1) by lia.
      split; [reflexivity|]. split; [|assumption].
      rewrite (count_set_ext bm (Z.clearbit bm (bit + i))); [lia|].
      intros j Hj. apply Z.clearbit_neq. lia.
    + intros H. apply IH in H; [|lia | lia | lia].
      destruct H as (-> & -> & Hc).
      replace (bit + (i + 1)) with (bit + i + 1) by lia.
      split; [reflexivity|]. split.
      * rewrite (count_set_ext bm (Z.clearbit bm (bit + i))); [lia|].
        intros j Hj. apply Z.clearbit_neq. lia.
      * eapply same_core_trans; [apply ext2_error_same_core | exact Hc].
Qed.

(** *** Updates of one group *)

(** States that differ in the group table only. *)
Definition same_env (fs fs' : ext2_fs) : Prop :=
  fs_sbi fs' = fs_sbi fs
  /\ s_freeblocks_counter fs' = s_freeblocks_counter fs
  /\ s_freeinodes_counter fs' = s_freeinodes_counter fs
  /\ s_dirs_counter fs' = s_dirs_counter fs
  /\ fs_bad_blocks fs' = fs_bad_blocks fs
  /\ fs_itable fs' = fs_itable fs
  /\ fs_log fs' = fs_log fs
  /\ length (fs_groups fs') = length (fs_groups fs).

Lemma same_env_refl fs : same_env fs fs.
Proof. unfold same_env. repeat split; reflexivity. Qed.

Lemma update_group_same_env fs g grp : same_env fs (update_group fs g grp).
Proof.
  unfold same_env, update_group; simpl. repeat split. apply length_insert.
Qed.

Lemma set_block_bitmap_same_env fs g bm : same_env fs (set_block_bitmap fs g bm).
Proof.
  unfold set_block_bitmap. destruct (group_at fs g);
    [apply update_group_same_env | apply same_env_refl].
Qed.

Lemma set_desc_same_env fs g d : same_env fs (set_desc fs g d).
Proof.
  unfold set_desc. destruct (group_at fs g);
    [apply update_group_same_env | apply same_env_refl].
Qed.

Lemma set_inode_bitmap_same_env fs g bm : same_env fs (set_inode_bitmap fs g bm).
Proof.
  unfold set_inode_bitmap. destruct (group_at fs g);
    [apply update_group_same_env | apply same_env_refl].
Qed.

Lemma set_block_bitmap_at fs g bm grp :
  group_at fs g = Some grp ->
  group_at (set_block_bitmap fs g bm) g
  = Some {| g_desc := g_desc grp; g_block_bitmap := bm;
            g_bb_uptodate := g_bb_uptodate grp;
            g_inode_bitmap := g_inode_bitmap grp |}.
Proof.
  intros H. unfold set_block_bitmap. rewrite H.
  eapply group_at_update_eq. exact H.
Qed.

Lemma set_block_bitmap_other fs g bm k :
  0 <= g -> 0 <= k -> k <> g ->
  group_at (set_block_bitmap fs g bm) k = group_at fs k.
Proof.
  intros. unfold set_block_bitmap. destruct (group_at fs g); [|reflexivity].
  apply group_at_update_ne; assumption.
Qed.

Lemma set_desc_at fs g d grp :
  group_at fs g = Some grp ->
  group_at (set_desc fs g d) g
  = Some {| g_desc := d; g_block_bitmap := g_block_bitmap grp;
            g_bb_uptodate := g_bb_uptodate grp;
            g_inode_bitmap := g_inode_bitmap grp |}.
Proof.
  intros H. unfold set_desc. rewrite H. eapply group_at_update_eq. exact H.
Qed.

Lemma set_desc_other fs g d k :
  0 <= g -> 0 <= k -> k <> g ->
  group_at (set_desc fs g d) k = group_at fs k.
Proof.
  intros. unfold set_desc. destruct (group_at fs g); [|reflexivity].
  apply group_at_update_ne; assumption.
Qed.

Lemma set_inode_bitmap_at fs g bm grp :
  group_at fs g = Some grp ->
  group_at (set_inode_bitmap fs g bm) g
  = Some {| g_desc := g_desc grp; g_block_bitmap := g_block_bitmap grp;
            g_bb_uptodate := g_bb_uptodate grp;
            g_inode_bitmap := bm |}.
Proof.
  intros H. unfold set_inode_bitmap. rewrite H.
  eapply group_at_update_eq. exact H.
Qed.

Lemma set_inode_bitmap_other fs g bm k :
  0 <= g -> 0 <= k -> k <> g ->
  group_at (set_inode_bitmap fs g bm) k = group_at fs k.
Proof.
  intros. unfold set_inode_bitmap. destruct (group_at fs g); [|reflexivity].
  apply group_at_update_ne; assumption.
Qed.

Lemma u16_add_s32 x f : u16 (x + s32 f) = u16 (x + f).
Proof.
  unfold u16, s32.
  replace (x + ((f + 2 ^ 31) mod 2 ^ 32 - 2 ^ 31))
    with (x + f - 2 ^ 16 * ((f + 2 ^ 31) / 2 ^ 32 * 2 ^ 16)).
  - rewrite Zminus_mod. rewrite (Z.mul_comm (2 ^ 16)), Z_mod_mult.
    rewrite Z.sub_0_r. apply Z.mod_mod. lia.
  - pose proof (Z.div_mod (f + 2 ^ 31) (2 ^ 32) ltac:(lia)) as H.
    change (2 ^ 32) with (2 ^ 16 * 2 ^ 16) in H at 1. lia.
Qed.

Lemma s32_zero_iff f : 0 <= f < 2 ^ 32 -> (s32 f = 0 <-> f = 0).
Proof.
  intros H. unfold s32. split; [|intros ->; reflexivity].
  intros E. destruct (Z.lt_ge_cases f (2 ^ 31)).
  - rewrite Z.mod_small in E by lia. lia.
  - replace (f + 2 ^ 31) with (f - 2 ^ 31 + 1 * 2 ^ 32) in E by lia.
    rewrite Z.mod_add in E by lia. rewrite Z.mod_small in E by lia. lia.
Qed.

Lemma group_update_free_blocks_at fs g c grp :
  group_at fs g = Some grp ->
  0 <= bg_free_blocks_count (g_desc grp) < 2 ^ 16 ->
  exists grp',
    group_at (group_update_free_blocks fs g c) g = Some grp'
    /\ bg_free_blocks_count (g_desc grp')
       = u16 (bg_free_blocks_count (g_desc grp) + c)
    /\ bg_block_bitmap (g_desc grp') = bg_block_bitmap (g_desc grp)
    /\ bg_inode_bitmap (g_desc grp') = bg_inode_bitmap (g_desc grp)
    /\ bg_inode_table (g_desc grp') = bg_inode_table (g_desc grp)
    /\ bg_free_inodes_count (g_desc grp') = bg_free_inodes_count (g_desc grp)
    /\ bg_used_dirs_count (g_desc grp') = bg_used_dirs_count (g_desc grp)
    /\ g_block_bitmap grp' = g_block_bitmap grp
    /\ g_inode_bitmap grp' = g_inode_bitmap grp
    /\ g_bb_uptodate grp' = g_bb_uptodate grp.
Proof.
  intros Hat Hr. unfold group_update_free_blocks.
  destruct (Z.eqb_spec c 0) as [-> | Hc].
  - exists grp. rewrite Z.add_0_r, u16_small by exact Hr. tauto.
  - rewrite Hat. eexists. split; [apply set_desc_at; exact Hat|].
    simpl. tauto.
Qed.

Lemma group_update_free_blocks_other fs g c k :
  0 <= g -> 0 <= k -> k <> g ->
  group_at (group_update_free_blocks fs g c) k = group_at fs k.
Proof.
  intros. unfold group_update_free_blocks. destruct (c =? 0); [reflexivity|].
  destruct (group_at fs g); [|reflexivity]. apply set_desc_other; assumption.
Qed.

Lemma group_update_free_blocks_same_env fs g c :
  same_env fs (group_update_free_blocks fs g c).
Proof.
  unfold group_update_free_blocks. destruct (c =? 0); [apply same_env_refl|].
  destruct (group_at fs g); [apply set_desc_same_env | apply same_env_refl].
Qed.

(** *** The validity checks of the free path *)

Lemma ext2_in_range_iff b first len :
  0 <= first + len - 1 < 2 ^ 64 ->
  ext2_in_range b first len = true <-> first <= b <= first + len - 1.
Proof.
  intros H. unfold ext2_in_range. rewrite u64_small by exact H.
  rewrite andb_true_iff, !Z.leb_le. tauto.
Qed.

Lemma ext2_data_blocks_valid_iff sbi block count :
  0 <= block < 2 ^ 32 -> 0 < count < 2 ^ 32 ->
  ext2_data_blocks_valid sbi block count = true
  <-> s_first_data_block (s_es sbi) < block
      /\ block + count - 1 < s_blocks_count (s_es sbi)
      /\ ~ (block <= s_sb_block sbi <= block + count - 1).
Proof.
  intros Hb Hc. unfold ext2_data_blocks_valid.
  rewrite (u32_small count) by lia.
  rewrite (u64_small (block + count - 1)) by lia.
  destruct (Z.ltb_spec (block + count - 1) block); [lia|].
  destruct (Z.leb_spec block (s_first_data_block (s_es sbi))).
  { split; [discriminate | lia]. }
  destruct (Z.leb_spec (s_blocks_count (s_es sbi)) (block + count - 1)).
  { split; [discriminate | lia]. }
  destruct (Z.leb_spec block (s_sb_block sbi)),
    (Z.leb_spec (s_sb_block sbi) (block + count - 1)); simpl;
    split; try discriminate; try lia; intros _; repeat split; lia.
Qed.

Lemma ext2_data_blocks_valid_bg_iff desc sbi block count :
  0 <= block < 2 ^ 32 -> 0 < count < 2 ^ 32 ->
  0 < bg_inode_table desc -> 0 <= s_itb_per_group sbi ->
  bg_inode_table desc + s_itb_per_group sbi <= 2 ^ 64 ->
  let it := bg_inode_table desc in
  let itb := s_itb_per_group sbi in
  ext2_data_blocks_valid_bg desc sbi block count = true
  <-> ~ (block <= bg_block_bitmap desc <= block + count - 1)
      /\ ~ (block <= bg_inode_bitmap desc <= block + count - 1)
      /\ ~ (it <= block <= it + itb - 1)
      /\ ~ (it <= block + count - 1 <= it + itb - 1).
Proof.
  intros Hb Hc Hit Hitb Hsum. cbv zeta. unfold ext2_data_blocks_valid_bg.
  rewrite (u32_small count) by lia.
  rewrite (u64_small (block + count - 1)) by lia.
  destruct (Z.ltb_spec (block + count - 1) block); [lia|].
  pose proof (ext2_in_range_iff (bg_block_bitmap desc) block count ltac:(lia)) as R1.
  pose proof (ext2_in_range_iff (bg_inode_bitmap desc) block count ltac:(lia)) as R2.
  pose proof (ext2_in_range_iff block (bg_inode_table desc)
                (s_itb_per_group sbi) ltac:(lia)) as R3.
  pose proof (ext2_in_range_iff (block + count - 1) (bg_inode_table desc)
                (s_itb_per_group sbi) ltac:(lia)) as R4.
  destruct (ext2_in_range (bg_block_bitmap desc) block count).
  { split; [discriminate|]. intros (N & _). exfalso. apply N, R1. reflexivity. }
  destruct (ext2_in_range (bg_inode_bitmap desc) block count).
  { split; [discriminate|]. intros (_ & N & _). exfalso. apply N, R2. reflexivity. }
  destruct (ext2_in_range block (bg_inode_table desc) (s_itb_per_group sbi)).
  { split; [discriminate|]. intros (_ & _ & N & _). exfalso. apply N, R3. reflexivity. }
  destruct (ext2_in_range (block + count - 1) (bg_inode_table desc)
              (s_itb_per_group sbi)).
  { split; [discriminate|]. intros (_ & _ & _ & N). exfalso. apply N, R4. reflexivity. }
  split; [|reflexivity]. intros _.
  repeat split; intros K; [apply R1 in K | apply R2 in K | apply R3 in K | apply R4 in K];
    discriminate.
Qed.

Lemma percpu_counter_add_freeblocks_zero fs :
  percpu_counter_add_freeblocks fs 0 = fs.
Proof.
  destruct fs. unfold percpu_counter_add_freeblocks, set_counters. simpl.
  rewrite Z.add_0_r. reflexivity.
Qed.

(** The effect of [ext2_free_blocks] on a run that passes its checks. *)
Lemma ext2_free_blocks_frees fs ino block count grp :
  let sbi := fs_sbi fs in
  let g := (block - s_first_data_block (s_es sbi)) / s_blocks_per_group sbi in
  let bit := (block - s_first_data_block (s_es sbi)) mod s_blocks_per_group sbi in
  let freed := count_set (g_block_bitmap grp) bit (Z.to_nat count) in
  0 <= s_first_data_block (s_es sbi) -> 0 < s_blocks_per_group sbi ->
  0 <= block < 2 ^ 32 -> 0 < count < 2 ^ 32 ->
  ext2_data_blocks_valid sbi block count = true ->
  g < s_groups_count sbi ->
  group_at fs g = Some grp ->
  g_bb_uptodate grp = true
  \/ sb_bread fs (bg_block_bitmap (g_desc grp)) = false ->
  ext2_data_blocks_valid_bg (g_desc grp) sbi block count = true ->
  exists fs1,
    same_core fs fs1
    /\ ext2_free_blocks fs ino block count
       = (percpu_counter_add_freeblocks
            (group_update_free_blocks
               (set_block_bitmap fs1 g
                  (clear_run (g_block_bitmap grp) bit (Z.to_nat count)))
               g (s32 freed))
            freed,
          if freed =? 0 then ino
          else set_i_blocks ino
                 (u64 (i_blocks ino - u64 (freed * s_blocksize sbi) / 512))).
Proof.
  cbv zeta. intros Hfdb Hbpg Hb Hc Hv Hg Hat Hready Hvbg.
  pose proof (proj1 (ext2_data_blocks_valid_iff _ _ _ Hb Hc) Hv) as (Hlow & _).
  unfold ext2_free_blocks. rewrite Hv. simpl negb. cbv iota.
  rewrite (u64_small (block - _)) by lia.
  set (g := (block - s_first_data_block (s_es (fs_sbi fs)))
            / s_blocks_per_group (fs_sbi fs)) in *.
  set (bit := (block - s_first_data_block (s_es (fs_sbi fs)))
              mod s_blocks_per_group (fs_sbi fs)) in *.
  assert (Hgr : 0 <= g < 2 ^ 32).
  { subst g. split; [apply Z.div_pos; lia|].
    apply Z.div_lt_upper_bound; [lia|]. nia. }
  assert (Hbit : 0 <= bit) by (subst bit; apply Z.mod_pos_bound; lia).
  rewrite (ext2_read_block_bitmap_ready fs g grp Hgr Hg Hat Hready).
  rewrite (ext2_get_group_desc_some fs g grp Hgr Hg Hat).
  rewrite Hvbg. simpl negb. cbv iota.
  destruct (free_bits (Z.to_nat count) bit 0 (g_block_bitmap grp) 0 fs)
    as [[bm' freed] fs1] eqn:Hfree.
  apply free_bits_spec in Hfree; [|lia | lia | rewrite Z2Nat.id; lia].
  rewrite Z.add_0_r in Hfree. destruct Hfree as (-> & -> & Hcore).
  rewrite Z.add_0_l. rewrite (u32_small g) by exact Hgr.
  exists fs1. split; [exact Hcore|].
  destruct (Z.eqb_spec (count_set (g_block_bitmap grp) bit (Z.to_nat count)) 0)
    as [E | E].
  - rewrite E. rewrite percpu_counter_add_freeblocks_zero. reflexivity.
  - reflexivity.
Qed.

(** A run that fails one of the checks leaves the allocator as it was and
    is reported. *)
Lemma ext2_free_blocks_rejects fs ino block count fs' ino' :
  let sbi := fs_sbi fs in
  let g := (block - s_first_data_block (s_es sbi)) / s_blocks_per_group sbi in
  0 <= s_first_data_block (s_es sbi) -> 0 < s_blocks_per_group sbi ->
  0 <= block < 2 ^ 32 -> 0 < count < 2 ^ 32 ->
  ext2_data_blocks_valid sbi block count = false
  \/ (exists grp, group_at fs g = Some grp
        /\ ext2_data_blocks_valid_bg (g_desc grp) sbi block count = false) ->
  ext2_free_blocks fs ino block count = (fs', ino') ->
  same_alloc fs fs'
  /\ (length (fs_log fs) < length (fs_log fs'))%nat
  /\ ino' = ino.
Proof.
  cbv zeta. intros Hfdb Hbpg Hb Hc Hbad. unfold ext2_free_blocks.
  destruct (ext2_data_blocks_valid (fs_sbi fs) block count) eqn:Hv;
    simpl negb; cbv iota.
  2:{ intros [= <- <-]. split; [apply same_core_alloc, ext2_error_same_core|].
      split; [apply ext2_error_log | reflexivity]. }
  destruct Hbad as [Hbad | (grp & Hat & Hvbg)]; [discriminate|].
  pose proof (proj1 (ext2_data_blocks_valid_iff _ _ _ Hb Hc) Hv) as (Hlow & _).
  rewrite (u64_small (block - _)) by lia.
  set (g := (block - s_first_data_block (s_es (fs_sbi fs)))
            / s_blocks_per_group (fs_sbi fs)) in *.
  assert (Hgr : 0 <= g < 2 ^ 32).
  { subst g. split; [apply Z.div_pos; lia|].
    apply Z.div_lt_upper_bound; [lia|]. nia. }
  destruct (ext2_read_block_bitmap fs g) as [[bm|] fs1] eqn:Hread;
    apply ext2_read_block_bitmap_spec in Hread; destruct Hread as (Hs1 & Hr).
  2:{ intros [= <- <-]. tauto. }
  destruct (ext2_get_group_desc fs1 g) as [[desc|] fs2] eqn:Hd;
    apply ext2_get_group_desc_spec in Hd; destruct Hd as (Hc2 & Hd).
  2:{ intros [= <- <-]. split.
      - eapply same_alloc_trans; [exact Hs1 | apply same_core_alloc; exact Hc2].
      - split; [|reflexivity]. destruct Hs1 as (_ & _ & _ & _ & _ & _ & Hl).
        destruct Hd as (Hl2 & _). lia. }
  destruct Hd as (-> & _ & grp1 & Hat1 & ->).
  rewrite (u32_small g) in Hat1 by exact Hgr.
  destruct (same_alloc_group_at _ _ _ _ Hs1 Hat) as (grp' & Hat' & Hd' & _).
  assert (grp1 = grp') by congruence. subst grp1. rewrite Hd'.
  destruct Hs1 as (Hsbi & Hrest). pose proof Hrest as (_ & _ & _ & _ & _ & Hl).
  rewrite Hvbg. simpl negb. cbv iota.
  intros [= <- <-]. split.
  - eapply same_alloc_trans;
      [split; [exact Hsbi | exact Hrest]
      | apply same_core_alloc, ext2_error_same_core].
  - split; [|reflexivity].
    pose proof (ext2_error_log fs1 "Freeing blocks in system zones"). lia.
Qed.

(** *** C4: which runs the free path accepts *)

(** C4, counterexample.  On a filesystem of 4096-byte blocks the run that
    consists of block 0, the first data block, meets every condition of the
    claim and is refused: its bit stays set and the counters stay.  On a
    filesystem whose inode table (blocks 10 to 265) lies strictly inside the
    run 9 to 266, the run violates the claim's condition and is freed. *)
Lemma ext2_free_blocks_conditions_counterexample :
  (spec_free_conditions (fs_sbi sample4k_fs)
     {| bg_block_bitmap := 2; bg_inode_bitmap := 3; bg_inode_table := 4;
        bg_free_blocks_count := 32507; bg_free_inodes_count := 8182;
        bg_used_dirs_count := 1 |} 0 1
   /\ fs_groups (fst (ext2_free_blocks sample4k_fs sample_file 0 1))
      = fs_groups sample4k_fs
   /\ s_freeblocks_counter (fst (ext2_free_blocks sample4k_fs sample_file 0 1))
      = s_freeblocks_counter sample4k_fs
   /\ fs_log (fst (ext2_free_blocks sample4k_fs sample_file 0 1))
      = ["Freeing invalid data blocks"%string])
  /\ (~ spec_free_conditions (fs_sbi sample_gap_fs)
        {| bg_block_bitmap := 3; bg_inode_bitmap := 4; bg_inode_table := 10;
           bg_free_blocks_count := 7925; bg_free_inodes_count := 2038;
           bg_used_dirs_count := 1 |} 9 258
      /\ s_freeblocks_counter
           (fst (ext2_free_blocks sample_gap_fs sample_file 9 258))
         = s_freeblocks_counter sample_gap_fs + 258
      /\ fs_log (fst (ext2_free_blocks sample_gap_fs sample_file 9 258)) = []).
Proof.
  split.
  - split.
    + unfold spec_free_conditions. simpl.
      repeat split; try lia; intros b Hb; lia.
    + repeat split; vm_compute; reflexivity.
  - split.
    + unfold spec_free_conditions. simpl. intros (_ & _ & _ & _ & _ & H).
      apply (H 10); lia.
    + split; vm_compute; reflexivity.
Qed.

Lemma ext2_block_bitmap_valid_true fs desc g bm :
  fst (ext2_block_bitmap_valid fs desc g bm) = true ->
  ext2_block_bitmap_valid fs desc g bm = (true, fs).
Proof.
  unfold ext2_block_bitmap_valid.
  repeat match goal with
         | |- context [if ?c then _ else _] => destruct c
         end; cbn [fst]; first [discriminate | reflexivity].
Qed.

Lemma ext2_block_bitmap_valid_sbi fs fs' desc g bm :
  fs_sbi fs' = fs_sbi fs ->
  fst (ext2_block_bitmap_valid fs' desc g bm)
  = fst (ext2_block_bitmap_valid fs desc g bm).
Proof.
  intros H. unfold ext2_block_bitmap_valid. rewrite H.
  repeat match goal with
         | |- context [if ?c then _ else _] => destruct c
         end; reflexivity.
Qed.

(** The first read of a bitmap that is found valid marks the buffer as up
    to date and hands it out. *)
Lemma ext2_read_block_bitmap_first fs g grp :
  0 <= g < 2 ^ 32 ->
  g < s_groups_count (fs_sbi fs) ->
  group_at fs g = Some grp ->
  g_bb_uptodate grp = false ->
  sb_bread fs (bg_block_bitmap (g_desc grp)) = true ->
  fst (ext2_block_bitmap_valid fs (g_desc grp) g (g_block_bitmap grp)) = true ->
  ext2_read_block_bitmap fs g
  = (Some (g_block_bitmap grp),
     update_group fs g
       {| g_desc := g_desc grp; g_block_bitmap := g_block_bitmap grp;
          g_bb_uptodate := true; g_inode_bitmap := g_inode_bitmap grp |}).
Proof.
  intros Hr Hg Hat Hu Hb Hv. unfold ext2_read_block_bitmap.
  rewrite (ext2_get_group_desc_some fs g grp Hr Hg Hat).
  rewrite u32_small by exact Hr. rewrite Hat, Hu, Hb. cbn [negb].
  rewrite ext2_block_bitmap_valid_true; [reflexivity|].
  rewrite <- Hv. apply ext2_block_bitmap_valid_sbi. reflexivity.
Qed.

(** After that first read [ext2_free_blocks] goes on as it does with the
    buffer up to date. *)
Lemma ext2_free_blocks_first_read fs ino block count grp :
  let sbi := fs_sbi fs in
  let g := (block - s_first_data_block (s_es sbi)) / s_blocks_per_group sbi in
  0 <= s_first_data_block (s_es sbi) -> 0 < s_blocks_per_group sbi ->
  0 <= block < 2 ^ 32 -> 0 < count < 2 ^ 32 ->
  ext2_data_blocks_valid sbi block count = true ->
  g < s_groups_count sbi ->
  group_at fs g = Some grp ->
  g_bb_uptodate grp = false ->
  sb_bread fs (bg_block_bitmap (g_desc grp)) = true ->
  fst (ext2_block_bitmap_valid fs (g_desc grp) g (g_block_bitmap grp)) = true ->
  ext2_free_blocks fs ino block count
  = ext2_free_blocks
      (update_group fs g
         {| g_desc := g_desc grp; g_block_bitmap := g_block_bitmap grp;
            g_bb_uptodate := true; g_inode_bitmap := g_inode_bitmap grp |})
      ino block count.
Proof.
  cbv zeta. intros Hfdb Hbpg Hb Hc Hv Hg Hat Hu Hbread Hvalid.
  pose proof (proj1 (ext2_data_blocks_valid_iff _ _ _ Hb Hc) Hv) as (Hlow & _).
  unfold ext2_free_blocks.
  change (fs_sbi (update_group fs _ _)) with (fs_sbi fs).
  rewrite Hv. simpl negb. cbv iota.
  rewrite (u64_small (block - _)) by lia.
  set (g := (block - s_first_data_block (s_es (fs_sbi fs)))
            / s_blocks_per_group (fs_sbi fs)) in *.
  assert (Hgr : 0 <= g < 2 ^ 32).
  { subst g. split; [apply Z.div_pos; lia|].
    apply Z.div_lt_upper_bound; [lia|]. nia. }
  rewrite (ext2_read_block_bitmap_first fs g grp Hgr Hg Hat Hu Hbread Hvalid).
  set (grpU := {| g_desc := g_desc grp; g_block_bitmap := g_block_bitmap grp;
                  g_bb_uptodate := true; g_inode_bitmap := g_inode_bitmap grp |}).
  assert (HatU : group_at (update_group fs g grpU) g = Some grpU)
    by (eapply group_at_update_eq; exact Hat).
  rewrite (ext2_read_block_bitmap_ready (update_group fs g grpU) g grpU Hgr Hg
             HatU (or_introl eq_refl)).
  reflexivity.
Qed.

(** What a run that passes the checks leaves, the buffer being at hand. *)
Lemma ext2_free_blocks_frees_bits fs ino block count grp :
  let sbi := fs_sbi fs in
  let fdb := s_first_data_block (s_es sbi) in
  let g := (block - fdb) / s_blocks_per_group sbi in
  let bit := (block - fdb) mod s_blocks_per_group sbi in
  0 <= fdb -> 0 < s_blocks_per_group sbi ->
  0 <= block < 2 ^ 32 -> 0 < count < 2 ^ 32 ->
  ext2_data_blocks_valid sbi block count = true ->
  g < s_groups_count sbi ->
  group_at fs g = Some grp ->
  g_bb_uptodate grp = true ->
  ext2_data_blocks_valid_bg (g_desc grp) sbi block count = true ->
  0 <= bg_free_blocks_count (g_desc grp) < 2 ^ 16 ->
  let freed := count_set (g_block_bitmap grp) bit (Z.to_nat count) in
  let fs' := fst (ext2_free_blocks fs ino block count) in
  exists grp',
    group_at fs' g = Some grp'
    /\ (forall k, 0 <= k ->
          Z.testbit (g_block_bitmap grp') k
          = if (bit <=? k) && (k <? bit + count) then false
            else Z.testbit (g_block_bitmap grp) k)
    /\ bg_free_blocks_count (g_desc grp')
       = u16 (bg_free_blocks_count (g_desc grp) + freed)
    /\ s_freeblocks_counter fs' = s_freeblocks_counter fs + freed.
Proof.
  cbv zeta. intros Hfdb Hbpg Hb Hc Hv Hg Hat Hready Hvbg Hfree.
  destruct (ext2_free_blocks_frees fs ino block count grp
              Hfdb Hbpg Hb Hc Hv Hg Hat (or_introl Hready) Hvbg)
    as (fs1 & Hcore & ->).
  simpl fst.
  set (g := (block - s_first_data_block (s_es (fs_sbi fs)))
            / s_blocks_per_group (fs_sbi fs)) in *.
  set (bit := (block - s_first_data_block (s_es (fs_sbi fs)))
              mod s_blocks_per_group (fs_sbi fs)) in *.
  assert (Hbit : 0 <= bit) by (subst bit; apply Z.mod_pos_bound; lia).
  set (bm' := clear_run (g_block_bitmap grp) bit (Z.to_nat count)).
  assert (Hat1 : group_at fs1 g = Some grp).
  { rewrite (same_core_group_at _ _ _ Hcore). exact Hat. }
  pose proof (set_block_bitmap_at fs1 g bm' grp Hat1) as Hat2.
  destruct (group_update_free_blocks_at _ g
              (s32 (count_set (g_block_bitmap grp) bit (Z.to_nat count)))
              _ Hat2 Hfree)
    as (grp' & Hat3 & Hcnt & _ & _ & _ & _ & _ & Hbm & _).
  exists grp'. split; [exact Hat3|]. split; [|split].
  + intros k Hk. rewrite Hbm. simpl g_block_bitmap. subst bm'.
    rewrite testbit_clear_run by lia. rewrite Z2Nat.id by lia. reflexivity.
  + rewrite Hcnt. simpl. apply u16_add_s32.
  + simpl.
    destruct (group_update_free_blocks_same_env
                (set_block_bitmap fs1 g bm') g
                (s32 (count_set (g_block_bitmap grp) bit (Z.to_nat count))))
      as (_ & -> & _).
    destruct (set_block_bitmap_same_env fs1 g bm') as (_ & -> & _).
    destruct Hcore as (_ & _ & -> & _). reflexivity.
Qed.

(** C4, amended.  For a run of [count > 0] blocks from [block] (32-bit
    values) whose owning group is [g = (block - first_data_block) /
    blocks_per_group], on a filesystem where the bitmap of a group fits one
    block ([0 < blocks_per_group <= 8 * blocksize]), [g] being a group of
    the filesystem whose descriptor is loaded, with a free count that is a
    16-bit value and an inode table that starts after block 0:
    [ext2_free_blocks] frees the run, that is, clears the bits
    [bit .. bit+count-1] of the bitmap of [g], [bit] being
    [(block - first_data_block) mod blocks_per_group], and adds the number
    of bits that were set to the free count of the descriptor (modulo 2^16)
    and to the global counter, when [block > first_data_block],
    [block+count-1 < blocks_count], the run does not include the superblock
    block, the run ends within its group ([bit + count <= blocks_per_group]),
    and within [g] it does not overlap the block bitmap, the inode bitmap or
    the inode table; the bitmap of [g] is either cached up to date, or read
    at this call and found valid by [ext2_block_bitmap_valid].  For any run
    with [block <= first_data_block], or [block+count-1 >= blocks_count], or
    that includes the superblock block, or, within its group, includes the
    block bitmap or the inode bitmap or has its first or last block in the
    inode table, it reports an error and returns with the bitmaps, the
    descriptors and the global counters unchanged. *)
Theorem ext2_free_blocks_checks fs ino block count :
  let sbi := fs_sbi fs in
  let fdb := s_first_data_block (s_es sbi) in
  let g := (block - fdb) / s_blocks_per_group sbi in
  let bit := (block - fdb) mod s_blocks_per_group sbi in
  let last := block + count - 1 in
  let it_ok (grp : ext2_group) :=
    0 < bg_inode_table (g_desc grp) /\ 0 <= s_itb_per_group sbi
    /\ bg_inode_table (g_desc grp) + s_itb_per_group sbi <= 2 ^ 64 in
  0 <= fdb -> 0 < s_blocks_per_group sbi <= 8 * s_blocksize sbi ->
  0 <= block < 2 ^ 32 -> 0 < count < 2 ^ 32 ->
  (forall grp,
     group_at fs g = Some grp -> g < s_groups_count sbi -> it_ok grp ->
     0 <= bg_free_blocks_count (g_desc grp) < 2 ^ 16 ->
     g_bb_uptodate grp = true
     \/ (sb_bread fs (bg_block_bitmap (g_desc grp)) = true
         /\ fst (ext2_block_bitmap_valid fs (g_desc grp) g
                   (g_block_bitmap grp)) = true) ->
     bit + count <= s_blocks_per_group sbi ->
     fdb < block -> last < s_blocks_count (s_es sbi) ->
     ~ (block <= s_sb_block sbi <= last) ->
     ~ (block <= bg_block_bitmap (g_desc grp) <= last) ->
     ~ (block <= bg_inode_bitmap (g_desc grp) <= last) ->
     (forall b, block <= b <= last ->
        ~ (bg_inode_table (g_desc grp) <= b
           <= bg_inode_table (g_desc grp) + s_itb_per_group sbi - 1)) ->
     let freed := count_set (g_block_bitmap grp) bit (Z.to_nat count) in
     let fs' := fst (ext2_free_blocks fs ino block count) in
     exists grp',
       group_at fs' g = Some grp'
       /\ (forall k, 0 <= k ->
             Z.testbit (g_block_bitmap grp') k
             = if (bit <=? k) && (k <? bit + count) then false
               else Z.testbit (g_block_bitmap grp) k)
       /\ bg_free_blocks_count (g_desc grp')
          = u16 (bg_free_blocks_count (g_desc grp) + freed)
       /\ s_freeblocks_counter fs' = s_freeblocks_counter fs + freed)
  /\ (block <= fdb \/ s_blocks_count (s_es sbi) <= last
      \/ block <= s_sb_block sbi <= last
      \/ (exists grp,
            group_at fs g = Some grp /\ it_ok grp
            /\ (block <= bg_block_bitmap (g_desc grp) <= last
                \/ block <= bg_inode_bitmap (g_desc grp) <= last
                \/ bg_inode_table (g_desc grp) <= block
                   <= bg_inode_table (g_desc grp) + s_itb_per_group sbi - 1
                \/ bg_inode_table (g_desc grp) <= last
                   <= bg_inode_table (g_desc grp) + s_itb_per_group sbi - 1)) ->
      let fs' := fst (ext2_free_blocks fs ino block count) in
      same_alloc fs fs'
      /\ (length (fs_log fs) < length (fs_log fs'))%nat).
Proof.
  cbv zeta. intros Hfdb (Hbpg & Hfit) Hb Hc. split.
  - intros grp Hat Hg (Hit1 & Hit2 & Hit3) Hfree Hready Hrun Hlow Hhigh Hsb Hbb
      Hib Htab.
    assert (Hv : ext2_data_blocks_valid (fs_sbi fs) block count = true).
    { apply ext2_data_blocks_valid_iff; tauto. }
    assert (Hvbg : ext2_data_blocks_valid_bg (g_desc grp) (fs_sbi fs) block count
                   = true).
    { apply ext2_data_blocks_valid_bg_iff; try assumption.
      repeat split; try assumption; apply Htab; lia. }
    destruct (g_bb_uptodate grp) eqn:Hu.
    { apply ext2_free_blocks_frees_bits; assumption. }
    destruct Hready as [Hready | (Hread & Hvalid)]; [discriminate|].
    rewrite (ext2_free_blocks_first_read fs ino block count grp)
      by assumption.
    set (g := (block - s_first_data_block (s_es (fs_sbi fs)))
              / s_blocks_per_group (fs_sbi fs)) in *.
    set (grpU := {| g_desc := g_desc grp; g_block_bitmap := g_block_bitmap grp;
                    g_bb_uptodate := true;
                    g_inode_bitmap := g_inode_bitmap grp |}).
    assert (HatU : group_at (update_group fs g grpU) g = Some grpU)
      by (eapply group_at_update_eq; exact Hat).
    apply (ext2_free_blocks_frees_bits (update_group fs g grpU) ino block count
             grpU); try assumption; reflexivity.
  - intros Hbad.
    destruct (ext2_free_blocks fs ino block count) as [fs' ino'] eqn:E.
    simpl fst.
    refine (let H := ext2_free_blocks_rejects fs ino block count fs' ino'
                       Hfdb Hbpg Hb Hc _ E in
            conj (proj1 H) (proj1 (proj2 H))).
    destruct (ext2_data_blocks_valid (fs_sbi fs) block count) eqn:Hv;
      [right | left; reflexivity].
    pose proof (proj1 (ext2_data_blocks_valid_iff _ _ _ Hb Hc) Hv)
      as (V1 & V2 & V3).
    destruct Hbad as [Hbad | [Hbad | [Hbad | Hbad]]]; try lia.
    destruct Hbad as (grp & Hat & (Hit1 & Hit2 & Hit3) & Hbad).
    exists grp. split; [exact Hat|].
    destruct (ext2_data_blocks_valid_bg (g_desc grp) (fs_sbi fs) block count)
      eqn:Hvbg; [|reflexivity].
    exfalso.
    apply (ext2_data_blocks_valid_bg_iff _ _ _ _ Hb Hc Hit1 Hit2 Hit3) in Hvbg.
    tauto.
Qed.

Lemma ext2_free_blocks_checks_witness :
  (exists grp',
     group_at (fst (ext2_free_blocks sample_fs_cached sample_root 261 1)) 0
       = Some grp'
     /\ (forall k, 0 <= k ->
           Z.testbit (g_block_bitmap grp') k
           = if (260 <=? k) && (k <? 260 + 1) then false
             else Z.testbit (g_block_bitmap sample_group_cached) k)
     /\ bg_free_blocks_count (g_desc grp')
        = u16 (7930 + count_set (g_block_bitmap sample_group_cached) 260 1)
     /\ s_freeblocks_counter
          (fst (ext2_free_blocks sample_fs_cached sample_root 261 1))
        = 7930 + count_set (g_block_bitmap sample_group_cached) 260 1)
  /\ (exists grp',
        group_at (fst (ext2_free_blocks sample_fs sample_root 261 1)) 0
          = Some grp'
        /\ (forall k, 0 <= k ->
              Z.testbit (g_block_bitmap grp') k
              = if (260 <=? k) && (k <? 260 + 1) then false
                else Z.testbit (g_block_bitmap sample_group) k)
        /\ bg_free_blocks_count (g_desc grp')
           = u16 (7930 + count_set (g_block_bitmap sample_group) 260 1)
        /\ s_freeblocks_counter
             (fst (ext2_free_blocks sample_fs sample_root 261 1))
           = 7930 + count_set (g_block_bitmap sample_group) 260 1)
  /\ same_alloc sample_fs_cached
       (fst (ext2_free_blocks sample_fs_cached sample_root 1 1))
  /\ (length (fs_log sample_fs_cached)
      < length (fs_log (fst (ext2_free_blocks sample_fs_cached sample_root 1 1))))%nat.
Proof.
  split; [|split].
  - refine (proj1 (ext2_free_blocks_checks sample_fs_cached sample_root 261 1
                     _ _ _ _) sample_group_cached _ _ _ _ _ _ _ _ _ _ _ _);
      try compute_done.
    intros b Hb Ht. change (5 <= b <= 5 + 256 - 1) in Ht. lia.
  - refine (proj1 (ext2_free_blocks_checks sample_fs sample_root 261 1
                     _ _ _ _) sample_group _ _ _ _ _ _ _ _ _ _ _ _);
      try compute_done.
    intros b Hb Ht. change (5 <= b <= 5 + 256 - 1) in Ht. lia.
  - refine (proj2 (ext2_free_blocks_checks sample_fs_cached sample_root 1 1
                     _ _ _ _) _); [compute_done .. | left; compute_done].
Defined.

(** *** Searching and taking bits *)

Lemma find_zero_from_spec bm fuel i :
  let r := find_zero_from bm fuel i in
  i <= r <= i + Z.of_nat fuel
  /\ (forall k, i <= k < r -> Z.testbit bm k = true)
  /\ (r < i + Z.of_nat fuel -> Z.testbit bm r = false).
Proof.
  revert i. induction fuel as [|fuel IH]; intros i; simpl find_zero_from.
  - cbv zeta. split; [lia|]. split; [intros; lia | lia].
  - destruct (Z.testbit bm i) eqn:Hb.
    + specialize (IH (i + 1)). cbv zeta in *. destruct IH as (H1 & H2 & H3).
      split; [lia|]. split.
      * intros k Hk. destruct (Z.eq_dec k i) as [-> | Hne]; [exact Hb|].
        apply H2. lia.
      * intros Hr. apply H3. lia.
    + cbv zeta. split; [lia|]. split; [intros; lia | intros; exact Hb].
Qed.

Lemma find_next_zero_bit_le_spec bm size offset :
  0 <= offset <= size ->
  let r := find_next_zero_bit_le bm size offset in
  offset <= r <= size
  /\ (forall k, offset <= k < r -> Z.testbit bm k = true)
  /\ (r < size -> Z.testbit bm r = false).
Proof.
  intros H. unfold find_next_zero_bit_le.
  destruct (Z.leb_spec size offset).
  - cbv zeta. split; [lia|]. split; [intros; lia | lia].
  - pose proof (find_zero_from_spec bm (Z.to_nat (size - offset)) offset) as S.
    cbv zeta in *. rewrite Z2Nat.id in S by lia.
    replace (offset + (size - offset)) with size in S by lia. exact S.
Qed.

Lemma setbit_set bm n : 0 <= n -> Z.testbit bm n = true -> Z.setbit bm n = bm.
Proof.
  intros Hn Hb. apply Z.bits_inj'. intros k Hk.
  destruct (Z.eq_dec k n) as [-> | Hne].
  - rewrite Z.setbit_eq by lia. symmetry. exact Hb.
  - apply Z.setbit_neq; lia.
Qed.

Lemma alloc_run_spec fuel bm first num count nblocks bm' num' :
  0 <= first -> 0 <= num ->
  alloc_run fuel bm first num count nblocks = (bm', num') ->
  num <= num'
  /\ (num < num' -> num' <= count /\ first + num' <= nblocks)
  /\ bm' = set_run bm (first + num) (Z.to_nat (num' - num))
  /\ (forall i, first + num <= i < first + num' -> Z.testbit bm i = false)
  /\ ((0 < fuel)%nat -> num < count -> first + num < nblocks ->
      Z.testbit bm (first + num) = false -> num < num').
Proof.
  revert bm num. induction fuel as [|fuel IH]; intros bm num Hf Hn; simpl alloc_run.
  - intros [= <- <-]. rewrite Z.sub_diag. simpl.
    repeat split; try lia; intros; lia.
  - destruct (Z.ltb_spec num count); simpl andb.
    2:{ intros [= <- <-]. rewrite Z.sub_diag. simpl.
        repeat split; try lia; intros; lia. }
    destruct (Z.ltb_spec (first + num) nblocks).
    2:{ intros [= <- <-]. rewrite Z.sub_diag. simpl.
        repeat split; try lia; intros; lia. }
    destruct (Z.testbit bm (first + num)) eqn:Hb.
    + intros [= <- <-]. rewrite Z.sub_diag. simpl.
      split; [lia|]. split; [lia|]. split; [apply setbit_set; [lia | exact Hb]|].
      split; [intros; lia | intros; discriminate].
    + intros H1. apply IH in H1; [|lia | lia].
      destruct H1 as (K1 & K2 & K3 & K4 & _).
      split; [lia|]. split.
      { intros _. destruct (Z.eq_dec num' (num + 1)) as [-> | Hne]; [lia|].
        apply K2. lia. }
      split.
      { rewrite K3. replace (num' - num) with (Z.succ (num' - (num + 1))) by lia.
        rewrite Z2Nat.inj_succ by lia. simpl set_run.
        replace (first + num + 1) with (first + (num + 1)) by lia. reflexivity. }
      split.
      { intros i Hi. destruct (Z.eq_dec i (first + num)) as [-> | Hne]; [exact Hb|].
        rewrite <- (K4 i) by lia. symmetry. apply Z.setbit_neq; lia. }
      intros. lia.
Qed.

Lemma s32_idem x : s32 (s32 x) = s32 x.
Proof.
  apply s32_small. unfold s32.
  pose proof (Z.mod_pos_bound (x + 2 ^ 31) (2 ^ 32) ltac:(lia)). lia.
Qed.

Lemma s32_range x : - 2 ^ 31 <= s32 x < 2 ^ 31.
Proof.
  unfold s32. pose proof (Z.mod_pos_bound (x + 2 ^ 31) (2 ^ 32) ltac:(lia)). lia.
Qed.

(** The number of bitmap bits of a group, as [ext2_allocate_in_bg]
    computes it. *)
Definition group_nblocks (sbi : ext2_sb_info) (g : Z) : Z :=
  s32 (ext2_group_last_block_no sbi g - ext2_group_first_block_no sbi g + 1).

(** [ext2_allocate_in_bg] either gives up and changes nothing, or takes a
    run of clear bits that starts at the first clear bit of the group. *)
Lemma ext2_allocate_in_bg_spec sbi g bm count r bm' count' :
  ext2_allocate_in_bg sbi g bm count = (r, bm', count') ->
  (r = -1 /\ bm' = bm /\ count' = count
   /\ (0 < count ->
       forall k, 0 <= k < group_nblocks sbi g -> Z.testbit bm k = true))
  \/ (0 <= r /\ 1 <= count' <= count /\ r + count' <= group_nblocks sbi g
      /\ bm' = set_run bm r (Z.to_nat count')
      /\ (forall i, r <= i < r + count' -> Z.testbit bm i = false)).
Proof.
  unfold ext2_allocate_in_bg. fold (group_nblocks sbi g).
  set (nb := group_nblocks sbi g).
  assert (Hnb : - 2 ^ 31 <= nb < 2 ^ 31) by apply s32_range.
  destruct (Z.le_gt_cases nb 0) as [Hneg | Hpos].
  { unfold find_next_zero_bit_le.
    destruct (Z.leb_spec nb 0); [|lia]. rewrite (s32_small nb) by lia.
    rewrite Z.leb_refl. intros [= <- <- <-]. left.
    repeat split. intros _ k Hk. lia. }
  pose proof (find_next_zero_bit_le_spec bm nb 0 ltac:(lia)) as S.
  cbv zeta in S. destruct S as (S1 & S2 & S3).
  rewrite (s32_small (find_next_zero_bit_le bm nb 0)) by lia.
  set (first := find_next_zero_bit_le bm nb 0) in *.
  destruct (Z.leb_spec nb first).
  { intros [= <- <- <-]. left. repeat split. intros _ k Hk. apply S2. lia. }
  destruct (alloc_run (Z.to_nat nb) bm first 0 count nb) as [bm1 num] eqn:Hrun.
  apply alloc_run_spec in Hrun; [|lia | lia].
  destruct Hrun as (K1 & K2 & K3 & K4 & K5).
  rewrite Z.add_0_r in K3, K4, K5. rewrite Z.sub_0_r in K3.
  destruct (Z.eqb_spec num 0) as [-> | Hne].
  - intros [= <- <- <-]. left. simpl in K3. split; [reflexivity|].
    split; [assumption|]. split; [reflexivity|].
    intros Hc. exfalso. assert (0 < 0); [|lia].
    apply K5; [lia | lia | lia | apply S3; lia].
  - intros [= <- <- <-]. right. split; [lia|]. split; [lia|].
    split; [lia|]. split; [assumption|]. intros i Hi. apply K4. lia.
Qed.

(** A run that [ext2_allocate_in_bg] takes starts at the first clear bit of
    the group. *)
Lemma ext2_allocate_in_bg_first sbi g bm count r bm' count' :
  ext2_allocate_in_bg sbi g bm count = (r, bm', count') ->
  0 <= r ->
  forall i, 0 <= i < r -> Z.testbit bm i = true.
Proof.
  unfold ext2_allocate_in_bg. fold (group_nblocks sbi g).
  set (nb := group_nblocks sbi g).
  assert (Hnb : - 2 ^ 31 <= nb < 2 ^ 31) by apply s32_range.
  destruct (Z.le_gt_cases nb 0) as [Hneg | Hpos].
  { unfold find_next_zero_bit_le.
    destruct (Z.leb_spec nb 0); [|lia]. rewrite (s32_small nb) by lia.
    rewrite Z.leb_refl. intros [= <- <- <-]. lia. }
  pose proof (find_next_zero_bit_le_spec bm nb 0 ltac:(lia)) as S.
  cbv zeta in S. destruct S as (S1 & S2 & S3).
  rewrite (s32_small (find_next_zero_bit_le bm nb 0)) by lia.
  set (first := find_next_zero_bit_le bm nb 0) in *.
  destruct (Z.leb_spec nb first).
  { intros [= <- <- <-]. lia. }
  destruct (alloc_run (Z.to_nat nb) bm first 0 count nb) as [bm1 num].
  destruct (num =? 0); intros [= <- <- <-]; [lia|].
  intros _ i Hi. apply S2. exact Hi.
Qed.

(** *** C3: the group loop of the block allocator *)

(** A group whose descriptor counts free blocks and whose bitmap has a clear
    bit within the range of the group. *)
Definition group_has_space (fs : ext2_fs) (g : Z) : Prop :=
  exists grp k,
    group_at fs g = Some grp
    /\ u16 (bg_free_blocks_count (g_desc grp)) <> 0
    /\ 0 <= k < group_nblocks (fs_sbi fs) g
    /\ Z.testbit (g_block_bitmap grp) k = false.

Lemma group_has_space_same_alloc fs fs' g :
  same_alloc fs fs' -> group_has_space fs g -> group_has_space fs' g.
Proof.
  intros Hs (grp & k & Hat & Hfree & Hk & Hbit).
  destruct (same_alloc_group_at _ _ _ _ Hs Hat) as (grp' & Hat' & Hd & Hb & _).
  exists grp', k. destruct Hs as (-> & _). rewrite Hd, Hb. tauto.
Qed.

Lemma set_block_bitmap_same_alloc fs g grp :
  group_at fs g = Some grp ->
  same_alloc fs (set_block_bitmap fs g (g_block_bitmap grp)).
Proof.
  intros Hat. unfold set_block_bitmap. rewrite Hat.
  apply (update_group_same_alloc fs g _ grp Hat).
  unfold grp_same; simpl. tauto.
Qed.

Lemma scan_next_group g0 n j :
  0 <= g0 < n -> n < 2 ^ 32 -> 0 <= j ->
  (u32 (g0 + 1) mod n + j) mod n = (g0 + (j + 1)) mod n.
Proof.
  intros Hg Hn Hj. rewrite u32_small by lia.
  rewrite Zplus_mod_idemp_l. f_equal. lia.
Qed.

(** What the group loop returns.  On success the block comes from the first
    clear bits of some group, which are set; on [ENOSPC] none of the groups
    visited has space. *)
Lemma new_blocks_scan_first todo fs g0 count r fs' :
  0 < count ->
  0 < s_groups_count (fs_sbi fs) < 2 ^ 32 ->
  0 <= g0 < 2 ^ 32 ->
  new_blocks_scan todo fs g0 count = (r, fs') ->
  match r with
  | Ok (b, c') =>
      exists fs1 g grp bit,
        same_alloc fs fs1
        /\ 0 <= g < s_groups_count (fs_sbi fs)
        /\ group_at fs1 g = Some grp
        /\ bitmap_ready fs1 g
        /\ 0 <= bit /\ 1 <= c' <= count
        /\ bit + c' <= group_nblocks (fs_sbi fs) g
        /\ (forall i, bit <= i < bit + c' ->
              Z.testbit (g_block_bitmap grp) i = false)
        /\ b = u64 (bit + ext2_group_first_block_no (fs_sbi fs) g)
        /\ fs' = percpu_counter_add_freeblocks
                   (group_update_free_blocks
                      (set_block_bitmap fs1 g
                         (set_run (g_block_bitmap grp) bit (Z.to_nat c')))
                      g (s32 (u64 (- c'))))
                   (- c')
        /\ (forall i, 0 <= i < bit ->
              Z.testbit (g_block_bitmap grp) i = true)
  | Err e =>
      same_alloc fs fs'
      /\ (e = ENOSPC ->
          forall j, 0 <= j < Z.of_nat todo ->
            ~ group_has_space fs ((g0 + j) mod s_groups_count (fs_sbi fs)))
  end.
Proof.
  intros Hcount. revert fs g0.
  induction todo as [|todo IH]; intros fs g0 Hn Hg0; simpl new_blocks_scan.
  - intros [= <- <-]. split; [apply same_alloc_refl|]. intros _ j Hj. lia.
  - destruct (ext2_get_group_desc fs g0) as [[gdp|] fs0] eqn:Hd;
      apply ext2_get_group_desc_spec in Hd; destruct Hd as (Hc0 & Hd).
    2:{ intros [= <- <-]. split; [apply same_core_alloc; exact Hc0|].
        discriminate. }
    destruct Hd as (-> & Hlt & grp & Hat & ->).
    rewrite (u32_small g0) in * by exact Hg0.
    assert (Hmod : forall j, 0 <= j ->
              (u32 (g0 + 1) mod s_groups_count (fs_sbi fs) + j)
                mod s_groups_count (fs_sbi fs)
              = (g0 + (j + 1)) mod s_groups_count (fs_sbi fs)).
    { intros j Hj. apply scan_next_group; lia. }
    assert (Hnext : 0 <= u32 (g0 + 1) mod s_groups_count (fs_sbi fs) < 2 ^ 32).
    { pose proof (Z.mod_pos_bound (u32 (g0 + 1)) (s_groups_count (fs_sbi fs))
                    ltac:(lia)). lia. }
    destruct (Z.eqb_spec (u16 (bg_free_blocks_count (g_desc grp))) 0) as [Hz | Hnz].
    { intros H. apply IH in H; [|exact Hn | exact Hnext].
      destruct r as [[b c'] | e]; [exact H|].
      destruct H as (Hs & Hno). split; [exact Hs|].
      intros He j Hj. destruct (Z.eq_dec j 0) as [-> | Hj0].
      - rewrite Z.add_0_r, Z.mod_small by lia.
        intros (grp' & k & Hat' & Hfree & _). congruence.
      - replace j with (j - 1 + 1) by lia. rewrite <- Hmod by lia.
        apply Hno; [exact He | lia]. }
    destruct (ext2_read_block_bitmap fs g0) as [[bm|] fs1] eqn:Hread;
      apply ext2_read_block_bitmap_spec in Hread; destruct Hread as (Hs1 & Hr).
    2:{ intros [= <- <-]. split; [exact Hs1 | discriminate]. }
    destruct Hr as (_ & (grp0 & Hat0 & ->) & Hready).
    rewrite (u32_small g0) in Hat0, Hready by exact Hg0.
    assert (grp0 = grp) by congruence. subst grp0.
    destruct (same_alloc_group_at _ _ _ _ Hs1 Hat) as (grp1 & Hat1 & _ & Hbm1 & _).
    pose proof Hs1 as (Hsbi1 & _).
    destruct (ext2_allocate_in_bg (fs_sbi fs1) g0 (g_block_bitmap grp) count)
      as [[ret bm'] count'] eqn:Halloc.
    pose proof (ext2_allocate_in_bg_first _ _ _ _ _ _ _ Halloc) as Hfirst.
    apply ext2_allocate_in_bg_spec in Halloc. rewrite Hsbi1 in Halloc.
    destruct Halloc as [(-> & -> & -> & Hfull) | (Hret & Hc' & Hfit & -> & Hclear)].
    + simpl (-1 <? 0). cbv iota.
      assert (Hs2 : same_alloc fs (set_block_bitmap fs1 g0 (g_block_bitmap grp))).
      { eapply same_alloc_trans; [exact Hs1|]. rewrite <- Hbm1.
        apply set_block_bitmap_same_alloc. exact Hat1. }
      pose proof Hs2 as (Hsbi2 & _).
      assert (Hn2 : 0 < s_groups_count
                          (fs_sbi (set_block_bitmap fs1 g0 (g_block_bitmap grp)))
                    < 2 ^ 32) by (rewrite Hsbi2; exact Hn).
      intros H. change (-1 <? 0) with true in H. cbv iota in H.
      apply IH in H; [|exact Hn2 | exact Hnext].
      rewrite Hsbi2 in H.
      destruct r as [[b c'] | e].
      * destruct H as (fs3 & g & grp3 & bit & K1 & K).
        exists fs3, g, grp3, bit. split; [|exact K].
        eapply same_alloc_trans; eassumption.
      * destruct H as (Hs & Hno). split; [eapply same_alloc_trans; eassumption|].
        intros He j Hj. destruct (Z.eq_dec j 0) as [-> | Hj0].
        -- rewrite Z.add_0_r, Z.mod_small by lia.
           intros (grp' & k & Hat' & _ & Hk & Hbit).
           assert (grp' = grp) by congruence. subst grp'.
           rewrite (Hfull Hcount k Hk) in Hbit. discriminate.
        -- replace j with (j - 1 + 1) by lia. rewrite <- Hmod by lia.
           intros Hsp. apply (Hno He (j - 1)); [lia|].
           eapply group_has_space_same_alloc; eassumption.
    + destruct (Z.ltb_spec ret 0); [lia|].
      specialize (Hfirst Hret).
      intros [= <- <-]. exists fs1, g0, grp1, ret.
      destruct (set_block_bitmap_same_env fs1 g0
                  (set_run (g_block_bitmap grp) ret (Z.to_nat count')))
        as (Hsb & _).
      rewrite Hsb, Hbm1, Hsbi1. split; [exact Hs1|].
      split; [lia|]. split; [exact Hat1|]. split; [exact Hready|].
      repeat split; try assumption; try lia.
Qed.

(** The same without the bits before the run. *)
Lemma new_blocks_scan_spec todo fs g0 count r fs' :
  0 < count ->
  0 < s_groups_count (fs_sbi fs) < 2 ^ 32 ->
  0 <= g0 < 2 ^ 32 ->
  new_blocks_scan todo fs g0 count = (r, fs') ->
  match r with
  | Ok (b, c') =>
      exists fs1 g grp bit,
        same_alloc fs fs1
        /\ 0 <= g < s_groups_count (fs_sbi fs)
        /\ group_at fs1 g = Some grp
        /\ bitmap_ready fs1 g
        /\ 0 <= bit /\ 1 <= c' <= count
        /\ bit + c' <= group_nblocks (fs_sbi fs) g
        /\ (forall i, bit <= i < bit + c' ->
              Z.testbit (g_block_bitmap grp) i = false)
        /\ b = u64 (bit + ext2_group_first_block_no (fs_sbi fs) g)
        /\ fs' = percpu_counter_add_freeblocks
                   (group_update_free_blocks
                      (set_block_bitmap fs1 g
                         (set_run (g_block_bitmap grp) bit (Z.to_nat c')))
                      g (s32 (u64 (- c'))))
                   (- c')
  | Err e =>
      same_alloc fs fs'
      /\ (e = ENOSPC ->
          forall j, 0 <= j < Z.of_nat todo ->
            ~ group_has_space fs ((g0 + j) mod s_groups_count (fs_sbi fs)))
  end.
Proof.
  intros Hcount Hn Hg0 H.
  apply new_blocks_scan_first in H; try assumption.
  destruct r as [[b c'] | e]; [|exact H].
  destruct H as (fs1 & g & grp & bit & K1 & K2 & K3 & K4 & K5 & K6 & K7 & K8
                 & K9 & K10 & _).
  exists fs1, g, grp, bit. tauto.
Qed.

Lemma same_alloc_group_at_r fs fs' g grp' :
  same_alloc fs fs' ->
  group_at fs' g = Some grp' ->
  exists grp, group_at fs g = Some grp /\ grp_same grp grp'.
Proof.
  intros (_ & H & _). unfold group_at. destruct (g <? 0); [discriminate|].
  intros Hat. destruct (Forall2_lookup_r _ _ _ _ _ H Hat) as (grp & H1 & H2).
  exists grp. split; assumption.
Qed.


Lemma s32_u64_opp c : 0 < c < 2 ^ 31 -> s32 (u64 (- c)) = - c.
Proof.
  intros H. unfold u64.
  replace (- c) with (2 ^ 64 - c + (-1) * 2 ^ 64) by lia.
  rewrite Z.mod_add by lia. rewrite Z.mod_small by lia.
  unfold s32.
  replace (2 ^ 64 - c + 2 ^ 31) with (2 ^ 31 - c + 2 ^ 32 * 2 ^ 32) by lia.
  rewrite Z.mod_add by lia. rewrite Z.mod_small by lia. lia.
Qed.



(** The counter is read into a 16-bit variable: with 65536 free blocks
    counted it reads zero as well. *)
Lemma ext2_new_blocks_counter_truncation :
  let fs := set_counters sample_fs 65536 2038 1 in
  ext2_new_blocks fs sample_file 1 = (Err ENOSPC, fs).
Proof. reflexivity. Qed.



(** *** C10: the empty check on a directory with a bad page *)

Lemma byte_at_nonneg d off : 0 <= byte_at d off < 256.
Proof.
  unfold byte_at. destruct (off <? 0); [lia|].
  unfold u8. apply Z.mod_pos_bound. lia.
Qed.

Lemma byte_at_outside d off : Z.of_nat (length d) <= off -> byte_at d off = 0.
Proof.
  intros H. unfold byte_at. destruct (Z.ltb_spec off 0); [reflexivity|].
  rewrite (proj2 (lookup_ge_None d (Z.to_nat off))) by lia. reflexivity.
Qed.

Lemma de_rec_len_nonneg d de : 0 <= de_rec_len d de.
Proof.
  unfold de_rec_len, le16_at.
  pose proof (byte_at_nonneg d (de + 4)). pose proof (byte_at_nonneg d (de + 4 + 1)).
  lia.
Qed.

Lemma de_rec_len_outside d de :
  Z.of_nat (length d) <= de + 4 -> de_rec_len d de = 0.
Proof.
  intros H. unfold de_rec_len, le16_at.
  rewrite !byte_at_outside by lia. reflexivity.
Qed.

(** The records of a page that a walk from [de] comes to, each one found
    [rec_len] bytes after the one before. *)
Inductive record_from (d : list Z) : Z -> Z -> Prop :=
  | record_here de : record_from d de de
  | record_next de de' :
      de_rec_len d de <> 0 ->
      record_from d (ext2_next_entry d de) de' ->
      record_from d de de'.

(** A page with a record of length zero at or below [limit]. *)
Definition zero_length_record (d : list Z) (limit : Z) : Prop :=
  exists de, record_from d 0 de /\ de <= limit /\ de_rec_len d de = 0.

(** Page [i] of the directory cannot be read, or fails the validation of its
    first use, or holds a zero-length record. *)
Definition bad_page (fs : ext2_fs) (ino : inode) (i : Z) : Prop :=
  match read_mapping_folio ino i with
  | Err _ => True
  | Ok f =>
      (f_checked f = false
       /\ fst (ext2_check_folio fs ino i false (f_data f)) = false)
      \/ zero_length_record (f_data f)
           (u32 (ext2_last_byte ino i - EXT2_DIR_REC_LEN 1))
  end.

Lemma record_from_le d de de' : record_from d de de' -> de <= de'.
Proof.
  induction 1 as [de | de de' Hnz _ IH]; [lia|].
  unfold ext2_next_entry in IH. pose proof (de_rec_len_nonneg d de). lia.
Qed.

(** The walk of [ext2_empty_dir] over a page with a zero-length record
    never reports the page as empty. *)
Lemma empty_dir_page_zero_length d self limit de de' :
  record_from d de de' -> de' <= limit -> de_rec_len d de' = 0 ->
  forall fuel, 0 <= de -> (0 < fuel)%nat ->
    Z.of_nat (length d) - de < Z.of_nat fuel ->
    empty_dir_page fuel d self limit de <> PageEmpty.
Proof.
  intros H Hlim Hz.
  induction H as [de | de de' Hnz Hrest IH]; intros fuel Hde Hpos Hfuel.
  - destruct fuel as [|k]; [lia|]. simpl.
    destruct (Z.leb_spec de limit); [|lia].
    rewrite Hz. simpl. discriminate.
  - destruct fuel as [|k]; [lia|]. simpl.
    pose proof (record_from_le _ _ _ Hrest) as Hle.
    unfold ext2_next_entry in *.
    pose proof (de_rec_len_nonneg d de) as Hnn.
    destruct (Z.leb_spec de limit); [|lia].
    destruct (Z.eqb_spec (de_rec_len d de) 0) as [E | _]; [contradiction|].
    assert (Hin : de + 4 < Z.of_nat (length d)).
    { destruct (Z.lt_ge_cases (de + 4) (Z.of_nat (length d))); [assumption|].
      exfalso. apply Hnz. apply de_rec_len_outside. lia. }
    assert (Hk : empty_dir_page k d self limit (de + de_rec_len d de)
                 <> PageEmpty).
    { apply (IH Hlim Hz); lia. }
    destruct (negb (de_inode d de =? 0)); [|exact Hk].
    destruct (negb (de_name_byte d de 0 =? 46)); [discriminate|].
    destruct (2 <? de_name_len d de); [discriminate|].
    destruct (de_name_len d de <? 2).
    + destruct (negb (de_inode d de =? u32 self)); [discriminate | exact Hk].
    + destruct (negb (de_name_byte d de 1 =? 46)); [discriminate | exact Hk].
Qed.

(** An inode that differs from [ino] in its cached pages only, page [n]
    apart the same pages. *)
Definition same_but_page (n : Z) (ino ino' : inode) : Prop :=
  i_ino ino' = i_ino ino /\ i_mode ino' = i_mode ino
  /\ i_nlink ino' = i_nlink ino /\ i_size ino' = i_size ino
  /\ i_blocks ino' = i_blocks ino /\ i_data ino' = i_data ino
  /\ forall j, j <> n ->
       read_mapping_folio ino' j = read_mapping_folio ino j.

Lemma same_but_page_refl n ino : same_but_page n ino ino.
Proof. unfold same_but_page. repeat split; reflexivity. Qed.

Lemma lookup_repeat {A} (x : A) n i :
  (i < n)%nat -> repeat x n !! i = Some x.
Proof.
  revert i. induction n as [|n IH]; intros i Hi; [lia|].
  destruct i as [|i]; [reflexivity|]. simpl. apply IH. lia.
Qed.

Lemma store_folio_same_but_page ino n f :
  0 <= n -> same_but_page n ino (store_folio ino n f).
Proof.
  intros Hn. unfold same_but_page, store_folio; simpl.
  repeat split. intros j Hj. unfold read_mapping_folio; simpl.
  destruct (Z.ltb_spec j 0); [reflexivity|].
  assert (Hne : Z.to_nat n <> Z.to_nat j) by lia.
  destruct (Nat.ltb_spec (Z.to_nat n) (length (i_mapping ino))).
  - rewrite list_lookup_insert_ne by exact Hne. reflexivity.
  - destruct (Nat.lt_ge_cases (Z.to_nat j) (length (i_mapping ino))).
    + rewrite lookup_app_l by assumption. reflexivity.
    + rewrite lookup_app_r by assumption.
      rewrite (proj2 (lookup_ge_None (i_mapping ino) (Z.to_nat j)))
        by assumption.
      destruct (Nat.lt_ge_cases (Z.to_nat j - length (i_mapping ino))
                  (Z.to_nat n - length (i_mapping ino))).
      * rewrite lookup_app_l by (rewrite repeat_length; assumption).
        rewrite lookup_repeat by assumption. reflexivity.
      * rewrite lookup_app_r by (rewrite repeat_length; assumption).
        rewrite repeat_length.
        destruct (Z.to_nat j - length (i_mapping ino)
                  - (Z.to_nat n - length (i_mapping ino)))%nat eqn:E; [lia|].
        reflexivity.
Qed.

Lemma ext2_check_folio_same_core fs dir n quiet d ok fs' :
  ext2_check_folio fs dir n quiet d = (ok, fs') -> same_core fs fs'.
Proof.
  unfold ext2_check_folio.
  repeat match goal with
         | |- context [if ?c then _ else _] => destruct c
         | |- context [match ?c with CheckEnd _ => _ | CheckBad _ => _ end] =>
             destruct c
         end;
    intros [= <- <-];
    first [apply same_core_refl | apply ext2_error_same_core].
Qed.

(** The verdict of [ext2_check_folio] depends on the geometry and on the
    size of the directory only. *)
Lemma ext2_check_folio_verdict fs fs' dir dir' n quiet d :
  fs_sbi fs' = fs_sbi fs -> i_size dir' = i_size dir ->
  fst (ext2_check_folio fs' dir' n quiet d)
  = fst (ext2_check_folio fs dir n quiet d).
Proof.
  intros Hs Hd. unfold ext2_check_folio, ext2_chunk_size. rewrite Hs, Hd.
  repeat match goal with
         | |- context [if ?c then _ else _] => destruct c
         | |- context [match ?c with CheckEnd _ => _ | CheckBad _ => _ end] =>
             destruct c
         end; reflexivity.
Qed.

Lemma ext2_get_folio_frame fs dir n quiet r fs' dir' :
  0 <= n ->
  ext2_get_folio fs dir n quiet = (r, fs', dir') ->
  same_core fs fs' /\ same_but_page n dir dir'.
Proof.
  intros Hn. unfold ext2_get_folio.
  destruct (read_mapping_folio dir n) as [f | e].
  2:{ intros [= <- <- <-]. split; [apply same_core_refl | apply same_but_page_refl]. }
  destruct (f_checked f).
  { intros [= <- <- <-]. split; [apply same_core_refl | apply same_but_page_refl]. }
  destruct (ext2_check_folio fs dir n quiet (f_data f)) as [[|] fs1] eqn:E;
    apply ext2_check_folio_same_core in E; intros [= <- <- <-].
  - split; [exact E | apply store_folio_same_but_page; exact Hn].
  - split; [exact E | apply same_but_page_refl].
Qed.

Lemma ext2_last_byte_size ino ino' n :
  i_size ino' = i_size ino -> ext2_last_byte ino' n = ext2_last_byte ino n.
Proof. intros H. unfold ext2_last_byte. rewrite H. reflexivity. Qed.

Lemma bad_page_frame fs fs' ino ino' n i :
  same_core fs fs' -> same_but_page n ino ino' -> i <> n ->
  bad_page fs ino i -> bad_page fs' ino' i.
Proof.
  intros (Hs & _) (_ & _ & _ & Hsize & _ & _ & Hpages) Hi. unfold bad_page.
  rewrite (Hpages i Hi). destruct (read_mapping_folio ino i) as [f | e]; [|auto].
  rewrite (ext2_check_folio_verdict fs fs' ino ino') by assumption.
  rewrite (ext2_last_byte_size ino ino') by assumption. auto.
Qed.

(** The page loop changes neither the allocator state nor the fields of the
    inode. *)
Lemma empty_dir_pages_frame todo fs ino start r fs' ino' :
  0 <= start ->
  empty_dir_pages todo fs ino start = (r, fs', ino') ->
  same_core fs fs'
  /\ i_ino ino' = i_ino ino /\ i_mode ino' = i_mode ino
  /\ i_nlink ino' = i_nlink ino /\ i_size ino' = i_size ino
  /\ i_blocks ino' = i_blocks ino /\ i_data ino' = i_data ino.
Proof.
  revert fs ino start.
  induction todo as [|todo IH]; intros fs ino start Hstart;
    cbn [empty_dir_pages].
  - intros [= <- <- <-]. split; [apply same_core_refl | tauto].
  - destruct (ext2_get_folio fs ino start false) as [[[d | e] fs1] ino1] eqn:E;
      apply ext2_get_folio_frame in E; try exact Hstart;
      destruct E as (Hc & H1 & H2 & H3 & H4 & H5 & H6 & _).
    2:{ intros [= <- <- <-]. split; [exact Hc | tauto]. }
    destruct (empty_dir_page (S (length d)) d (i_ino ino1) _ 0).
    + intros H. apply IH in H; [|lia].
      destruct H as (Hc' & K1 & K2 & K3 & K4 & K5 & K6).
      split; [eapply same_core_trans; eassumption|].
      repeat split; congruence.
    + intros [= <- <- <-]. split; [exact Hc | tauto].
    + intros [= <- <- <-].
      split; [|tauto].
      eapply same_core_trans; [exact Hc | apply ext2_error_same_core].
Qed.

(** A bad page among those the loop still has to visit makes it answer
    "not empty". *)
Lemma empty_dir_pages_bad todo fs ino start i :
  0 <= start <= i -> i < start + Z.of_nat todo ->
  bad_page fs ino i ->
  fst (fst (empty_dir_pages todo fs ino start)) = false.
Proof.
  revert fs ino start.
  induction todo as [|todo IH]; intros fs ino start Hstart Hi Hbad; [lia|].
  cbn [empty_dir_pages].
  destruct (ext2_get_folio fs ino start false) as [[[d | e] fs1] ino1] eqn:E;
    [|reflexivity].
  pose proof (ext2_get_folio_frame _ _ _ _ _ _ _ (proj1 Hstart) E) as (Hc & Hp).
  destruct (Z.eq_dec start i) as [-> | Hne].
  - assert (Hz : zero_length_record d
                   (u32 (ext2_last_byte ino1 i - EXT2_DIR_REC_LEN 1))).
    { destruct Hp as (_ & _ & _ & Hsize & _).
      rewrite (ext2_last_byte_size ino ino1) by exact Hsize.
      revert E Hbad. unfold ext2_get_folio, bad_page.
      destruct (read_mapping_folio ino i) as [f | e]; [|discriminate].
      destruct (f_checked f).
      { intros [= <- _ _] [[? _] | Hz]; [discriminate | exact Hz]. }
      destruct (ext2_check_folio fs ino i false (f_data f)) as [[|] fs2].
      - intros [= <- _ _] [[_ ?] | Hz]; [discriminate | exact Hz].
      - discriminate. }
    destruct Hz as (de & Hfrom & Hlim & Hzero).
    pose proof (empty_dir_page_zero_length d (i_ino ino1) _ 0 de
                  Hfrom Hlim Hzero (S (length d))
                  ltac:(lia) ltac:(lia) ltac:(lia)) as Hne.
    destruct (empty_dir_page (S (length d)) d (i_ino ino1) _ 0);
      [contradiction | reflexivity | reflexivity].
  - destruct (empty_dir_page (S (length d)) d (i_ino ino1) _ 0);
      [|reflexivity | reflexivity].
    apply IH; [lia | lia|].
    eapply bad_page_frame; [exact Hc | exact Hp | lia | exact Hbad].
Qed.

(** C10.  If some page of the directory cannot be read, or fails the record
    validation of its first use, or holds a zero-length record, then
    [ext2_empty_dir] answers "not empty", whatever else the directory
    holds, and [ext2_rmdir] returns ENOTEMPTY: the parent is left as it
    was, and the directory keeps its links and its size. *)
Theorem ext2_empty_dir_bad_page fs ino i :
  0 <= i < dir_pages ino ->
  bad_page fs ino i ->
  fst (fst (ext2_empty_dir fs ino)) = false
  /\ forall be dir name,
       exists fs' ino',
         ext2_rmdir be fs dir name ino = (Err ENOTEMPTY, fs', dir, ino')
         /\ same_core fs fs'
         /\ i_nlink ino' = i_nlink ino /\ i_size ino' = i_size ino
         /\ i_data ino' = i_data ino.
Proof.
  intros Hi Hbad.
  assert (H : fst (fst (ext2_empty_dir fs ino)) = false).
  { unfold ext2_empty_dir. apply (empty_dir_pages_bad _ fs ino 0 i); [lia | lia|].
    exact Hbad. }
  split; [exact H|]. intros be dir name. unfold ext2_rmdir.
  destruct (ext2_empty_dir fs ino) as [[ok fs'] ino'] eqn:E.
  simpl in H. subst ok. exists fs', ino'. split; [reflexivity|].
  unfold ext2_empty_dir in E. apply empty_dir_pages_frame in E; [|lia].
  tauto.
Qed.

Lemma bad_page_unreadable fs ino i e :
  read_mapping_folio ino i = Err e -> bad_page fs ino i.
Proof. intros H. unfold bad_page. rewrite H. exact I. Qed.

Lemma bad_page_invalid fs ino i f :
  read_mapping_folio ino i = Ok f -> f_checked f = false ->
  fst (ext2_check_folio fs ino i false (f_data f)) = false ->
  bad_page fs ino i.
Proof. intros H H1 H2. unfold bad_page. rewrite H. left. split; assumption. Qed.

Lemma ext2_empty_dir_bad_page_witness :
  (fst (fst (ext2_empty_dir sample_fs sample_torn_dir)) = false
   /\ exists fs' ino',
        ext2_rmdir false sample_fs sample_root [100] sample_torn_dir
          = (Err ENOTEMPTY, fs', sample_root, ino')
        /\ same_core sample_fs fs'
        /\ i_nlink ino' = i_nlink sample_torn_dir
        /\ i_size ino' = i_size sample_torn_dir
        /\ i_data ino' = i_data sample_torn_dir)
  /\ fst (fst (ext2_empty_dir sample_fs sample_unreadable_dir)) = false.
Proof.
  split.
  - assert (Hbad : bad_page sample_fs sample_torn_dir 0).
    { eapply bad_page_invalid; [reflexivity | reflexivity|].
      vm_compute. reflexivity. }
    pose proof (ext2_empty_dir_bad_page sample_fs sample_torn_dir 0
                  ltac:(compute_done) Hbad) as (H1 & H2).
    split; [exact H1 | exact (H2 false sample_root [100])].
  - apply (ext2_empty_dir_bad_page sample_fs sample_unreadable_dir 0
             ltac:(compute_done)).
    apply (bad_page_unreadable _ _ _ EIO). reflexivity.
Defined.

(** *** C5: adding a name that the directory already holds *)

(** The bytes of page [j], where the page can be read. *)
Definition page_data (ino : inode) (j : Z) : option (list Z) :=
  match read_mapping_folio ino j with
  | Ok f => Some (f_data f)
  | Err _ => None
  end.

(** Page [j] of the directory can be read and is valid (checked before, or
    passing the check now); [d] are its bytes. *)
Definition good_page (fs : ext2_fs) (dir : inode) (j : Z) (d : list Z) : Prop :=
  exists f,
    read_mapping_folio dir j = Ok f /\ f_data f = d
    /\ (f_checked f = true
        \/ fst (ext2_check_folio fs dir j false d) = true).

(** The record at [de] is in use and carries [name]. *)
Definition live_entry (name : list Z) (d : list Z) (de : Z) : Prop :=
  de_inode d de <> 0
  /\ de_name_len d de = Z.of_nat (length name)
  /\ forall k c, name !! k = Some c -> de_name_byte d de (Z.of_nat k) = u8 c.

(** The record at [de] can take a new record of [reclen] bytes: it is
    unused and long enough, or has that much room after its own name. *)
Definition usable_slot (d : list Z) (reclen de : Z) : Prop :=
  (de_inode d de = 0 /\ reclen <= de_rec_len d de)
  \/ u16 (EXT2_DIR_REC_LEN (de_name_len d de)) + reclen <= de_rec_len d de.

(** The walk of [ext2_add_link] over a page goes from [de] on to [de']:
    every record between is within the page and the directory, has a
    length, carries another name and is no usable slot. *)
Inductive scans_to (d name : list Z) (reclen kaddr_end dir_end : Z)
  : Z -> Z -> Prop :=
  | scans_here de : scans_to d name reclen kaddr_end dir_end de de
  | scans_step de de' :
      de <= kaddr_end -> de <> dir_end ->
      de_rec_len d de <> 0 ->
      ext2_match name d de = false ->
      ~ usable_slot d reclen de ->
      scans_to d name reclen kaddr_end dir_end (de + de_rec_len d de) de' ->
      scans_to d name reclen kaddr_end dir_end de de'.

Lemma name_eq_live name d de :
  forall k0,
    (forall k c, name !! k = Some c ->
                 de_name_byte d de (k0 + Z.of_nat k) = u8 c) ->
    name_eq d de name k0 = true.
Proof.
  induction name as [|c name IH]; intros k0 H; [reflexivity|].
  simpl. rewrite andb_true_iff. split.
  - apply Z.eqb_eq. symmetry. rewrite <- (H 0%nat c eq_refl). f_equal. lia.
  - apply IH. intros k c' Hk. rewrite <- (H (S k) c' Hk). f_equal. lia.
Qed.

Lemma ext2_match_live name d de : live_entry name d de -> ext2_match name d de = true.
Proof.
  intros (Hino & Hlen & Hname). unfold ext2_match.
  rewrite Hlen, Z.eqb_refl. simpl.
  destruct (Z.eqb_spec (de_inode d de) 0); [contradiction|].
  apply name_eq_live. intros k c Hk. rewrite Z.add_0_l. apply Hname. exact Hk.
Qed.

(** The record loop follows a walk: it continues from where the walk
    ends, with fuel to spare. *)
Lemma add_link_scan_scans_to d name chunk_size reclen kaddr_end dir_end de de' :
  scans_to d name reclen kaddr_end dir_end de de' ->
  forall fuel, 0 <= de -> (0 < fuel)%nat ->
    Z.of_nat (length d) - de < Z.of_nat fuel ->
    exists fuel',
      (0 < fuel')%nat /\ Z.of_nat (length d) - de' < Z.of_nat fuel' /\ 0 <= de'
      /\ add_link_scan fuel d name chunk_size reclen kaddr_end dir_end de
         = add_link_scan fuel' d name chunk_size reclen kaddr_end dir_end de'.
Proof.
  induction 1 as [de | de de' Hk Hend Hnz Hm Hslot _ IH];
    intros fuel Hde Hpos Hfuel.
  - exists fuel. tauto.
  - destruct fuel as [|k]; [lia|].
    pose proof (de_rec_len_nonneg d de) as Hnn.
    assert (Hin : de + 4 < Z.of_nat (length d)).
    { destruct (Z.lt_ge_cases (de + 4) (Z.of_nat (length d))); [assumption|].
      exfalso. apply Hnz. apply de_rec_len_outside. lia. }
    destruct (IH k) as (fuel' & K1 & K2 & K3 & K4); try lia.
    exists fuel'. split; [exact K1|]. split; [exact K2|]. split; [exact K3|].
    rewrite <- K4. cbn [add_link_scan].
    destruct (Z.leb_spec de kaddr_end); [|lia].
    destruct (Z.eqb_spec de dir_end); [contradiction|].
    destruct (Z.eqb_spec (de_rec_len d de) 0); [contradiction|].
    rewrite Hm.
    destruct ((de_inode d de =? 0) && (reclen <=? de_rec_len d de)) eqn:E1.
    { exfalso. apply Hslot. left. apply andb_true_iff in E1. lia. }
    destruct (Z.leb_spec
                (u16 (EXT2_DIR_REC_LEN (de_name_len d de)) + reclen)
                (de_rec_len d de)).
    { exfalso. apply Hslot. right. assumption. }
    reflexivity.
Qed.

(** A page whose walk leaves it: no slot, no duplicate. *)
Lemma add_link_scan_next_page d name chunk_size reclen kaddr_end dir_end de' :
  scans_to d name reclen kaddr_end dir_end 0 de' -> kaddr_end < de' ->
  add_link_scan (S (length d)) d name chunk_size reclen kaddr_end dir_end 0
  = NextPage.
Proof.
  intros H Hout.
  destruct (add_link_scan_scans_to d name chunk_size _ _ _ _ _ H (S (length d)))
    as (fuel' & K1 & _ & _ & ->); try lia.
  destruct fuel' as [|k]; [lia|]. cbn [add_link_scan].
  destruct (Z.leb_spec de' kaddr_end); [lia | reflexivity].
Qed.

(** A page whose walk comes to a live record with the name. *)
Lemma add_link_scan_duplicate d name chunk_size reclen kaddr_end dir_end de' :
  scans_to d name reclen kaddr_end dir_end 0 de' ->
  de' <= kaddr_end -> de' <> dir_end -> de_rec_len d de' <> 0 ->
  live_entry name d de' ->
  add_link_scan (S (length d)) d name chunk_size reclen kaddr_end dir_end 0
  = ScanErr EEXIST.
Proof.
  intros H Hk Hend Hnz Hlive.
  destruct (add_link_scan_scans_to d name chunk_size _ _ _ _ _ H (S (length d)))
    as (fuel' & K1 & _ & _ & ->); try lia.
  destruct fuel' as [|k]; [lia|]. cbn [add_link_scan].
  destruct (Z.leb_spec de' kaddr_end); [|lia].
  destruct (Z.eqb_spec de' dir_end); [contradiction|].
  destruct (Z.eqb_spec (de_rec_len d de') 0); [contradiction|].
  rewrite (ext2_match_live _ _ _ Hlive). reflexivity.
Qed.

(** Inodes with the same fields and the same bytes in every page. *)
Definition same_contents (dir dir' : inode) : Prop :=
  i_ino dir' = i_ino dir /\ i_mode dir' = i_mode dir
  /\ i_nlink dir' = i_nlink dir /\ i_size dir' = i_size dir
  /\ i_blocks dir' = i_blocks dir /\ i_data dir' = i_data dir
  /\ forall j, page_data dir' j = page_data dir j.

Lemma same_contents_refl dir : same_contents dir dir.
Proof. unfold same_contents. repeat split; reflexivity. Qed.

Lemma same_contents_trans a b c :
  same_contents a b -> same_contents b c -> same_contents a c.
Proof.
  unfold same_contents.
  intros (H1 & H2 & H3 & H4 & H5 & H6 & H7) (K1 & K2 & K3 & K4 & K5 & K6 & K7).
  repeat split; try congruence; intros j; rewrite K7; apply H7.
Qed.

Lemma read_mapping_folio_store ino n f :
  0 <= n -> read_mapping_folio (store_folio ino n f) n = Ok f.
Proof.
  intros Hn. unfold read_mapping_folio, store_folio; simpl.
  destruct (Z.ltb_spec n 0); [lia|].
  destruct (Nat.ltb_spec (Z.to_nat n) (length (i_mapping ino))).
  - rewrite list_lookup_insert_eq by assumption. reflexivity.
  - rewrite lookup_app_r by assumption.
    rewrite lookup_app_r by (rewrite repeat_length; lia).
    rewrite repeat_length, Nat.sub_diag. reflexivity.
Qed.

Lemma ext2_check_folio_passes fs dir n quiet d :
  fst (ext2_check_folio fs dir n quiet d) = true ->
  ext2_check_folio fs dir n quiet d = (true, fs).
Proof.
  unfold ext2_check_folio.
  repeat match goal with
         | |- context [if ?c then _ else _] => destruct c
         | |- context [match ?c with CheckEnd _ => _ | CheckBad _ => _ end] =>
             destruct c
         end; simpl; intros H; first [reflexivity | discriminate].
Qed.

(** A good page is handed out as it is; the filesystem state stays, the
    inode keeps its contents. *)
Lemma ext2_get_folio_good fs dir n d :
  0 <= n -> good_page fs dir n d ->
  exists dir',
    ext2_get_folio fs dir n false = (Ok d, fs, dir')
    /\ same_but_page n dir dir' /\ same_contents dir dir'.
Proof.
  intros Hn (f & Hread & Hd & Hok). unfold ext2_get_folio. rewrite Hread.
  destruct (f_checked f) eqn:Hchk.
  { exists dir. rewrite Hd.
    split; [reflexivity|].
    split; [apply same_but_page_refl | apply same_contents_refl]. }
  destruct Hok as [? | Hok]; [discriminate|].
  rewrite Hd. rewrite (ext2_check_folio_passes _ _ _ _ _ Hok).
  eexists. split; [reflexivity|].
  pose proof (store_folio_same_but_page dir n
                {| f_data := d; f_checked := true |} Hn) as Hp.
  split; [exact Hp|].
  destruct Hp as (H1 & H2 & H3 & H4 & H5 & H6 & H7).
  unfold same_contents. repeat split; try assumption.
  intros j. unfold page_data. destruct (Z.eq_dec j n) as [-> | Hne].
  - rewrite read_mapping_folio_store by exact Hn. rewrite Hread, Hd. reflexivity.
  - rewrite (H7 j Hne). reflexivity.
Qed.

Lemma good_page_frame fs dir dir' n j d :
  same_but_page n dir dir' -> j <> n ->
  good_page fs dir j d -> good_page fs dir' j d.
Proof.
  intros (_ & _ & _ & Hsize & _ & _ & Hpages) Hj (f & Hread & Hd & Hok).
  exists f. rewrite (Hpages j Hj). split; [exact Hread|]. split; [exact Hd|].
  rewrite (ext2_check_folio_verdict fs fs dir dir') by auto. exact Hok.
Qed.

Section AddLinkDuplicate.

Variables (be : bool) (fs : ext2_fs) (name : list Z) (child_ino : Z).

Let reclen := u32 (EXT2_DIR_REC_LEN (Z.of_nat (length name))).
Let kaddr_end := u64 (PAGE_SIZE - reclen).

(** Page [j] of [dir] is good and the walk leaves it without finding a
    slot or the name. *)
Definition page_passed (dir : inode) (j : Z) : Prop :=
  exists d de',
    good_page fs dir j d
    /\ scans_to d name reclen kaddr_end (ext2_last_byte dir j) 0 de'
    /\ kaddr_end < de'.

(** Page [p] of [dir] is good and the walk comes to a live record with
    the name at [de0]. *)
Definition page_has_name (dir : inode) (p de0 : Z) : Prop :=
  exists d,
    good_page fs dir p d
    /\ scans_to d name reclen kaddr_end (ext2_last_byte dir p) 0 de0
    /\ de0 <= kaddr_end /\ de0 <> ext2_last_byte dir p
    /\ de_rec_len d de0 <> 0
    /\ live_entry name d de0.

Lemma page_passed_frame dir dir' n j :
  same_but_page n dir dir' -> j <> n ->
  page_passed dir j -> page_passed dir' j.
Proof.
  intros Hp Hj (d & de' & Hg & Hs & Hout). exists d, de'.
  split; [eapply good_page_frame; eassumption|].
  destruct Hp as (_ & _ & _ & Hsize & _).
  rewrite (ext2_last_byte_size dir dir') by exact Hsize. tauto.
Qed.

Lemma page_has_name_frame dir dir' n p de0 :
  same_but_page n dir dir' -> p <> n ->
  page_has_name dir p de0 -> page_has_name dir' p de0.
Proof.
  intros Hp Hj (d & Hg & Hrest). exists d.
  split; [eapply good_page_frame; eassumption|].
  destruct Hp as (_ & _ & _ & Hsize & _).
  rewrite (ext2_last_byte_size dir dir') by exact Hsize. exact Hrest.
Qed.

Lemma add_link_pages_duplicate todo dir n p de0 :
  0 <= n <= p -> p < n + Z.of_nat todo ->
  (forall j, n <= j < p -> page_passed dir j) ->
  page_has_name dir p de0 ->
  exists dir',
    add_link_pages be todo fs dir name child_ino n = (Err EEXIST, fs, dir')
    /\ same_contents dir dir'.
Proof.
  revert dir n.
  induction todo as [|todo IH]; intros dir n Hn Hp Hbefore Hname; [lia|].
  cbn [add_link_pages].
  destruct (Z.eq_dec n p) as [-> | Hne].
  - destruct Hname as (d & Hg & Hs & Hk & Hend & Hnz & Hlive).
    destruct (ext2_get_folio_good fs dir p d (proj1 Hn) Hg)
      as (dir1 & -> & (_ & _ & _ & Hsize & _) & Hc).
    rewrite (ext2_last_byte_size dir dir1) by exact Hsize.
    fold reclen. fold kaddr_end.
    rewrite (add_link_scan_duplicate d name _ _ _ _ de0) by assumption.
    exists dir1. split; [reflexivity | exact Hc].
  - destruct (Hbefore n ltac:(lia)) as (d & de' & Hg & Hs & Hout).
    destruct (ext2_get_folio_good fs dir n d (proj1 Hn) Hg)
      as (dir1 & -> & Hp1 & Hc).
    pose proof Hp1 as (_ & _ & _ & Hsize & _).
    rewrite (ext2_last_byte_size dir dir1) by exact Hsize.
    fold reclen. fold kaddr_end.
    rewrite (add_link_scan_next_page d name _ _ _ _ de') by assumption.
    destruct (IH dir1 (n + 1)) as (dir' & Hres & Hc'); [lia | lia | | |].
    + intros j Hj. apply (page_passed_frame dir dir1 n); [exact Hp1 | lia|].
      apply Hbefore. lia.
    + apply (page_has_name_frame dir dir1 n); [exact Hp1 | lia | exact Hname].
    + exists dir'. split; [exact Hres|].
      eapply same_contents_trans; eassumption.
Qed.

End AddLinkDuplicate.

Lemma name_eq_bytes name d de :
  forall k0, name_eq d de name k0 = true ->
    forall k c, name !! k = Some c ->
      de_name_byte d de (k0 + Z.of_nat k) = u8 c.
Proof.
  induction name as [|c name IH]; intros k0 H k c' Hk; [discriminate|].
  simpl in H. apply andb_true_iff in H. destruct H as (H1 & H2).
  destruct k as [|k].
  - injection Hk as <-. apply Z.eqb_eq in H1.
    rewrite H1. f_equal. lia.
  - rewrite <- (IH (k0 + 1) H2 k c' Hk). f_equal. lia.
Qed.

(** [ext2_match] holds of the live records with the name, and of no
    others. *)
Lemma ext2_match_iff name d de :
  ext2_match name d de = true <-> live_entry name d de.
Proof.
  split; [|apply ext2_match_live].
  unfold ext2_match, live_entry.
  destruct (Z.eqb_spec (Z.of_nat (length name)) (de_name_len d de)) as [E | _];
    [|discriminate]. simpl.
  destruct (Z.eqb_spec (de_inode d de) 0) as [_ | Hino]; [discriminate|].
  intros H. split; [exact Hino|]. split; [congruence|].
  intros k c Hk. rewrite <- (name_eq_bytes _ _ _ 0 H k c Hk). f_equal.
Qed.

Lemma not_usable_slot d reclen de :
  (de_inode d de =? 0) && (reclen <=? de_rec_len d de) = false ->
  (u16 (EXT2_DIR_REC_LEN (de_name_len d de)) + reclen <=? de_rec_len d de)
  = false ->
  ~ usable_slot d reclen de.
Proof.
  intros H1 H2 [[E1 E2] | E].
  - rewrite E1 in H1. simpl in H1. apply Z.leb_gt in H1. lia.
  - apply Z.leb_gt in H2. lia.
Qed.

(** The root directory holds a live "c", yet adding "c" succeeds: the walk
    comes to the spare bytes of ".." first and writes a second "c"
    there. *)
Lemma ext2_add_link_duplicate_counterexample :
  page_data sample_slot_dir 0 = Some sample_slot_page
  /\ live_entry [99] sample_slot_page 36
  /\ fst (fst (ext2_add_link false sample_fs sample_slot_dir [99] 14)) = Ok tt
  /\ page_data (snd (ext2_add_link false sample_fs sample_slot_dir [99] 14)) 0
     <> page_data sample_slot_dir 0.
Proof.
  split; [reflexivity|]. split.
  { apply ext2_match_iff. vm_compute. reflexivity. }
  split; [vm_compute; reflexivity|].
  intros H.
  apply (f_equal (fun o => match o with
                           | Some d => de_inode d 24
                           | None => 0
                           end)) in H.
  vm_compute in H. discriminate.
Qed.

(** C5 (amended).  If the walk of [ext2_add_link] over the directory, page
    after page and record after record, comes to a live record with the
    name before it comes to a slot that could take the new record (and
    all it passes are good pages and records with a length), the call
    returns EEXIST and leaves the filesystem state and the contents of the
    directory as they were. *)
Theorem ext2_add_link_duplicate be fs dir name child_ino p de0 :
  0 <= p <= dir_pages dir ->
  (forall j, 0 <= j < p -> page_passed fs name dir j) ->
  page_has_name fs name dir p de0 ->
  exists dir',
    ext2_add_link be fs dir name child_ino = (Err EEXIST, fs, dir')
    /\ same_contents dir dir'.
Proof.
  intros Hp Hbefore Hname. unfold ext2_add_link.
  apply (add_link_pages_duplicate be fs name child_ino _ dir 0 p de0);
    [lia | lia | exact Hbefore | exact Hname].
Qed.

Lemma ext2_add_link_duplicate_witness :
  exists dir',
    ext2_add_link false sample_fs sample_named_dir [99] 14
      = (Err EEXIST, sample_fs, dir')
    /\ same_contents sample_named_dir dir'.
Proof.
  apply (ext2_add_link_duplicate false sample_fs sample_named_dir [99] 14 0 24).
  - compute_done.
  - intros j Hj. lia.
  - exists sample_named_page. split.
    { eexists. split; [reflexivity|]. split; [reflexivity|].
      right. vm_compute. reflexivity. }
    split.
    { apply scans_step; [compute_done | compute_done | compute_done
                         | vm_compute; reflexivity
                         | apply not_usable_slot; vm_compute; reflexivity |].
      apply scans_step; [compute_done | compute_done | compute_done
                         | vm_compute; reflexivity
                         | apply not_usable_slot; vm_compute; reflexivity |].
      apply scans_here. }
    split; [compute_done|]. split; [compute_done|]. split; [compute_done|].
    apply ext2_match_iff. vm_compute. reflexivity.
Defined.

(** *** What [mkdir] takes, [rmdir] and the eviction give back *)

(** The place of a group's metadata. *)
Definition same_layout (a b : ext2_group_desc) : Prop :=
  bg_block_bitmap b = bg_block_bitmap a
  /\ bg_inode_bitmap b = bg_inode_bitmap a
  /\ bg_inode_table b = bg_inode_table a.

(** Groups that agree on all that the block allocator keeps. *)
Definition block_side (a b : ext2_group) : Prop :=
  same_layout (g_desc a) (g_desc b)
  /\ bg_free_blocks_count (g_desc b) = bg_free_blocks_count (g_desc a)
  /\ g_block_bitmap b = g_block_bitmap a
  /\ (g_bb_uptodate a = true -> g_bb_uptodate b = true).

(** Groups that agree on all that the inode allocator keeps. *)
Definition inode_side (a b : ext2_group) : Prop :=
  same_layout (g_desc a) (g_desc b)
  /\ bg_free_inodes_count (g_desc b) = bg_free_inodes_count (g_desc a)
  /\ bg_used_dirs_count (g_desc b) = bg_used_dirs_count (g_desc a)
  /\ g_inode_bitmap b = g_inode_bitmap a.

(** States with the same geometry and device whose groups are related by
    [P], one by one. *)
Definition groups_agree (P : ext2_group -> ext2_group -> Prop)
    (fs fs' : ext2_fs) : Prop :=
  fs_sbi fs' = fs_sbi fs
  /\ fs_bad_blocks fs' = fs_bad_blocks fs
  /\ Forall2 P (fs_groups fs) (fs_groups fs').

(** The inode allocator at work: the block side stays. *)
Definition same_blocks (fs fs' : ext2_fs) : Prop :=
  groups_agree block_side fs fs'
  /\ s_freeblocks_counter fs' = s_freeblocks_counter fs.

(** The block allocator at work: the inode side stays. *)
Definition same_inodes (fs fs' : ext2_fs) : Prop :=
  groups_agree inode_side fs fs'
  /\ s_freeinodes_counter fs' = s_freeinodes_counter fs
  /\ s_dirs_counter fs' = s_dirs_counter fs.

Lemma same_layout_refl a : same_layout a a.
Proof. unfold same_layout. tauto. Qed.

Lemma same_layout_trans a b c :
  same_layout a b -> same_layout b c -> same_layout a c.
Proof. unfold same_layout. intuition congruence. Qed.

Lemma block_side_refl a : block_side a a.
Proof. unfold block_side. pose proof (same_layout_refl (g_desc a)). tauto. Qed.

Lemma block_side_trans a b c : block_side a b -> block_side b c -> block_side a c.
Proof.
  unfold block_side. intros (H1 & H2 & H3 & H4) (K1 & K2 & K3 & K4).
  split; [eapply same_layout_trans; eassumption|].
  repeat split; try congruence. auto.
Qed.

Lemma inode_side_refl a : inode_side a a.
Proof. unfold inode_side. pose proof (same_layout_refl (g_desc a)). tauto. Qed.

Lemma inode_side_trans a b c : inode_side a b -> inode_side b c -> inode_side a c.
Proof.
  unfold inode_side. intros (H1 & H2 & H3 & H4) (K1 & K2 & K3 & K4).
  split; [eapply same_layout_trans; eassumption|].
  repeat split; congruence.
Qed.

Lemma grp_same_block_side a b : grp_same a b -> block_side a b.
Proof.
  unfold grp_same, block_side, same_layout. intros (-> & -> & _ & H). tauto.
Qed.

Lemma grp_same_inode_side a b : grp_same a b -> inode_side a b.
Proof.
  unfold grp_same, inode_side, same_layout. intros (-> & _ & -> & _). tauto.
Qed.

Section GroupsAgree.

Variable P : ext2_group -> ext2_group -> Prop.
Hypothesis P_refl : forall a, P a a.
Hypothesis P_trans : forall a b c, P a b -> P b c -> P a c.

Lemma Forall2_P_refl l : Forall2 P l l.
Proof. induction l; constructor; auto. Qed.

Lemma Forall2_P_trans l1 l2 l3 :
  Forall2 P l1 l2 -> Forall2 P l2 l3 -> Forall2 P l1 l3.
Proof.
  intros H. revert l3. induction H as [|a b l1 l2 Hab _ IH]; intros l3 H3.
  - inversion H3. constructor.
  - inversion H3 as [|? c ? l3' Hbc H3']; subst. constructor; eauto.
Qed.

Lemma groups_agree_refl fs : groups_agree P fs fs.
Proof. unfold groups_agree. repeat split. apply Forall2_P_refl. Qed.

Lemma groups_agree_trans a b c :
  groups_agree P a b -> groups_agree P b c -> groups_agree P a c.
Proof.
  unfold groups_agree. intros (H1 & H2 & H3) (K1 & K2 & K3).
  repeat split; try congruence. eapply Forall2_P_trans; eassumption.
Qed.

Lemma groups_agree_group_at fs fs' g grp :
  groups_agree P fs fs' -> group_at fs g = Some grp ->
  exists grp', group_at fs' g = Some grp' /\ P grp grp'.
Proof.
  intros (_ & _ & H). unfold group_at. destruct (g <? 0); [discriminate|].
  intros Hat. destruct (Forall2_lookup_l _ _ _ _ _ H Hat) as (grp' & H1 & H2).
  exists grp'. split; assumption.
Qed.

Lemma groups_agree_group_at_r fs fs' g grp' :
  groups_agree P fs fs' -> group_at fs' g = Some grp' ->
  exists grp, group_at fs g = Some grp /\ P grp grp'.
Proof.
  intros (_ & _ & H). unfold group_at. destruct (g <? 0); [discriminate|].
  intros Hat. destruct (Forall2_lookup_r _ _ _ _ _ H Hat) as (grp & H1 & H2).
  exists grp. split; assumption.
Qed.

Lemma groups_agree_update fs g grp grp0 :
  group_at fs g = Some grp0 -> P grp0 grp ->
  groups_agree P fs (update_group fs g grp).
Proof.
  intros Hat Hs. unfold groups_agree, update_group; simpl.
  repeat split.
  unfold group_at in Hat. destruct (g <? 0); [discriminate|].
  apply Forall2_same_length_lookup_2.
  - rewrite length_insert. reflexivity.
  - intros i x y Hx Hy.
    destruct (decide (i = Z.to_nat g)) as [-> | Hne].
    + rewrite list_lookup_insert_eq in Hy by (eapply lookup_lt_Some; eassumption).
      congruence.
    + rewrite list_lookup_insert_ne in Hy by congruence.
      assert (x = y) by congruence. subst. apply P_refl.
Qed.

Lemma groups_agree_same_env fs fs' :
  fs_sbi fs' = fs_sbi fs -> fs_bad_blocks fs' = fs_bad_blocks fs ->
  fs_groups fs' = fs_groups fs -> groups_agree P fs fs'.
Proof.
  intros H1 H2 H3. unfold groups_agree. rewrite H3.
  repeat split; try assumption. apply Forall2_P_refl.
Qed.

End GroupsAgree.

Lemma groups_agree_sb_bread P fs fs' b :
  groups_agree P fs fs' -> sb_bread fs' b = sb_bread fs b.
Proof. intros (_ & H & _). unfold sb_bread. rewrite H. reflexivity. Qed.

Lemma groups_agree_weaken (P Q : ext2_group -> ext2_group -> Prop) fs fs' :
  (forall a b, P a b -> Q a b) -> groups_agree P fs fs' -> groups_agree Q fs fs'.
Proof.
  intros HPQ (H1 & H2 & H3). repeat split; try assumption.
  eapply Forall2_impl; eauto.
Qed.

Lemma same_alloc_groups_agree fs fs' :
  same_alloc fs fs' -> groups_agree grp_same fs fs'.
Proof. intros (H1 & H2 & _ & _ & _ & H6 & _). repeat split; assumption. Qed.

Lemma same_blocks_refl fs : same_blocks fs fs.
Proof.
  split; [|reflexivity]. apply groups_agree_refl. exact block_side_refl.
Qed.

Lemma same_blocks_trans a b c : same_blocks a b -> same_blocks b c -> same_blocks a c.
Proof.
  intros (H1 & H2) (K1 & K2). split; [|congruence].
  eapply groups_agree_trans; [exact block_side_trans | eassumption..].
Qed.

Lemma same_inodes_refl fs : same_inodes fs fs.
Proof.
  split; [|split; reflexivity]. apply groups_agree_refl. exact inode_side_refl.
Qed.

Lemma same_inodes_trans a b c : same_inodes a b -> same_inodes b c -> same_inodes a c.
Proof.
  intros (H1 & H2 & H3) (K1 & K2 & K3). split; [|split; congruence].
  eapply groups_agree_trans; [exact inode_side_trans | eassumption..].
Qed.

Lemma same_alloc_same_blocks fs fs' : same_alloc fs fs' -> same_blocks fs fs'.
Proof.
  intros H. split.
  - eapply groups_agree_weaken; [exact grp_same_block_side|].
    apply same_alloc_groups_agree. exact H.
  - destruct H as (_ & _ & H & _). exact H.
Qed.

Lemma same_alloc_same_inodes fs fs' : same_alloc fs fs' -> same_inodes fs fs'.
Proof.
  intros H. split.
  - eapply groups_agree_weaken; [exact grp_same_inode_side|].
    apply same_alloc_groups_agree. exact H.
  - destruct H as (_ & _ & _ & H1 & H2 & _). split; assumption.
Qed.

Lemma same_core_same_blocks fs fs' : same_core fs fs' -> same_blocks fs fs'.
Proof. intros H. apply same_alloc_same_blocks, same_core_alloc, H. Qed.

Lemma same_core_same_inodes fs fs' : same_core fs fs' -> same_inodes fs fs'.
Proof. intros H. apply same_alloc_same_inodes, same_core_alloc, H. Qed.

(** **** The inode allocator *)

Lemma read_inode_bitmap_spec fs g r fs' :
  read_inode_bitmap fs g = (r, fs') ->
  same_core fs fs'
  /\ match r with
     | Some bm =>
         fs' = fs /\ u32 g < s_groups_count (fs_sbi fs)
         /\ exists grp,
              group_at fs (u32 g) = Some grp /\ bm = g_inode_bitmap grp
              /\ sb_bread fs (bg_inode_bitmap (g_desc grp)) = true
     | None => True
     end.
Proof.
  unfold read_inode_bitmap.
  destruct (ext2_get_group_desc fs g) as [[desc|] fs0] eqn:Hd;
    apply ext2_get_group_desc_spec in Hd; destruct Hd as (Hc & Hd).
  2:{ intros [= <- <-]. tauto. }
  destruct Hd as (-> & Hlt & grp & Hat & ->). rewrite Hat.
  destruct (sb_bread fs (bg_inode_bitmap (g_desc grp))) eqn:Hb.
  - intros [= <- <-]. split; [apply same_core_refl|].
    split; [reflexivity|]. split; [exact Hlt|]. exists grp. tauto.
  - intros [= <- <-]. split; [apply ext2_error_same_core | exact I].
Qed.

Lemma new_inode_in_group_spec fuel bm ipg start bit bm' :
  0 <= start <= ipg ->
  new_inode_in_group fuel bm ipg start = (Some bit, bm') ->
  0 <= bit < ipg /\ Z.testbit bm' bit = true.
Proof.
  revert bm start. induction fuel as [|fuel IH]; intros bm start Hs;
    cbn [new_inode_in_group]; [discriminate|].
  pose proof (find_next_zero_bit_le_spec bm ipg start Hs) as S.
  cbv zeta in S. destruct S as (S1 & _).
  set (ino := find_next_zero_bit_le bm ipg start) in *.
  destruct (Z.leb_spec ipg ino); [discriminate|].
  unfold ext2_set_bit_atomic.
  destruct (Z.testbit bm ino).
  - destruct (Z.leb_spec ipg (ino + 1)); [discriminate|].
    intros Hrec. apply IH in Hrec; [exact Hrec | lia].
  - intros [= <- <-]. split; [lia|]. apply Z.setbit_eq. lia.
Qed.

Lemma set_inode_bitmap_same_blocks fs g bm :
  same_blocks fs (set_inode_bitmap fs g bm).
Proof.
  unfold set_inode_bitmap. destruct (group_at fs g) as [grp|] eqn:Hat;
    [|apply same_blocks_refl].
  split; [|reflexivity].
  eapply groups_agree_update; [exact block_side_refl | exact Hat|].
  unfold block_side; simpl. pose proof (same_layout_refl (g_desc grp)). tauto.
Qed.

Lemma u32_of_s32 g n :
  - 2 ^ 31 <= g < 2 ^ 31 -> n < 2 ^ 31 -> u32 g < n -> u32 g = g /\ 0 <= g.
Proof.
  intros Hg Hn Hu. unfold u32 in *.
  destruct (Z.lt_ge_cases g 0).
  - exfalso. replace g with (g + 2 ^ 32 + (-1) * 2 ^ 32) in Hu by lia.
    rewrite Z.mod_add in Hu by lia. rewrite Z.mod_small in Hu by lia. lia.
  - rewrite Z.mod_small by lia. lia.
Qed.

(** The group loop of the inode allocator: the bit it returns is set in the
    inode bitmap of the group it returns; nothing else that counts has
    changed. *)
Lemma new_inode_scan_spec todo fs group g bit fs' :
  0 < s_inodes_per_group (fs_sbi fs) ->
  0 < s_groups_count (fs_sbi fs) < 2 ^ 31 ->
  - 2 ^ 31 <= group < 2 ^ 31 ->
  new_inode_scan todo fs group = (Ok (g, bit), fs') ->
  same_blocks fs fs'
  /\ s_freeinodes_counter fs' = s_freeinodes_counter fs
  /\ 0 <= g < s_groups_count (fs_sbi fs)
  /\ 0 <= bit < s_inodes_per_group (fs_sbi fs)
  /\ exists grp,
       group_at fs' g = Some grp
       /\ Z.testbit (g_inode_bitmap grp) bit = true
       /\ sb_bread fs' (bg_inode_bitmap (g_desc grp)) = true.
Proof.
  revert fs group.
  induction todo as [|todo IH]; intros fs group Hipg Hn Hg;
    cbn [new_inode_scan]; [discriminate|].
  assert (Hnext : - 2 ^ 31 <= s32 (u64 (group + 1) mod s_groups_count (fs_sbi fs))
                  < 2 ^ 31) by apply s32_range.
  destruct (ext2_get_group_desc fs group) as [[gdp|] fs0] eqn:Hd;
    apply ext2_get_group_desc_spec in Hd; destruct Hd as (Hc & Hd).
  2:{ intros H. pose proof Hc as (Hsbi & _).
      apply IH in H; rewrite ?Hsbi; try assumption.
      rewrite Hsbi in H. destruct H as (H1 & H2 & H3).
      split; [eapply same_blocks_trans;
              [apply same_core_same_blocks; exact Hc | exact H1]|].
      destruct Hc as (_ & _ & _ & Hfi & _). split; [congruence | exact H3]. }
  destruct Hd as (-> & Hlt & grp & Hat & ->).
  destruct (read_inode_bitmap fs group) as [[bm|] fs1] eqn:Hr;
    apply read_inode_bitmap_spec in Hr; destruct Hr as (Hc1 & Hr);
    [|discriminate].
  destruct Hr as (-> & _ & grp0 & Hat0 & -> & Hread).
  assert (grp0 = grp) by congruence. subst grp0.
  destruct (u32_of_s32 group _ Hg (proj2 Hn) Hlt) as (Hu & Hpos).
  rewrite Hu in *.
  destruct (new_inode_in_group _ (g_inode_bitmap grp) _ 0) as [[b|] bm'] eqn:Hin.
  - intros [= <- <- <-].
    apply new_inode_in_group_spec in Hin; [|lia].
    split; [apply set_inode_bitmap_same_blocks|].
    destruct (set_inode_bitmap_same_env fs group bm') as (Hsbi & _ & Hfi & _ & Hbad & _).
    split; [exact Hfi|]. split; [lia|]. split; [tauto|].
    eexists. split; [apply set_inode_bitmap_at; exact Hat|]. simpl.
    split; [tauto|]. unfold sb_bread in *. rewrite Hbad. exact Hread.
  - intros H.
    destruct (set_inode_bitmap_same_env fs group bm') as (Hsbi & _ & Hfi & _).
    apply IH in H; rewrite ?Hsbi; try assumption.
    rewrite Hsbi in H. destruct H as (H1 & H2 & H3).
    split; [eapply same_blocks_trans;
            [apply set_inode_bitmap_same_blocks | exact H1]|].
    split; [congruence | exact H3].
Qed.

Lemma find_group_hash_spec fuel fs group i ngroups r fs' :
  find_group_hash fuel fs group i ngroups = (r, fs') ->
  same_core fs fs'
  /\ match r with Some g => - 2 ^ 31 <= g < 2 ^ 31 | None => True end.
Proof.
  revert fs group i. induction fuel as [|fuel IH]; intros fs group i;
    cbn [find_group_hash].
  - intros [= <- <-]. split; [apply same_core_refl | exact I].
  - destruct (i <? ngroups).
    2:{ intros [= <- <-]. split; [apply same_core_refl | exact I]. }
    set (g1 := s32 (group + i)).
    set (g2 := if ngroups <=? g1 then s32 (g1 - ngroups) else g1).
    assert (Hg2 : - 2 ^ 31 <= g2 < 2 ^ 31).
    { subst g2 g1. destruct (ngroups <=? s32 (group + i)); apply s32_range. }
    destruct (ext2_get_group_desc fs g2) as [desc fs0] eqn:Hd.
    apply ext2_get_group_desc_spec in Hd. destruct Hd as (Hc & _).
    destruct (desc_has_inodes_and_blocks desc).
    + intros [= <- <-]. split; [exact Hc | exact Hg2].
    + intros H. apply IH in H. destruct H as (Hc' & Hr).
      split; [eapply same_core_trans; eassumption | exact Hr].
Qed.

Lemma find_group_linear_spec todo fs group ngroups g fs' :
  0 < ngroups < 2 ^ 31 ->
  find_group_linear todo fs group ngroups = (g, fs') ->
  same_core fs fs' /\ - 2 ^ 31 <= g < 2 ^ 31.
Proof.
  intros Hn. revert fs group. induction todo as [|todo IH]; intros fs group;
    cbn [find_group_linear].
  - intros [= <- <-]. split; [apply same_core_refl | lia].
  - destruct (ext2_get_group_desc fs (Z.rem (s32 (group + 1)) ngroups))
      as [desc fs0] eqn:Hd.
    apply ext2_get_group_desc_spec in Hd. destruct Hd as (Hc & _).
    destruct (desc_has_inodes desc).
    + intros [= <- <-]. split; [exact Hc|].
      pose proof (Z.rem_bound_abs (s32 (group + 1)) ngroups ltac:(lia)). lia.
    + intros H. apply IH in H. destruct H as (Hc' & Hr).
      split; [eapply same_core_trans; eassumption | exact Hr].
Qed.

Lemma find_group_spec fs parent g fs' :
  0 < s_groups_count (fs_sbi fs) < 2 ^ 31 ->
  find_group fs parent = (g, fs') ->
  same_core fs fs' /\ - 2 ^ 31 <= g < 2 ^ 31.
Proof.
  intros Hn. unfold find_group.
  rewrite (s32_small (s_groups_count (fs_sbi fs))) by lia.
  destruct (ext2_get_group_desc fs (s32 (i_block_group parent)))
    as [desc fs0] eqn:Hd.
  apply ext2_get_group_desc_spec in Hd. destruct Hd as (Hc & _).
  destruct (desc_has_inodes_and_blocks desc).
  { intros [= <- <-]. split; [exact Hc | apply s32_range]. }
  pose proof Hc as (Hsbi & _).
  match goal with
  | |- context [find_group_hash ?f ?a ?b ?c ?d] =>
      destruct (find_group_hash f a b c d) as [[gh|] fs1] eqn:Hh
  end; apply find_group_hash_spec in Hh; destruct Hh as (Hc1 & Hr).
  - intros [= <- <-]. split; [eapply same_core_trans; eassumption | exact Hr].
  - intros H. apply find_group_linear_spec in H; [|lia].
    destruct H as (Hc2 & Hg). split; [|exact Hg].
    eapply same_core_trans; [exact Hc|].
    eapply same_core_trans; eassumption.
Qed.

Lemma set_desc_same_blocks fs g d grp :
  group_at fs g = Some grp ->
  same_layout (g_desc grp) d ->
  bg_free_blocks_count d = bg_free_blocks_count (g_desc grp) ->
  same_blocks fs (set_desc fs g d).
Proof.
  intros Hat Hl Hf. unfold set_desc. rewrite Hat. split; [|reflexivity].
  eapply groups_agree_update; [exact block_side_refl | exact Hat|].
  unfold block_side; simpl. tauto.
Qed.

Lemma set_counters_same_blocks fs fi d :
  same_blocks fs (set_counters fs (s_freeblocks_counter fs) fi d).
Proof.
  split; [|reflexivity].
  apply groups_agree_same_env; [exact block_side_refl | reflexivity..].
Qed.

Lemma group_at_set_counters fs fb fi d g :
  group_at (set_counters fs fb fi d) g = group_at fs g.
Proof. reflexivity. Qed.

(** What a successful [ext2_new_inode] leaves: one free inode less, the bit
    of the new inode set in the bitmap of its group, the block side as it
    was. *)
Lemma ext2_new_inode_spec fs dir mode ino fs' :
  0 < s_inodes_per_group (fs_sbi fs) < 2 ^ 32 ->
  0 < s_groups_count (fs_sbi fs) < 2 ^ 31 ->
  ext2_new_inode fs dir mode = (Ok ino, fs') ->
  same_blocks fs fs'
  /\ s_freeinodes_counter fs' = s_freeinodes_counter fs - 1
  /\ s_first_ino (fs_sbi fs) <= i_ino ino <= s_inodes_count (s_es (fs_sbi fs))
  /\ 0 < i_ino ino < 2 ^ 64
  /\ exists g grp,
       0 <= g < s_groups_count (fs_sbi fs)
       /\ g = (i_ino ino - 1) / s_inodes_per_group (fs_sbi fs)
       /\ group_at fs' g = Some grp
       /\ Z.testbit (g_inode_bitmap grp)
            ((i_ino ino - 1) mod s_inodes_per_group (fs_sbi fs)) = true
       /\ sb_bread fs' (bg_inode_bitmap (g_desc grp)) = true.
Proof.
  intros Hipg Hn. unfold ext2_new_inode.
  destruct (find_group fs dir) as [group fs0] eqn:Hfg.
  apply find_group_spec in Hfg; [|exact Hn]. destruct Hfg as (Hc0 & Hgr).
  pose proof Hc0 as (Hsbi0 & _).
  destruct (group =? -1); [discriminate|].
  destruct (new_inode_scan _ fs0 group) as [[[g bit] | e] fs1] eqn:Hscan;
    [|discriminate].
  apply new_inode_scan_spec in Hscan; rewrite ?Hsbi0; try assumption; try lia.
  rewrite Hsbi0 in Hscan.
  destruct Hscan as (Hb1 & Hfi1 & Hg & Hbit & grp & Hat & Hset & Hread).
  set (ipg := s_inodes_per_group (fs_sbi fs)) in *.
  assert (Hprod : 0 <= g * ipg < 2 ^ 63) by nia.
  rewrite (u64_small (g * ipg)) by lia.
  rewrite (u64_small (bit + g * ipg + 1)) by lia.
  match goal with |- context [if ?c then _ else _] => destruct c eqn:Hchk end;
    [discriminate|].
  apply orb_false_iff in Hchk. destruct Hchk as (Hlo & Hhi).
  apply Z.ltb_ge in Hlo, Hhi.
  rewrite (u32_small g) by lia.
  intros [= <- <-]. cbn [i_ino].
  assert (Hq : (bit + g * ipg + 1 - 1) / ipg = g).
  { replace (bit + g * ipg + 1 - 1) with (bit + g * ipg) by lia.
    rewrite Z.div_add by lia. rewrite Z.div_small by lia. lia. }
  assert (Hr : (bit + g * ipg + 1 - 1) mod ipg = bit).
  { replace (bit + g * ipg + 1 - 1) with (bit + g * ipg) by lia.
    rewrite Z.mod_add by lia. apply Z.mod_small. lia. }
  rewrite Hq, Hr.
  set (fsa := percpu_counter_add_freeinodes fs1 (-1)).
  set (fsb := if S_ISDIR mode then percpu_counter_add_dirs fsa 1 else fsa).
  assert (Hatb : group_at fsb g = Some grp).
  { subst fsb fsa. destruct (S_ISDIR mode); exact Hat. }
  assert (Hbb : same_blocks fs1 fsb).
  { subst fsb fsa. destruct (S_ISDIR mode).
    - eapply same_blocks_trans; apply set_counters_same_blocks.
    - apply set_counters_same_blocks. }
  assert (Hfib : s_freeinodes_counter fsb = s_freeinodes_counter fs1 - 1).
  { subst fsb fsa. destruct (S_ISDIR mode); reflexivity. }
  assert (Hbadb : fs_bad_blocks fsb = fs_bad_blocks fs1).
  { subst fsb fsa. destruct (S_ISDIR mode); reflexivity. }
  rewrite Hatb.
  set (d := desc_add_inodes (g_desc grp) (-1) (if S_ISDIR mode then 1 else 0)).
  destruct (set_desc_same_env fsb g d) as (_ & _ & Hfi2 & _ & Hbad2 & _).
  split.
  { eapply same_blocks_trans; [apply same_core_same_blocks; exact Hc0|].
    eapply same_blocks_trans; [exact Hb1|].
    eapply same_blocks_trans; [exact Hbb|].
    apply (set_desc_same_blocks fsb g d grp Hatb).
    - unfold same_layout; simpl. tauto.
    - reflexivity. }
  split.
  { rewrite Hfi2, Hfib, Hfi1. destruct Hc0 as (_ & _ & _ & -> & _). reflexivity. }
  split; [lia|]. split; [lia|].
  exists g. eexists. split; [lia|]. split; [reflexivity|].
  split; [apply set_desc_at; exact Hatb|]. simpl.
  split; [exact Hset|]. unfold sb_bread in *. rewrite Hbad2, Hbadb. exact Hread.
Qed.

Lemma ext2_release_inode_freeblocks fs g dir :
  s_freeblocks_counter (ext2_release_inode fs g dir) = s_freeblocks_counter fs.
Proof.
  unfold ext2_release_inode.
  destruct (ext2_get_group_desc fs g) as [[desc|] fs0] eqn:Hd;
    apply ext2_get_group_desc_spec in Hd; destruct Hd as (Hc & Hd).
  - destruct Hd as (-> & _).
    destruct (set_desc_same_env fs (u32 g)
                (desc_add_inodes desc 1 (if dir then -1 else 0)))
      as (_ & Hfb & _).
    destruct dir; simpl; exact Hfb.
  - simpl. destruct Hc as (_ & _ & Hfb & _). exact Hfb.
Qed.

(** Freeing an inode leaves the free-blocks counter alone. *)
Lemma ext2_free_inode_freeblocks fs ino :
  s_freeblocks_counter (ext2_free_inode fs ino) = s_freeblocks_counter fs.
Proof.
  unfold ext2_free_inode.
  match goal with |- context [if ?c then _ else _] => destruct c end;
    [reflexivity|].
  match goal with
  | |- context [read_inode_bitmap ?a ?b] =>
      destruct (read_inode_bitmap a b) as [[bm|] fs0] eqn:Hr
  end; apply read_inode_bitmap_spec in Hr; destruct Hr as (Hc & Hr).
  2:{ destruct Hc as (_ & _ & Hfb & _). exact Hfb. }
  destruct Hr as (-> & _). unfold ext2_clear_bit_atomic.
  match goal with
  | |- context [set_inode_bitmap ?a ?b ?c] =>
      destruct (set_inode_bitmap_same_env a b c) as (_ & Hfb & _)
  end.
  destruct (Z.testbit bm _).
  - rewrite ext2_release_inode_freeblocks. exact Hfb.
  - simpl. exact Hfb.
Qed.

(** Freeing an inode whose bit is set gives one free inode back. *)
Lemma ext2_free_inode_frees fs ino grp :
  let n := i_ino ino in
  let ipg := s_inodes_per_group (fs_sbi fs) in
  let g := (n - 1) / ipg in
  0 < ipg ->
  0 < n < 2 ^ 64 ->
  s_first_ino (fs_sbi fs) <= n <= s_inodes_count (s_es (fs_sbi fs)) ->
  0 <= g < s_groups_count (fs_sbi fs) ->
  s_groups_count (fs_sbi fs) < 2 ^ 31 ->
  group_at fs g = Some grp ->
  Z.testbit (g_inode_bitmap grp) ((n - 1) mod ipg) = true ->
  sb_bread fs (bg_inode_bitmap (g_desc grp)) = true ->
  s_freeinodes_counter (ext2_free_inode fs ino) = s_freeinodes_counter fs + 1.
Proof.
  cbv zeta. intros Hipg Hn Hrange Hg Hng Hat Hbit Hread.
  unfold ext2_free_inode.
  destruct (Z.ltb_spec (i_ino ino) (s_first_ino (fs_sbi fs))); [lia|].
  destruct (Z.ltb_spec (s_inodes_count (s_es (fs_sbi fs))) (i_ino ino)); [lia|].
  cbn [orb]. rewrite (u64_small (i_ino ino - 1)) by lia.
  set (g := (i_ino ino - 1) / s_inodes_per_group (fs_sbi fs)) in *.
  unfold read_inode_bitmap.
  rewrite (ext2_get_group_desc_some fs g grp) by (try assumption; lia).
  rewrite Hread. rewrite (u32_small g) by lia. rewrite Hat.
  unfold ext2_clear_bit_atomic. rewrite Hbit.
  rewrite (s32_small g) by lia.
  set (bm' := Z.clearbit (g_inode_bitmap grp) _).
  pose proof (set_inode_bitmap_at fs g bm' grp Hat) as Hat'.
  destruct (set_inode_bitmap_same_env fs g bm') as (Hsbi & _ & Hfi & _).
  unfold ext2_release_inode.
  rewrite (ext2_get_group_desc_some _ g _ ltac:(lia) ltac:(rewrite Hsbi; lia) Hat').
  rewrite (u32_small g) by lia.
  destruct (S_ISDIR (i_mode ino));
    match goal with
    | |- context [set_desc ?a ?b ?c] =>
        destruct (set_desc_same_env a b c) as (_ & _ & Hfi2 & _)
    end;
    unfold percpu_counter_add_dirs, percpu_counter_add_freeinodes, set_counters;
    cbn [s_freeinodes_counter]; rewrite Hfi2, Hfi; reflexivity.
Qed.

(** **** The block allocator, one block at a time *)

(** The state after [c] was added to the free count of group [g], whose
    bitmap became [bm'], and [d] to the global counter. *)
Lemma block_update_effect fs g grp bm' c d :
  group_at fs g = Some grp -> c <> 0 ->
  let fs' :=
    percpu_counter_add_freeblocks
      (group_update_free_blocks (set_block_bitmap fs g bm') g c) d in
  same_inodes fs fs'
  /\ s_freeblocks_counter fs' = s_freeblocks_counter fs + d
  /\ exists grp',
       group_at fs' g = Some grp'
       /\ g_block_bitmap grp' = bm'
       /\ same_layout (g_desc grp) (g_desc grp')
       /\ g_bb_uptodate grp' = g_bb_uptodate grp.
Proof.
  intros Hat Hc. cbv zeta.
  pose proof (set_block_bitmap_at fs g bm' grp Hat) as Hat1.
  set (fs1 := set_block_bitmap fs g bm') in *.
  assert (H1 : same_inodes fs fs1).
  { subst fs1. unfold set_block_bitmap. rewrite Hat.
    split; [|split; reflexivity].
    eapply groups_agree_update; [exact inode_side_refl | exact Hat|].
    unfold inode_side; simpl. pose proof (same_layout_refl (g_desc grp)). tauto. }
  unfold group_update_free_blocks.
  destruct (Z.eqb_spec c 0) as [? | _]; [contradiction|]. rewrite Hat1.
  cbn [g_desc].
  set (desc' := {| bg_block_bitmap := bg_block_bitmap (g_desc grp);
                   bg_inode_bitmap := bg_inode_bitmap (g_desc grp);
                   bg_inode_table := bg_inode_table (g_desc grp);
                   bg_free_blocks_count :=
                     u16 (bg_free_blocks_count (g_desc grp) + c);
                   bg_free_inodes_count := bg_free_inodes_count (g_desc grp);
                   bg_used_dirs_count := bg_used_dirs_count (g_desc grp) |}).
  pose proof (set_desc_at fs1 g desc' _ Hat1) as Hat2. cbn in Hat2.
  set (fs2 := set_desc fs1 g desc') in *.
  assert (H2 : same_inodes fs1 fs2).
  { subst fs2. unfold set_desc. rewrite Hat1.
    split; [|split; reflexivity].
    eapply groups_agree_update; [exact inode_side_refl | exact Hat1|].
    unfold inode_side, same_layout; simpl. tauto. }
  split.
  { eapply same_inodes_trans; [exact H1|].
    eapply same_inodes_trans; [exact H2|].
    split; [|split; reflexivity].
    apply groups_agree_same_env; [exact inode_side_refl | reflexivity..]. }
  split.
  { destruct (set_desc_same_env fs1 g desc') as (_ & Hx & _).
    destruct (set_block_bitmap_same_env fs g bm') as (_ & Hy & _).
    fold fs1 in Hy. fold fs2 in Hx. cbn. rewrite Hx, Hy. reflexivity. }
  eexists. split; [exact Hat2|]. cbn. unfold same_layout; cbn. tauto.
Qed.

(** A successful request for one block: a clear bit of some group is set,
    the group's count and the global counter go down by one. *)
Lemma ext2_new_blocks_one fs ino b c fs' :
  0 < s_groups_count (fs_sbi fs) < 2 ^ 32 ->
  ext2_new_blocks fs ino 1 = (Ok (b, c), fs') ->
  c = 1
  /\ exists fs1 g grp bit,
       same_alloc fs fs1
       /\ 0 <= g < s_groups_count (fs_sbi fs)
       /\ group_at fs1 g = Some grp
       /\ bitmap_ready fs1 g
       /\ 0 <= bit < group_nblocks (fs_sbi fs) g
       /\ Z.testbit (g_block_bitmap grp) bit = false
       /\ b = u64 (bit + ext2_group_first_block_no (fs_sbi fs) g)
       /\ fs' = percpu_counter_add_freeblocks
                  (group_update_free_blocks
                     (set_block_bitmap fs1 g (Z.setbit (g_block_bitmap grp) bit))
                     g (-1))
                  (-1).
Proof.
  intros Hn. unfold ext2_new_blocks.
  destruct (u16 _ =? 0); [discriminate|].
  intros Hscan. apply new_blocks_scan_spec in Hscan; try assumption; try lia.
  2:{ unfold u32. apply Z.mod_pos_bound. lia. }
  destruct Hscan as (fs1 & g & grp & bit & Hs1 & Hg & Hat & Hready & Hbit & Hc
                     & Hfit & Hclear & -> & ->).
  assert (c = 1) by lia. subst c. split; [reflexivity|].
  exists fs1, g, grp, bit.
  split; [exact Hs1|]. split; [exact Hg|]. split; [exact Hat|].
  split; [exact Hready|]. split; [lia|]. split; [apply Hclear; lia|].
  split; [reflexivity|]. reflexivity.
Qed.

Lemma ext2_new_blocks_sbi fs ino count r fs' :
  ext2_new_blocks fs ino count = (r, fs') -> fs_sbi fs' = fs_sbi fs.
Proof.
  unfold ext2_new_blocks. destruct (u16 _ =? 0); [intros [= <- <-]; reflexivity|].
  generalize (u32 (i_block_group ino)) as g0.
  generalize (Z.to_nat (s_groups_count (fs_sbi fs))) as todo.
  intros todo. revert fs count.
  induction todo as [|todo IH]; intros fs count g0; cbn [new_blocks_scan].
  - intros [= <- <-]. reflexivity.
  - destruct (ext2_get_group_desc fs g0) as [[gdp|] fs0] eqn:Hd;
      apply ext2_get_group_desc_spec in Hd; destruct Hd as ((Hs0 & _) & _).
    2:{ intros [= <- <-]. exact Hs0. }
    destruct (u16 (bg_free_blocks_count gdp) =? 0).
    { intros H. apply IH in H. congruence. }
    destruct (ext2_read_block_bitmap fs0 g0) as [[bm|] fs1] eqn:Hr;
      apply ext2_read_block_bitmap_spec in Hr; destruct Hr as ((Hs1 & _) & _).
    2:{ intros [= <- <-]. congruence. }
    destruct (ext2_allocate_in_bg (fs_sbi fs1) g0 bm count) as [[ret bm'] c'].
    destruct (set_block_bitmap_same_env fs1 g0 bm') as (Hs2 & _).
    destruct (ret <? 0).
    { intros H. apply IH in H. congruence. }
    intros [= <- <-]. cbn.
    match goal with
    | |- context [group_update_free_blocks ?a ?b ?c] =>
        destruct (group_update_free_blocks_same_env a b c) as (Hs3 & _)
    end.
    congruence.
Qed.

(** The sectors that one block adds to [i_blocks]. *)
Definition block_sectors (sbi : ext2_sb_info) : Z :=
  u64 (1 * s_blocksize sbi) / 512.

(** A successful [ext2_get_blocks] with [create]: the block was there, or
    one block was allocated and stored in the slot. *)
Lemma ext2_get_blocks_ok be fs ino iblock mb r fs' ino' :
  0 < s_groups_count (fs_sbi fs) < 2 ^ 32 ->
  ext2_get_blocks be fs ino iblock mb true = (Ok r, fs', ino') ->
  iblock < EXT2_NDIR_BLOCKS
  /\ ((0 < le32_to_cpu be (word_at (i_data ino) iblock)
       /\ fs' = fs /\ ino' = ino)
      \/ (le32_to_cpu be (word_at (i_data ino) iblock) <= 0
          /\ exists resb,
               ext2_new_blocks fs ino 1 = (Ok (resb, 1), fs')
               /\ ino' = touch ino
                           (<[Z.to_nat iblock := u32 resb]> (i_data ino))
                           (u64 (i_blocks ino + block_sectors (fs_sbi fs))))).
Proof.
  intros Hn. unfold ext2_get_blocks.
  destruct (Z.leb_spec EXT2_NDIR_BLOCKS iblock); [discriminate|].
  destruct (Z.ltb_spec 0 (le32_to_cpu be (word_at (i_data ino) iblock))).
  { intros [= <- <- <-]. tauto. }
  cbn [negb].
  destruct (ext2_new_blocks fs ino 1) as [[[resb c] | e] fs1] eqn:E;
    [|discriminate].
  pose proof (ext2_new_blocks_sbi _ _ _ _ _ E) as Hsbi.
  pose proof (ext2_new_blocks_one _ _ _ _ _ Hn E) as (-> & _).
  intros [= <- <- <-]. split; [assumption|]. right. split; [assumption|].
  exists resb. split; [reflexivity|]. rewrite Hsbi. reflexivity.
Qed.

Lemma u64_add_u64 x a : u64 (u64 x + a) = u64 (x + a).
Proof. unfold u64. apply Zplus_mod_idemp_l. Qed.

(** Blocks prepared for writing: with none allocated nothing has changed;
    otherwise [k] blocks were allocated, which shows in [i_blocks]. *)
Lemma prepare_blocks_ok be todo fs ino iblock fs' ino' :
  0 < s_groups_count (fs_sbi fs) < 2 ^ 32 ->
  prepare_blocks be todo fs ino iblock = (Ok tt, fs', ino') ->
  (todo <> 0%nat -> iblock + Z.of_nat todo <= EXT2_NDIR_BLOCKS)
  /\ fs_sbi fs' = fs_sbi fs
  /\ ((fs' = fs /\ ino' = ino)
      \/ exists k,
           1 <= k <= Z.of_nat todo
           /\ i_blocks ino'
              = u64 (i_blocks ino + k * block_sectors (fs_sbi fs))).
Proof.
  revert fs ino iblock fs' ino'.
  induction todo as [|todo IH]; intros fs ino iblock fs' ino' Hn;
    cbn [prepare_blocks].
  - intros [= <- <-]. split; [congruence|]. split; [reflexivity|]. tauto.
  - unfold ext2_get_block.
    destruct (ext2_get_blocks be fs ino iblock _ true) as [[[r | e] fs1] ino1]
      eqn:E; [|discriminate].
    apply ext2_get_blocks_ok in E; [|exact Hn].
    destruct E as (Hlt & E).
    assert (Hsbi1 : fs_sbi fs1 = fs_sbi fs).
    { destruct E as [(_ & -> & _) | (_ & resb & E & _)]; [reflexivity|].
      eapply ext2_new_blocks_sbi; exact E. }
    assert (Hrec : forall fs' ino',
               prepare_blocks be todo fs1 ino1 (iblock + 1) = (Ok tt, fs', ino') ->
               (todo <> 0%nat -> iblock + 1 + Z.of_nat todo <= EXT2_NDIR_BLOCKS)
               /\ fs_sbi fs' = fs_sbi fs1
               /\ ((fs' = fs1 /\ ino' = ino1)
                   \/ exists k,
                        1 <= k <= Z.of_nat todo
                        /\ i_blocks ino'
                           = u64 (i_blocks ino1
                                  + k * block_sectors (fs_sbi fs1)))).
    { intros fs2 ino2 H2. apply IH in H2; [exact H2 | rewrite Hsbi1; exact Hn]. }
    destruct (gb_ret r <=? 0);
      (intros H2; apply Hrec in H2; destruct H2 as (Hb & Hsbi2 & H2);
       split;
       [intros _; destruct (Nat.eq_dec todo 0%nat) as [E0 | E0];
        [lia | specialize (Hb E0); lia]|];
       split; [congruence|];
       destruct E as [(_ & -> & ->) | (_ & resb & _ & ->)];
       [destruct H2 as [H2 | (k & Hk & H2)];
        [left; exact H2 | right; exists k; split; [lia | exact H2]]
       |right; destruct H2 as [(-> & ->) | (k & Hk & H2)];
        [exists 1; split; [lia|]; cbn; rewrite Z.mul_1_l; reflexivity
        |exists (k + 1); split; [lia|]; rewrite H2, Hsbi1;
         cbn [touch i_blocks set_i_blocks set_i_data];
         rewrite u64_add_u64; f_equal; lia]]).
Qed.

Lemma ext2_prepare_chunk_ok be fs ino pos len fs' ino' :
  0 < s_groups_count (fs_sbi fs) < 2 ^ 32 ->
  0 < s_blocksize (fs_sbi fs) -> 0 <= pos ->
  ext2_prepare_chunk be fs ino pos len = (Ok tt, fs', ino') ->
  fs_sbi fs' = fs_sbi fs
  /\ ((fs' = fs /\ ino' = ino)
      \/ exists k,
           1 <= k <= EXT2_NDIR_BLOCKS
           /\ i_blocks ino'
              = u64 (i_blocks ino + k * block_sectors (fs_sbi fs))).
Proof.
  intros Hn Hbs Hpos. unfold ext2_prepare_chunk.
  destruct (len <=? 0).
  { intros [= <- <-]. split; [reflexivity | tauto]. }
  intros H. apply prepare_blocks_ok in H; [|exact Hn].
  destruct H as (Hb & Hsbi & H). split; [exact Hsbi|].
  destruct H as [H | (k & Hk & H)]; [left; exact H|].
  right. exists k. split; [|exact H].
  assert (0 <= pos / s_blocksize (fs_sbi fs)) by (apply Z.div_pos; lia).
  match type of Hb with
  | ?t <> 0%nat -> _ => destruct (Nat.eq_dec t 0%nat) as [E0 | E0]
  end; [lia|].
  specialize (Hb E0). lia.
Qed.

(** **** Writing an inode, truncating a one-block directory *)

Lemma set_itable_same_alloc fs t : same_alloc fs (set_itable fs t).
Proof.
  unfold same_alloc, set_itable; simpl.
  repeat split; first [reflexivity | apply Forall2_grp_same_refl | lia].
Qed.

Lemma ext2_get_inode_same_core fs n r fs' :
  ext2_get_inode fs n = (r, fs') -> same_core fs fs'.
Proof.
  unfold ext2_get_inode.
  match goal with |- context [if ?c then _ else _] => destruct c end.
  { intros [= <- <-]. apply ext2_error_same_core. }
  match goal with
  | |- context [ext2_get_group_desc ?a ?b] =>
      destruct (ext2_get_group_desc a b) as [[gdp|] fs0] eqn:Hd
  end; apply ext2_get_group_desc_spec in Hd; destruct Hd as (Hc & _).
  2:{ intros [= <- <-].
      eapply same_core_trans; [exact Hc | apply ext2_error_same_core]. }
  match goal with |- context [if ?c then _ else _] => destruct c end;
    intros [= <- <-]; [exact Hc|].
  eapply same_core_trans; [exact Hc | apply ext2_error_same_core].
Qed.

(** Writing an inode touches the inode table and the state bits only. *)
Lemma ext2_do_write_inode_effect be fs ino :
  same_alloc fs (snd (fst (ext2_do_write_inode be fs ino)))
  /\ exists st, snd (ext2_do_write_inode be fs ino) = set_i_state ino st.
Proof.
  unfold ext2_do_write_inode.
  destruct (ext2_get_inode fs (i_ino ino)) as [[loc | e] fs1] eqn:E;
    apply ext2_get_inode_same_core in E; cbn [fst snd].
  - split; [|eexists; reflexivity].
    eapply same_alloc_trans; [apply same_core_alloc; exact E|].
    apply set_itable_same_alloc.
  - split; [apply same_core_alloc; exact E|].
    exists (i_state ino). destruct ino; reflexivity.
Qed.

Lemma ext2_do_write_inode_frame be fs ino r fs' ino' :
  ext2_do_write_inode be fs ino = (r, fs', ino') ->
  same_alloc fs fs' /\ exists st, ino' = set_i_state ino st.
Proof.
  intros H. pose proof (ext2_do_write_inode_effect be fs ino) as He.
  rewrite H in He. exact He.
Qed.

Lemma word_at_repeat_zero n p : word_at (repeat 0 n) p = 0.
Proof.
  unfold word_at. generalize (Z.to_nat p) as i.
  induction n as [|n IH]; intros i; [reflexivity|].
  destruct i as [|i]; [reflexivity|]. apply IH.
Qed.

(** Over slots that hold no block the loop of [ext2_free_data] does
    nothing. *)
Lemma free_data_loop_zeros be todo p fs ino b c :
  (forall q, p <= q < p + Z.of_nat todo ->
             le32_to_cpu be (word_at (i_data ino) q) = 0) ->
  free_data_loop be todo p fs ino b c = (fs, ino, b, c).
Proof.
  revert p. induction todo as [|todo IH]; intros p H; cbn [free_data_loop];
    [reflexivity|].
  rewrite (H p) by lia. rewrite Z.eqb_refl. apply IH.
  intros q Hq. apply H. lia.
Qed.

(** The first block that the loop comes to opens a run. *)
Lemma free_data_loop_first be k p fs ino w :
  le32_to_cpu be (word_at (i_data ino) p) = w -> w <> 0 ->
  free_data_loop be (S k) p fs ino 0 0
  = free_data_loop be k (p + 1) fs
      (set_i_data ino (<[Z.to_nat p := 0]> (i_data ino))) w 1.
Proof.
  intros Hw Hnz. cbn [free_data_loop]. rewrite Hw.
  destruct (Z.eqb_spec w 0) as [? | _]; [contradiction|]. reflexivity.
Qed.

(** Truncating to nothing an inode whose only block is in slot 0 frees that
    block. *)
Lemma ext2_truncate_blocks_one fs ino w :
  S_ISDIR (i_mode ino) = true ->
  i_data ino = w :: repeat 0 14 ->
  w <> 0 ->
  Z.shiftr (u32 (s_blocksize (fs_sbi fs)) - 1)
    (Z.log2 (s_blocksize (fs_sbi fs))) = 0 ->
  ext2_truncate_blocks false fs ino 0
  = ext2_free_blocks fs (set_i_data ino (repeat 0 15)) w 1.
Proof.
  intros Hdir Hdata Hw Hbs. unfold ext2_truncate_blocks.
  rewrite Hdir, orb_true_r. cbn [orb negb].
  unfold ext2_inode_is_fast_symlink.
  assert (Hlnk : S_ISLNK (i_mode ino) = false).
  { unfold S_ISDIR, S_ISLNK in *. apply Z.eqb_eq in Hdir. rewrite Hdir.
    reflexivity. }
  rewrite Hlnk. cbn [andb].
  replace (0 + u32 (s_blocksize (fs_sbi fs)) - 1)
    with (u32 (s_blocksize (fs_sbi fs)) - 1) by lia.
  rewrite Hbs. unfold ext2_free_data.
  change (Z.to_nat (EXT2_NDIR_BLOCKS - 0)) with 12%nat.
  rewrite (free_data_loop_first false 11 0 fs ino w);
    [|rewrite Hdata; reflexivity | exact Hw].
  rewrite Hdata.
  change (<[Z.to_nat 0 := 0]> (w :: repeat 0 14)) with (repeat 0 15).
  rewrite free_data_loop_zeros.
  - reflexivity.
  - intros q _. cbn [i_data set_i_data le32_to_cpu]. apply word_at_repeat_zero.
Qed.

Lemma count_set_one bm bit : Z.testbit bm bit = true -> count_set bm bit 1 = 1.
Proof. intros H. simpl. rewrite H. reflexivity. Qed.

(** **** Directory operations that succeed *)

(** Inodes that agree on number, mode, links and blocks. *)
Definition same_file (a b : inode) : Prop :=
  i_ino b = i_ino a /\ i_mode b = i_mode a /\ i_nlink b = i_nlink a
  /\ i_blocks b = i_blocks a /\ i_data b = i_data a /\ i_bad b = i_bad a.

(** The inode got between one and twelve new blocks. *)
Definition grew (sbi : ext2_sb_info) (a b : inode) : Prop :=
  exists k,
    1 <= k <= EXT2_NDIR_BLOCKS
    /\ i_blocks b = u64 (i_blocks a + k * block_sectors sbi).

(** What an operation on a directory does to the allocator: nothing, or the
    directory grew. *)
Definition dir_outcome (fs fs' : ext2_fs) (dir dir' : inode) : Prop :=
  fs_sbi fs' = fs_sbi fs
  /\ ((same_alloc fs fs' /\ i_blocks dir' = i_blocks dir)
      \/ grew (fs_sbi fs) dir dir').

Lemma same_file_refl a : same_file a a.
Proof. unfold same_file. tauto. Qed.

Lemma same_file_trans a b c : same_file a b -> same_file b c -> same_file a c.
Proof. unfold same_file. intuition congruence. Qed.

Lemma ext2_get_folio_same_file fs dir n quiet r fs' dir' :
  ext2_get_folio fs dir n quiet = (r, fs', dir') -> same_file dir dir'.
Proof.
  unfold ext2_get_folio.
  destruct (read_mapping_folio dir n) as [f | e];
    [|intros [= <- <- <-]; apply same_file_refl].
  destruct (f_checked f); [intros [= <- <- <-]; apply same_file_refl|].
  destruct (ext2_check_folio fs dir n quiet (f_data f)) as [[|] fs1];
    intros [= <- <- <-]; unfold same_file; simpl; tauto.
Qed.

Lemma grew_same_file sbi a a' b b' :
  same_file a a' -> same_file b b' -> grew sbi a' b -> grew sbi a b'.
Proof.
  intros (_ & _ & _ & Ha & _) (_ & _ & _ & Hb & _) (k & Hk & H).
  exists k. split; [exact Hk|]. congruence.
Qed.

Lemma add_link_scan_nonneg fuel d name cs reclen kend dend de d' de' nl rl :
  add_link_scan fuel d name cs reclen kend dend de = GotIt d' de' nl rl ->
  0 <= de -> 0 <= de'.
Proof.
  revert de. induction fuel as [|fuel IH]; intros de; cbn [add_link_scan];
    [discriminate|].
  destruct (de <=? kend); [|discriminate].
  destruct (de =? dend); [intros [= _ <- _ _]; auto|].
  destruct (de_rec_len d de =? 0); [discriminate|].
  destruct (ext2_match name d de); [discriminate|].
  destruct ((de_inode d de =? 0) && (reclen <=? de_rec_len d de));
    [intros [= _ <- _ _]; auto|].
  destruct (_ <=? de_rec_len d de); [intros [= _ <- _ _]; auto|].
  intros H Hde. apply IH in H; [exact H|].
  pose proof (de_rec_len_nonneg d de). lia.
Qed.

Section DirOps.

Variables (be : bool).

Lemma add_link_got_it_ok fs dir n name child d de nl rl fs' dir' :
  0 < s_groups_count (fs_sbi fs) < 2 ^ 32 ->
  0 < s_blocksize (fs_sbi fs) ->
  0 <= n -> 0 <= de ->
  add_link_got_it be fs dir n name child d de nl rl = (Ok tt, fs', dir') ->
  dir_outcome fs fs' dir dir'.
Proof.
  intros Hn Hbs Hpage Hde. unfold add_link_got_it.
  set (dir0 := store_folio dir n _).
  destruct (ext2_prepare_chunk be fs dir0 _ rl) as [[[u | e] fs1] dir1] eqn:E;
    [|discriminate].
  destruct u. apply ext2_prepare_chunk_ok in E; try assumption.
  2:{ unfold PAGE_SIZE. lia. }
  destruct E as (Hsbi & E).
  match goal with
  | |- (let '(_, _) := ?c in _) = _ -> _ => destruct c as [d2 de2]
  end.
  unfold sync_inode_metadata. intros H.
  apply ext2_do_write_inode_frame in H. destruct H as (Hs & st & ->).
  pose proof Hs as (Hsbi' & _).
  split; [congruence|].
  assert (Hd0 : i_blocks dir0 = i_blocks dir) by reflexivity.
  destruct E as [(-> & ->) | (k & Hk & E)].
  - left. split; [exact Hs|]. rewrite <- Hd0. unfold ext2_commit_chunk.
    match goal with |- context [if ?c then _ else _] => destruct c end;
      reflexivity.
  - right. exists k. split; [exact Hk|]. rewrite <- Hd0, <- E.
    unfold ext2_commit_chunk.
    match goal with |- context [if ?c then _ else _] => destruct c end;
      reflexivity.
Qed.

Lemma dir_outcome_step fs fs0 fs' dir dir0 dir' :
  same_core fs fs0 -> same_file dir dir0 ->
  dir_outcome fs0 fs' dir0 dir' -> dir_outcome fs fs' dir dir'.
Proof.
  intros Hc Hf (Hsbi & H). pose proof Hc as (Hsbi0 & _).
  split; [congruence|]. rewrite <- Hsbi0.
  destruct H as [(Hs & Hb) | Hg].
  - left. split; [eapply same_alloc_trans; [apply same_core_alloc|]; eassumption|].
    destruct Hf as (_ & _ & _ & Hb0 & _). congruence.
  - right. eapply grew_same_file; [exact Hf | apply same_file_refl | exact Hg].
Qed.

Lemma add_link_pages_ok todo fs dir name child n fs' dir' :
  0 < s_groups_count (fs_sbi fs) < 2 ^ 32 ->
  0 < s_blocksize (fs_sbi fs) ->
  0 <= n ->
  add_link_pages be todo fs dir name child n = (Ok tt, fs', dir') ->
  dir_outcome fs fs' dir dir'.
Proof.
  revert fs dir n.
  induction todo as [|todo IH]; intros fs dir n Hn Hbs Hpage;
    cbn [add_link_pages]; [discriminate|].
  destruct (ext2_get_folio fs dir n false) as [[[d | e] fs0] dir0] eqn:E;
    [|discriminate].
  pose proof (ext2_get_folio_same_file _ _ _ _ _ _ _ E) as Hf.
  apply ext2_get_folio_frame in E; [|exact Hpage]. destruct E as (Hc & _).
  pose proof Hc as (Hsbi0 & _).
  match goal with
  | |- context [add_link_scan ?a1 ?a2 ?a3 ?a4 ?a5 ?a6 ?a7 ?a8] =>
      destruct (add_link_scan a1 a2 a3 a4 a5 a6 a7 a8)
        as [d1 de nl rl | err | |] eqn:Hscan
  end; try discriminate.
  - intros H. apply add_link_scan_nonneg in Hscan; [|lia].
    apply add_link_got_it_ok in H; rewrite ?Hsbi0; try assumption.
    eapply dir_outcome_step; eassumption.
  - intros H. apply IH in H; rewrite ?Hsbi0; try assumption; try lia.
    eapply dir_outcome_step; eassumption.
Qed.

Lemma ext2_add_link_ok fs dir name child fs' dir' :
  0 < s_groups_count (fs_sbi fs) < 2 ^ 32 ->
  0 < s_blocksize (fs_sbi fs) ->
  ext2_add_link be fs dir name child = (Ok tt, fs', dir') ->
  dir_outcome fs fs' dir dir'.
Proof.
  intros Hn Hbs. unfold ext2_add_link. apply add_link_pages_ok; [assumption.. | lia].
Qed.

Lemma find_entry_pages_ok todo fs dir name i n de fs' dir' :
  0 <= i ->
  find_entry_pages todo fs dir name i = (Ok (n, de), fs', dir') ->
  same_core fs fs' /\ same_file dir dir' /\ 0 <= n.
Proof.
  revert fs dir i.
  induction todo as [|todo IH]; intros fs dir i Hi; cbn [find_entry_pages];
    [discriminate|].
  destruct (ext2_get_folio fs dir i false) as [[[d | e] fs0] dir0] eqn:E;
    pose proof (ext2_get_folio_same_file _ _ _ _ _ _ _ E) as Hf;
    apply ext2_get_folio_frame in E; try exact Hi; destruct E as (Hc & _).
  - match goal with
    | |- context [find_entry_page ?a1 ?a2 ?a3 ?a4 ?a5] =>
        destruct (find_entry_page a1 a2 a3 a4 a5)
    end.
    + intros [= <- <- <- <-]. tauto.
    + discriminate.
    + intros H. apply IH in H; [|lia]. destruct H as (Hc' & Hf' & Hn).
      split; [eapply same_core_trans; eassumption|].
      split; [eapply same_file_trans; eassumption | exact Hn].
  - intros H. apply IH in H; [|lia]. destruct H as (Hc' & Hf' & Hn).
    split; [eapply same_core_trans; eassumption|].
    split; [eapply same_file_trans; eassumption | exact Hn].
Qed.

Lemma ext2_find_entry_ok fs dir name n de fs' dir' :
  ext2_find_entry fs dir name = (Ok (n, de), fs', dir') ->
  same_core fs fs' /\ same_file dir dir' /\ 0 <= n.
Proof.
  unfold ext2_find_entry. destruct (dir_pages dir =? 0); [discriminate|].
  apply find_entry_pages_ok. lia.
Qed.

Lemma delete_entry_walk_nonneg fuel d target de pde p :
  delete_entry_walk fuel d target de pde = Ok (Some p) ->
  0 <= de -> (forall q, pde = Some q -> 0 <= q) -> 0 <= p.
Proof.
  revert de pde. induction fuel as [|fuel IH]; intros de pde;
    cbn [delete_entry_walk].
  - intros [= ->] _ H. apply H. reflexivity.
  - destruct (de <? target); [|intros [= ->] _ H; apply H; reflexivity].
    destruct (de_rec_len d de =? 0); [discriminate|].
    intros H Hde _. apply IH in H; [exact H| |].
    + unfold ext2_next_entry. pose proof (de_rec_len_nonneg d de). lia.
    + intros q [= <-]. exact Hde.
Qed.

Lemma ext2_delete_entry_ok fs dir n de fs' dir' :
  0 < s_groups_count (fs_sbi fs) < 2 ^ 32 ->
  0 < s_blocksize (fs_sbi fs) ->
  0 <= n ->
  ext2_delete_entry be fs dir n de = (Ok tt, fs', dir') ->
  dir_outcome fs fs' dir dir'.
Proof.
  intros Hn Hbs Hpage. unfold ext2_delete_entry.
  destruct (read_mapping_folio dir n) as [f | e]; [|discriminate].
  set (from0 := Z.land de (u32 (Z.lnot (ext2_chunk_size fs - 1)))).
  assert (Hfrom0 : 0 <= from0).
  { subst from0. apply Z.land_nonneg. right. unfold u32.
    apply Z.mod_pos_bound. lia. }
  destruct (delete_entry_walk _ (f_data f) de from0 None) as [pde | e] eqn:Hw;
    [|discriminate].
  assert (Hfrom : 0 <= match pde with Some p => p | None => from0 end).
  { destruct pde as [p|]; [|exact Hfrom0].
    eapply delete_entry_walk_nonneg; [exact Hw | exact Hfrom0 | discriminate]. }
  destruct (ext2_prepare_chunk be fs dir _ _) as [[[u | e] fs1] dir1] eqn:E;
    [|discriminate].
  destruct u. apply ext2_prepare_chunk_ok in E; try assumption.
  2:{ unfold PAGE_SIZE. lia. }
  destruct E as (Hsbi & E).
  unfold sync_inode_metadata. intros H.
  apply ext2_do_write_inode_frame in H. destruct H as (Hs & st & ->).
  pose proof Hs as (Hsbi' & _).
  split; [congruence|].
  destruct E as [(-> & ->) | (k & Hk & E)].
  - left. split; [exact Hs|]. unfold ext2_commit_chunk.
    match goal with |- context [if ?c then _ else _] => destruct c end;
      reflexivity.
  - right. exists k. split; [exact Hk|]. rewrite <- E.
    unfold ext2_commit_chunk.
    match goal with |- context [if ?c then _ else _] => destruct c end;
      reflexivity.
Qed.

Lemma ext2_unlink_ok fs dir name ino fs' dir' ino' :
  0 < s_groups_count (fs_sbi fs) < 2 ^ 32 ->
  0 < s_blocksize (fs_sbi fs) ->
  ext2_unlink be fs dir name ino = (Ok tt, fs', dir', ino') ->
  dir_outcome fs fs' dir dir' /\ ino' = inode_dec_link_count ino.
Proof.
  intros Hn Hbs. unfold ext2_unlink.
  destruct (ext2_find_entry fs dir name) as [[[[n de] | e] fs0] dir0] eqn:E;
    [|discriminate].
  apply ext2_find_entry_ok in E. destruct E as (Hc & Hf & Hpage).
  pose proof Hc as (Hsbi0 & _).
  destruct (ext2_delete_entry be fs0 dir0 n de) as [[[u | e] fs1] dir1] eqn:D;
    [|discriminate].
  destruct u. apply ext2_delete_entry_ok in D; rewrite ?Hsbi0; try assumption.
  intros [= <- <- <-]. split; [|reflexivity].
  eapply dir_outcome_step; eassumption.
Qed.

End DirOps.

(** **** [mkdir], [rmdir] and the eviction, taken apart *)

Lemma empty_dir_pages_same_file todo fs ino start r fs' ino' :
  empty_dir_pages todo fs ino start = (r, fs', ino') -> same_file ino ino'.
Proof.
  revert fs ino start.
  induction todo as [|todo IH]; intros fs ino start; cbn [empty_dir_pages].
  - intros [= <- <- <-]. apply same_file_refl.
  - destruct (ext2_get_folio fs ino start false) as [[[d | e] fs1] ino1] eqn:E;
      apply ext2_get_folio_same_file in E.
    2:{ intros [= <- <- <-]. exact E. }
    destruct (empty_dir_page (S (length d)) d (i_ino ino1) _ 0).
    + intros H. apply IH in H. eapply same_file_trans; eassumption.
    + intros [= <- <- <-]. exact E.
    + intros [= <- <- <-]. exact E.
Qed.

Section Namei.

Variable be : bool.

(** A successful [ext2_rmdir]: the allocator is as it was unless the
    parent grew; the directory lost two links and nothing else. *)
Lemma ext2_rmdir_ok fs dir name ino fs' dir' ino' :
  0 < s_groups_count (fs_sbi fs) < 2 ^ 32 ->
  0 < s_blocksize (fs_sbi fs) ->
  ext2_rmdir be fs dir name ino = (Ok tt, fs', dir', ino') ->
  dir_outcome fs fs' dir dir'
  /\ i_nlink ino' = u32 (u32 (i_nlink ino - 1) - 1)
  /\ i_ino ino' = i_ino ino /\ i_mode ino' = i_mode ino
  /\ i_blocks ino' = i_blocks ino /\ i_data ino' = i_data ino
  /\ i_bad ino' = i_bad ino.
Proof.
  intros Hn Hbs. unfold ext2_rmdir.
  destruct (ext2_empty_dir fs ino) as [[ok fs0] ino0] eqn:E.
  destruct ok; [|discriminate].
  unfold ext2_empty_dir in E.
  pose proof (empty_dir_pages_same_file _ _ _ _ _ _ _ E) as Hf.
  apply empty_dir_pages_frame in E; [|lia]. destruct E as (Hc & _).
  pose proof Hc as (Hsbi0 & _).
  destruct (ext2_unlink be fs0 dir name ino0) as [[[[u | e] fs1] dir1] ino1] eqn:U;
    [|discriminate].
  destruct u. apply ext2_unlink_ok in U; rewrite ?Hsbi0; try assumption.
  destruct U as (Hout & ->). intros [= <- <- <-].
  destruct Hf as (F1 & F2 & F3 & F4 & F5 & F6).
  split.
  { eapply dir_outcome_step; [exact Hc | apply same_file_refl|].
    destruct Hout as (Hs & Hout). split; [exact Hs|].
    destruct Hout as [(Ha & Hb) | (k & Hk & Hg)].
    - left. split; [exact Ha | exact Hb].
    - right. exists k. split; [exact Hk | exact Hg]. }
  cbn. rewrite F3. repeat split; assumption.
Qed.

(** The first chunk of a new directory takes one block. *)
Lemma ext2_make_empty_ok fs ino parent fs' ino' :
  0 < s_groups_count (fs_sbi fs) < 2 ^ 32 ->
  0 < s_blocksize (fs_sbi fs) < 2 ^ 32 ->
  le32_to_cpu be (word_at (i_data ino) 0) = 0 ->
  ext2_make_empty be fs ino parent = (Ok tt, fs', ino') ->
  exists resb fs1,
    ext2_new_blocks fs ino 1 = (Ok (resb, 1), fs1)
    /\ same_alloc fs1 fs'
    /\ i_data ino' = <[0%nat := u32 resb]> (i_data ino)
    /\ i_blocks ino' = u64 (i_blocks ino + block_sectors (fs_sbi fs))
    /\ i_ino ino' = i_ino ino /\ i_mode ino' = i_mode ino
    /\ i_nlink ino' = i_nlink ino /\ i_bad ino' = i_bad ino.
Proof.
  intros Hn Hbs Hslot. unfold ext2_make_empty, ext2_chunk_size.
  rewrite (u32_small (s_blocksize (fs_sbi fs))) by lia.
  unfold ext2_prepare_chunk.
  destruct (Z.leb_spec (s_blocksize (fs_sbi fs)) 0); [lia|].
  rewrite Z.div_0_l by lia.
  replace (0 + s_blocksize (fs_sbi fs) - 1) with (s_blocksize (fs_sbi fs) - 1)
    by lia.
  rewrite (Z.div_small (s_blocksize (fs_sbi fs) - 1)) by lia.
  change (Z.to_nat (0 - 0 + 1)) with 1%nat.
  cbn [prepare_blocks]. unfold ext2_get_block.
  destruct (ext2_get_blocks be fs ino 0 _ true) as [[[r | e] fs1] ino1] eqn:E;
    [|discriminate].
  apply ext2_get_blocks_ok in E; [|exact Hn].
  destruct E as (_ & [(Hpos & _) | (_ & resb & E & ->)]); [lia|].
  destruct (gb_ret r <=? 0);
    (cbn [prepare_blocks]; unfold sync_inode_metadata; intros H0;
     apply ext2_do_write_inode_frame in H0; destruct H0 as (Hs & st & ->);
     exists resb, fs1; split; [exact E|]; split; [exact Hs|];
     unfold ext2_commit_chunk;
     match goal with |- context [if ?c then _ else _] => destruct c end;
     cbn [i_data i_blocks i_ino i_mode i_nlink i_bad set_i_state set_i_size
          store_folio set_i_mapping touch set_i_blocks set_i_data];
     repeat split; reflexivity).
Qed.

End Namei.

(** **** The geometry that [ext2_fill_super] computes *)

Lemma is_power_of_2_block_size n :
  512 <= n <= 4096 -> is_power_of_2 n = true ->
  In n [512; 1024; 2048; 4096].
Proof.
  intros Hn Hp.
  assert (Hall : forallb (fun k =>
            let m := 512 + Z.of_nat k in
            implb (is_power_of_2 m) (existsb (Z.eqb m) [512; 1024; 2048; 4096]))
            (seq 0 3585) = true) by (vm_compute; reflexivity).
  rewrite forallb_forall in Hall.
  specialize (Hall (Z.to_nat (n - 512))).
  cbv zeta in Hall. rewrite Z2Nat.id in Hall by lia.
  replace (512 + (n - 512)) with n in Hall by lia.
  rewrite Hp in Hall. cbn [implb] in Hall.
  assert (Hin : In (Z.to_nat (n - 512)) (seq 0 3585)) by (apply in_seq; lia).
  apply Hall in Hin. apply existsb_exists in Hin.
  destruct Hin as (x & Hx & Hnx). apply Z.eqb_eq in Hnx. subst x. exact Hx.
Qed.

Lemma ext2_fill_super_geometry es sbi :
  ext2_fill_super es = Ok sbi ->
  s_es sbi = es
  /\ s_blocks_per_group sbi = es_blocks_per_group es
  /\ s_inodes_per_group sbi = es_inodes_per_group es
  /\ In (s_blocksize sbi) [512; 1024; 2048; 4096]
  /\ es_blocks_per_group es <> 0
  /\ es_inodes_per_group es <> 0
  /\ es_inodes_per_group es <= 8 * s_blocksize sbi
  /\ es_blocks_per_group es <= 8 * s_blocksize sbi.
Proof.
  unfold ext2_fill_super. cbv zeta.
  destruct (negb (s_magic es =? EXT2_SUPER_MAGIC)); [discriminate|].
  match goal with |- context [if ?c then _ else _] => destruct c end;
    [discriminate|].
  set (bs := s32 (Z.shiftl BLOCK_SIZE (Z.land (s_log_block_size es) 31))).
  destruct (negb ((512 <=? bs) && (bs <=? PAGE_SIZE) && is_power_of_2 bs))
    eqn:Hbs; [discriminate|].
  match goal with |- context [if ?c then _ else _] => destruct c end;
    [discriminate|].
  match goal with
  | |- context [if ?a || (es_inodes_per_group es =? 0) then _ else _] =>
      destruct (a || (es_inodes_per_group es =? 0)) eqn:Hi
  end; [discriminate|].
  destruct (Z.ltb_spec (bs * 8) (es_blocks_per_group es)); [discriminate|].
  destruct (Z.ltb_spec (bs * 8) (es_inodes_per_group es)); [discriminate|].
  destruct (Z.eqb_spec (es_blocks_per_group es) 0); [discriminate|].
  intros [= <-]. cbn.
  apply negb_false_iff in Hbs. rewrite !andb_true_iff in Hbs.
  destruct Hbs as ((Hlo & Hhi) & Hp). apply Z.leb_le in Hlo, Hhi.
  apply orb_false_iff in Hi. destruct Hi as (_ & Hi). apply Z.eqb_neq in Hi.
  split; [reflexivity|]. split; [reflexivity|]. split; [reflexivity|].
  split; [apply is_power_of_2_block_size; [unfold PAGE_SIZE in Hhi; lia | exact Hp]|].
  repeat split; try assumption; lia.
Qed.

(** A filesystem as [ext2_fill_super] mounts it, with superblock fields
    that fit their 32 bits and a group count that fits an [int]. *)
Definition mounted (sbi : ext2_sb_info) : Prop :=
  ext2_fill_super (s_es sbi) = Ok sbi
  /\ 0 <= s_first_data_block (s_es sbi) < s_blocks_count (s_es sbi)
  /\ s_blocks_count (s_es sbi) < 2 ^ 32
  /\ 0 <= es_blocks_per_group (s_es sbi)
  /\ 0 <= es_inodes_per_group (s_es sbi)
  /\ s_groups_count sbi < 2 ^ 31.

Lemma mounted_geometry sbi :
  mounted sbi ->
  In (s_blocksize sbi) [512; 1024; 2048; 4096]
  /\ 0 < s_blocks_per_group sbi < 2 ^ 31
  /\ 0 < s_inodes_per_group sbi < 2 ^ 32
  /\ 0 < s_groups_count sbi < 2 ^ 31
  /\ 0 <= s_first_data_block (s_es sbi) < s_blocks_count (s_es sbi)
  /\ s_blocks_count (s_es sbi) < 2 ^ 32
  /\ forall g, 0 <= g < s_groups_count sbi ->
       0 < group_nblocks sbi g <= s_blocks_per_group sbi.
Proof.
  intros (Hm & Hfdb & Hbc & Hbpg & Hipg & Hng).
  pose proof (ext2_fill_super_groups_count _ _ Hm) as Hcount.
  apply ext2_fill_super_geometry in Hm.
  destruct Hm as (_ & Hb & Hi & Hbs & Hb0 & Hi0 & Hi8 & Hb8).
  rewrite u32_small in Hcount by lia.
  assert (Hbsr : 512 <= s_blocksize sbi <= 4096).
  { cbn in Hbs. intuition lia. }
  rewrite Hb, Hi.
  set (bpg := es_blocks_per_group (s_es sbi)) in *.
  set (x := s_blocks_count (s_es sbi) - s_first_data_block (s_es sbi) - 1) in *.
  assert (Hq : 0 <= x / bpg) by (apply Z.div_pos; lia).
  split; [exact Hbs|]. split; [lia|]. split; [lia|]. split; [lia|].
  split; [exact Hfdb|]. split; [exact Hbc|].
  intros g Hg. unfold group_nblocks, ext2_group_last_block_no,
    ext2_group_first_block_no. rewrite Hb. fold bpg.
  pose proof (Z.div_mod x bpg ltac:(lia)) as Hdm.
  pose proof (Z.mod_pos_bound x bpg ltac:(lia)) as Hmod.
  destruct (Z.eqb_spec g (s_groups_count sbi - 1)) as [-> | Hne].
  - rewrite Hcount.
    replace (x / bpg + 1 - 1) with (x / bpg) by lia.
    rewrite s32_small; nia.
  - replace (g * bpg + s_first_data_block (s_es sbi) + (bpg - 1)
             - (g * bpg + s_first_data_block (s_es sbi)) + 1) with bpg by lia.
    rewrite s32_small; lia.
Qed.

Lemma block_sectors_range sbi :
  In (s_blocksize sbi) [512; 1024; 2048; 4096] ->
  1 <= block_sectors sbi <= 8.
Proof.
  unfold block_sectors. cbn [In].
  intros [<- | [<- | [<- | [<- | []]]]]; vm_compute; split; discriminate.
Qed.

Lemma block_size_shift sbi :
  In (s_blocksize sbi) [512; 1024; 2048; 4096] ->
  Z.shiftr (u32 (s_blocksize sbi) - 1) (Z.log2 (s_blocksize sbi)) = 0.
Proof.
  cbn [In]. intros [<- | [<- | [<- | [<- | []]]]]; reflexivity.
Qed.

(** Blocks added to [i_blocks] show: the count does not come back to what
    it was. *)
Lemma i_blocks_grown x k sec :
  0 <= x < 2 ^ 64 -> 1 <= k <= 24 -> 1 <= sec <= 8 ->
  u64 (x + k * sec) <> x.
Proof.
  intros Hx Hk Hsec. unfold u64.
  destruct (Z.lt_ge_cases (x + k * sec) (2 ^ 64)).
  - rewrite Z.mod_small by nia. nia.
  - replace (x + k * sec) with (x + k * sec - 2 ^ 64 + 1 * 2 ^ 64) by lia.
    rewrite Z.mod_add by lia. rewrite Z.mod_small by nia. nia.
Qed.

(** A successful [ext2_mkdir]: an inode, then one block for the new
    directory, then the entry in the parent. *)
Lemma ext2_mkdir_ok be fs dir name mode now fs' dir' ino' :
  0 < s_inodes_per_group (fs_sbi fs) < 2 ^ 32 ->
  0 < s_groups_count (fs_sbi fs) < 2 ^ 31 ->
  0 < s_blocksize (fs_sbi fs) < 2 ^ 32 ->
  ext2_mkdir be fs dir name mode now = (Ok tt, fs', dir', Some ino') ->
  exists ino1 fs1 inox resb fs2 fs3,
    ext2_new_inode fs (inode_inc_link_count dir) (Z.lor S_IFDIR mode)
      = (Ok ino1, fs1)
    /\ ext2_new_blocks fs1 inox 1 = (Ok (resb, 1), fs2)
    /\ same_alloc fs2 fs3
    /\ dir_outcome fs3 fs' dir dir'
    /\ i_ino ino' = i_ino ino1
    /\ i_mode ino' = Z.lor S_IFDIR mode
    /\ i_nlink ino' = 2 /\ i_bad ino' = false
    /\ i_data ino' = u32 resb :: repeat 0 14
    /\ i_blocks ino' = u64 (0 + block_sectors (fs_sbi fs)).
Proof.
  intros Hipg Hn Hbs. unfold ext2_mkdir.
  destruct (ext2_new_inode fs (inode_inc_link_count dir) (Z.lor S_IFDIR mode))
    as [[ino1 | e] fs1] eqn:Hnew; [|discriminate].
  pose proof (ext2_new_inode_fresh _ _ _ _ _ Hnew)
    as (Hdata & Hblocks & _ & _ & Hnlink & Hmode & Hbad).
  pose proof (ext2_new_inode_spec _ _ _ _ _ Hipg Hn Hnew) as (((Hsbi1 & _) & _) & _).
  set (inox := inode_inc_link_count (set_i_op ino1 ext2_dir_inode_operations)).
  destruct (ext2_make_empty be fs1 inox (inode_inc_link_count dir))
    as [[[u | e] fs2] ino2] eqn:Hme.
  2:{ destruct (discard_new_inode be fs2 _ now). discriminate. }
  destruct u. apply ext2_make_empty_ok in Hme; rewrite ?Hsbi1; try lia.
  2:{ subst inox. cbn [i_data inode_inc_link_count set_i_nlink set_i_op].
      rewrite Hdata. destruct be; reflexivity. }
  destruct Hme as (resb & fsb & Hnb & Hs & Hd2 & Hb2 & Hi2 & Hm2 & Hl2 & Hbad2).
  pose proof (ext2_new_blocks_sbi _ _ _ _ _ Hnb) as Hsbib.
  pose proof Hs as (Hsbi2 & _).
  destruct (ext2_add_link be fs2 (inode_inc_link_count dir) name (i_ino ino2))
    as [[[u | e] fs3] dir3] eqn:Hal.
  2:{ destruct (discard_new_inode be fs3 _ now). discriminate. }
  destruct u. apply ext2_add_link_ok in Hal;
    rewrite ?Hsbi2, ?Hsbib, ?Hsbi1; try lia.
  intros [= <- <- <-].
  exists ino1, fs1, inox, resb, fsb, fs2.
  split; [reflexivity|]. split; [exact Hnb|]. split; [exact Hs|].
  split.
  { destruct Hal as (Hsb & Hal). split; [exact Hsb|].
    destruct Hal as [(Ha & Hb) | (k & Hk & Hg)].
    - left. split; [exact Ha | exact Hb].
    - right. exists k. split; [exact Hk | exact Hg]. }
  subst inox. cbn in Hd2, Hb2, Hi2, Hm2, Hl2, Hbad2.
  rewrite Hi2, Hm2, Hl2, Hbad2, Hd2, Hb2, Hdata, Hblocks, Hnlink, Hmode, Hbad.
  rewrite Hsbi1. repeat split; reflexivity.
Qed.

(** The eviction of a directory without links that holds one block: the
    inode is written, the block freed, then the inode. *)
Lemma ext2_evict_inode_dir fs ino now w :
  i_nlink ino = 0 -> i_bad ino = false ->
  S_ISDIR (i_mode ino) = true ->
  i_data ino = w :: repeat 0 14 -> w <> 0 ->
  i_blocks ino <> 0 ->
  Z.shiftr (u32 (s_blocksize (fs_sbi fs)) - 1)
    (Z.log2 (s_blocksize (fs_sbi fs))) = 0 ->
  exists fs0 ino0,
    same_alloc fs fs0
    /\ i_ino ino0 = i_ino ino /\ i_mode ino0 = i_mode ino
    /\ ext2_evict_inode false fs ino now
       = (let '(fs1, ino1) := ext2_free_blocks fs0 ino0 w 1 in
          (ext2_free_inode fs1 ino1, ino1)).
Proof.
  intros Hnlink Hbad Hdir Hdata Hw Hblocks Hshift. unfold ext2_evict_inode.
  rewrite Hnlink, Hbad. cbn [Z.eqb negb andb].
  match goal with
  | |- context [ext2_do_write_inode false fs ?i] =>
      destruct (ext2_do_write_inode false fs i) as [[r fs0] inow] eqn:Hw0
  end.
  apply ext2_do_write_inode_frame in Hw0. destruct Hw0 as (Hs & st & ->).
  pose proof Hs as (Hsbi & _).
  cbn [i_blocks set_i_size set_i_state set_i_dtime set_i_mapping].
  destruct (Z.eqb_spec (i_blocks ino) 0) as [? | _]; [contradiction|].
  cbn [negb].
  rewrite (ext2_truncate_blocks_one fs0 _ w); try assumption;
    [|rewrite Hsbi; exact Hshift].
  eexists fs0, _. split; [exact Hs|].
  split; [|split; [|reflexivity]]; reflexivity.
Qed.

(** **** The round trip *)

(** Every block that a bitmap shows as free passes the checks of the free
    path. *)
Definition free_bits_valid (fs : ext2_fs) : Prop :=
  forall g grp k,
    0 <= g < s_groups_count (fs_sbi fs) ->
    group_at fs g = Some grp ->
    0 <= k < group_nblocks (fs_sbi fs) g ->
    Z.testbit (g_block_bitmap grp) k = false ->
    let b := k + ext2_group_first_block_no (fs_sbi fs) g in
    ext2_data_blocks_valid (fs_sbi fs) b 1 = true
    /\ ext2_data_blocks_valid_bg (g_desc grp) (fs_sbi fs) b 1 = true.

(** [mkdir name] in [dir], [rmdir name], and the eviction of the inode of
    the removed directory: the filesystem state and the parent at the end,
    when both calls succeed. *)
Definition mkdir_rmdir (be : bool) (fs : ext2_fs) (dir : inode) (name : list Z)
    (mode now : Z) : option (ext2_fs * inode) :=
  match ext2_mkdir be fs dir name mode now with
  | (Ok _, fs1, dir1, Some ino1) =>
      match ext2_rmdir be fs1 dir1 name ino1 with
      | (Ok _, fs2, dir2, ino2) =>
          Some (fst (ext2_evict_inode be fs2 ino2 now), dir2)
      | (Err _, _, _, _) => None
      end
  | _ => None
  end.

Lemma S_ISDIR_lor mode :
  Z.land mode S_IFMT = 0 -> S_ISDIR (Z.lor S_IFDIR mode) = true.
Proof.
  intros H. unfold S_ISDIR. rewrite Z.land_lor_distr_l, H. reflexivity.
Qed.

Lemma ext2_data_blocks_valid_bg_layout d d' sbi b c :
  same_layout d d' ->
  ext2_data_blocks_valid_bg d' sbi b c = ext2_data_blocks_valid_bg d sbi b c.
Proof.
  intros (H1 & H2 & H3). unfold ext2_data_blocks_valid_bg.
  rewrite H1, H2, H3. reflexivity.
Qed.

Lemma ext2_data_blocks_valid_one sbi b :
  0 <= b < 2 ^ 64 ->
  ext2_data_blocks_valid sbi b 1 = true ->
  s_first_data_block (s_es sbi) < b < s_blocks_count (s_es sbi).
Proof.
  intros Hb. unfold ext2_data_blocks_valid.
  change (u32 1) with 1. replace (b + 1 - 1) with b by lia.
  rewrite u64_small by exact Hb.
  destruct (b <? b); [discriminate|].
  destruct (Z.leb_spec b (s_first_data_block (s_es sbi))); [discriminate|].
  destruct (Z.leb_spec (s_blocks_count (s_es sbi)) b); [discriminate|].
  intros _. lia.
Qed.

(** Two operations on the parent that leave its block count where it was
    have allocated nothing. *)
Lemma dir_outcome_twice fs0 fs1 fs2 dir dir1 dir2 :
  1 <= block_sectors (fs_sbi fs0) <= 8 ->
  0 <= i_blocks dir < 2 ^ 64 ->
  dir_outcome fs0 fs1 dir dir1 ->
  dir_outcome fs1 fs2 dir1 dir2 ->
  i_blocks dir2 = i_blocks dir ->
  same_alloc fs0 fs2.
Proof.
  intros Hsec Hib (Hsbi1 & H1) (Hsbi2 & H2) Hsame. rewrite Hsbi1 in H2.
  destruct H1 as [(Ha1 & Hb1) | (k1 & Hk1 & Hg1)];
    destruct H2 as [(Ha2 & Hb2) | (k2 & Hk2 & Hg2)].
  - eapply same_alloc_trans; eassumption.
  - exfalso. rewrite Hb1, Hsame in Hg2. symmetry in Hg2.
    revert Hg2. apply i_blocks_grown; unfold EXT2_NDIR_BLOCKS in *; lia.
  - exfalso. rewrite <- Hb2, Hsame in Hg1. symmetry in Hg1.
    revert Hg1. apply i_blocks_grown; unfold EXT2_NDIR_BLOCKS in *; lia.
  - exfalso. rewrite Hg1, u64_add_u64, Hsame in Hg2.
    replace (i_blocks dir + k1 * block_sectors (fs_sbi fs0)
             + k2 * block_sectors (fs_sbi fs0))
      with (i_blocks dir + (k1 + k2) * block_sectors (fs_sbi fs0)) in Hg2 by lia.
    symmetry in Hg2. revert Hg2.
    apply i_blocks_grown; unfold EXT2_NDIR_BLOCKS in *; lia.
Qed.

(** After [mkdir name; rmdir name] and the eviction of the removed
    directory's inode, on a little-endian host and a mounted filesystem
    whose free bits stand for valid data blocks, the free-blocks and the
    free-inodes counters are what they were, provided the parent directory
    did not get a new block. *)
Theorem ext2_mkdir_rmdir_counters fs dir name mode now fs' dir' :
  mounted (fs_sbi fs) ->
  free_bits_valid fs ->
  Z.land mode S_IFMT = 0 ->
  0 <= i_blocks dir < 2 ^ 64 ->
  mkdir_rmdir false fs dir name mode now = Some (fs', dir') ->
  i_blocks dir' = i_blocks dir ->
  s_freeblocks_counter fs' = s_freeblocks_counter fs
  /\ s_freeinodes_counter fs' = s_freeinodes_counter fs.
Proof.
  intros Hm Hv Hmode Hib Hrun Hsame.
  apply mounted_geometry in Hm.
  destruct Hm as (Hbs & Hbpg & Hipg & Hng & Hfdb & Hbc & Hnblocks).
  pose proof (block_sectors_range _ Hbs) as Hsec.
  pose proof (block_size_shift _ Hbs) as Hshift.
  assert (Hbsr : 0 < s_blocksize (fs_sbi fs) < 2 ^ 32).
  { cbn [In] in Hbs. intuition lia. }
  unfold mkdir_rmdir in Hrun.
  destruct (ext2_mkdir false fs dir name mode now)
    as [[[[[] | e] fs1] dir1] [ino1|]] eqn:Hmk; try discriminate.
  destruct (ext2_rmdir false fs1 dir1 name ino1)
    as [[[[[] | e] fs2] dir2] ino2] eqn:Hrm; try discriminate.
  injection Hrun as <- <-.
  (* mkdir *)
  apply ext2_mkdir_ok in Hmk; try lia.
  destruct Hmk as (inoa & fsa & inox & resb & fsb & fsc & Hnew & Hnb & Hsbc
                   & Hout1 & Mino & Mmode & Mnlink & Mbad & Mdata & Mblocks).
  apply ext2_new_inode_spec in Hnew; try lia.
  destruct Hnew as (Hblk_a & Hfi_a & Hino_range & Hino_pos & gi & grpi & Hgi
                    & Hgi_eq & Hat_i & Hbit_i & Hread_i).
  pose proof Hblk_a as ((Hsbi_a & _) & Hfb_a).
  apply ext2_new_blocks_one in Hnb; [|rewrite Hsbi_a; lia].
  destruct Hnb as (_ & fsa' & gb & grpb & bit & Hs_a & Hgb & Hat_b & Hready_b
                   & Hbit & Hclear & -> & ->).
  rewrite Hsbi_a in *.
  pose proof Hs_a as (Hsbi_a' & _).
  rewrite Hsbi_a in Hsbi_a'.
  pose proof (block_update_effect fsa' gb grpb
                (Z.setbit (g_block_bitmap grpb) bit) (-1) (-1) Hat_b
                ltac:(lia)) as Heff.
  cbv zeta in Heff.
  set (fsb := percpu_counter_add_freeblocks _ _) in *.
  destruct Heff as (Hin_b & Hfb_b & grpb' & Hat_b' & Hbm_b' & Hlay_b' & Hup_b').
  pose proof Hin_b as ((Hsbi_b & _) & _). rewrite Hsbi_a' in Hsbi_b.
  pose proof Hsbc as (Hsbi_c & _). rewrite Hsbi_b in Hsbi_c.
  pose proof Hout1 as (Hsbi_1 & _). rewrite Hsbi_c in Hsbi_1.
  (* the block taken *)
  set (b := bit + ext2_group_first_block_no (fs_sbi fs) gb) in *.
  pose proof (Hnblocks gb Hgb) as Hnb.
  assert (Hb64 : 0 <= b < 2 ^ 64).
  { subst b. unfold ext2_group_first_block_no. nia. }
  assert (Hblk : same_blocks fs fsa').
  { eapply same_blocks_trans; [exact Hblk_a|].
    apply same_alloc_same_blocks. exact Hs_a. }
  destruct (groups_agree_group_at_r block_side fs fsa' gb grpb (proj1 Hblk) Hat_b)
    as (grp0 & Hat0 & Hlay0 & _ & Hbm0 & _).
  rewrite Hbm0 in Hclear.
  destruct (Hv gb grp0 bit Hgb Hat0 Hbit Hclear) as (Hvalid & Hvalid_bg).
  fold b in Hvalid, Hvalid_bg.
  pose proof (ext2_data_blocks_valid_one _ _ Hb64 Hvalid) as Hbr.
  rewrite (u64_small b) in Mdata by lia.
  rewrite (u32_small b) in Mdata by lia.
  (* rmdir *)
  apply ext2_rmdir_ok in Hrm; rewrite ?Hsbi_1; try lia.
  destruct Hrm as (Hout2 & Rnlink & Rino & Rmode & Rblocks & Rdata & Rbad).
  assert (Hs_c2 : same_alloc fsc fs2).
  { apply (dir_outcome_twice fsc fs1 fs2 dir dir1 dir2); try assumption.
    rewrite Hsbi_c. exact Hsec. }
  pose proof Hs_c2 as (Hsbi_2 & _). rewrite Hsbi_c in Hsbi_2.
  (* the eviction *)
  destruct (ext2_evict_inode_dir fs2 ino2 now b)
    as (fs0 & ino0 & Hs_20 & Hino0 & Hmode0 & Hev).
  { rewrite Rnlink, Mnlink. reflexivity. }
  { rewrite Rbad. exact Mbad. }
  { rewrite Rmode, Mmode. apply S_ISDIR_lor. exact Hmode. }
  { rewrite Rdata. exact Mdata. }
  { lia. }
  { rewrite Rblocks, Mblocks, u64_small; lia. }
  { rewrite Hsbi_2. exact Hshift. }
  rewrite Hev. clear Hev.
  pose proof Hs_20 as (Hsbi_0 & _). rewrite Hsbi_2 in Hsbi_0.
  assert (Hchain : same_alloc fsb fs0).
  { eapply same_alloc_trans; [exact Hsbc|].
    eapply same_alloc_trans; [exact Hs_c2 | exact Hs_20]. }
  destruct (same_alloc_group_at _ _ _ _ Hchain Hat_b')
    as (grpX & HatX & HdX & HbmX & _ & HupX).
  assert (Hdiv : (b - s_first_data_block (s_es (fs_sbi fs)))
                 / s_blocks_per_group (fs_sbi fs) = gb).
  { subst b. unfold ext2_group_first_block_no.
    replace (bit + (gb * s_blocks_per_group (fs_sbi fs)
                    + s_first_data_block (s_es (fs_sbi fs)))
             - s_first_data_block (s_es (fs_sbi fs)))
      with (bit + gb * s_blocks_per_group (fs_sbi fs)) by lia.
    rewrite Z.div_add by lia. rewrite Z.div_small by lia. lia. }
  assert (Hmod : (b - s_first_data_block (s_es (fs_sbi fs)))
                 mod s_blocks_per_group (fs_sbi fs) = bit).
  { subst b. unfold ext2_group_first_block_no.
    replace (bit + (gb * s_blocks_per_group (fs_sbi fs)
                    + s_first_data_block (s_es (fs_sbi fs)))
             - s_first_data_block (s_es (fs_sbi fs)))
      with (bit + gb * s_blocks_per_group (fs_sbi fs)) by lia.
    rewrite Z.mod_add by lia. apply Z.mod_small. lia. }
  pose proof (ext2_free_blocks_frees fs0 ino0 b 1 grpX) as Hfree.
  cbv zeta in Hfree. rewrite Hsbi_0, Hdiv, Hmod in Hfree.
  assert (Hcount : count_set (g_block_bitmap grpX) bit (Z.to_nat 1) = 1).
  { change (Z.to_nat 1) with 1%nat. apply count_set_one.
    rewrite HbmX, Hbm_b'. apply Z.setbit_eq. lia. }
  rewrite Hcount in Hfree. change (s32 1) with 1 in Hfree.
  change (1 =? 0) with false in Hfree. cbv iota in Hfree.
  destruct Hfree as (fs0' & Hc0 & Hfree); try assumption; try lia.
  { destruct Hready_b as (grp & Hat & Hr).
    assert (grp = grpb) by congruence. subst grp.
    destruct Hr as [Hr | Hr]; [left; apply HupX; congruence|].
    right. rewrite HdX. destruct Hlay_b' as (-> & _).
    rewrite (same_alloc_sb_bread _ _ _ Hchain).
    rewrite (groups_agree_sb_bread _ _ _ _ (proj1 Hin_b)). exact Hr. }
  { rewrite <- Hvalid_bg. apply ext2_data_blocks_valid_bg_layout.
    rewrite HdX. eapply same_layout_trans; [exact Hlay0 | exact Hlay_b']. }
  rewrite Hfree. clear Hfree. cbn [fst].
  pose proof (block_update_effect fs0' gb grpX
                (clear_run (g_block_bitmap grpX) bit (Z.to_nat 1)) 1 1
                ltac:(rewrite (same_core_group_at _ _ _ Hc0); exact HatX)
                ltac:(lia)) as Heff.
  cbv zeta in Heff.
  set (fst_ := percpu_counter_add_freeblocks
                 (group_update_free_blocks (set_block_bitmap fs0' gb _) gb 1)
                 1) in *.
  destruct Heff as (Hin_t & Hfb_t & _).
  split.
  - rewrite ext2_free_inode_freeblocks, Hfb_t.
    destruct Hc0 as (_ & _ & -> & _).
    destruct Hchain as (_ & _ & -> & _).
    rewrite Hfb_b. destruct Hs_a as (_ & _ & -> & _). lia.
  - assert (Hin : same_inodes fsa fst_).
    { eapply same_inodes_trans; [apply same_alloc_same_inodes; exact Hs_a|].
      eapply same_inodes_trans; [exact Hin_b|].
      eapply same_inodes_trans; [apply same_alloc_same_inodes; exact Hchain|].
      eapply same_inodes_trans; [apply same_core_same_inodes; exact Hc0|].
      exact Hin_t. }
    destruct Hin as (Hga & Hfi & _).
    pose proof Hga as (Hsbi_t & _). rewrite Hsbi_a in Hsbi_t.
    destruct (groups_agree_group_at inode_side fsa fst_ gi grpi Hga Hat_i)
      as (grpT & HatT & (_ & HlayT & _) & _ & _ & HibmT).
    match goal with
    | |- s_freeinodes_counter (ext2_free_inode _ ?i) = _ =>
        pose proof (ext2_free_inode_frees fst_ i grpT) as Hfin
    end.
    cbv zeta in Hfin. cbn [i_ino set_i_blocks] in Hfin.
    rewrite Hsbi_t, Hino0, Rino, Mino, <- Hgi_eq in Hfin.
    rewrite Hfin; try assumption; try lia.
    + rewrite HibmT. exact Hbit_i.
    + rewrite HlayT, (groups_agree_sb_bread _ _ _ _ Hga). exact Hread_i.
Qed.

Lemma sample_fs_mounted : mounted (fs_sbi sample_fs).
Proof.
  unfold mounted. split; [vm_compute; reflexivity|].
  repeat split; compute_done.
Qed.

Lemma sample_fs_free_bits_valid : free_bits_valid sample_fs.
Proof.
  intros g grp k Hg Hat Hk Hclear. cbv zeta.
  assert (g = 0) by (change (s_groups_count (fs_sbi sample_fs)) with 1 in Hg; lia).
  subst g. injection Hat as <-.
  change (group_nblocks (fs_sbi sample_fs) 0) with 8191 in Hk.
  change (ext2_group_first_block_no (fs_sbi sample_fs) 0) with 1.
  assert (Hlow : 261 <= k).
  { destruct (Z.lt_ge_cases k 261) as [Hlt | ?]; [|assumption].
    change (g_block_bitmap sample_group) with (Z.ones 261) in Hclear.
    rewrite Z.ones_spec_low in Hclear by lia. discriminate. }
  split.
  - apply ext2_data_blocks_valid_iff; [lia | lia|].
    change (s_first_data_block (s_es (fs_sbi sample_fs))) with 1.
    change (s_blocks_count (s_es (fs_sbi sample_fs))) with 8192.
    change (s_sb_block (fs_sbi sample_fs)) with 1. lia.
  - apply ext2_data_blocks_valid_bg_iff; try lia; try compute_done.
    change (bg_block_bitmap (g_desc sample_group)) with 3.
    change (bg_inode_bitmap (g_desc sample_group)) with 4.
    change (bg_inode_table (g_desc sample_group)) with 5.
    change (s_itb_per_group (fs_sbi sample_fs)) with 256. lia.
Qed.

Lemma ext2_mkdir_rmdir_counters_witness :
  match mkdir_rmdir false sample_fs sample_root [100] 0x1ED 1000 with
  | Some (fs', dir') =>
      s_freeblocks_counter fs' = s_freeblocks_counter sample_fs
      /\ s_freeinodes_counter fs' = s_freeinodes_counter sample_fs
  | None => False
  end.
Proof.
  destruct (mkdir_rmdir false sample_fs sample_root [100] 0x1ED 1000)
    as [[fs' dir']|] eqn:E.
  - apply (ext2_mkdir_rmdir_counters sample_fs sample_root [100] 0x1ED 1000
             fs' dir').
    + exact sample_fs_mounted.
    + exact sample_fs_free_bits_valid.
    + reflexivity.
    + compute_done.
    + exact E.
    + apply (f_equal (fun o : option (ext2_fs * inode) =>
                        match o with
                        | Some (_, d) => i_blocks d
                        | None => 0
                        end)) in E.
      vm_compute in E. symmetry. exact E.
  - vm_compute in E. discriminate.
Defined.

(** *** The inode allocator: what a successful allocation does *)

(** The search inside a group finds the lowest clear bit at or after
    [start] and sets it; without a clear bit it changes nothing. *)
Lemma new_inode_in_group_exact fuel bm ipg start r bm' :
  0 <= start <= ipg ->
  new_inode_in_group (S fuel) bm ipg start = (r, bm') ->
  match r with
  | Some bit =>
      start <= bit < ipg
      /\ Z.testbit bm bit = false
      /\ (forall k, start <= k < bit -> Z.testbit bm k = true)
      /\ bm' = Z.setbit bm bit
  | None =>
      bm' = bm /\ forall k, start <= k < ipg -> Z.testbit bm k = true
  end.
Proof.
  intros Hs. cbn [new_inode_in_group].
  pose proof (find_next_zero_bit_le_spec bm ipg start Hs) as S.
  cbv zeta in S. destruct S as (S1 & S2 & S3).
  set (ino := find_next_zero_bit_le bm ipg start) in *.
  destruct (Z.leb_spec ipg ino).
  - intros [= <- <-]. split; [reflexivity|]. intros k Hk. apply S2. lia.
  - unfold ext2_set_bit_atomic. rewrite S3 by lia.
    intros [= <- <-]. repeat split; try lia; auto.
Qed.

Lemma set_inode_bitmap_id fs g grp :
  group_at fs g = Some grp ->
  set_inode_bitmap fs g (g_inode_bitmap grp) = fs.
Proof.
  intros Hat. unfold set_inode_bitmap. rewrite Hat.
  unfold update_group, set_groups. unfold group_at in Hat.
  destruct (g <? 0); [discriminate|].
  replace {| g_desc := g_desc grp; g_block_bitmap := g_block_bitmap grp;
             g_bb_uptodate := g_bb_uptodate grp;
             g_inode_bitmap := g_inode_bitmap grp |} with grp
    by (destruct grp; reflexivity).
  rewrite list_insert_id by exact Hat. destruct fs; reflexivity.
Qed.

(** The group loop of [ext2_new_inode]: the group and bit it returns, and
    the state it leaves, which differs from the state it came to (error
    reports apart) by that one bit. *)
Lemma new_inode_scan_exact todo fs group g bit fs' :
  0 < s_inodes_per_group (fs_sbi fs) ->
  0 < s_groups_count (fs_sbi fs) < 2 ^ 31 ->
  - 2 ^ 31 <= group < 2 ^ 31 ->
  new_inode_scan todo fs group = (Ok (g, bit), fs') ->
  exists fs0 grp0,
    same_core fs fs0
    /\ 0 <= g < s_groups_count (fs_sbi fs)
    /\ 0 <= bit < s_inodes_per_group (fs_sbi fs)
    /\ group_at fs0 g = Some grp0
    /\ Z.testbit (g_inode_bitmap grp0) bit = false
    /\ (forall k, 0 <= k < bit -> Z.testbit (g_inode_bitmap grp0) k = true)
    /\ sb_bread fs0 (bg_inode_bitmap (g_desc grp0)) = true
    /\ fs' = set_inode_bitmap fs0 g (Z.setbit (g_inode_bitmap grp0) bit).
Proof.
  revert fs group.
  induction todo as [|todo IH]; intros fs group Hipg Hn Hg;
    cbn [new_inode_scan]; [discriminate|].
  assert (Hnext : - 2 ^ 31 <= s32 (u64 (group + 1) mod s_groups_count (fs_sbi fs))
                  < 2 ^ 31) by apply s32_range.
  destruct (ext2_get_group_desc fs group) as [[gdp|] fs0] eqn:Hd;
    apply ext2_get_group_desc_spec in Hd; destruct Hd as (Hc & Hd).
  2:{ intros H. pose proof Hc as (Hsbi & _).
      apply IH in H; rewrite ?Hsbi; try assumption.
      rewrite Hsbi in H. destruct H as (fsx & grpx & Hcx & Hrest).
      exists fsx, grpx. split; [eapply same_core_trans; eassumption | exact Hrest]. }
  destruct Hd as (-> & Hlt & grp & Hat & ->).
  destruct (read_inode_bitmap fs group) as [[bm|] fs1] eqn:Hr;
    apply read_inode_bitmap_spec in Hr; destruct Hr as (Hc1 & Hr);
    [|discriminate].
  destruct Hr as (-> & _ & grp0 & Hat0 & -> & Hread).
  assert (grp0 = grp) by congruence. subst grp0.
  destruct (u32_of_s32 group _ Hg (proj2 Hn) Hlt) as (Hu & Hpos).
  rewrite Hu in *.
  destruct (new_inode_in_group _ (g_inode_bitmap grp) _ 0) as [[b|] bm'] eqn:Hin;
    apply new_inode_in_group_exact in Hin; try lia.
  - destruct Hin as (Hb & Hclear & Hbelow & ->).
    intros [= <- <- <-]. exists fs, grp.
    split; [apply same_core_refl|]. repeat split; try assumption; try lia.
  - destruct Hin as (-> & _). rewrite (set_inode_bitmap_id fs group grp Hat).
    intros H. apply IH in H; assumption.
Qed.

Lemma inode_number_split g bit ipg :
  0 < ipg -> 0 <= bit < ipg ->
  (bit + g * ipg + 1 - 1) / ipg = g /\ (bit + g * ipg + 1 - 1) mod ipg = bit.
Proof.
  intros Hipg Hbit. replace (bit + g * ipg + 1 - 1) with (bit + g * ipg) by lia.
  rewrite Z.div_add, Z.mod_add by lia.
  rewrite Z.div_small, Z.mod_small by lia. lia.
Qed.

(** The group of an inode number and its bit in the group's bitmap. *)
Definition ino_group (fs : ext2_fs) (n : Z) : Z :=
  (n - 1) / s_inodes_per_group (fs_sbi fs).
Definition ino_bit (fs : ext2_fs) (n : Z) : Z :=
  (n - 1) mod s_inodes_per_group (fs_sbi fs).

(** What is around the group table and the counters: geometry, device,
    inode table; the log may have grown. *)
Definition same_frame (fs fs' : ext2_fs) : Prop :=
  fs_sbi fs' = fs_sbi fs
  /\ fs_bad_blocks fs' = fs_bad_blocks fs
  /\ fs_itable fs' = fs_itable fs
  /\ length (fs_groups fs') = length (fs_groups fs)
  /\ (length (fs_log fs) <= length (fs_log fs'))%nat.

Lemma same_frame_refl fs : same_frame fs fs.
Proof. unfold same_frame. repeat split; reflexivity. Qed.

Lemma same_frame_trans a b c : same_frame a b -> same_frame b c -> same_frame a c.
Proof.
  unfold same_frame. intros (H1 & H2 & H3 & H4 & H5) (K1 & K2 & K3 & K4 & K5).
  repeat split; try congruence. lia.
Qed.

Lemma same_core_same_frame a b : same_core a b -> same_frame a b.
Proof.
  unfold same_core, same_frame. intros (H1 & H2 & _ & _ & _ & H6 & H7 & H8).
  repeat split; try assumption. rewrite H2. reflexivity.
Qed.

Lemma same_env_same_frame a b : same_env a b -> same_frame a b.
Proof.
  unfold same_env, same_frame. intros (H1 & _ & _ & _ & H5 & H6 & H7 & H8).
  repeat split; try assumption. rewrite H7. reflexivity.
Qed.

Lemma set_counters_same_frame fs fb fi d : same_frame fs (set_counters fs fb fi d).
Proof. unfold same_frame. repeat split; reflexivity. Qed.

(** The state that a successful [ext2_new_inode] leaves, group by group. *)
Lemma ext2_new_inode_effect fs dir mode ino fs' :
  0 < s_inodes_per_group (fs_sbi fs) < 2 ^ 32 ->
  0 < s_groups_count (fs_sbi fs) < 2 ^ 31 ->
  ext2_new_inode fs dir mode = (Ok ino, fs') ->
  let g := ino_group fs (i_ino ino) in
  let bit := ino_bit fs (i_ino ino) in
  let ddirs := if S_ISDIR mode then 1 else 0 in
  same_frame fs fs'
  /\ s_first_ino (fs_sbi fs) <= i_ino ino <= s_inodes_count (s_es (fs_sbi fs))
  /\ 0 < i_ino ino < 2 ^ 64
  /\ 0 <= g < s_groups_count (fs_sbi fs)
  /\ i_block_group ino = g /\ i_mode ino = mode
  /\ (exists grp,
        group_at fs g = Some grp
        /\ group_at fs' g
           = Some {| g_desc := desc_add_inodes (g_desc grp) (-1) ddirs;
                     g_block_bitmap := g_block_bitmap grp;
                     g_bb_uptodate := g_bb_uptodate grp;
                     g_inode_bitmap := Z.setbit (g_inode_bitmap grp) bit |}
        /\ Z.testbit (g_inode_bitmap grp) bit = false
        /\ (forall k, 0 <= k < bit -> Z.testbit (g_inode_bitmap grp) k = true)
        /\ sb_bread fs (bg_inode_bitmap (g_desc grp)) = true)
  /\ (forall k, 0 <= k -> k <> g -> group_at fs' k = group_at fs k)
  /\ s_freeinodes_counter fs' = s_freeinodes_counter fs - 1
  /\ s_dirs_counter fs' = s_dirs_counter fs + ddirs
  /\ s_freeblocks_counter fs' = s_freeblocks_counter fs.
Proof.
  intros Hipg Hn. unfold ext2_new_inode, ino_group, ino_bit.
  destruct (find_group fs dir) as [group fs0] eqn:Hfg.
  apply find_group_spec in Hfg; [|exact Hn]. destruct Hfg as (Hc0 & Hgr).
  pose proof Hc0 as (Hsbi0 & _).
  destruct (group =? -1); [discriminate|].
  destruct (new_inode_scan _ fs0 group) as [[[g bit] | e] fs1] eqn:Hscan;
    [|discriminate].
  apply new_inode_scan_exact in Hscan; rewrite ?Hsbi0; try assumption; try lia.
  rewrite Hsbi0 in Hscan.
  destruct Hscan as (fsx & grp & Hcx & Hg & Hbit & Hat & Hclear & Hbelow
                     & Hread & ->).
  assert (Hc : same_core fs fsx) by (eapply same_core_trans; eassumption).
  clear Hc0 Hcx Hsbi0 fs0.
  set (ipg := s_inodes_per_group (fs_sbi fs)) in *.
  assert (Hprod : 0 <= g * ipg < 2 ^ 63) by nia.
  rewrite (u64_small (g * ipg)) by lia.
  rewrite (u64_small (bit + g * ipg + 1)) by lia.
  match goal with |- context [if ?c then _ else _] => destruct c eqn:Hchk end;
    [discriminate|].
  apply orb_false_iff in Hchk. destruct Hchk as (Hlo & Hhi).
  apply Z.ltb_ge in Hlo, Hhi.
  rewrite (u32_small g) by lia.
  set (bm' := Z.setbit (g_inode_bitmap grp) bit).
  pose proof (set_inode_bitmap_at fsx g bm' grp Hat) as Hat1.
  pose proof (set_inode_bitmap_same_env fsx g bm') as Henv1.
  set (fs1 := set_inode_bitmap fsx g bm') in *.
  set (fsa := percpu_counter_add_freeinodes fs1 (-1)).
  set (fsb := if S_ISDIR mode then percpu_counter_add_dirs fsa 1 else fsa).
  assert (Hgb : fs_groups fsb = fs_groups fs1)
    by (subst fsb fsa; destruct (S_ISDIR mode); reflexivity).
  assert (Hatb : forall k, group_at fsb k = group_at fs1 k)
    by (intros k; unfold group_at; rewrite Hgb; reflexivity).
  assert (Hfrb : same_frame fs1 fsb).
  { subst fsb fsa. destruct (S_ISDIR mode).
    - eapply same_frame_trans; apply set_counters_same_frame.
    - apply set_counters_same_frame. }
  rewrite Hatb, Hat1. cbn [g_desc].
  intros [= <- <-]. cbv zeta. cbn [i_ino i_block_group i_mode].
  destruct (inode_number_split g bit ipg ltac:(lia) Hbit) as (-> & ->).
  match goal with
  | |- context [set_desc ?a ?b ?c] =>
      pose proof (set_desc_same_env a b c) as Henv2
  end.
  split.
  { eapply same_frame_trans; [apply same_core_same_frame; exact Hc|].
    eapply same_frame_trans; [apply same_env_same_frame; exact Henv1|].
    eapply same_frame_trans; [exact Hfrb|].
    apply same_env_same_frame. exact Henv2. }
  split; [lia|]. split; [lia|]. split; [lia|].
  split; [reflexivity|]. split; [reflexivity|].
  rewrite <- (same_core_group_at _ _ g Hc).
  split.
  { exists grp. split; [exact Hat|].
    split; [rewrite (set_desc_at fsb g _ _ ltac:(rewrite Hatb; exact Hat1));
            reflexivity|].
    split; [exact Hclear|]. split; [exact Hbelow|].
    rewrite <- (same_core_sb_bread _ _ _ Hc). exact Hread. }
  split.
  { intros k Hk Hne. rewrite set_desc_other by lia. rewrite Hatb.
    subst fs1. rewrite set_inode_bitmap_other by lia.
    apply same_core_group_at. exact Hc. }
  destruct Henv2 as (_ & Hfb2 & Hfi2 & Hd2 & _).
  destruct Henv1 as (_ & Hfb1 & Hfi1 & Hd1 & _).
  destruct Hc as (_ & _ & Hfbx & Hfix & Hdx & _).
  rewrite Hfb2, Hfi2, Hd2. subst fsb fsa.
  destruct (S_ISDIR mode); cbn; rewrite ?Hfb1, ?Hfi1, ?Hd1; lia.
Qed.

(** The state that [ext2_free_inode] leaves when the bit of the inode is
    set: nothing is reported, the bit is cleared, the descriptor and the
    counters take the inode back. *)
Lemma ext2_free_inode_effect fs ino grp :
  let g := ino_group fs (i_ino ino) in
  let bit := ino_bit fs (i_ino ino) in
  let ddirs := if S_ISDIR (i_mode ino) then -1 else 0 in
  let fs' := ext2_free_inode fs ino in
  0 < s_inodes_per_group (fs_sbi fs) ->
  0 < i_ino ino < 2 ^ 64 ->
  s_first_ino (fs_sbi fs) <= i_ino ino <= s_inodes_count (s_es (fs_sbi fs)) ->
  0 <= g < s_groups_count (fs_sbi fs) ->
  s_groups_count (fs_sbi fs) < 2 ^ 31 ->
  group_at fs g = Some grp ->
  Z.testbit (g_inode_bitmap grp) bit = true ->
  sb_bread fs (bg_inode_bitmap (g_desc grp)) = true ->
  same_frame fs fs'
  /\ fs_log fs' = fs_log fs
  /\ group_at fs' g
     = Some {| g_desc := desc_add_inodes (g_desc grp) 1 ddirs;
               g_block_bitmap := g_block_bitmap grp;
               g_bb_uptodate := g_bb_uptodate grp;
               g_inode_bitmap := Z.clearbit (g_inode_bitmap grp) bit |}
  /\ (forall k, 0 <= k -> k <> g -> group_at fs' k = group_at fs k)
  /\ s_freeinodes_counter fs' = s_freeinodes_counter fs + 1
  /\ s_dirs_counter fs' = s_dirs_counter fs + ddirs
  /\ s_freeblocks_counter fs' = s_freeblocks_counter fs.
Proof.
  unfold ino_group, ino_bit. cbv zeta.
  intros Hipg Hn Hrange Hg Hng Hat Hbit Hread.
  unfold ext2_free_inode.
  destruct (Z.ltb_spec (i_ino ino) (s_first_ino (fs_sbi fs))); [lia|].
  destruct (Z.ltb_spec (s_inodes_count (s_es (fs_sbi fs))) (i_ino ino)); [lia|].
  cbn [orb]. rewrite (u64_small (i_ino ino - 1)) by lia.
  set (g := (i_ino ino - 1) / s_inodes_per_group (fs_sbi fs)) in *.
  unfold read_inode_bitmap.
  rewrite (ext2_get_group_desc_some fs g grp) by (try assumption; lia).
  rewrite Hread. rewrite (u32_small g) by lia. rewrite Hat.
  unfold ext2_clear_bit_atomic. rewrite Hbit.
  rewrite (s32_small g) by lia.
  set (bm' := Z.clearbit (g_inode_bitmap grp) _).
  pose proof (set_inode_bitmap_at fs g bm' grp Hat) as Hat'.
  pose proof (set_inode_bitmap_same_env fs g bm') as Henv1.
  pose proof Henv1 as (Hsbi & _).
  unfold ext2_release_inode.
  rewrite (ext2_get_group_desc_some _ g _ ltac:(lia) ltac:(rewrite Hsbi; lia) Hat').
  rewrite (u32_small g) by lia. cbn [g_desc].
  set (fs1 := set_inode_bitmap fs g bm') in *.
  set (d := desc_add_inodes (g_desc grp) 1 _).
  pose proof (set_desc_same_env fs1 g d) as Henv2.
  pose proof (set_desc_at fs1 g d _ Hat') as Hat2. cbn in Hat2.
  assert (Hother : forall k, 0 <= k -> k <> g ->
                     group_at (set_desc fs1 g d) k = group_at fs k).
  { intros k Hk Hne. rewrite set_desc_other by lia.
    subst fs1. apply set_inode_bitmap_other; lia. }
  set (fs2 := set_desc fs1 g d) in *.
  assert (Hfr : same_frame fs fs2).
  { eapply same_frame_trans; apply same_env_same_frame; eassumption. }
  destruct Henv2 as (_ & Hfb2 & Hfi2 & Hd2 & _ & _ & Hlog2 & _).
  destruct Henv1 as (_ & Hfb1 & Hfi1 & Hd1 & _ & _ & Hlog1 & _).
  set (fs3 := percpu_counter_add_freeinodes fs2 1).
  assert (H3 : same_frame fs fs3 /\ fs_log fs3 = fs_log fs
               /\ (forall k, group_at fs3 k = group_at fs2 k)
               /\ s_freeinodes_counter fs3 = s_freeinodes_counter fs + 1
               /\ s_dirs_counter fs3 = s_dirs_counter fs
               /\ s_freeblocks_counter fs3 = s_freeblocks_counter fs).
  { subst fs3. split; [eapply same_frame_trans;
                       [exact Hfr | apply set_counters_same_frame]|].
    cbn. rewrite Hlog2, Hlog1, Hfb2, Hfb1, Hfi2, Hfi1, Hd2, Hd1. tauto. }
  destruct H3 as (Hfr3 & Hlog3 & Hat3 & Hfi3 & Hd3 & Hfb3).
  destruct (S_ISDIR (i_mode ino)).
  - split; [eapply same_frame_trans;
            [exact Hfr3 | apply set_counters_same_frame]|].
    cbn [percpu_counter_add_dirs set_counters fs_log s_freeinodes_counter
         s_dirs_counter s_freeblocks_counter].
    split; [exact Hlog3|].
    split; [rewrite <- Hat2, <- Hat3; reflexivity|].
    split; [intros k Hk Hne; rewrite <- Hother by assumption;
            rewrite <- Hat3; reflexivity|].
    rewrite Hfi3, Hd3, Hfb3. tauto.
  - split; [exact Hfr3|]. split; [exact Hlog3|].
    split; [rewrite Hat3; exact Hat2|].
    split; [intros k Hk Hne; rewrite Hat3; apply Hother; assumption|].
    rewrite Hfi3, Hd3, Hfb3. repeat split; lia.
Qed.

(** [ext2_new_inode], when it succeeds, has taken the lowest free inode of
    one group: the number lies between the first usable inode and the inode
    count, its bit was clear and every bit below it in the group was set;
    that bit is now set, the group's descriptor counts one free inode less
    (and one directory more for a directory), every other group is as it
    was, and the global counters follow. *)
Theorem ext2_new_inode_lowest_free fs dir mode ino fs' :
  0 < s_inodes_per_group (fs_sbi fs) < 2 ^ 32 ->
  0 < s_groups_count (fs_sbi fs) < 2 ^ 31 ->
  ext2_new_inode fs dir mode = (Ok ino, fs') ->
  let g := ino_group fs (i_ino ino) in
  let bit := ino_bit fs (i_ino ino) in
  let ddirs := if S_ISDIR mode then 1 else 0 in
  s_first_ino (fs_sbi fs) <= i_ino ino <= s_inodes_count (s_es (fs_sbi fs))
  /\ 0 <= g < s_groups_count (fs_sbi fs)
  /\ i_block_group ino = g
  /\ (exists grp grp',
        group_at fs g = Some grp /\ group_at fs' g = Some grp'
        /\ Z.testbit (g_inode_bitmap grp) bit = false
        /\ (forall k, 0 <= k < bit -> Z.testbit (g_inode_bitmap grp) k = true)
        /\ (forall k, 0 <= k ->
              Z.testbit (g_inode_bitmap grp') k
              = if k =? bit then true else Z.testbit (g_inode_bitmap grp) k)
        /\ g_block_bitmap grp' = g_block_bitmap grp
        /\ bg_free_inodes_count (g_desc grp')
           = u16 (bg_free_inodes_count (g_desc grp) - 1)
        /\ bg_used_dirs_count (g_desc grp')
           = u16 (bg_used_dirs_count (g_desc grp) + ddirs)
        /\ bg_free_blocks_count (g_desc grp')
           = bg_free_blocks_count (g_desc grp))
  /\ (forall k, 0 <= k -> k <> g -> group_at fs' k = group_at fs k)
  /\ s_freeinodes_counter fs' = s_freeinodes_counter fs - 1
  /\ s_dirs_counter fs' = s_dirs_counter fs + ddirs
  /\ s_freeblocks_counter fs' = s_freeblocks_counter fs.
Proof.
  intros Hipg Hn Hrun.
  pose proof (ext2_new_inode_effect fs dir mode ino fs' Hipg Hn Hrun) as H.
  cbv zeta in *.
  destruct H as (_ & Hr & _ & Hg & Hbg & _ & (grp & Hat & Hat' & Hclear & Hbelow & _)
                 & Hother & Hfi & Hd & Hfb).
  split; [exact Hr|]. split; [exact Hg|]. split; [exact Hbg|].
  split; [|tauto].
  exists grp. eexists. split; [exact Hat|]. split; [exact Hat'|]. cbn.
  split; [exact Hclear|]. split; [exact Hbelow|].
  split; [|repeat split].
  intros k Hk.
  assert (Hbit : 0 <= ino_bit fs (i_ino ino))
    by (unfold ino_bit; apply Z.mod_pos_bound; lia).
  destruct (Z.eqb_spec k (ino_bit fs (i_ino ino))) as [-> | Hne].
  - apply Z.setbit_eq. exact Hbit.
  - apply Z.setbit_neq; [exact Hbit | congruence].
Qed.

Lemma ext2_new_inode_lowest_free_witness :
  match ext2_new_inode sample_fs sample_root S_IFREG with
  | (Ok ino, fs') =>
      i_ino ino = 11
      /\ s_freeinodes_counter fs' = s_freeinodes_counter sample_fs - 1
  | _ => False
  end.
Proof.
  destruct (ext2_new_inode sample_fs sample_root S_IFREG)
    as [[ino | e] fs'] eqn:E.
  - pose proof (ext2_new_inode_lowest_free sample_fs sample_root S_IFREG ino fs'
                  ltac:(compute_done) ltac:(compute_done) E) as H.
    cbv zeta in H. split; [|tauto].
    apply (f_equal (fun r : result inode * ext2_fs =>
                      match r with (Ok i, _) => i_ino i | _ => 0 end)) in E.
    vm_compute in E. symmetry. exact E.
  - vm_compute in E. discriminate.
Defined.

Lemma clearbit_setbit bm bit :
  0 <= bit -> Z.testbit bm bit = false -> Z.clearbit (Z.setbit bm bit) bit = bm.
Proof.
  intros Hb Hclear. apply Z.bits_inj'. intros k Hk.
  destruct (Z.eq_dec k bit) as [-> | Hne].
  - rewrite Z.clearbit_eq by lia. symmetry. exact Hclear.
  - rewrite Z.clearbit_neq by congruence. apply Z.setbit_neq; [lia | congruence].
Qed.

Lemma u16_u16_add a b : u16 (u16 a + b) = u16 (a + b).
Proof. unfold u16. apply Zplus_mod_idemp_l. Qed.

Lemma group_at_of_nat fs i : group_at fs (Z.of_nat i) = fs_groups fs !! i.
Proof.
  unfold group_at. destruct (Z.ltb_spec (Z.of_nat i) 0); [lia|].
  rewrite Nat2Z.id. reflexivity.
Qed.

(** The counters of the loaded descriptors are 16-bit fields. *)
Definition desc_counts_u16 (fs : ext2_fs) : Prop :=
  forall k grp,
    group_at fs k = Some grp ->
    0 <= bg_free_blocks_count (g_desc grp) < 2 ^ 16
    /\ 0 <= bg_free_inodes_count (g_desc grp) < 2 ^ 16
    /\ 0 <= bg_used_dirs_count (g_desc grp) < 2 ^ 16.

(** [ext2_free_inode] undoes [ext2_new_inode]: freeing the inode that was
    just allocated gives back the group table and the three global counters
    as they were before the allocation; only error reports of the search for
    a group may remain. *)
Theorem ext2_new_inode_free_inode fs dir mode ino fs1 :
  0 < s_inodes_per_group (fs_sbi fs) < 2 ^ 32 ->
  0 < s_groups_count (fs_sbi fs) < 2 ^ 31 ->
  desc_counts_u16 fs ->
  ext2_new_inode fs dir mode = (Ok ino, fs1) ->
  same_core fs (ext2_free_inode fs1 ino).
Proof.
  intros Hipg Hn Hu16 Hrun.
  pose proof (ext2_new_inode_effect fs dir mode ino fs1 Hipg Hn Hrun) as H.
  cbv zeta in H.
  destruct H as (Hfr1 & Hr & Hpos & Hg & _ & Hmode
                 & (grp & Hat & Hat1 & Hclear & _ & Hread)
                 & Hother1 & Hfi1 & Hd1 & Hfb1).
  pose proof Hfr1 as (Hsbi1 & Hbad1 & Hit1 & Hlen1 & Hlog1).
  assert (Hbit : 0 <= ino_bit fs (i_ino ino))
    by (unfold ino_bit; apply Z.mod_pos_bound; lia).
  assert (Hg1 : ino_group fs1 (i_ino ino) = ino_group fs (i_ino ino))
    by (unfold ino_group; rewrite Hsbi1; reflexivity).
  assert (Hb1 : ino_bit fs1 (i_ino ino) = ino_bit fs (i_ino ino))
    by (unfold ino_bit; rewrite Hsbi1; reflexivity).
  match type of Hat1 with
  | _ = Some ?r => pose proof (ext2_free_inode_effect fs1 ino r) as H
  end.
  cbv zeta in H. rewrite Hg1, Hb1, Hsbi1 in H.
  specialize (H ltac:(lia) Hpos Hr Hg ltac:(lia) Hat1).
  cbn [g_inode_bitmap g_desc desc_add_inodes bg_inode_bitmap] in H.
  specialize (H ltac:(apply Z.setbit_eq; exact Hbit)
                ltac:(unfold sb_bread in *; rewrite Hbad1; exact Hread)).
  set (fs2 := ext2_free_inode fs1 ino) in *.
  destruct H as (Hfr2 & Hlog2 & Hat2 & Hother2 & Hfi2 & Hd2 & Hfb2).
  pose proof Hfr2 as (Hsbi2 & Hbad2 & Hit2 & Hlen2 & _).
  rewrite clearbit_setbit in Hat2 by assumption.
  rewrite Hmode in Hat2, Hd2.
  destruct (Hu16 _ _ Hat) as (_ & Hfree & Hdirs).
  assert (Hback : group_at fs2 (ino_group fs (i_ino ino)) = Some grp).
  { rewrite Hat2. f_equal. destruct grp as [[bb ib it fb fi ud] bbm up ibm].
    unfold desc_add_inodes. cbn in Hfree, Hdirs |- *. rewrite !u16_u16_add.
    f_equal. f_equal.
    - replace (fi + -1 + 1) with fi by lia. apply u16_small. exact Hfree.
    - destruct (S_ISDIR mode).
      + replace (ud + 1 + -1) with ud by lia. apply u16_small. exact Hdirs.
      + rewrite !Z.add_0_r. apply u16_small. exact Hdirs. }
  unfold same_core. split; [congruence|]. split.
  { apply list_eq. intros i. rewrite <- !group_at_of_nat.
    destruct (Z.eq_dec (Z.of_nat i) (ino_group fs (i_ino ino))) as [E | Hne].
    - rewrite E, Hback. symmetry. exact Hat.
    - rewrite Hother2, Hother1 by lia. reflexivity. }
  split; [lia|]. split; [lia|].
  split; [rewrite Hd2, Hd1; destruct (S_ISDIR mode); lia|].
  split; [congruence|]. split; [congruence|].
  rewrite Hlog2. exact Hlog1.
Qed.

Lemma sample_fs_desc_counts_u16 : desc_counts_u16 sample_fs.
Proof.
  intros k grp. unfold group_at. destruct (k <? 0); [discriminate|].
  cbn [fs_groups sample_fs]. destruct (Z.to_nat k) as [|n]; cbn.
  - intros [= <-]. cbn. lia.
  - discriminate.
Qed.

Lemma ext2_new_inode_free_inode_witness :
  match ext2_new_inode sample_fs sample_root S_IFREG with
  | (Ok ino, fs1) => same_core sample_fs (ext2_free_inode fs1 ino)
  | _ => False
  end.
Proof.
  destruct (ext2_new_inode sample_fs sample_root S_IFREG)
    as [[ino | e] fs1] eqn:E.
  - apply (ext2_new_inode_free_inode sample_fs sample_root S_IFREG ino fs1).
    + compute_done.
    + compute_done.
    + exact sample_fs_desc_counts_u16.
    + exact E.
  - vm_compute in E. discriminate.
Defined.

Lemma clearbit_clear bm bit :
  0 <= bit -> Z.testbit bm bit = false -> Z.clearbit bm bit = bm.
Proof.
  intros Hb Hclear. apply Z.bits_inj'. intros k Hk.
  destruct (Z.eq_dec k bit) as [-> | Hne].
  - rewrite Z.clearbit_eq by lia. symmetry. exact Hclear.
  - apply Z.clearbit_neq. congruence.
Qed.

(** [ext2_free_inode] refuses what is not an allocated inode: for a number
    below the first usable inode or above the inode count, and for an inode
    whose bit is already clear in its group's bitmap (a second free), it
    reports an error and leaves the group table and the counters as they
    were. *)
Theorem ext2_free_inode_refuses fs ino :
  let n := i_ino ino in
  0 < s_inodes_per_group (fs_sbi fs) ->
  0 < n ->
  s_inodes_count (s_es (fs_sbi fs)) < 2 ^ 32 ->
  n < s_first_ino (fs_sbi fs)
  \/ s_inodes_count (s_es (fs_sbi fs)) < n
  \/ (forall grp,
        group_at fs (ino_group fs n) = Some grp ->
        Z.testbit (g_inode_bitmap grp) (ino_bit fs n) = false) ->
  same_core fs (ext2_free_inode fs ino)
  /\ (length (fs_log fs) < length (fs_log (ext2_free_inode fs ino)))%nat.
Proof.
  cbv zeta. intros Hipg Hpos Hic Hcase. unfold ext2_free_inode.
  destruct (Z.ltb_spec (i_ino ino) (s_first_ino (fs_sbi fs))) as [|Hlo];
    [split; [apply ext2_error_same_core | apply ext2_error_log]|].
  destruct (Z.ltb_spec (s_inodes_count (s_es (fs_sbi fs))) (i_ino ino)) as [|Hhi];
    [split; [apply ext2_error_same_core | apply ext2_error_log]|].
  cbn [orb]. destruct Hcase as [? | [? | Hclear]]; [lia | lia|].
  rewrite (u64_small (i_ino ino - 1)) by lia.
  unfold ino_group, ino_bit in Hclear.
  set (g := (i_ino ino - 1) / s_inodes_per_group (fs_sbi fs)) in *.
  set (bit := (i_ino ino - 1) mod s_inodes_per_group (fs_sbi fs)) in *.
  assert (Hg : 0 <= g < 2 ^ 32).
  { subst g. split; [apply Z.div_pos; lia|].
    apply Z.div_lt_upper_bound; nia. }
  assert (Hbit : 0 <= bit) by (subst bit; apply Z.mod_pos_bound; lia).
  unfold read_inode_bitmap.
  destruct (ext2_get_group_desc fs g) as [[desc|] fs0] eqn:Hd;
    apply ext2_get_group_desc_spec in Hd; destruct Hd as (Hc & Hd).
  2:{ split; [exact Hc | tauto]. }
  destruct Hd as (-> & Hlt & grp & Hat & ->).
  rewrite (u32_small g) in * by exact Hg.
  destruct (sb_bread fs (bg_inode_bitmap (g_desc grp)));
    [|split; [apply ext2_error_same_core | apply ext2_error_log]].
  rewrite Hat. unfold ext2_clear_bit_atomic.
  rewrite (Hclear grp Hat).
  rewrite (clearbit_clear _ _ Hbit (Hclear grp Hat)).
  rewrite (set_inode_bitmap_id fs g grp Hat).
  split; [apply ext2_error_same_core | apply ext2_error_log].
Qed.

Lemma ext2_free_inode_refuses_witness :
  same_core sample_fs (ext2_free_inode sample_fs sample_file)
  /\ (length (fs_log sample_fs)
      < length (fs_log (ext2_free_inode sample_fs sample_file)))%nat.
Proof.
  apply (ext2_free_inode_refuses sample_fs sample_file).
  - compute_done.
  - compute_done.
  - compute_done.
  - right. right. intros grp Hat. vm_compute in Hat. injection Hat as <-.
    reflexivity.
Defined.

(** *** The block allocator: a run taken and given back *)

Lemma count_set_all bm from n :
  (forall i, from <= i < from + Z.of_nat n -> Z.testbit bm i = true) ->
  count_set bm from n = Z.of_nat n.
Proof.
  revert from. induction n as [|n IH]; intros from H; cbn [count_set];
    [reflexivity|].
  rewrite H by lia. rewrite IH; [lia|]. intros i Hi. apply H. lia.
Qed.

Lemma clear_run_set_run bm from n :
  0 <= from ->
  (forall i, from <= i < from + Z.of_nat n -> Z.testbit bm i = false) ->
  clear_run (set_run bm from n) from n = bm.
Proof.
  intros Hf Hclear. apply Z.bits_inj'. intros k Hk.
  rewrite testbit_clear_run by lia.
  destruct (Z.leb_spec from k), (Z.ltb_spec k (from + Z.of_nat n)); cbn;
    try (rewrite testbit_set_run by lia;
         destruct (Z.leb_spec from k), (Z.ltb_spec k (from + Z.of_nat n)); cbn;
         try reflexivity; lia).
  symmetry. apply Hclear. lia.
Qed.

(** A run whose blocks pass the checks of the free path one by one passes
    them as a run. *)
Lemma ext2_data_blocks_valid_run sbi b c :
  0 <= b -> 0 < c < 2 ^ 32 -> b + c - 1 < 2 ^ 64 ->
  (forall i, b <= i < b + c -> ext2_data_blocks_valid sbi i 1 = true) ->
  ext2_data_blocks_valid sbi b c = true.
Proof.
  intros Hb Hc Hend Hall.
  assert (Hone : forall i, b <= i < b + c ->
            s_first_data_block (s_es sbi) < i < s_blocks_count (s_es sbi)
            /\ ~ (i = s_sb_block sbi)).
  { intros i Hi. specialize (Hall i Hi). revert Hall.
    unfold ext2_data_blocks_valid. change (u32 1) with 1.
    replace (i + 1 - 1) with i by lia. rewrite u64_small by lia.
    destruct (i <? i); [discriminate|].
    destruct (Z.leb_spec i (s_first_data_block (s_es sbi))); [discriminate|].
    destruct (Z.leb_spec (s_blocks_count (s_es sbi)) i); [discriminate|].
    destruct (Z.leb_spec i (s_sb_block sbi)), (Z.leb_spec (s_sb_block sbi) i);
      cbn; try discriminate; intros _; lia. }
  unfold ext2_data_blocks_valid. rewrite (u32_small c) by lia.
  rewrite (u64_small (b + c - 1)) by lia.
  destruct (Z.ltb_spec (b + c - 1) b); [lia|].
  pose proof (Hone b ltac:(lia)) as H1. pose proof (Hone (b + c - 1) ltac:(lia)) as H2.
  destruct (Z.leb_spec b (s_first_data_block (s_es sbi))); [lia|].
  destruct (Z.leb_spec (s_blocks_count (s_es sbi)) (b + c - 1)); [lia|].
  destruct (Z.leb_spec b (s_sb_block sbi)), (Z.leb_spec (s_sb_block sbi) (b + c - 1));
    cbn; try reflexivity.
  exfalso. apply (Hone (s_sb_block sbi)); [lia | reflexivity].
Qed.

Lemma ext2_data_blocks_valid_bg_run d sbi b c :
  0 <= b -> 0 < c < 2 ^ 32 -> b + c - 1 < 2 ^ 64 ->
  (forall i, b <= i < b + c -> ext2_data_blocks_valid_bg d sbi i 1 = true) ->
  ext2_data_blocks_valid_bg d sbi b c = true.
Proof.
  intros Hb Hc Hend Hall.
  assert (Hone : forall i, b <= i < b + c ->
            bg_block_bitmap d <> i /\ bg_inode_bitmap d <> i
            /\ ext2_in_range i (bg_inode_table d) (s_itb_per_group sbi) = false).
  { intros i Hi. specialize (Hall i Hi). revert Hall.
    unfold ext2_data_blocks_valid_bg. change (u32 1) with 1.
    unfold ext2_in_range at 1 2.
    replace (i + 1 - 1) with i by lia. rewrite !(u64_small i) by lia.
    destruct (i <? i); [discriminate|].
    destruct (Z.leb_spec i (bg_block_bitmap d)), (Z.leb_spec (bg_block_bitmap d) i);
      cbn; try discriminate;
      destruct (Z.leb_spec i (bg_inode_bitmap d)), (Z.leb_spec (bg_inode_bitmap d) i);
      cbn; try discriminate;
      destruct (ext2_in_range i (bg_inode_table d) (s_itb_per_group sbi));
      try discriminate; intros _; repeat split; first [lia | reflexivity]. }
  unfold ext2_data_blocks_valid_bg. rewrite (u32_small c) by lia.
  rewrite (u64_small (b + c - 1)) by lia.
  destruct (Z.ltb_spec (b + c - 1) b); [lia|].
  unfold ext2_in_range at 1 2. rewrite u64_small by lia.
  destruct (Hone b ltac:(lia)) as (_ & _ & ->).
  destruct (Hone (b + c - 1) ltac:(lia)) as (_ & _ & ->).
  destruct (Z.leb_spec b (bg_block_bitmap d)) as [A1 | A1],
    (Z.leb_spec (bg_block_bitmap d) (b + c - 1)) as [A2 | A2];
    cbn [andb];
    try (exfalso; assert (A3 : b <= bg_block_bitmap d < b + c) by lia;
         apply (proj1 (Hone (bg_block_bitmap d) A3)); reflexivity);
    destruct (Z.leb_spec b (bg_inode_bitmap d)) as [B1 | B1],
      (Z.leb_spec (bg_inode_bitmap d) (b + c - 1)) as [B2 | B2];
    cbn [andb]; try reflexivity;
    exfalso; assert (B3 : b <= bg_inode_bitmap d < b + c) by lia;
    apply (proj1 (proj2 (Hone (bg_inode_bitmap d) B3))); reflexivity.
Qed.

(** The descriptor with [c] added to its free-blocks count, as
    [group_update_free_blocks] writes it. *)
Definition desc_add_blocks (d : ext2_group_desc) (c : Z) : ext2_group_desc :=
  {| bg_block_bitmap := bg_block_bitmap d;
     bg_inode_bitmap := bg_inode_bitmap d;
     bg_inode_table := bg_inode_table d;
     bg_free_blocks_count := u16 (bg_free_blocks_count d + c);
     bg_free_inodes_count := bg_free_inodes_count d;
     bg_used_dirs_count := bg_used_dirs_count d |}.

(** The state after the bitmap of group [g] became [bm'], [c] was added to
    the group's free count and [d] to the global counter, group by group. *)
Lemma block_update_exact fs g grp bm' c d :
  0 <= g -> group_at fs g = Some grp -> c <> 0 ->
  let fs' :=
    percpu_counter_add_freeblocks
      (group_update_free_blocks (set_block_bitmap fs g bm') g c) d in
  same_frame fs fs'
  /\ fs_log fs' = fs_log fs
  /\ group_at fs' g
     = Some {| g_desc := desc_add_blocks (g_desc grp) c;
               g_block_bitmap := bm';
               g_bb_uptodate := g_bb_uptodate grp;
               g_inode_bitmap := g_inode_bitmap grp |}
  /\ (forall k, 0 <= k -> k <> g -> group_at fs' k = group_at fs k)
  /\ s_freeblocks_counter fs' = s_freeblocks_counter fs + d
  /\ s_freeinodes_counter fs' = s_freeinodes_counter fs
  /\ s_dirs_counter fs' = s_dirs_counter fs.
Proof.
  intros Hg Hat Hc. cbv zeta.
  pose proof (set_block_bitmap_at fs g bm' grp Hat) as Hat1.
  pose proof (set_block_bitmap_same_env fs g bm') as Henv1.
  assert (Ho1 : forall k, 0 <= k -> k <> g ->
            group_at (set_block_bitmap fs g bm') k = group_at fs k)
    by (intros; apply set_block_bitmap_other; assumption).
  set (fs1 := set_block_bitmap fs g bm') in *.
  unfold group_update_free_blocks.
  destruct (Z.eqb_spec c 0) as [? | _]; [contradiction|]. rewrite Hat1.
  cbn [g_desc]. fold (desc_add_blocks (g_desc grp) c).
  pose proof (set_desc_at fs1 g (desc_add_blocks (g_desc grp) c) _ Hat1) as Hat2.
  cbn in Hat2.
  pose proof (set_desc_same_env fs1 g (desc_add_blocks (g_desc grp) c)) as Henv2.
  assert (Ho2 : forall k, 0 <= k -> k <> g ->
            group_at (set_desc fs1 g (desc_add_blocks (g_desc grp) c)) k
            = group_at fs k)
    by (intros; rewrite set_desc_other by assumption; apply Ho1; assumption).
  set (fs2 := set_desc fs1 g _) in *.
  split.
  { eapply same_frame_trans; [apply same_env_same_frame; exact Henv1|].
    eapply same_frame_trans; [apply same_env_same_frame; exact Henv2|].
    apply set_counters_same_frame. }
  destruct Henv2 as (_ & Hfb2 & Hfi2 & Hd2 & _ & _ & Hlog2 & _).
  destruct Henv1 as (_ & Hfb1 & Hfi1 & Hd1 & _ & _ & Hlog1 & _).
  cbn. rewrite Hlog2, Hlog1, Hfb2, Hfb1, Hfi2, Hfi1, Hd2, Hd1.
  split; [reflexivity|]. split; [exact Hat2|]. split; [exact Ho2|].
  repeat split.
Qed.

Lemma same_alloc_intro fs fs' :
  same_frame fs fs' ->
  (forall k x y, 0 <= k -> group_at fs k = Some x -> group_at fs' k = Some y ->
     grp_same x y) ->
  s_freeblocks_counter fs' = s_freeblocks_counter fs ->
  s_freeinodes_counter fs' = s_freeinodes_counter fs ->
  s_dirs_counter fs' = s_dirs_counter fs ->
  same_alloc fs fs'.
Proof.
  intros (Hsbi & Hbad & _ & Hlen & Hlog) Hg Hfb Hfi Hd.
  unfold same_alloc. repeat split; try assumption.
  apply Forall2_same_length_lookup_2; [symmetry; exact Hlen|].
  intros i x y Hx Hy. apply (Hg (Z.of_nat i)); [lia|..];
    rewrite group_at_of_nat; assumption.
Qed.

Lemma block_of_bit bpg fdb g bit :
  0 < bpg -> 0 <= bit < bpg ->
  (bit + (g * bpg + fdb) - fdb) / bpg = g
  /\ (bit + (g * bpg + fdb) - fdb) mod bpg = bit.
Proof.
  intros Hbpg Hbit.
  replace (bit + (g * bpg + fdb) - fdb) with (bit + g * bpg) by lia.
  rewrite Z.div_add, Z.mod_add by lia.
  rewrite Z.div_small, Z.mod_small by lia. lia.
Qed.

(** [ext2_free_blocks] undoes [ext2_new_blocks]: on a mounted filesystem
    whose free bits stand for valid data blocks, freeing the run that an
    allocation of up to [count] blocks returned gives back the bitmaps, the
    descriptors and the counters as they were before the allocation, and
    takes the run's sectors off the inode's block count. *)
Theorem ext2_new_blocks_free_blocks fs ino ino' count b c fs1 :
  mounted (fs_sbi fs) ->
  free_bits_valid fs ->
  desc_counts_u16 fs ->
  0 < count < 2 ^ 31 ->
  ext2_new_blocks fs ino count = (Ok (b, c), fs1) ->
  1 <= c <= count
  /\ same_alloc fs (fst (ext2_free_blocks fs1 ino' b c))
  /\ snd (ext2_free_blocks fs1 ino' b c)
     = set_i_blocks ino'
         (u64 (i_blocks ino' - u64 (c * s_blocksize (fs_sbi fs)) / 512)).
Proof.
  intros Hm Hv Hu16 Hcount.
  apply mounted_geometry in Hm.
  destruct Hm as (Hbs & Hbpg & Hipg & Hng & Hfdb & Hbc & Hnblocks).
  unfold ext2_new_blocks. destruct (u16 _ =? 0); [discriminate|].
  intros Hscan. apply new_blocks_scan_spec in Hscan; try lia.
  2:{ unfold u32. apply Z.mod_pos_bound. lia. }
  destruct Hscan as (fsA & g & grpA & bit & HsA & Hg & HatA & Hready & Hbit & Hc
                     & Hfit & Hclear & -> & ->).
  split; [exact Hc|].
  pose proof HsA as (HsbiA & _).
  pose proof (Hnblocks g Hg) as Hnb.
  set (first := ext2_group_first_block_no (fs_sbi fs) g) in *.
  assert (Hfirst : first = g * s_blocks_per_group (fs_sbi fs)
                           + s_first_data_block (s_es (fs_sbi fs)))
    by reflexivity.
  assert (Hb63 : 0 <= bit + first /\ bit + first + c < 2 ^ 63) by nia.
  rewrite (u64_small (bit + first)) by lia.
  rewrite (s32_u64_opp c) by lia.
  (* the blocks of the run pass the checks *)
  destruct (same_alloc_group_at_r _ _ _ _ HsA HatA)
    as (grp0 & Hat0 & Hd0 & Hbm0 & Hibm0 & _).
  assert (Hvalid : forall i, bit + first <= i < bit + first + c ->
            ext2_data_blocks_valid (fs_sbi fs) i 1 = true
            /\ ext2_data_blocks_valid_bg (g_desc grpA) (fs_sbi fs) i 1 = true).
  { intros i Hi.
    pose proof (Hv g grp0 (i - first) Hg Hat0 ltac:(lia)) as K.
    cbv zeta in K. fold first in K. replace (i - first + first) with i in K by lia.
    rewrite Hd0. apply K. rewrite <- Hbm0. apply Hclear. lia. }
  assert (Hrun : ext2_data_blocks_valid (fs_sbi fs) (bit + first) c = true).
  { apply ext2_data_blocks_valid_run; try lia. intros i Hi. apply Hvalid. lia. }
  assert (Hrun_bg : ext2_data_blocks_valid_bg (g_desc grpA) (fs_sbi fs)
                      (bit + first) c = true).
  { apply ext2_data_blocks_valid_bg_run; try lia. intros i Hi. apply Hvalid. lia. }
  pose proof (ext2_data_blocks_valid_one (fs_sbi fs) (bit + first) ltac:(lia)
                (proj1 (Hvalid (bit + first) ltac:(lia)))) as Hlow.
  pose proof (ext2_data_blocks_valid_one (fs_sbi fs) (bit + first + c - 1)
                ltac:(lia)
                (proj1 (Hvalid (bit + first + c - 1) ltac:(lia)))) as Hhigh.
  (* the state after the allocation *)
  pose proof (block_update_exact fsA g grpA
                (set_run (g_block_bitmap grpA) bit (Z.to_nat c)) (- c) (- c)
                ltac:(lia) HatA ltac:(lia)) as Heff.
  cbv zeta in Heff.
  set (fs1 := percpu_counter_add_freeblocks _ _) in *.
  destruct Heff as (Hfr1 & Hlog1 & Hat1 & Hother1 & Hfb1 & Hfi1 & Hdc1).
  pose proof Hfr1 as (Hsbi1 & Hbad1 & _).
  rewrite HsbiA in Hsbi1.
  (* the free *)
  destruct (block_of_bit (s_blocks_per_group (fs_sbi fs))
              (s_first_data_block (s_es (fs_sbi fs))) g bit
              ltac:(lia) ltac:(lia)) as (Hdiv & Hmod).
  rewrite <- Hfirst in Hdiv, Hmod.
  match type of Hat1 with
  | _ = Some ?r => pose proof (ext2_free_blocks_frees fs1 ino' (bit + first) c r)
                     as Hfree
  end.
  cbv zeta in Hfree. rewrite Hsbi1, Hdiv, Hmod in Hfree.
  cbn [g_block_bitmap g_desc g_bb_uptodate] in Hfree.
  assert (Hcnt : count_set (set_run (g_block_bitmap grpA) bit (Z.to_nat c)) bit
                   (Z.to_nat c) = c).
  { rewrite count_set_all; [lia|]. intros i Hi.
    rewrite testbit_set_run by lia.
    destruct (Z.leb_spec bit i), (Z.ltb_spec i (bit + Z.of_nat (Z.to_nat c)));
      cbn; try reflexivity; lia. }
  rewrite Hcnt in Hfree.
  rewrite clear_run_set_run in Hfree
    by (try lia; intros i Hi; apply Hclear; lia).
  destruct (Z.eqb_spec c 0) as [? | _]; [lia|].
  rewrite (s32_small c) in Hfree by lia.
  destruct Hfree as (fsB & HcB & Hfree); try assumption; try lia.
  { destruct Hready as (grp & Hat & Hr).
    assert (grp = grpA) by congruence. subst grp.
    destruct Hr as [Hr | Hr]; [left; exact Hr|].
    right. unfold sb_bread in *. cbn [desc_add_blocks bg_block_bitmap].
    rewrite Hbad1. exact Hr. }
  rewrite Hfree. cbn [fst snd]. split; [|reflexivity]. clear Hfree.
  match goal with
  | |- context [set_block_bitmap fsB g ?bm] =>
      pose proof (block_update_exact fsB g _ bm c c ltac:(lia)
                    ltac:(rewrite (same_core_group_at _ _ _ HcB); exact Hat1)
                    ltac:(lia)) as Heff
  end.
  cbv zeta in Heff.
  set (fs2 := percpu_counter_add_freeblocks _ _) in *.
  destruct Heff as (Hfr2 & _ & Hat2 & Hother2 & Hfb2 & Hfi2 & Hdc2).
  cbn [g_desc g_bb_uptodate g_inode_bitmap] in Hat2.
  eapply same_alloc_trans; [exact HsA|].
  pose proof HcB as (_ & _ & HfbB & HfiB & HdB & _).
  apply same_alloc_intro.
  - eapply same_frame_trans; [exact Hfr1|].
    eapply same_frame_trans; [apply same_core_same_frame; exact HcB | exact Hfr2].
  - intros k x y Hk Hx Hy.
    destruct (Z.eq_dec k g) as [-> | Hne].
    + rewrite Hat2 in Hy. injection Hy as <-.
      assert (x = grpA) by congruence. subst x.
      destruct (Hu16 _ _ Hat0) as (Hrange & _). rewrite <- Hd0 in Hrange.
      unfold grp_same. cbn. split; [|tauto].
      unfold desc_add_blocks. cbn. rewrite u16_u16_add.
      replace (bg_free_blocks_count (g_desc grpA) + - c + c)
        with (bg_free_blocks_count (g_desc grpA)) by lia.
      rewrite u16_small by exact Hrange. destruct (g_desc grpA); reflexivity.
    + rewrite Hother2, (same_core_group_at _ _ _ HcB), Hother1 in Hy by lia.
      assert (E : x = y) by congruence. rewrite E. apply grp_same_refl.
  - rewrite Hfb2, HfbB, Hfb1. lia.
  - rewrite Hfi2, HfiB, Hfi1. reflexivity.
  - rewrite Hdc2, HdB, Hdc1. reflexivity.
Qed.

Lemma ext2_new_blocks_free_blocks_witness :
  match ext2_new_blocks sample_fs sample_root 3 with
  | (Ok (b, c), fs1) =>
      1 <= c <= 3
      /\ same_alloc sample_fs (fst (ext2_free_blocks fs1 sample_file b c))
      /\ snd (ext2_free_blocks fs1 sample_file b c)
         = set_i_blocks sample_file
             (u64 (i_blocks sample_file
                   - u64 (c * s_blocksize (fs_sbi sample_fs)) / 512))
  | _ => False
  end.
Proof.
  destruct (ext2_new_blocks sample_fs sample_root 3) as [[[b c] | e] fs1] eqn:E.
  - apply (ext2_new_blocks_free_blocks sample_fs sample_root sample_file 3 b c fs1).
    + exact sample_fs_mounted.
    + exact sample_fs_free_bits_valid.
    + exact sample_fs_desc_counts_u16.
    + lia.
    + exact E.
  - vm_compute in E. discriminate.
Defined.

(** *** Block mapping and inode records: what is written reads back *)

(** On a little-endian host a mapping, once found or made, stays: after a
    call of [ext2_get_blocks] that returned a block with a number other than
    zero, every further call for the same logical block returns that
    number, creates nothing and changes nothing. *)
Theorem ext2_get_blocks_stable fs ino iblock mb create r fs' ino' mb' create' :
  0 <= iblock ->
  (Z.to_nat iblock < length (i_data ino))%nat ->
  ext2_get_blocks false fs ino iblock mb create = (Ok r, fs', ino') ->
  0 < gb_ret r -> 0 < gb_bno r ->
  ext2_get_blocks false fs' ino' iblock mb' create'
  = (Ok {| gb_ret := 1; gb_bno := gb_bno r; gb_new := false |}, fs', ino').
Proof.
  intros H0 Hlen Hrun Hret Hbno.
  assert (Hslot : le32_to_cpu false (word_at (i_data ino') iblock) = gb_bno r
                  /\ iblock < EXT2_NDIR_BLOCKS).
  { revert Hrun. unfold ext2_get_blocks.
    destruct (Z.leb_spec EXT2_NDIR_BLOCKS iblock); [discriminate|].
    destruct (Z.ltb_spec 0 (le32_to_cpu false (word_at (i_data ino) iblock))).
    { intros Hrun.
      assert (E1 : ino' = ino) by congruence.
      assert (E2 : gb_bno r = le32_to_cpu false (word_at (i_data ino) iblock)).
      { injection Hrun as <- _ _. reflexivity. }
      rewrite E1, E2. split; [reflexivity | assumption]. }
    destruct create; cbn [negb].
    2:{ intros Hrun. exfalso. injection Hrun as <- _ _. cbn in Hret. lia. }
    destruct (ext2_new_blocks fs ino 1) as [[[resb count] | e] fs1];
      [|discriminate].
    intros Hrun.
    apply (f_equal (fun x => (fst (fst x), i_data (snd x)))) in Hrun.
    cbn [fst snd i_data set_i_blocks set_i_data] in Hrun.
    injection Hrun as <- <-. cbn [gb_bno]. split; [|assumption].
    unfold word_at. rewrite list_lookup_insert_eq by exact Hlen. reflexivity. }
  destruct Hslot as (Hslot & Hdirect).
  unfold ext2_get_blocks.
  destruct (Z.leb_spec EXT2_NDIR_BLOCKS iblock); [lia|].
  rewrite Hslot. destruct (Z.ltb_spec 0 (gb_bno r)); [reflexivity | lia].
Qed.

Lemma ext2_get_blocks_stable_witness :
  match ext2_get_blocks false sample_fs sample_file 0 1 true with
  | (Ok r, fs', ino') =>
      ext2_get_blocks false fs' ino' 0 1 true
      = (Ok {| gb_ret := 1; gb_bno := gb_bno r; gb_new := false |}, fs', ino')
  | _ => False
  end.
Proof.
  destruct (ext2_get_blocks false sample_fs sample_file 0 1 true)
    as [[[r | e] fs'] ino'] eqn:E.
  - apply (ext2_get_blocks_stable sample_fs sample_file 0 1 true r fs' ino' 1 true).
    + lia.
    + cbn. lia.
    + exact E.
    + assert (Hr : match fst (fst (ext2_get_blocks false sample_fs sample_file
                                     0 1 true)) with
                   | Ok r => gb_ret r
                   | Err _ => 0
                   end = 1) by (vm_compute; reflexivity).
      rewrite E in Hr. cbn [fst] in Hr. rewrite Hr. lia.
    + assert (Hr : match fst (fst (ext2_get_blocks false sample_fs sample_file
                                     0 1 true)) with
                   | Ok r => gb_bno r
                   | Err _ => 0
                   end = 262) by (vm_compute; reflexivity).
      rewrite E in Hr. cbn [fst] in Hr. rewrite Hr. lia.
  - vm_compute in E. discriminate.
Defined.

(** A record that [ext2_get_inode] locates is located the same way whatever
    the inode table holds, and locating it changes nothing. *)
Lemma ext2_get_inode_ok fs n loc fs' :
  ext2_get_inode fs n = (Ok loc, fs') ->
  fs' = fs
  /\ forall t, ext2_get_inode (set_itable fs t) n = (Ok loc, set_itable fs t).
Proof.
  unfold ext2_get_inode, ext2_get_group_desc, sb_bread, group_at.
  cbn [fs_sbi set_itable fs_groups fs_bad_blocks].
  match goal with |- context [if ?c then _ else _] => destruct c end;
    [discriminate|].
  match goal with |- context [if ?c <=? ?d then _ else _] => destruct (c <=? d) end;
    [discriminate|].
  match goal with |- context [if ?c <? 0 then _ else _] => destruct (c <? 0) end;
    [discriminate|].
  match goal with |- context [fs_groups fs !! ?k] => destruct (fs_groups fs !! k) end;
    [|discriminate].
  cbn [fs_bad_blocks set_itable].
  match goal with |- context [if negb ?c then _ else _] => destruct c end;
    cbn [negb]; [discriminate|].
  intros [= <- <-]. split; [reflexivity|]. intros t. reflexivity.
Qed.

(** The fields of an inode fit the widths of the on-disk record. *)
Definition inode_fits (ino : inode) : Prop :=
  0 <= i_mode ino < 2 ^ 16 /\ 0 <= i_nlink ino < 2 ^ 16
  /\ 0 <= i_size ino < 2 ^ 32 /\ 0 <= i_blocks ino < 2 ^ 32
  /\ 0 <= i_flags ino < 2 ^ 32
  /\ length (i_data ino) = Z.to_nat EXT2_N_BLOCKS.

(** What [ext2_do_write_inode] writes is found where [ext2_get_inode]
    looks for the inode: for an inode that is not a device node and whose
    fields fit the on-disk record, after a successful write-back
    [ext2_get_inode] locates the record without changing the state, and the
    record there holds the mode, link count, size, block count and flags of
    the inode and its block array, word for word on either byte order. *)
Theorem ext2_do_write_inode_record be fs ino fs1 ino1 :
  inode_fits ino ->
  S_ISCHR (i_mode ino) || S_ISBLK (i_mode ino) = false ->
  ext2_do_write_inode be fs ino = (Ok tt, fs1, ino1) ->
  exists loc,
    ext2_get_inode fs1 (i_ino ino) = (Ok loc, fs1)
    /\ d_mode (itable_get (fs_itable fs1) (loc_block loc) (loc_offset loc))
       = i_mode ino
    /\ d_links_count
         (itable_get (fs_itable fs1) (loc_block loc) (loc_offset loc))
       = i_nlink ino
    /\ d_size (itable_get (fs_itable fs1) (loc_block loc) (loc_offset loc))
       = i_size ino
    /\ d_blocks (itable_get (fs_itable fs1) (loc_block loc) (loc_offset loc))
       = i_blocks ino
    /\ d_flags (itable_get (fs_itable fs1) (loc_block loc) (loc_offset loc))
       = i_flags ino
    /\ i_block (itable_get (fs_itable fs1) (loc_block loc) (loc_offset loc))
       = i_data ino.
Proof.
  intros (Hmode & Hnlink & Hsize & Hblocks & Hflags & Hlen) Hdev.
  unfold ext2_do_write_inode.
  destruct (ext2_get_inode fs (i_ino ino)) as [[loc | e] fs0] eqn:E;
    [|discriminate].
  apply ext2_get_inode_ok in E. destruct E as (-> & Eset).
  rewrite Hdev. intros Hw.
  apply (f_equal (fun x => snd (fst x))) in Hw. cbn [fst snd] in Hw.
  subst fs1. exists loc. split; [apply Eset|].
  cbn [fs_itable set_itable itable_put itable_get].
  rewrite !Z.eqb_refl. cbn [andb d_mode d_blocks d_links_count d_size d_flags
                            i_block].
  rewrite (u16_small (i_mode ino)), (u16_small (i_nlink ino)),
    (u32_small (i_size ino)), (u32_small (i_blocks ino)),
    (u32_small (i_flags ino)) by assumption.
  repeat split. apply firstn_all2. lia.
Qed.

Lemma ext2_do_write_inode_record_witness :
  match ext2_do_write_inode false sample_fs sample_file with
  | (Ok _, fs1, _) =>
      exists loc,
        ext2_get_inode fs1 12 = (Ok loc, fs1)
        /\ d_mode (itable_get (fs_itable fs1) (loc_block loc) (loc_offset loc))
           = i_mode sample_file
        /\ i_block (itable_get (fs_itable fs1) (loc_block loc) (loc_offset loc))
           = i_data sample_file
  | _ => False
  end.
Proof.
  destruct (ext2_do_write_inode false sample_fs sample_file)
    as [[[[] | e] fs1] ino1] eqn:E.
  - destruct (ext2_do_write_inode_record false sample_fs sample_file fs1 ino1)
      as (loc & H1 & H2 & _ & _ & _ & _ & H3).
    + unfold inode_fits. repeat split; first [compute_done | reflexivity].
    + reflexivity.
    + exact E.
    + exists loc. tauto.
  - vm_compute in E. discriminate.
Defined.

(** *** What the two allocators leave to each other *)

Lemma set_block_bitmap_same_inodes fs g bm :
  same_inodes fs (set_block_bitmap fs g bm).
Proof.
  unfold set_block_bitmap. destruct (group_at fs g) as [grp|] eqn:Hat;
    [|apply same_inodes_refl].
  split; [|split; reflexivity].
  eapply groups_agree_update; [exact inode_side_refl | exact Hat|].
  unfold inode_side; simpl. pose proof (same_layout_refl (g_desc grp)). tauto.
Qed.

Lemma group_update_free_blocks_same_inodes fs g c :
  same_inodes fs (group_update_free_blocks fs g c).
Proof.
  unfold group_update_free_blocks. destruct (c =? 0); [apply same_inodes_refl|].
  destruct (group_at fs g) as [grp|] eqn:Hat; [|apply same_inodes_refl].
  unfold set_desc. rewrite Hat. split; [|split; reflexivity].
  eapply groups_agree_update; [exact inode_side_refl | exact Hat|].
  unfold inode_side, same_layout; simpl. tauto.
Qed.

Lemma percpu_counter_add_freeblocks_same_inodes fs n :
  same_inodes fs (percpu_counter_add_freeblocks fs n).
Proof.
  split; [|split; reflexivity].
  apply groups_agree_same_env; [exact inode_side_refl | reflexivity..].
Qed.



Lemma new_blocks_scan_same_inodes todo fs g count :
  same_inodes fs (snd (new_blocks_scan todo fs g count)).
Proof.
  revert fs g count. induction todo as [|todo IH]; intros fs g count;
    cbn [new_blocks_scan]; [apply same_inodes_refl|].
  destruct (ext2_get_group_desc fs g) as [[gdp|] fs0] eqn:Hd;
    apply ext2_get_group_desc_spec in Hd; destruct Hd as (Hc0 & _).
  2:{ apply same_core_same_inodes. exact Hc0. }
  apply same_core_same_inodes in Hc0.
  destruct (u16 (bg_free_blocks_count gdp) =? 0).
  { eapply same_inodes_trans; [exact Hc0 | apply IH]. }
  destruct (ext2_read_block_bitmap fs0 g) as [[bm|] fs1] eqn:Hr;
    apply ext2_read_block_bitmap_spec in Hr; destruct Hr as (Hs1 & _);
    apply same_alloc_same_inodes in Hs1.
  2:{ eapply same_inodes_trans; eassumption. }
  destruct (ext2_allocate_in_bg (fs_sbi fs1) g bm count) as [[ret bm'] c'].
  pose proof (set_block_bitmap_same_inodes fs1 g bm') as H2.
  destruct (ret <? 0).
  { eapply same_inodes_trans; [exact Hc0|].
    eapply same_inodes_trans; [exact Hs1|].
    eapply same_inodes_trans; [exact H2 | apply IH]. }
  cbn [snd].
  eapply same_inodes_trans; [exact Hc0|].
  eapply same_inodes_trans; [exact Hs1|].
  eapply same_inodes_trans; [exact H2|].
  eapply same_inodes_trans; [apply group_update_free_blocks_same_inodes|].
  apply percpu_counter_add_freeblocks_same_inodes.
Qed.

Lemma ext2_new_blocks_same_inodes fs ino count :
  same_inodes fs (snd (ext2_new_blocks fs ino count)).
Proof.
  unfold ext2_new_blocks. destruct (u16 _ =? 0); [apply same_inodes_refl|].
  apply new_blocks_scan_same_inodes.
Qed.


Lemma new_inode_scan_same_blocks todo fs group :
  same_blocks fs (snd (new_inode_scan todo fs group)).
Proof.
  revert fs group.
  induction todo as [|todo IH]; intros fs group; cbn [new_inode_scan];
    [apply same_blocks_refl|].
  destruct (ext2_get_group_desc fs group) as [[gdp|] fs0] eqn:Hd;
    apply ext2_get_group_desc_spec in Hd; destruct Hd as (Hc & _);
    apply same_core_same_blocks in Hc.
  2:{ eapply same_blocks_trans; [exact Hc | apply IH]. }
  destruct (read_inode_bitmap fs0 group) as [[bm|] fs1] eqn:Hr;
    apply read_inode_bitmap_spec in Hr; destruct Hr as (Hc1 & _);
    apply same_core_same_blocks in Hc1.
  2:{ eapply same_blocks_trans; eassumption. }
  destruct (new_inode_in_group _ bm _ 0) as [[b|] bm'].
  - cbn [snd]. eapply same_blocks_trans; [exact Hc|].
    eapply same_blocks_trans; [exact Hc1 | apply set_inode_bitmap_same_blocks].
  - eapply same_blocks_trans; [exact Hc|].
    eapply same_blocks_trans; [exact Hc1|].
    eapply same_blocks_trans; [apply set_inode_bitmap_same_blocks | apply IH].
Qed.

Lemma desc_add_inodes_same_blocks fs g grp a b :
  group_at fs g = Some grp ->
  same_blocks fs (set_desc fs g (desc_add_inodes (g_desc grp) a b)).
Proof.
  intros Hat. apply (set_desc_same_blocks fs g _ grp Hat).
  - unfold same_layout; simpl. tauto.
  - reflexivity.
Qed.

Lemma ext2_new_inode_same_blocks fs dir mode :
  same_blocks fs (snd (ext2_new_inode fs dir mode)).
Proof.
  unfold ext2_new_inode.
  destruct (find_group fs dir) as [group fs0] eqn:Hfg.
  assert (Hc0 : same_blocks fs fs0).
  { revert Hfg. unfold find_group.
    destruct (ext2_get_group_desc fs (s32 (i_block_group dir)))
      as [desc fs1] eqn:Hd.
    apply ext2_get_group_desc_spec in Hd. destruct Hd as (Hc & _).
    destruct (desc_has_inodes_and_blocks desc).
    { intros [= <- <-]. apply same_core_same_blocks. exact Hc. }
    match goal with
    | |- context [find_group_hash ?f ?a ?b ?c ?d] =>
        destruct (find_group_hash f a b c d) as [[gh|] fs2] eqn:Hh
    end; apply find_group_hash_spec in Hh; destruct Hh as (Hc1 & _).
    - intros [= <- <-]. apply same_core_same_blocks.
      eapply same_core_trans; eassumption.
    - intros H.
      assert (Hc2 : same_core fs2 fs0).
      { revert H. generalize (s32 (i_block_group dir)) as g0.
        generalize (s32 (s_groups_count (fs_sbi fs))) as n.
        intros n.
        generalize (Z.to_nat n) as todo. intros todo. revert fs2 Hc1.
        induction todo as [|todo IH]; intros fs2 Hc1 g0; cbn [find_group_linear].
        - intros [= <- <-]. apply same_core_refl.
        - destruct (ext2_get_group_desc fs2 (Z.rem (s32 (g0 + 1)) n))
            as [d fs3] eqn:Hd3.
          apply ext2_get_group_desc_spec in Hd3. destruct Hd3 as (Hc3 & _).
          destruct (desc_has_inodes d).
          + intros [= <- <-]. exact Hc3.
          + intros H. eapply same_core_trans; [exact Hc3|].
            eapply IH; [|exact H].
            eapply same_core_trans; eassumption. }
      apply same_core_same_blocks.
      eapply same_core_trans; [exact Hc|].
      eapply same_core_trans; eassumption. }
  destruct (group =? -1); [exact Hc0|].
  pose proof (new_inode_scan_same_blocks
                (Z.to_nat (s_groups_count (fs_sbi fs))) fs0 group) as Hscan.
  destruct (new_inode_scan _ fs0 group) as [[[g bit] | e] fs1];
    cbn [snd] in Hscan |- *.
  2:{ eapply same_blocks_trans; eassumption. }
  match goal with |- context [if ?c then _ else _] => destruct c end; cbn [snd].
  { eapply same_blocks_trans; [exact Hc0|].
    eapply same_blocks_trans; [exact Hscan|].
    apply same_core_same_blocks, ext2_error_same_core. }
  eapply same_blocks_trans; [exact Hc0|].
  eapply same_blocks_trans; [exact Hscan|].
  set (fsa := percpu_counter_add_freeinodes fs1 (-1)).
  set (fsb := if S_ISDIR mode then percpu_counter_add_dirs fsa 1 else fsa).
  assert (Hb : same_blocks fs1 fsb).
  { subst fsb fsa. destruct (S_ISDIR mode).
    - eapply same_blocks_trans; apply set_counters_same_blocks.
    - apply set_counters_same_blocks. }
  eapply same_blocks_trans; [exact Hb|].
  destruct (group_at fsb (u32 g)) as [grp|] eqn:Hat; [|apply same_blocks_refl].
  apply desc_add_inodes_same_blocks. exact Hat.
Qed.

Lemma ext2_release_inode_same_blocks fs g dir :
  same_blocks fs (ext2_release_inode fs g dir).
Proof.
  unfold ext2_release_inode.
  destruct (ext2_get_group_desc fs g) as [[desc|] fs0] eqn:Hd;
    apply ext2_get_group_desc_spec in Hd; destruct Hd as (Hc & Hd).
  2:{ apply same_core_same_blocks.
      eapply same_core_trans; [exact Hc | apply ext2_error_same_core]. }
  destruct Hd as (-> & _ & grp & Hat & ->).
  pose proof (desc_add_inodes_same_blocks fs (u32 g) grp 1
                (if dir then -1 else 0) Hat) as H1.
  destruct dir.
  - eapply same_blocks_trans; [exact H1|].
    eapply same_blocks_trans; apply set_counters_same_blocks.
  - eapply same_blocks_trans; [exact H1 | apply set_counters_same_blocks].
Qed.

Lemma ext2_free_inode_same_blocks fs ino :
  same_blocks fs (ext2_free_inode fs ino).
Proof.
  unfold ext2_free_inode.
  match goal with |- context [if ?c then _ else _] => destruct c end;
    [apply same_core_same_blocks, ext2_error_same_core|].
  match goal with
  | |- context [read_inode_bitmap ?a ?b] =>
      destruct (read_inode_bitmap a b) as [[bm|] fs0] eqn:Hr
  end; apply read_inode_bitmap_spec in Hr; destruct Hr as (Hc & _);
    apply same_core_same_blocks in Hc; [|exact Hc].
  unfold ext2_clear_bit_atomic.
  eapply same_blocks_trans; [exact Hc|].
  match goal with
  | |- context [set_inode_bitmap ?a ?b ?c] =>
      pose proof (set_inode_bitmap_same_blocks a b c) as H1
  end.
  destruct (Z.testbit bm _).
  - eapply same_blocks_trans; [exact H1 | apply ext2_release_inode_same_blocks].
  - eapply same_blocks_trans; [exact H1|].
    apply same_core_same_blocks, ext2_error_same_core.
Qed.

(** The inode allocator never touches what the block allocator keeps:
    whatever [ext2_new_inode] and [ext2_free_inode] are asked and whatever
    they answer, every group has the block bitmap, the free-blocks count and
    the metadata placement it had, and the global free-blocks counter is
    unchanged. *)
Theorem ext2_inode_allocator_keeps_block_side fs ino mode :
  same_blocks fs (snd (ext2_new_inode fs ino mode))
  /\ same_blocks fs (ext2_free_inode fs ino).
Proof.
  split; [apply ext2_new_inode_same_blocks | apply ext2_free_inode_same_blocks].
Qed.

(** *** Truncation *)









(** *** The layout that a mount accepts *)

Lemma is_power_of_2_inode_size n :
  128 <= n <= 4096 -> is_power_of_2 n = true ->
  In n [128; 256; 512; 1024; 2048; 4096].
Proof.
  intros Hn Hp.
  assert (Hall : forallb (fun k =>
            let m := 128 + Z.of_nat k in
            implb (is_power_of_2 m)
              (existsb (Z.eqb m) [128; 256; 512; 1024; 2048; 4096]))
            (seq 0 3969) = true) by (vm_compute; reflexivity).
  rewrite forallb_forall in Hall.
  specialize (Hall (Z.to_nat (n - 128))).
  cbv zeta in Hall. rewrite Z2Nat.id in Hall by lia.
  replace (128 + (n - 128)) with n in Hall by lia.
  rewrite Hp in Hall. cbn [implb] in Hall.
  assert (Hin : In (Z.to_nat (n - 128)) (seq 0 3969)) by (apply in_seq; lia).
  apply Hall in Hin. apply existsb_exists in Hin.
  destruct Hin as (x & Hx & Hnx). apply Z.eqb_eq in Hnx. subst x. exact Hx.
Qed.

(** The block size that the mount computes from [s_log_block_size]: only
    the shifts 0, 1 and 2 give a size that is accepted. *)
Lemma block_size_of_log l :
  0 <= l ->
  let bs := s32 (Z.shiftl BLOCK_SIZE l) in
  512 <= bs <= PAGE_SIZE -> l <= 2 /\ bs = 1024 * 2 ^ l.
Proof.
  intros Hl. cbv zeta. unfold BLOCK_SIZE, PAGE_SIZE.
  rewrite Z.shiftl_mul_pow2 by exact Hl.
  destruct (Z.le_gt_cases l 2) as [Hle | Hgt].
  - assert (Hc : l = 0 \/ l = 1 \/ l = 2) by lia.
    destruct Hc as [-> | [-> | ->]]; intros _;
      (split; [lia | vm_compute; reflexivity]).
  - intros H. exfalso.
    destruct (Z.le_gt_cases l 20) as [H20 | H20].
    + assert (Hlo : 2 ^ 3 <= 2 ^ l) by (apply Z.pow_le_mono_r; lia).
      assert (Hhi : 2 ^ l <= 2 ^ 20) by (apply Z.pow_le_mono_r; lia).
      rewrite s32_small in H by lia. lia.
    + destruct (Z.eq_dec l 21) as [-> | Hne].
      * revert H. vm_compute. intros ([] & _). reflexivity.
      * replace (1024 * 2 ^ l) with (2 ^ (l - 22) * 2 ^ 32) in H.
        2:{ replace l with (l - 22 + 22) at 2 by lia.
            rewrite Z.pow_add_r by lia. lia. }
        unfold s32 in H. rewrite Z.add_comm, Z.mod_add in H by lia.
        revert H. vm_compute. intros ([] & _). reflexivity.
Qed.

(** What a mount that [ext2_fill_super] accepts can rely on, for an
    [s_log_block_size] from 0 to 31, the counts for which the shift of an
    [int] is defined: the block size is 1024, 2048 or 4096 bytes, as
    [s_log_block_size] says; the inode size is a power of two from 128 up
    to the block size and divides it, so that a block holds a whole number
    of inode records; a block holds a whole number of 32-byte group
    descriptors; revision 0 means 128-byte inodes and first inode 11. *)
Theorem ext2_fill_super_layout es sbi :
  0 <= s_log_block_size es < 32 ->
  ext2_fill_super es = Ok sbi ->
  s_log_block_size es <= 2
  /\ s_blocksize sbi = 1024 * 2 ^ s_log_block_size es
  /\ In (s_inode_size sbi) [128; 256; 512; 1024; 2048; 4096]
  /\ s_inode_size sbi <= s_blocksize sbi
  /\ s_inodes_per_block sbi * s_inode_size sbi = s_blocksize sbi
  /\ s_desc_per_block sbi * EXT2_DESC_SIZE = s_blocksize sbi
  /\ (s_rev_level es = EXT2_GOOD_OLD_REV ->
      s_inode_size sbi = EXT2_GOOD_OLD_INODE_SIZE
      /\ s_first_ino sbi = EXT2_GOOD_OLD_FIRST_INO).
Proof.
  intros Hlog32. assert (Hlog : 0 <= s_log_block_size es) by lia.
  unfold ext2_fill_super. cbv zeta.
  assert (Hmask : Z.land (s_log_block_size es) 31 = s_log_block_size es).
  { change 31 with (Z.ones 5). rewrite Z.land_ones by lia.
    apply Z.mod_small. change (2 ^ 5) with 32. lia. }
  rewrite Hmask.
  destruct (negb (s_magic es =? EXT2_SUPER_MAGIC)); [discriminate|].
  match goal with |- context [if ?c then _ else _] => destruct c end;
    [discriminate|].
  set (bs := s32 (Z.shiftl BLOCK_SIZE (s_log_block_size es))).
  destruct (negb ((512 <=? bs) && (bs <=? PAGE_SIZE) && is_power_of_2 bs))
    eqn:Hbs; [discriminate|].
  apply negb_false_iff in Hbs. rewrite !andb_true_iff in Hbs.
  destruct Hbs as ((Hlo & Hhi) & _). apply Z.leb_le in Hlo, Hhi.
  destruct (block_size_of_log (s_log_block_size es) Hlog (conj Hlo Hhi))
    as (Hl2 & Hbs).
  fold bs in Hbs.
  set (isz := if s_rev_level es =? EXT2_GOOD_OLD_REV
              then EXT2_GOOD_OLD_INODE_SIZE else es_inode_size es).
  assert (Hisz : negb (s_rev_level es =? EXT2_GOOD_OLD_REV)
                 && ((isz <? EXT2_GOOD_OLD_INODE_SIZE)
                     || negb (is_power_of_2 isz) || (bs <? isz)) = false ->
                 In isz [128; 256; 512; 1024; 2048; 4096] /\ isz <= bs).
  { subst isz. destruct (s_rev_level es =? EXT2_GOOD_OLD_REV); cbn [negb andb].
    - intros _. unfold EXT2_GOOD_OLD_INODE_SIZE. cbn. lia.
    - intros H. apply orb_false_iff in H. destruct H as (H & H3).
      apply orb_false_iff in H. destruct H as (H1 & H2).
      apply negb_false_iff in H2. apply Z.ltb_ge in H1, H3.
      unfold EXT2_GOOD_OLD_INODE_SIZE, PAGE_SIZE in *.
      split; [apply is_power_of_2_inode_size; [lia | exact H2] | exact H3]. }
  match goal with |- context [if ?c then Err EINVAL else _] =>
    destruct c eqn:Hguard end; [discriminate|].
  specialize (Hisz eq_refl). destruct Hisz as (Hin & Hle).
  match goal with |- context [if ?c then Err EINVAL else _] => destruct c end;
    [discriminate|].
  destruct (bs * 8 <? es_blocks_per_group es); [discriminate|].
  destruct (bs * 8 <? es_inodes_per_group es); [discriminate|].
  destruct (es_blocks_per_group es =? 0); [discriminate|].
  intros [= <-]. cbn [s_blocksize s_inode_size s_inodes_per_block
                      s_desc_per_block s_first_ino].
  split; [exact Hl2|]. split; [exact Hbs|]. split; [exact Hin|].
  split; [exact Hle|].
  assert (Hcases : bs = 1024 \/ bs = 2048 \/ bs = 4096).
  { assert (Hc : s_log_block_size es = 0 \/ s_log_block_size es = 1
                 \/ s_log_block_size es = 2) by lia.
    rewrite Hbs. destruct Hc as [-> | [-> | ->]]; cbn; lia. }
  split.
  { cbn [In] in Hin.
    destruct Hcases as [E | [E | E]]; rewrite E in *;
      destruct Hin as [<- | [<- | [<- | [<- | [<- | [<- | []]]]]]];
      first [reflexivity | lia]. }
  split.
  { unfold EXT2_DESC_SIZE.
    destruct Hcases as [E | [E | E]]; rewrite E; reflexivity. }
  intros Hrev. subst isz. rewrite Hrev.
  change (EXT2_GOOD_OLD_REV =? EXT2_GOOD_OLD_REV) with true.
  split; reflexivity.
Qed.

Lemma ext2_fill_super_layout_witness :
  s_blocksize sample_sbi = 1024 * 2 ^ s_log_block_size sample_super_block
  /\ s_inodes_per_block sample_sbi * s_inode_size sample_sbi
     = s_blocksize sample_sbi.
Proof.
  destruct (ext2_fill_super_layout sample_super_block sample_sbi)
    as (_ & H1 & _ & _ & H2 & _).
  - cbn. lia.
  - vm_compute. reflexivity.
  - split; assumption.
Defined.

(** *** Descriptors that pass the check of the mount *)

(** The metadata of group [g] lies within the group. *)
Definition metadata_in_group (fs : ext2_fs) (g : Z) : Prop :=
  exists grp,
    group_at fs g = Some grp
    /\ let first := ext2_group_first_block_no (fs_sbi fs) g in
       let last := ext2_group_last_block_no (fs_sbi fs) g in
       let d := g_desc grp in
       first <= u32 (bg_block_bitmap d) <= last
       /\ first <= u32 (bg_inode_bitmap d) <= last
       /\ first <= u32 (bg_inode_table d)
       /\ u32 (u32 (bg_inode_table d) + s_itb_per_group (fs_sbi fs) - 1) <= last.

Lemma check_descriptors_loop_spec todo fs i fs' :
  0 <= i -> i + Z.of_nat todo <= s_groups_count (fs_sbi fs) ->
  s_groups_count (fs_sbi fs) < 2 ^ 32 ->
  check_descriptors_loop todo fs i = (Some true, fs') ->
  fs' = fs
  /\ forall g, i <= g < i + Z.of_nat todo -> metadata_in_group fs g.
Proof.
  revert i. induction todo as [|todo IH]; intros i Hi Hend Hn;
    cbn [check_descriptors_loop].
  - intros [= <-]. split; [reflexivity|]. intros g Hg. lia.
  - destruct (ext2_get_group_desc fs i) as [[gdp|] fs0] eqn:Hd;
      [|discriminate].
    apply ext2_get_group_desc_spec in Hd.
    destruct Hd as (_ & -> & _ & grp & Hat & ->).
    rewrite (u32_small i) in Hat by lia.
    match goal with |- context [if ?a || ?b then _ else _] =>
      destruct (Z.ltb_spec (u32 (bg_block_bitmap (g_desc grp)))
                  (ext2_group_first_block_no (fs_sbi fs) i)) as [|B1];
      [discriminate|];
      destruct (Z.ltb_spec (ext2_group_last_block_no (fs_sbi fs) i)
                  (u32 (bg_block_bitmap (g_desc grp)))) as [|B2];
      [discriminate|]
    end.
    cbn [orb].
    destruct (Z.ltb_spec (u32 (bg_inode_bitmap (g_desc grp)))
                (ext2_group_first_block_no (fs_sbi fs) i)) as [|I1];
      [discriminate|].
    destruct (Z.ltb_spec (ext2_group_last_block_no (fs_sbi fs) i)
                (u32 (bg_inode_bitmap (g_desc grp)))) as [|I2];
      [discriminate|].
    cbn [orb].
    destruct (Z.ltb_spec (u32 (bg_inode_table (g_desc grp)))
                (ext2_group_first_block_no (fs_sbi fs) i)) as [|T1];
      [discriminate|].
    match goal with |- context [?a <? ?b] => destruct (Z.ltb_spec a b) as [|T2] end;
      [discriminate|].
    cbn [orb]. intros H. apply IH in H; try lia.
    destruct H as (-> & Hrest). split; [reflexivity|].
    intros g Hg. destruct (Z.eq_dec g i) as [-> | Hne].
    + exists grp. split; [exact Hat|]. cbv zeta. lia.
    + apply Hrest. lia.
Qed.

(** A group of a mounted filesystem spans at most [s_blocks_per_group]
    blocks, from its first block on. *)
Lemma mounted_group_span sbi g :
  mounted sbi -> 0 <= g < s_groups_count sbi ->
  ext2_group_first_block_no sbi g <= ext2_group_last_block_no sbi g
  /\ ext2_group_last_block_no sbi g
     < ext2_group_first_block_no sbi g + s_blocks_per_group sbi
  /\ ext2_group_last_block_no sbi g < s_blocks_count (s_es sbi).
Proof.
  intros (Hm & Hfdb & Hbc & Hbpg & Hipg & Hng) Hg.
  pose proof (ext2_fill_super_groups_count _ _ Hm) as Hcount.
  apply ext2_fill_super_geometry in Hm.
  destruct Hm as (_ & Hb & _ & _ & Hb0 & _).
  rewrite u32_small in Hcount by lia.
  unfold ext2_group_last_block_no, ext2_group_first_block_no. rewrite Hb.
  set (bpg := es_blocks_per_group (s_es sbi)) in *.
  set (x := s_blocks_count (s_es sbi) - s_first_data_block (s_es sbi) - 1) in *.
  pose proof (Z.div_mod x bpg ltac:(lia)) as Hdm.
  pose proof (Z.mod_pos_bound x bpg ltac:(lia)) as Hmod.
  destruct (Z.eqb_spec g (s_groups_count sbi - 1)) as [-> | Hne].
  - rewrite Hcount. replace (x / bpg + 1 - 1) with (x / bpg) by lia. nia.
  - assert (g + 1 <= x / bpg) by lia. nia.
Qed.

(** Once the descriptors have passed [ext2_check_descriptors], the
    metadata of a group cannot be freed: [ext2_free_blocks] refuses the
    group's block bitmap, its inode bitmap and every block of its inode
    table, reports an error and changes neither the allocator state nor the
    inode. *)
Theorem ext2_check_descriptors_protects fs fs0 ino g grp b :
  mounted (fs_sbi fs) ->
  ext2_check_descriptors fs = (Some true, fs0) ->
  0 <= g < s_groups_count (fs_sbi fs) ->
  group_at fs g = Some grp ->
  0 <= bg_block_bitmap (g_desc grp) < 2 ^ 32 ->
  0 <= bg_inode_bitmap (g_desc grp) < 2 ^ 32 ->
  0 <= bg_inode_table (g_desc grp) ->
  0 < s_itb_per_group (fs_sbi fs) ->
  bg_inode_table (g_desc grp) + s_itb_per_group (fs_sbi fs) <= 2 ^ 32 ->
  b = bg_block_bitmap (g_desc grp) \/ b = bg_inode_bitmap (g_desc grp)
  \/ bg_inode_table (g_desc grp) <= b
     < bg_inode_table (g_desc grp) + s_itb_per_group (fs_sbi fs) ->
  same_alloc fs (fst (ext2_free_blocks fs ino b 1))
  /\ (length (fs_log fs)
      < length (fs_log (fst (ext2_free_blocks fs ino b 1))))%nat
  /\ snd (ext2_free_blocks fs ino b 1) = ino.
Proof.
  intros Hm Hchk Hg Hat Hbb Hib Hit Hitb Hend Hb.
  pose proof (mounted_group_span _ g Hm Hg) as (Hspan1 & Hspan2 & Hspan3).
  apply mounted_geometry in Hm.
  destruct Hm as (_ & Hbpg & _ & Hng & Hfdb & Hbc & _).
  apply check_descriptors_loop_spec in Hchk; try lia.
  destruct Hchk as (_ & Hall).
  destruct (Hall g ltac:(lia)) as (grp' & Hat' & Hin).
  assert (grp' = grp) by congruence. subst grp'. cbv zeta in Hin.
  rewrite (u32_small (bg_block_bitmap (g_desc grp))),
    (u32_small (bg_inode_bitmap (g_desc grp))),
    (u32_small (bg_inode_table (g_desc grp))) in Hin by lia.
  rewrite u32_small in Hin by lia.
  destruct Hin as (Hbb' & Hib' & Hit1 & Hit2).
  set (first := ext2_group_first_block_no (fs_sbi fs) g) in *.
  set (last := ext2_group_last_block_no (fs_sbi fs) g) in *.
  assert (Hrange : first <= b <= last) by lia.
  assert (Hfirst : first = g * s_blocks_per_group (fs_sbi fs)
                           + s_first_data_block (s_es (fs_sbi fs)))
    by reflexivity.
  assert (Hb32 : 0 <= b < 2 ^ 32) by nia.
  assert (Hdiv : (b - s_first_data_block (s_es (fs_sbi fs)))
                 / s_blocks_per_group (fs_sbi fs) = g).
  { destruct (block_of_bit (s_blocks_per_group (fs_sbi fs))
                (s_first_data_block (s_es (fs_sbi fs))) g (b - first)
                ltac:(lia) ltac:(lia)) as (Hd & _).
    rewrite <- Hfirst in Hd. replace (b - first + first) with b in Hd by lia.
    exact Hd. }
  pose proof (ext2_free_blocks_rejects fs ino b 1
                (fst (ext2_free_blocks fs ino b 1))
                (snd (ext2_free_blocks fs ino b 1))) as Hrej.
  cbv zeta in Hrej. rewrite Hdiv in Hrej.
  apply Hrej; try lia; [|destruct (ext2_free_blocks fs ino b 1); reflexivity].
  right. exists grp. split; [exact Hat|].
  unfold ext2_data_blocks_valid_bg. change (u32 1) with 1.
  replace (b + 1 - 1) with b by lia. rewrite (u64_small b) by lia.
  destruct (b <? b); [reflexivity|].
  unfold ext2_in_range. rewrite (u64_small (b + 1 - 1)) by lia.
  rewrite (u64_small (_ + _ - 1)) by lia.
  destruct Hb as [-> | [-> | Htab]].
  - rewrite Z.leb_refl. cbn [andb].
    destruct (Z.leb_spec (bg_block_bitmap (g_desc grp))
                (bg_block_bitmap (g_desc grp) + 1 - 1)); [reflexivity | lia].
  - match goal with |- context [if ?c then false else _] => destruct c end;
      [reflexivity|].
    rewrite Z.leb_refl. cbn [andb].
    destruct (Z.leb_spec (bg_inode_bitmap (g_desc grp))
                (bg_inode_bitmap (g_desc grp) + 1 - 1)); [reflexivity | lia].
  - do 2 (match goal with |- context [if ?c then false else _] => destruct c end;
          [reflexivity|]).
    destruct (Z.leb_spec (bg_inode_table (g_desc grp)) b); [|lia].
    destruct (Z.leb_spec b (bg_inode_table (g_desc grp)
                            + s_itb_per_group (fs_sbi fs) - 1)); [|lia].
    reflexivity.
Qed.

Lemma ext2_check_descriptors_protects_witness :
  same_alloc sample_fs (fst (ext2_free_blocks sample_fs sample_root 100 1))
  /\ (length (fs_log sample_fs)
      < length (fs_log (fst (ext2_free_blocks sample_fs sample_root 100 1))))%nat
  /\ snd (ext2_free_blocks sample_fs sample_root 100 1) = sample_root.
Proof.
  apply (ext2_check_descriptors_protects sample_fs sample_fs sample_root 0
           sample_group 100).
  - exact sample_fs_mounted.
  - vm_compute. reflexivity.
  - compute_done.
  - reflexivity.
  - compute_done.
  - compute_done.
  - compute_done.
  - compute_done.
  - compute_done.
  - right. right. compute_done.
Defined.

(** *** Counters, descriptors and bitmaps stay in step *)

Lemma fold_left_add_shift {A} (h : A -> Z) l a :
  fold_left (fun acc x => acc + h x) l a
  = a + fold_left (fun acc x => acc + h x) l 0.
Proof.
  revert a. induction l as [|x l IH]; intros a; cbn [fold_left]; [lia|].
  rewrite (IH (a + h x)), (IH (0 + h x)). lia.
Qed.

Lemma fold_left_add_insert {A} (h : A -> Z) l i x y :
  l !! i = Some x ->
  fold_left (fun acc z => acc + h z) (<[i := y]> l) 0
  = fold_left (fun acc z => acc + h z) l 0 - h x + h y.
Proof.
  revert i. induction l as [|z l IH]; intros i Hi; [discriminate|].
  destruct i as [|i]; cbn in Hi.
  - injection Hi as ->. change (<[0%nat := y]> (x :: l)) with (y :: l).
    cbn [fold_left].
    rewrite (fold_left_add_shift h l (0 + h y)),
      (fold_left_add_shift h l (0 + h x)). lia.
  - change (<[S i := y]> (z :: l)) with (z :: <[i := y]> l). cbn [fold_left].
    rewrite (fold_left_add_shift h (<[i := y]> l) (0 + h z)),
      (fold_left_add_shift h l (0 + h z)).
    rewrite (IH i Hi). lia.
Qed.

(** The sum over the descriptors after the descriptor of one group has
    changed. *)
Lemma sum_desc_update f fs fs' g grp grp' :
  fs_sbi fs' = fs_sbi fs ->
  length (fs_groups fs') = length (fs_groups fs) ->
  0 <= g < s_groups_count (fs_sbi fs) ->
  group_at fs g = Some grp ->
  group_at fs' g = Some grp' ->
  (forall k, 0 <= k -> k <> g -> group_at fs' k = group_at fs k) ->
  sum_desc f fs' = sum_desc f fs - f (g_desc grp) + f (g_desc grp').
Proof.
  intros Hsbi Hlen Hg Hat Hat' Hother.
  assert (Hgroups : fs_groups fs' = <[Z.to_nat g := grp']> (fs_groups fs)).
  { apply list_eq. intros i. rewrite <- group_at_of_nat.
    destruct (Z.eq_dec (Z.of_nat i) g) as [E | Hne].
    - rewrite E, Hat'. subst g. rewrite Nat2Z.id.
      rewrite list_lookup_insert_eq; [reflexivity|].
      rewrite group_at_of_nat in Hat. eapply lookup_lt_Some. exact Hat.
    - rewrite Hother by lia. rewrite group_at_of_nat.
      rewrite list_lookup_insert_ne by lia. reflexivity. }
  unfold sum_desc. rewrite Hsbi, Hgroups.
  rewrite take_insert_lt by lia.
  apply (fold_left_add_insert (fun x => f (g_desc x))).
  rewrite lookup_take_lt by lia.
  unfold group_at in Hat. destruct (g <? 0); [discriminate | exact Hat].
Qed.

Lemma same_alloc_sum_desc f fs fs' :
  same_alloc fs fs' -> sum_desc f fs' = sum_desc f fs.
Proof.
  intros (Hsbi & HF & _). unfold sum_desc. rewrite Hsbi.
  generalize (Z.to_nat (s_groups_count (fs_sbi fs))) as n.
  induction HF as [|x y l l' Hxy _ IH]; intros n; [reflexivity|].
  destruct n as [|n]; [reflexivity|]. cbn [firstn fold_left].
  rewrite (fold_left_add_shift _ (firstn n l')),
    (fold_left_add_shift _ (firstn n l)).
  destruct Hxy as (-> & _). rewrite IH. reflexivity.
Qed.

Lemma count_set_split bm from a b :
  count_set bm from (a + b) = count_set bm from a + count_set bm (from + Z.of_nat a) b.
Proof.
  revert from. induction a as [|a IH]; intros from; cbn [count_set Nat.add].
  - rewrite Z.add_0_r. lia.
  - rewrite IH. replace (from + 1 + Z.of_nat a) with (from + Z.of_nat (S a)) by lia.
    lia.
Qed.

Lemma count_set_none bm from n :
  (forall i, from <= i < from + Z.of_nat n -> Z.testbit bm i = false) ->
  count_set bm from n = 0.
Proof.
  revert from. induction n as [|n IH]; intros from H; cbn [count_set];
    [reflexivity|].
  rewrite H by lia. rewrite IH; [lia|]. intros i Hi. apply H. lia.
Qed.

(** Setting a run of clear bits within the first [n] bits raises the number
    of set bits among them by the length of the run. *)
Lemma count_set_set_run bm bit c n :
  0 <= bit -> (Z.to_nat bit + c <= n)%nat ->
  (forall i, bit <= i < bit + Z.of_nat c -> Z.testbit bm i = false) ->
  count_set (set_run bm bit c) 0 n = count_set bm 0 n + Z.of_nat c.
Proof.
  intros Hbit Hfit Hclear.
  replace n with (Z.to_nat bit + (c + (n - Z.to_nat bit - c)))%nat by lia.
  rewrite !count_set_split. rewrite !Z.add_0_l, !Z2Nat.id by lia.
  rewrite (count_set_ext bm (set_run bm bit c) 0).
  2:{ intros k Hk. rewrite testbit_set_run by lia.
      destruct (Z.leb_spec bit k); [lia | reflexivity]. }
  rewrite (count_set_all (set_run bm bit c) bit c).
  2:{ intros k Hk. rewrite testbit_set_run by lia.
      destruct (Z.leb_spec bit k), (Z.ltb_spec k (bit + Z.of_nat c)); cbn;
        try reflexivity; lia. }
  rewrite (count_set_none bm bit c Hclear).
  rewrite (count_set_ext bm (set_run bm bit c) (bit + Z.of_nat c)).
  2:{ intros k Hk. rewrite testbit_set_run by lia.
      destruct (Z.leb_spec bit k), (Z.ltb_spec k (bit + Z.of_nat c)); cbn;
        try reflexivity; lia. }
  lia.
Qed.

(** The free-blocks count of every group that is in use is the number of
    clear bits among the bits of the group's blocks. *)
Definition blocks_accounted (fs : ext2_fs) : Prop :=
  forall g grp,
    0 <= g < s_groups_count (fs_sbi fs) ->
    group_at fs g = Some grp ->
    bg_free_blocks_count (g_desc grp)
    = group_nblocks (fs_sbi fs) g
      - count_set (g_block_bitmap grp) 0
          (Z.to_nat (group_nblocks (fs_sbi fs) g)).

Lemma mounted_blocks_per_group sbi :
  mounted sbi -> 0 < s_blocks_per_group sbi <= 32768.
Proof.
  intros Hm. pose proof (mounted_geometry _ Hm) as (_ & Hbpg & _).
  destruct Hm as (Hm & _). apply ext2_fill_super_geometry in Hm.
  destruct Hm as (_ & Hb & _ & Hbs & _ & _ & _ & Hb8).
  rewrite <- Hb in Hb8. cbn [In] in Hbs. intuition lia.
Qed.

(** A successful [ext2_new_blocks] keeps the books: when every group's
    free-blocks count is the number of clear bits of its bitmap, this is
    still so afterwards, and the global counter and the sum of the
    descriptors' counts ([ext2_count_free_blocks]) have both gone down by the
    number of blocks handed out. *)
Theorem ext2_new_blocks_accounting fs ino count b c fs' :
  mounted (fs_sbi fs) ->
  blocks_accounted fs ->
  0 < count < 2 ^ 31 ->
  ext2_new_blocks fs ino count = (Ok (b, c), fs') ->
  blocks_accounted fs'
  /\ s_freeblocks_counter fs' = s_freeblocks_counter fs - c
  /\ ext2_count_free_blocks fs' = ext2_count_free_blocks fs - c.
Proof.
  intros Hm Hacc Hcount.
  pose proof (mounted_blocks_per_group _ Hm) as Hbpg16.
  apply mounted_geometry in Hm.
  destruct Hm as (_ & Hbpg & _ & Hng & _ & _ & Hnblocks).
  unfold ext2_new_blocks. destruct (u16 _ =? 0); [discriminate|].
  intros Hscan. apply new_blocks_scan_spec in Hscan; try lia.
  2:{ unfold u32. apply Z.mod_pos_bound. lia. }
  destruct Hscan as (fsA & g & grpA & bit & HsA & Hg & HatA & _ & Hbit & Hc
                     & Hfit & Hclear & _ & ->).
  pose proof HsA as (HsbiA & _ & HfbA & _).
  pose proof (Hnblocks g Hg) as Hnb.
  rewrite (s32_u64_opp c) by lia.
  destruct (same_alloc_group_at_r _ _ _ _ HsA HatA)
    as (grp0 & Hat0 & Hd0 & Hbm0 & _).
  pose proof (Hacc g grp0 Hg Hat0) as Hx. rewrite <- Hd0, <- Hbm0 in Hx.
  pose proof (count_set_bounds (g_block_bitmap grpA) 0
                (Z.to_nat (group_nblocks (fs_sbi fs) g))) as Hcs.
  pose proof (count_set_set_run (g_block_bitmap grpA) bit (Z.to_nat c)
                (Z.to_nat (group_nblocks (fs_sbi fs) g)) ltac:(lia) ltac:(lia)
                ltac:(intros i Hi; apply Hclear; lia)) as Hrun.
  pose proof (count_set_bounds (set_run (g_block_bitmap grpA) bit (Z.to_nat c)) 0
                (Z.to_nat (group_nblocks (fs_sbi fs) g))) as Hcs'.
  rewrite Z2Nat.id in Hrun by lia.
  pose proof (block_update_exact fsA g grpA
                (set_run (g_block_bitmap grpA) bit (Z.to_nat c)) (- c) (- c)
                ltac:(lia) HatA ltac:(lia)) as Heff.
  cbv zeta in Heff.
  set (fs1 := percpu_counter_add_freeblocks _ _) in *.
  destruct Heff as (Hfr1 & _ & Hat1 & Hother1 & Hfb1 & _).
  pose proof Hfr1 as (Hsbi1 & _ & _ & Hlen1 & _).
  assert (Hnew : u16 (bg_free_blocks_count (g_desc grpA) + - c)
                 = bg_free_blocks_count (g_desc grpA) - c).
  { rewrite u16_small; lia. }
  split; [|split].
  - intros k grp Hk Hat. rewrite Hsbi1, HsbiA in Hk |- *.
    destruct (Z.eq_dec k g) as [-> | Hne].
    + rewrite Hat1 in Hat. injection Hat as <-.
      cbn [g_desc g_block_bitmap desc_add_blocks bg_free_blocks_count].
      rewrite Hnew, Hrun. lia.
    + rewrite Hother1 in Hat by lia.
      destruct (same_alloc_group_at_r _ _ _ _ HsA Hat)
        as (grpk & Hatk & Hdk & Hbmk & _).
      rewrite Hdk, Hbmk. apply Hacc; assumption.
  - rewrite Hfb1, HfbA. lia.
  - unfold ext2_count_free_blocks.
    rewrite (sum_desc_update bg_free_blocks_count fsA fs1 g grpA _
               Hsbi1 Hlen1 ltac:(rewrite HsbiA; lia) HatA Hat1 Hother1).
    cbn [g_desc desc_add_blocks bg_free_blocks_count]. rewrite Hnew.
    rewrite (same_alloc_sum_desc _ _ _ HsA). lia.
Qed.

Lemma sample_fs_blocks_accounted : blocks_accounted sample_fs.
Proof.
  intros g grp Hg Hat.
  assert (g = 0) by (change (s_groups_count (fs_sbi sample_fs)) with 1 in Hg; lia).
  subst g. injection Hat as <-. vm_compute. reflexivity.
Qed.

Lemma ext2_new_blocks_accounting_witness :
  match ext2_new_blocks sample_fs sample_root 2 with
  | (Ok (b, c), fs') =>
      blocks_accounted fs'
      /\ s_freeblocks_counter fs' = s_freeblocks_counter sample_fs - c
      /\ ext2_count_free_blocks fs' = ext2_count_free_blocks sample_fs - c
  | _ => False
  end.
Proof.
  destruct (ext2_new_blocks sample_fs sample_root 2) as [[[b c] | e] fs'] eqn:E.
  - apply (ext2_new_blocks_accounting sample_fs sample_root 2 b c fs').
    + exact sample_fs_mounted.
    + exact sample_fs_blocks_accounted.
    + lia.
    + exact E.
  - vm_compute in E. discriminate.
Defined.

(** The free-inodes count of every group that is in use is the number of
    clear bits among the bits of the group's inodes, and the group counts
    no more directories than it has inodes in use. *)
Definition inodes_accounted (fs : ext2_fs) : Prop :=
  forall g grp,
    0 <= g < s_groups_count (fs_sbi fs) ->
    group_at fs g = Some grp ->
    let used :=
      count_set (g_inode_bitmap grp) 0
        (Z.to_nat (s_inodes_per_group (fs_sbi fs))) in
    bg_free_inodes_count (g_desc grp) = s_inodes_per_group (fs_sbi fs) - used
    /\ 0 <= bg_used_dirs_count (g_desc grp) <= used.

Lemma mounted_inodes_per_group sbi :
  mounted sbi -> 0 < s_inodes_per_group sbi <= 32768.
Proof.
  intros Hm. pose proof (mounted_geometry _ Hm) as (_ & _ & Hipg & _).
  destruct Hm as (Hm & _). apply ext2_fill_super_geometry in Hm.
  destruct Hm as (_ & _ & Hi & Hbs & _ & _ & Hi8 & _).
  rewrite <- Hi in Hi8. cbn [In] in Hbs. intuition lia.
Qed.

(** A successful [ext2_new_inode] keeps the books: when every group's
    free-inodes count is the number of clear bits of its inode bitmap, this
    is still so afterwards; the global free-inodes counter and the sum of
    the descriptors' counts ([ext2_count_free_inodes]) have both gone down by
    one, and the directory counter and [ext2_count_dirs] have both gone up
    by one for a directory and stayed for anything else. *)
Theorem ext2_new_inode_accounting fs dir mode ino fs' :
  mounted (fs_sbi fs) ->
  inodes_accounted fs ->
  ext2_new_inode fs dir mode = (Ok ino, fs') ->
  let ddirs := if S_ISDIR mode then 1 else 0 in
  inodes_accounted fs'
  /\ s_freeinodes_counter fs' = s_freeinodes_counter fs - 1
  /\ ext2_count_free_inodes fs' = ext2_count_free_inodes fs - 1
  /\ s_dirs_counter fs' = s_dirs_counter fs + ddirs
  /\ ext2_count_dirs fs' = ext2_count_dirs fs + ddirs.
Proof.
  intros Hm Hacc Hrun.
  pose proof (mounted_inodes_per_group _ Hm) as Hipg16.
  apply mounted_geometry in Hm.
  destruct Hm as (_ & _ & Hipg & Hng & _).
  pose proof (ext2_new_inode_effect fs dir mode ino fs' Hipg Hng Hrun) as H.
  cbv zeta in H |- *.
  destruct H as (Hfr & _ & _ & Hg & _ & _
                 & (grp & Hat & Hat' & Hclear & _ & _)
                 & Hother & Hfi & Hd & _).
  pose proof Hfr as (Hsbi & _ & _ & Hlen & _).
  set (g := ino_group fs (i_ino ino)) in *.
  set (bit := ino_bit fs (i_ino ino)) in *.
  assert (Hbit : 0 <= bit < s_inodes_per_group (fs_sbi fs))
    by (subst bit; unfold ino_bit; apply Z.mod_pos_bound; lia).
  pose proof (Hacc g grp Hg Hat) as Hx. cbv zeta in Hx.
  destruct Hx as (Hfree & Hdirs).
  set (n := Z.to_nat (s_inodes_per_group (fs_sbi fs))) in *.
  pose proof (count_set_bounds (g_inode_bitmap grp) 0 n) as Hcs.
  pose proof (count_set_set_run (g_inode_bitmap grp) bit 1 n ltac:(lia)
                ltac:(lia)
                ltac:(intros i Hi; assert (i = bit) by lia; subst i;
                      exact Hclear)) as Hrun1.
  change (set_run (g_inode_bitmap grp) bit 1)
    with (Z.setbit (g_inode_bitmap grp) bit) in Hrun1.
  pose proof (count_set_bounds (Z.setbit (g_inode_bitmap grp) bit) 0 n) as Hcs'.
  assert (Hnewf : u16 (bg_free_inodes_count (g_desc grp) + -1)
                  = bg_free_inodes_count (g_desc grp) - 1)
    by (rewrite u16_small; lia).
  assert (Hnewd : u16 (bg_used_dirs_count (g_desc grp)
                       + (if S_ISDIR mode then 1 else 0))
                  = bg_used_dirs_count (g_desc grp)
                    + (if S_ISDIR mode then 1 else 0))
    by (rewrite u16_small; destruct (S_ISDIR mode); lia).
  split; [|split; [|split; [|split]]].
  - intros k grpk Hk Hatk. rewrite Hsbi in Hk |- *. cbv zeta. fold n.
    destruct (Z.eq_dec k g) as [-> | Hne].
    + rewrite Hat' in Hatk. injection Hatk as <-.
      cbn [g_desc g_inode_bitmap desc_add_inodes bg_free_inodes_count
           bg_used_dirs_count].
      rewrite Hnewf, Hnewd, Hrun1. destruct (S_ISDIR mode); lia.
    + rewrite Hother in Hatk by lia. apply (Hacc k grpk Hk Hatk).
  - exact Hfi.
  - unfold ext2_count_free_inodes.
    rewrite (sum_desc_update bg_free_inodes_count fs fs' g grp _
               Hsbi Hlen Hg Hat Hat' Hother).
    cbn [g_desc desc_add_inodes bg_free_inodes_count]. rewrite Hnewf. lia.
  - exact Hd.
  - unfold ext2_count_dirs.
    rewrite (sum_desc_update bg_used_dirs_count fs fs' g grp _
               Hsbi Hlen Hg Hat Hat' Hother).
    cbn [g_desc desc_add_inodes bg_used_dirs_count]. rewrite Hnewd. lia.
Qed.

Lemma sample_fs_inodes_accounted : inodes_accounted sample_fs.
Proof.
  intros g grp Hg Hat.
  assert (g = 0) by (change (s_groups_count (fs_sbi sample_fs)) with 1 in Hg; lia).
  subst g. injection Hat as <-. vm_compute. split; [reflexivity|].
  split; discriminate.
Qed.

Lemma ext2_new_inode_accounting_witness :
  match ext2_new_inode sample_fs sample_root S_IFDIR with
  | (Ok ino, fs') =>
      inodes_accounted fs'
      /\ s_freeinodes_counter fs' = s_freeinodes_counter sample_fs - 1
      /\ ext2_count_free_inodes fs' = ext2_count_free_inodes sample_fs - 1
      /\ s_dirs_counter fs' = s_dirs_counter sample_fs + 1
      /\ ext2_count_dirs fs' = ext2_count_dirs sample_fs + 1
  | _ => False
  end.
Proof.
  destruct (ext2_new_inode sample_fs sample_root S_IFDIR)
    as [[ino | e] fs'] eqn:E.
  - apply (ext2_new_inode_accounting sample_fs sample_root S_IFDIR ino fs').
    + exact sample_fs_mounted.
    + exact sample_fs_inodes_accounted.
    + exact E.
  - vm_compute in E. discriminate.
Defined.

(** *** A directory fresh from [ext2_make_empty] *)

(** The first page of a new directory: the records of "." and "..", the
    second one reaching to the end of the chunk, and zeros. *)
Definition fresh_dir_page (chunk self parent : Z) : list Z :=
  pad_page (mk_dirent (u32 self) 12 [46]
            ++ mk_dirent (u32 parent) (chunk - 12) [46; 46]).

Lemma make_empty_bytes c self parent :
  In c [1024; 2048; 4096] ->
  let d := put_bytes zero_page 0 (repeat 0 (Z.to_nat c)) in
  let d := put_u8 d 6 1 in
  let d := put_le16 d 4 (u16 (EXT2_DIR_REC_LEN 1)) in
  let d := put_bytes d 8 [46; 0; 0; 0] in
  let d := put_le32 d 0 (u32 self) in
  let d := put_u8 d 7 0 in
  let de := EXT2_DIR_REC_LEN 1 in
  let d := put_u8 d (de + 6) 2 in
  let d := put_le16 d (de + 4) (u16 (c - EXT2_DIR_REC_LEN 1)) in
  let d := put_le32 d de (u32 parent) in
  let d := put_bytes d (de + 8) [46; 46; 0; 0] in
  let d := put_u8 d (de + 7) 0 in
  d = fresh_dir_page c self parent.
Proof.
  intros Hc. cbv zeta. unfold fresh_dir_page, put_le32, mk_dirent.
  generalize (u8 (u32 self)) as i0. generalize (u8 (u32 self / 256)) as i1.
  generalize (u8 (u32 self / 65536)) as i2.
  generalize (u8 (u32 self / 16777216)) as i3.
  generalize (u8 (u32 parent)) as p0. generalize (u8 (u32 parent / 256)) as p1.
  generalize (u8 (u32 parent / 65536)) as p2.
  generalize (u8 (u32 parent / 16777216)) as p3.
  intros p3 p2 p1 p0 i3 i2 i1 i0.
  cbn [In] in Hc. destruct Hc as [<- | [<- | [<- | []]]];
    vm_compute; reflexivity.
Qed.

Lemma le32_of_bytes v :
  0 <= v < 2 ^ 32 ->
  u8 (u8 v) + 256 * u8 (u8 (v / 256)) + 65536 * u8 (u8 (v / 65536))
  + 16777216 * u8 (u8 (v / 16777216)) = v.
Proof.
  intros H. unfold u8. change (2 ^ 8) with 256. rewrite !Z.mod_mod by lia.
  Z.div_mod_to_equations. lia.
Qed.

(** The fields of the two records of a fresh directory page. *)
Lemma fresh_dir_page_fields c self parent :
  In c [1024; 2048; 4096] ->
  let F := fresh_dir_page c self parent in
  length F = Z.to_nat PAGE_SIZE
  /\ de_inode F 0 = u32 self /\ de_rec_len F 0 = 12
  /\ de_name_len F 0 = 1 /\ de_name_byte F 0 0 = 46
  /\ de_inode F 12 = u32 parent /\ de_rec_len F 12 = c - 12
  /\ de_name_len F 12 = 2 /\ de_name_byte F 12 0 = 46
  /\ de_name_byte F 12 1 = 46.
Proof.
  intros Hc. cbv zeta.
  assert (Hi : forall v, 0 <= u32 v < 2 ^ 32)
    by (intros v; unfold u32; apply Z.mod_pos_bound; lia).
  split; [|split; [|split; [|split; [|split; [|split]]]]].
  - unfold fresh_dir_page, mk_dirent.
    generalize (u8 (u32 self)) as i0. generalize (u8 (u32 self / 256)) as i1.
    generalize (u8 (u32 self / 65536)) as i2.
    generalize (u8 (u32 self / 16777216)) as i3.
    generalize (u8 (u32 parent)) as p0. generalize (u8 (u32 parent / 256)) as p1.
    generalize (u8 (u32 parent / 65536)) as p2.
    generalize (u8 (u32 parent / 16777216)) as p3.
    intros p3 p2 p1 p0 i3 i2 i1 i0.
    cbn [In] in Hc. destruct Hc as [<- | [<- | [<- | []]]];
      vm_compute; reflexivity.
  - etransitivity; [|apply (le32_of_bytes (u32 self)); apply Hi]. reflexivity.
  - reflexivity.
  - reflexivity.
  - reflexivity.
  - etransitivity; [|apply (le32_of_bytes (u32 parent)); apply Hi]. reflexivity.
  - cbn [In] in Hc. destruct Hc as [<- | [<- | [<- | []]]];
      repeat split; reflexivity.
Qed.

Lemma ext2_get_blocks_sbi be fs ino iblock mb create :
  fs_sbi (snd (fst (ext2_get_blocks be fs ino iblock mb create))) = fs_sbi fs.
Proof.
  unfold ext2_get_blocks.
  destruct (EXT2_NDIR_BLOCKS <=? iblock); [reflexivity|].
  destruct (0 <? _); [reflexivity|].
  destruct (negb create); [reflexivity|].
  destruct (ext2_new_blocks fs ino 1) as [[[resb c] | e] fs1] eqn:E;
    apply ext2_new_blocks_sbi in E; exact E.
Qed.

Lemma prepare_blocks_sbi be todo fs ino iblock :
  fs_sbi (snd (fst (prepare_blocks be todo fs ino iblock))) = fs_sbi fs.
Proof.
  revert fs ino iblock. induction todo as [|todo IH]; intros fs ino iblock;
    cbn [prepare_blocks]; [reflexivity|].
  unfold ext2_get_block.
  pose proof (ext2_get_blocks_sbi be fs ino iblock
                (u32 (Z.shiftr (s_blocksize (fs_sbi fs))
                        (Z.log2 (s_blocksize (fs_sbi fs))))) true) as H.
  destruct (ext2_get_blocks be fs ino iblock _ true) as [[[r | e] fs1] ino1];
    cbn [fst snd] in H; [|exact H].
  destruct (gb_ret r <=? 0); rewrite IH; exact H.
Qed.

Lemma ext2_prepare_chunk_sbi be fs ino pos len :
  fs_sbi (snd (fst (ext2_prepare_chunk be fs ino pos len))) = fs_sbi fs.
Proof.
  unfold ext2_prepare_chunk. destruct (len <=? 0); [reflexivity|].
  apply prepare_blocks_sbi.
Qed.

(** What [ext2_make_empty] leaves in a new inode: one chunk, page 0 with
    the two records, not yet checked. *)
Lemma ext2_make_empty_page be fs ino parent fs' ino' :
  In (s_blocksize (fs_sbi fs)) [1024; 2048; 4096] ->
  i_mapping ino = [] -> i_size ino = 0 ->
  ext2_make_empty be fs ino parent = (Ok tt, fs', ino') ->
  fs_sbi fs' = fs_sbi fs /\ i_ino ino' = i_ino ino
  /\ i_size ino' = s_blocksize (fs_sbi fs)
  /\ i_mapping ino'
     = [Some {| f_data := fresh_dir_page (s_blocksize (fs_sbi fs)) (i_ino ino)
                            (i_ino parent);
                f_checked := false |}].
Proof.
  intros Hbs Hmap Hsize. unfold ext2_make_empty, ext2_chunk_size.
  assert (Hr : 0 < s_blocksize (fs_sbi fs) < 2 ^ 32)
    by (cbn [In] in Hbs; intuition lia).
  rewrite (u32_small (s_blocksize (fs_sbi fs))) by lia.
  pose proof (ext2_prepare_chunk_sbi be fs ino 0 (s_blocksize (fs_sbi fs))) as Hsbi1.
  destruct (ext2_prepare_chunk be fs ino 0 (s_blocksize (fs_sbi fs)))
    as [[[[] | e] fs1] ino1] eqn:E; [|discriminate].
  cbn [fst snd] in Hsbi1.
  apply ext2_prepare_chunk_inode in E. destruct E as (d & b & ->).
  unfold read_mapping_folio. cbn [i_mapping touch set_i_blocks set_i_data i_ino].
  rewrite Hmap.
  match goal with
  | |- context [put_bytes ?x 0 (repeat 0 _)] => change x with zero_page
  end.
  pose proof (make_empty_bytes (s_blocksize (fs_sbi fs)) (i_ino ino)
                (i_ino parent) Hbs) as Hbytes.
  cbv zeta in Hbytes. rewrite Hbytes. clear Hbytes.
  unfold sync_inode_metadata. intros H.
  apply ext2_do_write_inode_frame in H. destruct H as (Hs & st & ->).
  destruct Hs as (Hsbi' & _). split; [congruence|].
  unfold ext2_commit_chunk, store_folio.
  cbn [i_size i_mapping i_ino set_i_mapping set_i_state set_i_size touch
       set_i_blocks set_i_data].
  rewrite Hmap, Hsize.
  destruct (Z.ltb_spec 0 (0 + s_blocksize (fs_sbi fs))); [|lia].
  cbn [i_size i_mapping i_ino set_i_mapping set_i_state set_i_size touch
       set_i_blocks set_i_data].
  split; [reflexivity|]. split; [lia|]. reflexivity.
Qed.

(** One step of the loops over the records of a page. *)
Lemma check_records_step fuel d cs mx limit offs :
  (0 < fuel)%nat ->
  offs <= u32 (limit - 12) ->
  12 <= de_rec_len d offs ->
  Z.land (de_rec_len d offs) 3 = 0 ->
  EXT2_DIR_REC_LEN (de_name_len d offs) <= de_rec_len d offs ->
  Z.land (Z.lxor (u32 (offs + de_rec_len d offs - 1)) offs)
    (u32 (Z.lnot (cs - 1))) = 0 ->
  de_inode d offs <= mx ->
  check_records fuel d cs mx limit offs
  = check_records (Nat.pred fuel) d cs mx limit (u32 (offs + de_rec_len d offs)).
Proof.
  intros Hf H1 H2 H3 H4 H5 H6. destruct fuel as [|k]; [lia|].
  cbn [check_records Nat.pred]. change (EXT2_DIR_REC_LEN 1) with 12.
  destruct (Z.leb_spec offs (u32 (limit - 12))); [|lia].
  destruct (Z.ltb_spec (de_rec_len d offs) 12); [lia|].
  rewrite H3. cbn [Z.eqb negb].
  destruct (Z.ltb_spec (de_rec_len d offs) (EXT2_DIR_REC_LEN (de_name_len d offs)));
    [lia|].
  rewrite H5. cbn [Z.eqb negb].
  destruct (Z.ltb_spec mx (de_inode d offs)); [lia|]. reflexivity.
Qed.

Lemma check_records_end fuel d cs mx limit offs :
  (0 < fuel)%nat -> u32 (limit - 12) < offs ->
  check_records fuel d cs mx limit offs = CheckEnd offs.
Proof.
  intros Hf H. destruct fuel as [|k]; [lia|]. cbn [check_records].
  change (EXT2_DIR_REC_LEN 1) with 12.
  destruct (Z.leb_spec offs (u32 (limit - 12))); [lia | reflexivity].
Qed.

(** A record of "." or "..", or an unused one, does not stop the walk of
    [ext2_empty_dir]. *)
Lemma empty_dir_page_step fuel d self limit de :
  (0 < fuel)%nat -> de <= limit -> de_rec_len d de <> 0 ->
  de_inode d de = 0
  \/ (de_name_byte d de 0 = 46
      /\ ((de_name_len d de = 1 /\ de_inode d de = u32 self)
          \/ (de_name_len d de = 2 /\ de_name_byte d de 1 = 46))) ->
  empty_dir_page fuel d self limit de
  = empty_dir_page (Nat.pred fuel) d self limit (de + de_rec_len d de).
Proof.
  intros Hf H1 H2 H3. destruct fuel as [|k]; [lia|].
  cbn [empty_dir_page Nat.pred]. unfold ext2_next_entry.
  destruct (Z.leb_spec de limit); [|lia].
  destruct (Z.eqb_spec (de_rec_len d de) 0); [contradiction|].
  destruct (Z.eqb_spec (de_inode d de) 0) as [|Hnz]; [reflexivity|].
  cbn [negb]. destruct H3 as [? | (Hb & H3)]; [contradiction|].
  rewrite Hb. cbn [Z.eqb negb Pos.eqb].
  destruct H3 as [(Hl & Hi) | (Hl & Hb1)]; rewrite Hl; cbn [Z.ltb Z.compare Pos.compare Pos.compare_cont].
  - rewrite Hi, Z.eqb_refl. reflexivity.
  - rewrite Hb1. reflexivity.
Qed.

Lemma empty_dir_page_end fuel d self limit de :
  (0 < fuel)%nat -> limit < de -> empty_dir_page fuel d self limit de = PageEmpty.
Proof.
  intros Hf H. destruct fuel as [|k]; [lia|]. cbn [empty_dir_page].
  destruct (Z.leb_spec de limit); [lia | reflexivity].
Qed.

Lemma find_entry_page_skip fuel d name limit de :
  (0 < fuel)%nat -> de <= limit -> de_rec_len d de <> 0 ->
  ext2_match name d de = false ->
  find_entry_page fuel d name limit de
  = find_entry_page (Nat.pred fuel) d name limit (de + de_rec_len d de).
Proof.
  intros Hf H1 H2 H3. destruct fuel as [|k]; [lia|].
  cbn [find_entry_page Nat.pred]. unfold ext2_next_entry.
  destruct (Z.leb_spec de limit); [|lia].
  destruct (Z.eqb_spec (de_rec_len d de) 0); [contradiction|].
  rewrite H3. reflexivity.
Qed.

Lemma find_entry_page_here fuel d name limit de :
  (0 < fuel)%nat -> de <= limit -> de_rec_len d de <> 0 ->
  ext2_match name d de = true ->
  find_entry_page fuel d name limit de = Found de.
Proof.
  intros Hf H1 H2 H3. destruct fuel as [|k]; [lia|].
  cbn [find_entry_page]. destruct (Z.leb_spec de limit); [|lia].
  destruct (Z.eqb_spec (de_rec_len d de) 0); [contradiction|].
  rewrite H3. reflexivity.
Qed.

Lemma chunk_cases c :
  In c [1024; 2048; 4096] -> c = 1024 \/ c = 2048 \/ c = 4096.
Proof. cbn [In]. intuition lia. Qed.

(** The validation of page 0 of a directory of one chunk comes down to the
    walk over its records. *)
Lemma ext2_check_folio_one_chunk fs dir d c :
  In c [1024; 2048; 4096] ->
  s_blocksize (fs_sbi fs) = c -> i_size dir = c ->
  fst (ext2_check_folio fs dir 0 false d)
  = match check_records (S (Z.to_nat c)) d c
            (s_inodes_count (s_es (fs_sbi fs))) c 0 with
    | CheckBad _ => false
    | CheckEnd offs => offs =? c
    end.
Proof.
  intros Hc Hbs Hsize. unfold ext2_check_folio, ext2_chunk_size.
  rewrite Hbs, Hsize.
  destruct (chunk_cases c Hc) as [-> | [-> | ->]].
  - change (1024 <? 0 * PAGE_SIZE + PAGE_SIZE) with true. cbv iota.
    change (Z.land 1024 (PAGE_SIZE - 1)) with 1024.
    change (u32 1024) with 1024.
    change (negb (Z.land 1024 (1024 - 1) =? 0)) with false. cbv iota.
    change (1024 =? 0) with false. cbv iota.
    destruct (check_records _ d 1024 _ 1024 0) as [offs | msg]; [|reflexivity].
    destruct (offs =? 1024); reflexivity.
  - change (2048 <? 0 * PAGE_SIZE + PAGE_SIZE) with true. cbv iota.
    change (Z.land 2048 (PAGE_SIZE - 1)) with 2048.
    change (u32 2048) with 2048.
    change (negb (Z.land 2048 (2048 - 1) =? 0)) with false. cbv iota.
    change (2048 =? 0) with false. cbv iota.
    destruct (check_records _ d 2048 _ 2048 0) as [offs | msg]; [|reflexivity].
    destruct (offs =? 2048); reflexivity.
  - change (4096 <? 0 * PAGE_SIZE + PAGE_SIZE) with false. cbv iota.
    change (u32 4096) with 4096. change PAGE_SIZE with 4096.
    destruct (check_records _ d 4096 _ 4096 0) as [offs | msg]; [|reflexivity].
    destruct (offs =? 4096); reflexivity.
Qed.

(** The page that [ext2_make_empty] writes passes the validation. *)
Lemma fresh_dir_page_valid fs dir c self parent :
  In c [1024; 2048; 4096] ->
  s_blocksize (fs_sbi fs) = c -> i_size dir = c ->
  u32 self <= s_inodes_count (s_es (fs_sbi fs)) ->
  u32 parent <= s_inodes_count (s_es (fs_sbi fs)) ->
  fst (ext2_check_folio fs dir 0 false (fresh_dir_page c self parent)) = true.
Proof.
  intros Hc Hbs Hsize Hself Hparent.
  rewrite (ext2_check_folio_one_chunk fs dir _ c Hc Hbs Hsize).
  destruct (fresh_dir_page_fields c self parent Hc)
    as (_ & Hi0 & Hr0 & Hn0 & _ & Hi1 & Hr1 & Hn1 & _).
  set (F := fresh_dir_page c self parent) in *.
  assert (Hcc := chunk_cases c Hc).
  rewrite (check_records_step (S (Z.to_nat c)) F).
  2:{ lia. }
  2:{ rewrite u32_small; lia. }
  2:{ rewrite Hr0. lia. }
  2:{ rewrite Hr0. reflexivity. }
  2:{ rewrite Hr0, Hn0. reflexivity. }
  2:{ rewrite Hr0. destruct Hcc as [-> | [-> | ->]]; reflexivity. }
  2:{ rewrite Hi0. exact Hself. }
  rewrite Hr0. change (u32 (0 + 12)) with 12. cbn [Nat.pred].
  rewrite (check_records_step (Z.to_nat c) F).
  2:{ lia. }
  2:{ rewrite u32_small; lia. }
  2:{ rewrite Hr1. lia. }
  2:{ rewrite Hr1. destruct Hcc as [-> | [-> | ->]]; reflexivity. }
  2:{ rewrite Hr1, Hn1. change (EXT2_DIR_REC_LEN 2) with 12. lia. }
  2:{ rewrite Hr1. destruct Hcc as [-> | [-> | ->]]; reflexivity. }
  2:{ rewrite Hi1. exact Hparent. }
  rewrite Hr1. replace (12 + (c - 12)) with c by lia.
  rewrite (u32_small c) by lia.
  rewrite check_records_end.
  - apply Z.eqb_refl.
  - lia.
  - rewrite u32_small; lia.
Qed.

(** A directory fresh from [ext2_make_empty] is a valid, empty directory
    whose ".." names the parent: [ext2_empty_dir] answers yes,
    [ext2_dotdot] is the record at offset 12, and looking up "." and ".."
    gives the number of the directory itself and that of its parent. *)
Theorem ext2_make_empty_dir be fs ino parent fs' ino' :
  In (s_blocksize (fs_sbi fs)) [1024; 2048; 4096] ->
  i_mapping ino = [] -> i_size ino = 0 ->
  0 < i_ino ino <= s_inodes_count (s_es (fs_sbi fs)) ->
  0 < i_ino parent <= s_inodes_count (s_es (fs_sbi fs)) ->
  s_inodes_count (s_es (fs_sbi fs)) < 2 ^ 32 ->
  ext2_make_empty be fs ino parent = (Ok tt, fs', ino') ->
  fst (fst (ext2_empty_dir fs' ino')) = true
  /\ fst (fst (ext2_dotdot fs' ino')) = Ok 12
  /\ fst (fst (ext2_inode_by_name fs' ino' [46])) = Ok (i_ino ino)
  /\ fst (fst (ext2_inode_by_name fs' ino' [46; 46])) = Ok (i_ino parent).
Proof.
  intros Hc Hmap Hsize Hself Hparent Hmax Hrun.
  apply ext2_make_empty_page in Hrun; try assumption.
  destruct Hrun as (Hsbi & Hino & Hsz & Hpage).
  set (c := s_blocksize (fs_sbi fs)) in *.
  assert (Hcc := chunk_cases c Hc).
  destruct (fresh_dir_page_fields c (i_ino ino) (i_ino parent) Hc)
    as (Hlen & Hi0 & Hr0 & Hn0 & Hb0 & Hi1 & Hr1 & Hn1 & Hb10 & Hb11).
  rewrite (u32_small (i_ino ino)) in Hi0 by lia.
  rewrite (u32_small (i_ino parent)) in Hi1 by lia.
  set (F := fresh_dir_page c (i_ino ino) (i_ino parent)) in *.
  assert (Hgood : good_page fs' ino' 0 F).
  { eexists. split; [unfold read_mapping_folio; rewrite Hpage; reflexivity|].
    split; [reflexivity|]. right.
    apply fresh_dir_page_valid; try assumption.
    - rewrite Hsbi. reflexivity.
    - rewrite Hsbi, u32_small; lia.
    - rewrite Hsbi, u32_small; lia. }
  destruct (ext2_get_folio_good fs' ino' 0 F ltac:(lia) Hgood)
    as (dir1 & Hget & Hsame & Hcont).
  assert (Hsz1 : i_size dir1 = c)
    by (destruct Hsame as (_ & _ & _ & -> & _); exact Hsz).
  assert (Hino1 : i_ino dir1 = i_ino ino)
    by (destruct Hsame as (-> & _); exact Hino).
  assert (Hlast : ext2_last_byte dir1 0 = c).
  { unfold ext2_last_byte. rewrite Hsz1.
    destruct Hcc as [-> | [-> | ->]]; reflexivity. }
  assert (Hpages : Z.to_nat (dir_pages ino') = 1%nat).
  { unfold dir_pages. rewrite Hsz.
    destruct Hcc as [-> | [-> | ->]]; reflexivity. }
  assert (Hpages1 : (dir_pages ino' =? 0) = false).
  { unfold dir_pages. rewrite Hsz.
    destruct Hcc as [-> | [-> | ->]]; reflexivity. }
  assert (Hlimit : u32 (c - EXT2_DIR_REC_LEN 1) = c - 12).
  { change (EXT2_DIR_REC_LEN 1) with 12. rewrite u32_small; lia. }
  assert (Hlimit' : c - EXT2_DIR_REC_LEN 1 = c - 12) by reflexivity.
  assert (Hread1 : read_mapping_folio dir1 0
                   = Ok {| f_data := F; f_checked := true |}).
  { assert (Hrm : read_mapping_folio ino' 0
                   = Ok {| f_data := F; f_checked := false |})
      by (unfold read_mapping_folio; rewrite Hpage; reflexivity).
    revert Hget. unfold ext2_get_folio. rewrite Hrm. cbn [f_checked f_data].
    destruct (ext2_check_folio fs' ino' 0 false F) as [[|] fsx];
      [|discriminate].
    intros [= _ <-]. apply read_mapping_folio_store. lia. }
  split; [|split; [|split]].
  - unfold ext2_empty_dir. rewrite Hpages. cbn [empty_dir_pages].
    rewrite Hget, Hlast, Hlimit, Hlen, Hino1.
    rewrite (empty_dir_page_step _ F); try (unfold PAGE_SIZE; lia);
      try (right; split; [exact Hb0|]; left; split; [exact Hn0|];
           rewrite Hi0, u32_small; lia).
    rewrite Hr0. change (0 + 12) with 12. cbn [Nat.pred].
    rewrite (empty_dir_page_step _ F); try (unfold PAGE_SIZE; lia);
      try (right; split; [exact Hb10|]; right; split; assumption).
    rewrite Hr1. replace (12 + (c - 12)) with c by lia.
    rewrite empty_dir_page_end by (cbn [Nat.pred]; unfold PAGE_SIZE; lia).
    reflexivity.
  - unfold ext2_dotdot. rewrite Hget. cbn [fst]. unfold ext2_next_entry.
    rewrite Hr0. reflexivity.
  - unfold ext2_inode_by_name, ext2_find_entry. rewrite Hpages1, Hpages.
    cbn [find_entry_pages]. rewrite Hget, Hlast, Hlimit', Hlen.
    rewrite (find_entry_page_here _ F); try (unfold PAGE_SIZE; lia).
    2:{ unfold ext2_match. cbn [length]. rewrite Hn0. cbn [Z.of_nat Z.eqb negb
                                                          Pos.of_succ_nat Pos.eqb].
        destruct (Z.eqb_spec (de_inode F 0) 0); [lia|].
        cbn [name_eq]. rewrite Hb0. reflexivity. }
    rewrite Hread1. cbn [fst f_data]. rewrite Hi0. reflexivity.
  - unfold ext2_inode_by_name, ext2_find_entry. rewrite Hpages1, Hpages.
    cbn [find_entry_pages]. rewrite Hget, Hlast, Hlimit', Hlen.
    rewrite (find_entry_page_skip _ F); try (unfold PAGE_SIZE; lia).
    2:{ unfold ext2_match. cbn [length]. rewrite Hn0. reflexivity. }
    rewrite Hr0. change (0 + 12) with 12. cbn [Nat.pred].
    rewrite (find_entry_page_here _ F); try (unfold PAGE_SIZE; lia).
    2:{ unfold ext2_match. cbn [length]. rewrite Hn1. cbn [Z.of_nat Z.eqb negb
                                                          Pos.of_succ_nat Pos.succ Pos.eqb].
        destruct (Z.eqb_spec (de_inode F 12) 0); [lia|].
        cbn [name_eq]. change (0 + 1) with 1. rewrite Hb10, Hb11. reflexivity. }
    rewrite Hread1. cbn [fst f_data]. rewrite Hi1. reflexivity.
Qed.

Lemma ext2_make_empty_dir_witness :
  match ext2_make_empty false sample_fs sample_file sample_root with
  | (Ok _, fs', ino') =>
      fst (fst (ext2_empty_dir fs' ino')) = true
      /\ fst (fst (ext2_inode_by_name fs' ino' [46; 46])) = Ok (i_ino sample_root)
  | _ => False
  end.
Proof.
  destruct (ext2_make_empty false sample_fs sample_file sample_root)
    as [[[[] | e] fs'] ino'] eqn:E.
  - destruct (ext2_make_empty_dir false sample_fs sample_file sample_root fs' ino')
      as (H1 & _ & _ & H2).
    + left. reflexivity.
    + reflexivity.
    + reflexivity.
    + split; [reflexivity | discriminate].
    + split; [reflexivity | discriminate].
    + reflexivity.
    + exact E.
    + split; assumption.
  - vm_compute in E. discriminate.
Defined.

(** *** A failed [create] gives the inode back *)

Lemma ext2_get_blocks_same_inodes be fs ino iblock mb create :
  same_inodes fs (snd (fst (ext2_get_blocks be fs ino iblock mb create))).
Proof.
  unfold ext2_get_blocks.
  destruct (EXT2_NDIR_BLOCKS <=? iblock); [apply same_inodes_refl|].
  destruct (0 <? _); [apply same_inodes_refl|].
  destruct (negb create); [apply same_inodes_refl|].
  pose proof (ext2_new_blocks_same_inodes fs ino 1) as H.
  destruct (ext2_new_blocks fs ino 1) as [[[resb c] | e] fs1]; exact H.
Qed.

Lemma prepare_blocks_same_inodes be todo fs ino iblock :
  same_inodes fs (snd (fst (prepare_blocks be todo fs ino iblock))).
Proof.
  revert fs ino iblock. induction todo as [|todo IH]; intros fs ino iblock;
    cbn [prepare_blocks]; [apply same_inodes_refl|].
  unfold ext2_get_block.
  pose proof (ext2_get_blocks_same_inodes be fs ino iblock
                (u32 (Z.shiftr (s_blocksize (fs_sbi fs))
                        (Z.log2 (s_blocksize (fs_sbi fs))))) true) as H.
  destruct (ext2_get_blocks be fs ino iblock _ true) as [[[r | e] fs1] ino1];
    cbn [fst snd] in H; [|exact H].
  destruct (gb_ret r <=? 0);
    (eapply same_inodes_trans; [exact H | apply IH]).
Qed.

Lemma ext2_prepare_chunk_same_inodes be fs ino pos len :
  same_inodes fs (snd (fst (ext2_prepare_chunk be fs ino pos len))).
Proof.
  unfold ext2_prepare_chunk. destruct (len <=? 0); [apply same_inodes_refl|].
  apply prepare_blocks_same_inodes.
Qed.

Lemma ext2_get_folio_same_core fs dir n quiet :
  same_core fs (snd (fst (ext2_get_folio fs dir n quiet))).
Proof.
  unfold ext2_get_folio.
  destruct (read_mapping_folio dir n) as [f | e]; [|apply same_core_refl].
  destruct (f_checked f); [apply same_core_refl|].
  destruct (ext2_check_folio fs dir n quiet (f_data f)) as [[|] fs1] eqn:E;
    apply ext2_check_folio_same_core in E; exact E.
Qed.

Lemma add_link_got_it_same_inodes be fs dir n name child d de name_len rec_len :
  same_inodes fs
    (snd (fst (add_link_got_it be fs dir n name child d de name_len rec_len))).
Proof.
  unfold add_link_got_it.
  match goal with
  | |- context [ext2_prepare_chunk be fs ?i ?p ?l] =>
      pose proof (ext2_prepare_chunk_same_inodes be fs i p l) as H;
      destruct (ext2_prepare_chunk be fs i p l) as [[[[] | e] fs1] dir1]
  end; cbn [fst snd] in H; [|exact H].
  destruct (negb (de_inode d de =? 0));
    (unfold sync_inode_metadata;
     match goal with
     | |- context [ext2_do_write_inode be fs1 ?i] =>
         destruct (ext2_do_write_inode_effect be fs1 i) as (Hw & _)
     end;
     eapply same_inodes_trans;
     [exact H | apply same_alloc_same_inodes; exact Hw]).
Qed.

Lemma BUG_same_core fs : same_core fs (BUG fs).
Proof. unfold same_core, BUG; cbn. repeat split; lia. Qed.

Lemma add_link_pages_same_inodes be todo fs dir name child n :
  same_inodes fs (snd (fst (add_link_pages be todo fs dir name child n))).
Proof.
  revert fs dir n. induction todo as [|todo IH]; intros fs dir n;
    cbn [add_link_pages].
  - cbn [fst snd]. apply same_core_same_inodes, BUG_same_core.
  - pose proof (ext2_get_folio_same_core fs dir n false) as Hg.
    destruct (ext2_get_folio fs dir n false) as [[[d | e] fs1] dir1];
      cbn [fst snd] in Hg; apply same_core_same_inodes in Hg; [|exact Hg].
    destruct (add_link_scan _ d name _ _ _ _ 0) as [d1 de nl rl | e | |].
    + eapply same_inodes_trans; [exact Hg | apply add_link_got_it_same_inodes].
    + exact Hg.
    + cbn [fst snd]. eapply same_inodes_trans; [exact Hg|].
      apply same_core_same_inodes, ext2_error_same_core.
    + eapply same_inodes_trans; [exact Hg | apply IH].
Qed.

(** [ext2_add_link], whatever its result, leaves the inode side of the
    allocator alone. *)
Lemma ext2_add_link_same_inodes be fs dir name child :
  same_inodes fs (snd (fst (ext2_add_link be fs dir name child))).
Proof. apply add_link_pages_same_inodes. Qed.

Lemma same_inodes_intro fs fs' :
  fs_sbi fs' = fs_sbi fs -> fs_bad_blocks fs' = fs_bad_blocks fs ->
  length (fs_groups fs') = length (fs_groups fs) ->
  (forall k x y, 0 <= k -> group_at fs k = Some x -> group_at fs' k = Some y ->
     inode_side x y) ->
  s_freeinodes_counter fs' = s_freeinodes_counter fs ->
  s_dirs_counter fs' = s_dirs_counter fs ->
  same_inodes fs fs'.
Proof.
  intros Hsbi Hbad Hlen Hg Hfi Hd.
  split; [|split; assumption]. split; [exact Hsbi|]. split; [exact Hbad|].
  apply Forall2_same_length_lookup_2; [symmetry; exact Hlen|].
  intros i x y Hx Hy. apply (Hg (Z.of_nat i)); [lia|..];
    rewrite group_at_of_nat; assumption.
Qed.

Lemma same_inodes_same_frame fs fs' :
  same_inodes fs fs' ->
  fs_sbi fs' = fs_sbi fs /\ fs_bad_blocks fs' = fs_bad_blocks fs
  /\ length (fs_groups fs') = length (fs_groups fs).
Proof.
  intros ((Hsbi & Hbad & HF) & _). split; [exact Hsbi|]. split; [exact Hbad|].
  symmetry. eapply Forall2_length. exact HF.
Qed.

(** When [ext2_create] has allocated an inode and then fails to enter the
    name, the inode is given back: the inode bitmaps, the descriptors'
    inode counts and the global free-inodes and directory counters are what
    they were before the call, and the inode is left without a link. *)
Theorem ext2_create_failure_frees_inode be fs dir name mode now e fs' dir' ino' :
  0 < s_inodes_per_group (fs_sbi fs) < 2 ^ 32 ->
  0 < s_groups_count (fs_sbi fs) < 2 ^ 31 ->
  desc_counts_u16 fs ->
  ext2_create be fs dir name mode now = (Err e, fs', dir', Some ino') ->
  same_inodes fs fs' /\ i_nlink ino' = 0.
Proof.
  intros Hipg Hn Hu16. unfold ext2_create.
  destruct (ext2_new_inode fs dir mode) as [[ino1 | e1] fs1] eqn:Hnew;
    [|discriminate].
  pose proof (ext2_new_inode_fresh _ _ _ _ _ Hnew) as Hfresh.
  pose proof (ext2_new_inode_effect fs dir mode ino1 fs1 Hipg Hn Hnew) as H.
  cbv zeta in H.
  destruct H as (Hfr1 & Hr & Hpos & Hg & _ & Hmode
                 & (grp & Hat & Hat1 & Hclear & _ & Hread)
                 & Hother1 & Hfi1 & Hd1 & _).
  pose proof Hfr1 as (Hsbi1 & Hbad1 & _ & Hlen1 & _).
  set (g := ino_group fs (i_ino ino1)) in *.
  set (bit := ino_bit fs (i_ino ino1)) in *.
  assert (Hbit : 0 <= bit)
    by (subst bit; unfold ino_bit; apply Z.mod_pos_bound; lia).
  unfold ext2_add_nondir. cbn [i_ino set_i_op].
  pose proof (ext2_add_link_same_inodes be fs1 dir name (i_ino ino1)) as Hadd.
  destruct (ext2_add_link be fs1 dir name (i_ino ino1))
    as [[[[] | e2] fs2] dir2]; cbn [fst snd] in Hadd.
  { intros [= ]. }
  unfold discard_new_inode, ext2_evict_inode.
  destruct Hfresh as (Hdata & Hblocks & Hsize & Hmap & Hnlink & _ & Hbadino).
  cbn [i_nlink i_bad inode_dec_link_count set_i_nlink set_i_op set_i_mapping].
  rewrite Hnlink, Hbadino. change (u32 (1 - 1) =? 0) with true.
  cbn [andb negb].
  match goal with
  | |- context [ext2_do_write_inode be fs2 ?i] =>
      pose proof (ext2_do_write_inode_effect be fs2 i) as (Hw & st & Hino3);
      destruct (ext2_do_write_inode be fs2 i) as [[r3 fs3] ino3]
  end.
  cbn [fst snd] in Hw, Hino3. subst ino3.
  cbn [i_blocks set_i_size set_i_state set_i_dtime set_i_mapping].
  change (i_blocks (inode_dec_link_count
                      (set_i_op ino1 ext2_file_inode_operations)))
    with (i_blocks ino1).
  rewrite Hblocks. change (negb (0 =? 0)) with false. cbv iota.
  set (inoX := set_i_size _ 0).
  intros Hres.
  assert (Hfs' : fs' = ext2_free_inode fs3 inoX).
  { apply (f_equal (fun x => snd (fst (fst x)))) in Hres. cbn [fst snd] in Hres.
    symmetry. exact Hres. }
  assert (Hnl : i_nlink ino' = 0).
  { apply (f_equal (fun x => match snd x with
                             | Some i => i_nlink i | None => 0 end)) in Hres.
    cbn [snd] in Hres. rewrite <- Hres. subst inoX.
    cbn [i_nlink set_i_size set_i_state set_i_dtime set_i_mapping].
    unfold inode_dec_link_count. cbn [i_nlink set_i_nlink set_i_op].
    rewrite Hnlink. reflexivity. }
  split; [|exact Hnl]. clear Hres Hnl.
  assert (HinoX : i_ino inoX = i_ino ino1 /\ i_mode inoX = mode)
    by (split; [reflexivity | exact Hmode]).
  destruct HinoX as (HiX & HmX).
  (* the state in which the inode is freed *)
  assert (H13 : same_inodes fs1 fs3).
  { eapply same_inodes_trans; [exact Hadd|].
    apply same_alloc_same_inodes. exact Hw. }
  destruct (same_inodes_same_frame _ _ H13) as (Hsbi3 & Hbad3 & Hlen3).
  destruct (groups_agree_group_at inode_side fs1 fs3 g _ (proj1 H13) Hat1)
    as (grp3 & Hat3 & (L1 & Hlay3' & L3) & Hfi3 & Hud3 & Hbm3).
  cbn [g_desc g_inode_bitmap desc_add_inodes bg_inode_bitmap bg_free_inodes_count
       bg_used_dirs_count bg_block_bitmap bg_inode_table]
    in L1, Hlay3', L3, Hfi3, Hud3, Hbm3.
  pose proof (ext2_free_inode_effect fs3 inoX grp3) as Hfree.
  cbv zeta in Hfree. unfold ino_group, ino_bit in Hfree.
  rewrite HiX, HmX, Hsbi3, Hsbi1 in Hfree.
  fold (ino_group fs (i_ino ino1)) in Hfree.
  fold (ino_bit fs (i_ino ino1)) in Hfree. fold g bit in Hfree.
  rewrite <- Hfs' in Hfree.
  specialize (Hfree ltac:(lia) Hpos Hr Hg ltac:(lia) Hat3).
  rewrite Hbm3 in Hfree.
  specialize (Hfree ltac:(apply Z.setbit_eq; exact Hbit)).
  rewrite Hlay3' in Hfree. unfold sb_bread in Hfree, Hread.
  rewrite Hbad3, Hbad1 in Hfree. specialize (Hfree Hread).
  destruct Hfree as (Hfr' & _ & Hat' & Hother' & Hfi' & Hd' & _).
  rewrite clearbit_setbit in Hat' by assumption.
  destruct H13 as (Hagree & Hfic3 & Hdc3).
  destruct (Hu16 _ _ Hat) as (_ & Hfree_r & Hdirs_r).
  apply same_inodes_intro.
  - destruct Hfr' as (E1 & _). congruence.
  - destruct Hfr' as (_ & E2 & _). congruence.
  - destruct Hfr' as (_ & _ & _ & E4 & _). congruence.
  - intros k x y Hk Hx Hy. destruct (Z.eq_dec k g) as [-> | Hne].
    + rewrite Hat' in Hy. injection Hy as <-.
      assert (x = grp) by congruence. subst x.
      unfold inode_side, same_layout.
      cbn [g_desc g_inode_bitmap desc_add_inodes bg_block_bitmap bg_inode_bitmap
           bg_inode_table bg_free_inodes_count bg_used_dirs_count].
      rewrite Hfi3, Hud3, !u16_u16_add.
      repeat split; try assumption.
      * replace (bg_free_inodes_count (g_desc grp) + -1 + 1)
          with (bg_free_inodes_count (g_desc grp)) by lia.
        apply u16_small. exact Hfree_r.
      * destruct (S_ISDIR mode).
        -- replace (bg_used_dirs_count (g_desc grp) + 1 + -1)
             with (bg_used_dirs_count (g_desc grp)) by lia.
           apply u16_small. exact Hdirs_r.
        -- rewrite !Z.add_0_r. apply u16_small. exact Hdirs_r.
    + rewrite Hother' in Hy by lia.
      rewrite <- (Hother1 k Hk Hne) in Hx.
      destruct (groups_agree_group_at inode_side fs1 fs3 k x Hagree Hx)
        as (y' & Hy' & Hside).
      assert (y' = y) by congruence. subst y'. exact Hside.
  - rewrite Hfi', Hfic3, Hfi1. lia.
  - rewrite Hd', Hdc3, Hd1. destruct (S_ISDIR mode); lia.
Qed.

Lemma ext2_create_failure_frees_inode_witness :
  match ext2_create false sample_fs sample_root [46] S_IFREG 7 with
  | (Err _, fs', _, Some ino') => same_inodes sample_fs fs' /\ i_nlink ino' = 0
  | _ => False
  end.
Proof.
  destruct (ext2_create false sample_fs sample_root [46] S_IFREG 7)
    as [[[[[] | e] fs'] dir'] [ino' |]] eqn:E;
    try (vm_compute in E; discriminate).
  apply (ext2_create_failure_frees_inode false sample_fs sample_root [46]
           S_IFREG 7 e fs' dir' ino').
  - compute_done.
  - compute_done.
  - exact sample_fs_desc_counts_u16.
  - exact E.
Defined.

(** *** A name that [ext2_add_link] has entered is found again *)

Lemma EXT2_DIR_REC_LEN_div n :
  0 <= n -> EXT2_DIR_REC_LEN n = 4 * ((n + 11) / 4).
Proof.
  intros Hn. unfold EXT2_DIR_REC_LEN.
  replace (n + 8 + 3) with (n + 11) by lia.
  transitivity (Z.shiftl (Z.shiftr (n + 11) 2) 2).
  - apply Z.bits_inj'. intros i Hi.
    rewrite Z.land_spec, Z.lnot_spec by exact Hi.
    destruct (Z.lt_ge_cases i 2).
    + rewrite Z.shiftl_spec_low by exact H.
      assert (E : i = 0 \/ i = 1) by lia.
      destruct E as [-> | ->]; cbn; apply andb_false_r.
    + rewrite Z.shiftl_spec_high by lia. rewrite Z.shiftr_spec by lia.
      replace (i - 2 + 2) with i by lia.
      rewrite (Z.bits_above_log2 3 i) by (cbn; lia).
      apply andb_true_r.
  - rewrite Z.shiftl_mul_pow2, Z.shiftr_div_pow2 by lia.
    change (2 ^ 2) with 4. lia.
Qed.

Lemma EXT2_DIR_REC_LEN_bounds n :
  0 <= n -> n + 8 <= EXT2_DIR_REC_LEN n <= n + 11.
Proof.
  intros Hn. rewrite EXT2_DIR_REC_LEN_div by exact Hn.
  Z.div_mod_to_equations. lia.
Qed.

Lemma write_bytes_lookup_ge d off bs k :
  (off + length bs <= k)%nat -> write_bytes d off bs !! k = d !! k.
Proof.
  revert d off. induction bs as [|b bs IH]; intros d off Hk; simpl in *.
  - reflexivity.
  - rewrite IH by lia. apply list_lookup_insert_ne. lia.
Qed.

Lemma put_bytes_length d off bs : length (put_bytes d off bs) = length d.
Proof.
  unfold put_bytes. destruct (off <? 0); [reflexivity|].
  apply write_bytes_length.
Qed.

Lemma byte_at_put_bytes_out d off bs k :
  k < off \/ off + Z.of_nat (length bs) <= k ->
  byte_at (put_bytes d off bs) k = byte_at d k.
Proof.
  intros Hk. unfold put_bytes. destruct (Z.ltb_spec off 0); [reflexivity|].
  unfold byte_at. destruct (Z.ltb_spec k 0); [reflexivity|].
  destruct Hk.
  - rewrite write_bytes_lookup_lt by lia. reflexivity.
  - rewrite write_bytes_lookup_ge by lia. reflexivity.
Qed.

Lemma byte_at_put_bytes_in d off bs k b :
  0 <= off -> off + Z.of_nat (length bs) <= Z.of_nat (length d) ->
  bs !! k = Some b ->
  byte_at (put_bytes d off bs) (off + Z.of_nat k) = u8 b.
Proof.
  intros Hoff Hlen Hk. unfold put_bytes.
  destruct (Z.ltb_spec off 0); [lia|].
  unfold byte_at. destruct (Z.ltb_spec (off + Z.of_nat k) 0); [lia|].
  replace (Z.to_nat (off + Z.of_nat k)) with (Z.to_nat off + k)%nat by lia.
  rewrite (write_bytes_lookup_in d (Z.to_nat off) bs k b) by (try assumption; lia).
  reflexivity.
Qed.

(** The stores of [ext2_add_link] into the record it has chosen: name
    length, name, inode number and file type. *)
Definition set_entry (d : list Z) (de : Z) (name : list Z) (child : Z)
  : list Z :=
  put_u8
    (put_le32
       (put_bytes (put_u8 d (de + 6) (Z.of_nat (length name))) (de + 8)
          (map u8 name))
       de (u32 child))
    (de + 7) 0.


Lemma byte_at_put_bytes_at d off bs k j b :
  0 <= off -> off + Z.of_nat (length bs) <= Z.of_nat (length d) ->
  bs !! k = Some b -> j = off + Z.of_nat k ->
  byte_at (put_bytes d off bs) j = u8 b.
Proof. intros H1 H2 H3 ->. apply byte_at_put_bytes_in; assumption. Qed.

Ltac put_side := first [lia | reflexivity | cbn [length]; lia].

Lemma byte_at_put_u8 d off v k :
  0 <= off < Z.of_nat (length d) ->
  byte_at (put_u8 d off v) k = if k =? off then u8 v else byte_at d k.
Proof.
  intros Hoff. unfold put_u8. destruct (Z.eqb_spec k off) as [-> | Hne].
  - rewrite (byte_at_put_bytes_at d off [u8 v] 0 off (u8 v)) by put_side.
    unfold u8. apply Z.mod_mod. lia.
  - apply byte_at_put_bytes_out. cbn [length]. lia.
Qed.

Lemma le16_at_put_le16 d off v :
  0 <= off -> off + 2 <= Z.of_nat (length d) -> 0 <= v < 2 ^ 16 ->
  le16_at (put_le16 d off v) off = v.
Proof.
  intros Hoff Hlen Hv. unfold le16_at, put_le16.
  rewrite (byte_at_put_bytes_at d off _ 0 off (u8 v)) by put_side.
  rewrite (byte_at_put_bytes_at d off _ 1 (off + 1) (u8 (v / 256))) by put_side.
  unfold u8. change (2 ^ 8) with 256. rewrite !Z.mod_mod by lia.
  Z.div_mod_to_equations. lia.
Qed.

Lemma byte_at_put_le16_out d off v k :
  k < off \/ off + 2 <= k -> byte_at (put_le16 d off v) k = byte_at d k.
Proof. intros H. apply byte_at_put_bytes_out. cbn [length]. lia. Qed.

Lemma put_le16_length d off v : length (put_le16 d off v) = length d.
Proof. apply put_bytes_length. Qed.

Lemma le32_at_put_le32 d off v :
  0 <= off -> off + 4 <= Z.of_nat (length d) -> 0 <= v < 2 ^ 32 ->
  le32_at (put_le32 d off v) off = v.
Proof.
  intros Hoff Hlen Hv. unfold le32_at, put_le32.
  rewrite (byte_at_put_bytes_at d off _ 0 off (u8 v)) by put_side.
  rewrite (byte_at_put_bytes_at d off _ 1 (off + 1) (u8 (v / 256))) by put_side.
  rewrite (byte_at_put_bytes_at d off _ 2 (off + 2) (u8 (v / 65536)))
    by put_side.
  rewrite (byte_at_put_bytes_at d off _ 3 (off + 3) (u8 (v / 16777216)))
    by put_side.
  apply le32_of_bytes. exact Hv.
Qed.

Lemma byte_at_put_le32_out d off v k :
  k < off \/ off + 4 <= k -> byte_at (put_le32 d off v) k = byte_at d k.
Proof. intros H. apply byte_at_put_bytes_out. cbn [length]. lia. Qed.

Lemma put_le32_length d off v : length (put_le32 d off v) = length d.
Proof. apply put_bytes_length. Qed.

Lemma put_u8_length d off v : length (put_u8 d off v) = length d.
Proof. apply put_bytes_length. Qed.

Ltac put_len :=
  repeat first [rewrite put_le32_length | rewrite put_le16_length
               | rewrite put_u8_length | rewrite put_bytes_length].

Lemma u32_range x : 0 <= u32 x < 2 ^ 32.
Proof. unfold u32. apply Z.mod_pos_bound. lia. Qed.

Lemma set_entry_length d de name child :
  length (set_entry d de name child) = length d.
Proof. unfold set_entry, put_u8, put_le32. rewrite !put_bytes_length. reflexivity. Qed.

(** What the stores leave alone: all before the record, its length field
    and all after its name. *)
Lemma set_entry_out d de name child k :
  0 <= de ->
  k < de \/ k = de + 4 \/ k = de + 5 \/ de + 8 + Z.of_nat (length name) <= k ->
  byte_at (set_entry d de name child) k = byte_at d k.
Proof.
  intros Hde Hk. unfold set_entry, put_u8, put_le32.
  rewrite !byte_at_put_bytes_out; cbn [length]; rewrite ?length_map; try lia;
    reflexivity.
Qed.

Lemma set_entry_fields d de name child :
  0 <= de -> de + 8 + Z.of_nat (length name) <= Z.of_nat (length d) ->
  Z.of_nat (length name) <= 255 ->
  de_inode (set_entry d de name child) de = u32 child
  /\ de_name_len (set_entry d de name child) de = Z.of_nat (length name)
  /\ forall k c, name !! k = Some c ->
       de_name_byte (set_entry d de name child) de (Z.of_nat k) = u8 c.
Proof.
  intros Hde Hlen Hname. unfold set_entry. split; [|split].
  - unfold de_inode, le32_at.
    rewrite !(byte_at_put_u8 _ (de + 7))
      by (put_len; lia).
    destruct (Z.eqb_spec de (de + 7)); [lia|].
    destruct (Z.eqb_spec (de + 1) (de + 7)); [lia|].
    destruct (Z.eqb_spec (de + 2) (de + 7)); [lia|].
    destruct (Z.eqb_spec (de + 3) (de + 7)); [lia|].
    apply (le32_at_put_le32 _ de (u32 child)); [lia | | apply u32_range].
    put_len. lia.
  - unfold de_name_len.
    rewrite byte_at_put_u8
      by (put_len; lia).
    destruct (Z.eqb_spec (de + 6) (de + 7)); [lia|].
    rewrite byte_at_put_le32_out by lia.
    rewrite byte_at_put_bytes_out by lia.
    rewrite byte_at_put_u8 by lia. rewrite Z.eqb_refl.
    unfold u8. apply Z.mod_small. change (2 ^ 8) with 256. lia.
  - intros k c Hk. unfold de_name_byte.
    pose proof (lookup_lt_Some _ _ _ Hk) as Hlt.
    rewrite byte_at_put_u8
      by (put_len; lia).
    destruct (Z.eqb_spec (de + 8 + Z.of_nat k) (de + 7)); [lia|].
    rewrite byte_at_put_le32_out by lia.
    rewrite (byte_at_put_bytes_in _ (de + 8) (map u8 name) k (u8 c)).
    + unfold u8. apply Z.mod_mod. lia.
    + lia.
    + rewrite length_map. put_len. lia.
    + rewrite list_lookup_fmap, Hk. reflexivity.
Qed.

(** The walk of [ext2_find_entry] over a page goes from [de] on to [de']:
    every record between has a sound length and carries another name. *)
Inductive walked (d name : list Z) : Z -> Z -> Prop :=
  | walked_here de : walked d name de de
  | walked_step de de' :
      0 <= de ->
      12 <= de_rec_len d de ->
      EXT2_DIR_REC_LEN (de_name_len d de) <= de_rec_len d de ->
      ext2_match name d de = false ->
      walked d name (de + de_rec_len d de) de' ->
      walked d name de de'.

(** The records of a valid page, from [offs] to the end of the directory
    in the page; none of them crosses the end of a chunk of [cs] bytes. *)
Inductive chain (d : list Z) (cs limit : Z) : Z -> Prop :=
  | chain_end : chain d cs limit limit
  | chain_step offs :
      0 <= offs <= limit - 12 ->
      12 <= de_rec_len d offs ->
      EXT2_DIR_REC_LEN (de_name_len d offs) <= de_rec_len d offs ->
      (offs + de_rec_len d offs - 1) / cs = offs / cs ->
      chain d cs limit (offs + de_rec_len d offs) ->
      chain d cs limit offs.

Lemma walked_le d name a b : walked d name a b -> a <= b.
Proof. induction 1; lia. Qed.

Lemma chain_le d cs limit a : chain d cs limit a -> a <= limit.
Proof. induction 1; lia. Qed.

Lemma walked_trans d name a b c :
  walked d name a b -> walked d name b c -> walked d name a c.
Proof.
  induction 1 as [|a b H0 H1 H2 H3 _ IH]; intros Hbc; [exact Hbc|].
  apply walked_step; try assumption. apply IH. exact Hbc.
Qed.

Lemma walked_snoc d name a b :
  walked d name a b -> 0 <= b ->
  12 <= de_rec_len d b ->
  EXT2_DIR_REC_LEN (de_name_len d b) <= de_rec_len d b ->
  ext2_match name d b = false ->
  walked d name a (b + de_rec_len d b).
Proof.
  intros Hw H0 H1 H2 H3. apply (walked_trans _ _ _ b); [exact Hw|].
  apply walked_step; try assumption. apply walked_here.
Qed.

Lemma de_name_len_range d de : 0 <= de_name_len d de < 256.
Proof. apply byte_at_nonneg. Qed.

Lemma name_eq_agree d d' de name :
  forall k0,
    (forall k, de + 8 + k0 <= k < de + 8 + k0 + Z.of_nat (length name) ->
               byte_at d' k = byte_at d k) ->
    name_eq d' de name k0 = name_eq d de name k0.
Proof.
  induction name as [|c name IH]; intros k0 H; [reflexivity|].
  cbn [name_eq]. cbn [length] in H.
  assert (E : de_name_byte d' de k0 = de_name_byte d de k0)
    by (unfold de_name_byte; apply H; lia).
  rewrite E. f_equal. apply IH. intros k Hk. apply H. lia.
Qed.

(** [ext2_match] reads the inode number, the name length and, where the
    length is that of the name, the name. *)
Lemma ext2_match_agree d d' de name :
  (forall k, de <= k < de + 4 \/ k = de + 6
             \/ de + 8 <= k < de + 8 + de_name_len d de ->
             byte_at d' k = byte_at d k) ->
  ext2_match name d' de = ext2_match name d de.
Proof.
  intros H. unfold ext2_match.
  assert (Hl : de_name_len d' de = de_name_len d de)
    by (unfold de_name_len; apply H; lia).
  assert (Hi : de_inode d' de = de_inode d de).
  { unfold de_inode, le32_at. rewrite !H by lia. reflexivity. }
  rewrite Hl, Hi.
  destruct (Z.eqb_spec (Z.of_nat (length name)) (de_name_len d de)) as [E|];
    [|reflexivity].
  cbn [negb]. destruct (de_inode d de =? 0); [reflexivity|].
  apply name_eq_agree. intros k Hk. apply H. lia.
Qed.

Lemma de_rec_len_agree d d' de :
  byte_at d' (de + 4) = byte_at d (de + 4) ->
  byte_at d' (de + 5) = byte_at d (de + 5) ->
  de_rec_len d' de = de_rec_len d de.
Proof.
  intros H4 H5. unfold de_rec_len, le16_at.
  replace (de + 4 + 1) with (de + 5) by lia. rewrite H4, H5. reflexivity.
Qed.

Lemma de_name_len_agree d d' de :
  byte_at d' (de + 6) = byte_at d (de + 6) ->
  de_name_len d' de = de_name_len d de.
Proof. intros H. exact H. Qed.

(** A walk reads the bytes of the records it passes only. *)
Lemma walked_agree d d' name a b :
  walked d name a b ->
  (forall k, a <= k < b -> byte_at d' k = byte_at d k) ->
  walked d' name a b.
Proof.
  induction 1 as [|a b H0 H1 H2 H3 Hw IH]; intros H; [apply walked_here|].
  pose proof (walked_le _ _ _ _ Hw) as Hle.
  pose proof (de_name_len_range d a) as Hnl.
  pose proof (EXT2_DIR_REC_LEN_bounds (de_name_len d a) ltac:(lia)) as Hrl.
  assert (Er : de_rec_len d' a = de_rec_len d a)
    by (apply de_rec_len_agree; apply H; lia).
  assert (En : de_name_len d' a = de_name_len d a)
    by (apply de_name_len_agree; apply H; lia).
  apply walked_step.
  - exact H0.
  - rewrite Er. exact H1.
  - rewrite Er, En. exact H2.
  - rewrite (ext2_match_agree d d') by (intros k Hk; apply H; lia). exact H3.
  - rewrite Er. apply IH. intros k Hk. apply H. lia.
Qed.

(** [ext2_find_entry] follows a walk, with fuel to spare. *)
Lemma find_entry_page_walked d name limit a b :
  walked d name a b -> b <= limit + 12 ->
  forall fuel, b - a < Z.of_nat fuel ->
    exists fuel',
      Z.of_nat fuel <= Z.of_nat fuel' + (b - a)
      /\ find_entry_page fuel d name limit a
         = find_entry_page fuel' d name limit b.
Proof.
  induction 1 as [a | a b H0 H1 H2 H3 Hw IH]; intros Hb fuel Hfuel.
  - exists fuel. split; [lia | reflexivity].
  - pose proof (walked_le _ _ _ _ Hw) as Hle.
    destruct (IH Hb (Nat.pred fuel)) as (fuel' & K1 & K2); [lia|].
    exists fuel'. split; [lia|].
    rewrite find_entry_page_skip; [exact K2 | lia | lia | lia | exact H3].
Qed.

Lemma find_entry_page_walked_found d name limit de fuel :
  walked d name 0 de -> de <= limit -> de < Z.of_nat fuel ->
  de_rec_len d de <> 0 -> ext2_match name d de = true ->
  find_entry_page fuel d name limit 0 = Found de.
Proof.
  intros Hw Hl Hf Hr Hm.
  destruct (find_entry_page_walked d name limit 0 de Hw ltac:(lia) fuel)
    as (fuel' & K1 & K2); [lia|].
  rewrite K2. apply find_entry_page_here; try assumption. lia.
Qed.

Lemma find_entry_page_walked_end d name limit fuel :
  walked d name 0 (limit + 12) -> limit + 12 < Z.of_nat fuel ->
  find_entry_page fuel d name limit 0 = NotInPage.
Proof.
  intros Hw Hf.
  destruct (find_entry_page_walked d name limit 0 (limit + 12) Hw ltac:(lia)
              fuel) as (fuel' & K1 & K2); [lia|].
  rewrite K2. destruct fuel' as [|k]; [reflexivity|].
  cbn [find_entry_page]. destruct (Z.leb_spec (limit + 12) limit); [lia|].
  reflexivity.
Qed.

(** Past the last offset where the new record would fit no record is long
    enough to carry the name. *)
Lemma chain_tail d name cs limit a :
  chain d cs limit a -> limit <= 4096 -> 0 <= a ->
  4096 - EXT2_DIR_REC_LEN (Z.of_nat (length name)) < a ->
  walked d name a limit.
Proof.
  induction 1 as [|a H0 H1 H2 H3 Hc IH]; intros Hl Ha Hk; [apply walked_here|].
  pose proof (chain_le _ _ _ _ Hc) as Hle.
  apply walked_step; try assumption; [|apply IH; lia].
  unfold ext2_match.
  destruct (Z.eqb_spec (Z.of_nat (length name)) (de_name_len d a)) as [E|];
    [|reflexivity].
  rewrite E in Hk. lia.
Qed.

(** Two offsets that agree above the bits of the chunk size are in the
    same chunk. *)
Lemma bits_above x n i : 0 <= x < 2 ^ n -> n <= i -> Z.testbit x i = false.
Proof.
  intros Hx Hi. destruct (Z.eq_dec x 0) as [-> | Hne]; [apply Z.bits_0|].
  apply Z.bits_above_log2; [lia|].
  assert (0 <= n) by (destruct (Z.lt_ge_cases n 0); [|assumption];
                      rewrite Z.pow_neg_r in Hx; lia).
  assert (Z.log2 x < n) by (apply Z.log2_lt_pow2; lia). lia.
Qed.

Lemma chunk_mask_bit k i :
  0 <= k -> 0 <= i < 32 ->
  Z.testbit (u32 (Z.lnot (2 ^ k - 1))) i = (k <=? i).
Proof.
  intros Hk Hi. unfold u32. rewrite Z.mod_pow2_bits_low by lia.
  rewrite Z.lnot_spec by lia. change (2 ^ k - 1) with (Z.pred (2 ^ k)).
  rewrite <- Z.ones_equiv.
  destruct (Z.leb_spec k i).
  - rewrite Z.ones_spec_high by lia. reflexivity.
  - rewrite Z.ones_spec_low by lia. reflexivity.
Qed.

Lemma same_chunk_bits a b k :
  0 <= a < 2 ^ 32 -> 0 <= b < 2 ^ 32 -> 0 <= k ->
  Z.land (Z.lxor a b) (u32 (Z.lnot (2 ^ k - 1))) = 0 ->
  a / 2 ^ k = b / 2 ^ k.
Proof.
  intros Ha Hb Hk H. rewrite <- !Z.shiftr_div_pow2 by lia.
  apply Z.bits_inj'. intros i Hi. rewrite !Z.shiftr_spec by lia.
  destruct (Z.lt_ge_cases (i + k) 32).
  - apply (f_equal (fun x => Z.testbit x (i + k))) in H.
    rewrite Z.land_spec, Z.lxor_spec, chunk_mask_bit, Z.bits_0 in H by lia.
    destruct (Z.leb_spec k (i + k)); [|lia].
    rewrite andb_true_r in H. apply xorb_eq in H. exact H.
  - rewrite (bits_above a 32), (bits_above b 32) by lia. reflexivity.
Qed.

Lemma chunk_start_bits a k :
  0 <= a < 2 ^ 32 -> 0 <= k ->
  Z.land a (u32 (Z.lnot (2 ^ k - 1))) = 2 ^ k * (a / 2 ^ k).
Proof.
  intros Ha Hk. rewrite <- Z.shiftr_div_pow2 by lia.
  rewrite Z.mul_comm, <- Z.shiftl_mul_pow2 by lia.
  apply Z.bits_inj'. intros i Hi. rewrite Z.land_spec.
  destruct (Z.lt_ge_cases i k).
  - rewrite Z.shiftl_spec_low by lia.
    destruct (Z.lt_ge_cases i 32).
    + rewrite chunk_mask_bit by lia. destruct (Z.leb_spec k i); [lia|].
      apply andb_false_r.
    + rewrite (bits_above a 32) by lia. reflexivity.
  - rewrite Z.shiftl_spec_high by lia. rewrite Z.shiftr_spec by lia.
    replace (i - k + k) with i by lia.
    destruct (Z.lt_ge_cases i 32).
    + rewrite chunk_mask_bit by lia. destruct (Z.leb_spec k i); [|lia].
      apply andb_true_r.
    + rewrite (bits_above a 32) by lia. reflexivity.
Qed.

(** A page that passes [ext2_check_folio] is a chain of records. *)
Lemma check_records_chain d k mx limit :
  0 <= k -> 12 <= limit <= 4096 ->
  forall fuel offs, 0 <= offs ->
    check_records fuel d (2 ^ k) mx limit offs = CheckEnd limit ->
    chain d (2 ^ k) limit offs.
Proof.
  intros Hk Hl. assert (Hu : u32 (limit - 12) = limit - 12)
    by (unfold u32; apply Z.mod_small; lia).
  induction fuel as [|fuel IH]; intros offs Ho; cbn [check_records].
  - intros [= ->]. apply chain_end.
  - change (EXT2_DIR_REC_LEN 1) with 12. rewrite Hu.
    destruct (Z.leb_spec offs (limit - 12)); [|intros [= ->]; apply chain_end].
    destruct (Z.ltb_spec (de_rec_len d offs) 12); [discriminate|].
    destruct (negb _); [discriminate|].
    destruct (Z.ltb_spec (de_rec_len d offs)
                (EXT2_DIR_REC_LEN (de_name_len d offs))); [discriminate|].
    assert (Hr : de_rec_len d offs < 65536).
    { unfold de_rec_len, le16_at.
      pose proof (byte_at_nonneg d (offs + 4)).
      pose proof (byte_at_nonneg d (offs + 4 + 1)). lia. }
    rewrite (Z.mod_small (offs + de_rec_len d offs - 1) (2 ^ 32) ltac:(lia)
             : u32 (offs + de_rec_len d offs - 1)
               = offs + de_rec_len d offs - 1).
    destruct (Z.eqb_spec
                (Z.land (Z.lxor (offs + de_rec_len d offs - 1) offs)
                   (u32 (Z.lnot (2 ^ k - 1)))) 0) as [Hx |]; [|discriminate].
    cbn [negb]. apply same_chunk_bits in Hx; try lia.
    destruct (mx <? _); [discriminate|].
    rewrite (Z.mod_small (offs + de_rec_len d offs) (2 ^ 32) ltac:(lia)
             : u32 (offs + de_rec_len d offs) = offs + de_rec_len d offs).
    intros H'. apply chain_step; try assumption; [lia|].
    apply IH; [lia | exact H'].
Qed.

(** What the record loop of [ext2_add_link] returns on a valid page: it has
    walked to the record it hands out, which is the end of the directory or
    a record with room; where it gives the page up, the page is full and
    the walk has come to its end. *)
Lemma add_link_scan_chain d name cs limit :
  let reclen := EXT2_DIR_REC_LEN (Z.of_nat (length name)) in
  12 <= reclen -> limit <= 4096 ->
  limit <= 4096 - reclen \/ limit = 4096 ->
  forall de0, chain d cs limit de0 -> walked d name 0 de0 ->
  forall fuel, limit - de0 < Z.of_nat fuel ->
    match add_link_scan fuel d name cs reclen (4096 - reclen) limit de0 with
    | NextPage => limit = 4096 /\ walked d name 0 4096
    | GotIt d1 de nl rl =>
        walked d name 0 de /\ 0 <= de <= 4096 - reclen
        /\ ((de = limit /\ d1 = put_le32 (put_le16 d (de + 4) cs) de 0
             /\ nl = 0 /\ rl = u16 cs)
            \/ (d1 = d /\ nl = u16 (EXT2_DIR_REC_LEN (de_name_len d de))
                /\ rl = de_rec_len d de /\ 12 <= rl
                /\ EXT2_DIR_REC_LEN (de_name_len d de) <= rl
                /\ de + rl <= limit
                /\ ext2_match name d de = false
                /\ ((de_inode d de = 0 /\ reclen <= rl)
                    \/ nl + reclen <= rl)))
    | _ => True
    end.
Proof.
  intros reclen Hrec Hl Hlk de0 Hc.
  induction Hc as [|de0 H0 H1 H2 H3 Hc IH]; intros Hw fuel Hfuel.
  - destruct fuel as [|k]; [lia|]. cbn [add_link_scan].
    pose proof (walked_le _ _ _ _ Hw) as H0.
    destruct (Z.leb_spec limit (4096 - reclen)).
    + rewrite Z.eqb_refl. split; [exact Hw|]. split; [lia|]. left. tauto.
    + destruct Hlk as [? | ->]; [lia|]. split; [reflexivity | exact Hw].
  - destruct fuel as [|k]; [lia|]. cbn [add_link_scan].
    pose proof (chain_le _ _ _ _ Hc) as Hle.
    destruct (Z.leb_spec de0 (4096 - reclen)).
    + destruct (Z.eqb_spec de0 limit); [lia|].
      destruct (Z.eqb_spec (de_rec_len d de0) 0); [lia|].
      destruct (ext2_match name d de0) eqn:Hm; [exact I|].
      destruct ((de_inode d de0 =? 0) && (reclen <=? de_rec_len d de0)) eqn:Hs.
      { apply andb_true_iff in Hs. destruct Hs as (Hs1 & Hs2).
        apply Z.eqb_eq in Hs1. apply Z.leb_le in Hs2.
        split; [exact Hw|]. split; [lia|]. right.
        repeat split; try assumption. left. split; assumption. }
      destruct (Z.leb_spec
                  (u16 (EXT2_DIR_REC_LEN (de_name_len d de0)) + reclen)
                  (de_rec_len d de0)).
      { split; [exact Hw|]. split; [lia|]. right.
        repeat split; try assumption. right. assumption. }
      apply IH; [|lia].
      apply walked_snoc; try assumption. lia.
    + assert (limit = 4096) by lia. subst limit. split; [reflexivity|].
      apply (walked_trans _ _ _ de0); [exact Hw|].
      apply (chain_tail d name cs 4096 de0); [|lia|lia|exact H].
      apply chain_step; assumption.
Qed.

(** The page and the record that the part of [ext2_add_link] after
    [got_it] writes. *)
Definition got_it_page (d : list Z) (de name_len rec_len : Z)
    (name : list Z) (child_ino : Z) : list Z * Z :=
  let '(d, de) :=
    if negb (de_inode d de =? 0) then
      let de1 := de + name_len in
      let d := put_le16 d (de1 + 4) (u16 (rec_len - name_len)) in
      let d := put_le16 d (de + 4) name_len in
      (d, de1)
    else (d, de) in
  (set_entry d de name child_ino, de).

Lemma add_link_got_it_page be fs dir n name child d de nl rl :
  add_link_got_it be fs dir n name child d de nl rl
  = match ext2_prepare_chunk be fs
            (store_folio dir n {| f_data := d; f_checked := true |})
            (n * PAGE_SIZE + de) rl with
    | (Err e, fs, dir) => (Err e, fs, dir)
    | (Ok _, fs, dir) =>
        sync_inode_metadata be fs
          (ext2_commit_chunk
             (store_folio dir n
                {| f_data := fst (got_it_page d de nl rl name child);
                   f_checked := true |})
             (n * PAGE_SIZE + de) rl)
    end.
Proof.
  unfold add_link_got_it, got_it_page, set_entry.
  destruct (ext2_prepare_chunk _ _ _ _ _) as [[[[]|e] fs1] dir1]; [|reflexivity].
  destruct (negb (de_inode d de =? 0)); reflexivity.
Qed.

Lemma u16_small_id x : 0 <= x < 65536 -> u16 x = x.
Proof. intros H. unfold u16. apply Z.mod_small. lia. Qed.

(** A record written by [set_entry] carries the name. *)
Lemma set_entry_match d de name child :
  0 <= de -> de + 8 + Z.of_nat (length name) <= Z.of_nat (length d) ->
  Z.of_nat (length name) <= 255 -> u32 child <> 0 ->
  ext2_match name (set_entry d de name child) de = true.
Proof.
  intros Hde Hlen Hname Hchild.
  destruct (set_entry_fields d de name child Hde Hlen Hname) as (Hi & Hl & Hn).
  apply ext2_match_live. split; [congruence|]. split; assumption.
Qed.

(** The record that [ext2_add_link] writes is reached by the walk of
    [ext2_find_entry] over the new page, carries the name and holds the
    inode number. *)
Lemma got_it_page_found d name child cs limit de d1 nl rl :
  let reclen := EXT2_DIR_REC_LEN (Z.of_nat (length name)) in
  length d = 4096%nat -> 0 < Z.of_nat (length name) <= 255 ->
  u32 child <> 0 -> 12 <= cs < 65536 -> limit <= 4096 ->
  walked d name 0 de -> 0 <= de <= 4096 - reclen ->
  (de = limit /\ d1 = put_le32 (put_le16 d (de + 4) cs) de 0
   /\ nl = 0 /\ rl = u16 cs)
  \/ (d1 = d /\ nl = u16 (EXT2_DIR_REC_LEN (de_name_len d de))
      /\ rl = de_rec_len d de /\ 12 <= rl
      /\ EXT2_DIR_REC_LEN (de_name_len d de) <= rl
      /\ de + rl <= limit
      /\ ext2_match name d de = false
      /\ ((de_inode d de = 0 /\ reclen <= rl) \/ nl + reclen <= rl)) ->
  let d' := fst (got_it_page d1 de nl rl name child) in
  let de' := snd (got_it_page d1 de nl rl name child) in
  length d' = 4096%nat
  /\ (forall limit' fuel, de' <= limit' -> de' < Z.of_nat fuel ->
        find_entry_page fuel d' name limit' 0 = Found de')
  /\ de_inode d' de' = u32 child
  /\ 0 <= de' /\ de' + 12 <= de + rl /\ de' + 12 <= 4096.
Proof.
  intros reclen Hlen Hname Hchild Hcs Hl Hw Hde Hcase.
  pose proof (EXT2_DIR_REC_LEN_bounds (Z.of_nat (length name)) ltac:(lia))
    as Hrec. fold reclen in Hrec.
  assert (Hrec12 : 12 <= reclen).
  { subst reclen. rewrite EXT2_DIR_REC_LEN_div by lia.
    Z.div_mod_to_equations. lia. }
  destruct Hcase as [(-> & -> & -> & ->)
                    | (-> & -> & -> & Hrl & Hnl & Hend & Hm & Hslot)].
  - (* a new chunk at the end of the directory *)
    set (d1 := put_le32 (put_le16 d (limit + 4) cs) limit 0).
    assert (Hlen1 : length d1 = 4096%nat)
      by (subst d1; put_len; exact Hlen).
    assert (Hino1 : de_inode d1 limit = 0).
    { subst d1. unfold de_inode. apply le32_at_put_le32; [lia | | lia].
      put_len. lia. }
    unfold got_it_page. rewrite Hino1. cbn [Z.eqb negb fst snd].
    rewrite set_entry_length.
    assert (Hr : de_rec_len (set_entry d1 limit name child) limit = cs).
    { rewrite (de_rec_len_agree d1) by (apply set_entry_out; lia).
      subst d1. rewrite (de_rec_len_agree (put_le16 d (limit + 4) cs))
        by (apply byte_at_put_le32_out; lia).
      unfold de_rec_len. apply le16_at_put_le16; lia. }
    split; [exact Hlen1|]. split.
    { intros limit' fuel Hl' Hf. apply find_entry_page_walked_found;
        [|lia|lia|lia|apply set_entry_match; lia].
      apply (walked_agree d); [exact Hw|]. intros k Hk.
      rewrite set_entry_out by lia. subst d1.
      rewrite byte_at_put_le32_out, byte_at_put_le16_out by lia. reflexivity. }
    split.
    { apply set_entry_fields; lia. }
    rewrite u16_small_id by lia. split; [lia|]. split; lia.
  - pose proof (de_name_len_range d de) as Hnlr.
    pose proof (EXT2_DIR_REC_LEN_bounds (de_name_len d de) ltac:(lia)) as Hnb.
    rewrite (u16_small_id (EXT2_DIR_REC_LEN (de_name_len d de))) in * by lia.
    assert (Hrl16 : de_rec_len d de < 65536).
    { unfold de_rec_len, le16_at.
      pose proof (byte_at_nonneg d (de + 4)).
      pose proof (byte_at_nonneg d (de + 4 + 1)). lia. }
    unfold got_it_page.
    destruct (Z.eqb_spec (de_inode d de) 0) as [Hz | Hnz]; cbn [negb fst snd].
    + (* an unused record that is long enough *)
      assert (Hfit : reclen <= de_rec_len d de).
      { destruct Hslot as [[_ ?] | ?]; lia. }
      rewrite set_entry_length. split; [exact Hlen|]. split.
      { intros limit' fuel Hl' Hf. apply find_entry_page_walked_found;
          [|lia|lia| |apply set_entry_match; lia].
        - apply (walked_agree d); [exact Hw|]. intros k Hk.
          apply set_entry_out; lia.
        - rewrite (de_rec_len_agree d) by (apply set_entry_out; lia). lia. }
      split; [apply set_entry_fields; lia|].
      split; [lia|]. split; lia.
    + (* the room after a record in use *)
      assert (Hfit : EXT2_DIR_REC_LEN (de_name_len d de) + reclen
                     <= de_rec_len d de).
      { destruct Hslot as [[? _] | ?]; [contradiction | assumption]. }
      set (nl := EXT2_DIR_REC_LEN (de_name_len d de)) in *.
      set (rl := de_rec_len d de) in *.
      set (d2 := put_le16 (put_le16 d (de + nl + 4) (u16 (rl - nl)))
                   (de + 4) nl).
      assert (Hlen2 : length d2 = 4096%nat) by (subst d2; put_len; exact Hlen).
      assert (Hout2 : forall k,
                 ~ (de + 4 <= k < de + 6) ->
                 ~ (de + nl + 4 <= k < de + nl + 6) ->
                 byte_at d2 k = byte_at d k).
      { intros k K1 K2. subst d2.
        rewrite !byte_at_put_le16_out by lia. reflexivity. }
      assert (Hr2 : de_rec_len d2 de = nl).
      { subst d2. unfold de_rec_len. apply le16_at_put_le16; [lia | | lia].
        put_len. lia. }
      assert (Hr2' : de_rec_len d2 (de + nl) = rl - nl).
      { subst d2.
        rewrite (de_rec_len_agree (put_le16 d (de + nl + 4) (u16 (rl - nl))))
          by (apply byte_at_put_le16_out; lia).
        unfold de_rec_len. rewrite le16_at_put_le16; try lia.
        - apply u16_small_id. lia.
        - rewrite u16_small_id by lia. lia. }
      rewrite set_entry_length. split; [exact Hlen2|].
      split.
      { intros limit' fuel Hl' Hf.
        set (d3 := set_entry d2 (de + nl) name child).
        assert (Hw3 : walked d3 name 0 de).
        { apply (walked_agree d); [exact Hw|]. intros k Hk. subst d3.
          rewrite set_entry_out by lia. apply Hout2; lia. }
        assert (Hr3 : de_rec_len d3 de = nl).
        { subst d3. rewrite (de_rec_len_agree d2) by (apply set_entry_out; lia).
          exact Hr2. }
        destruct (find_entry_page_walked d3 name limit' 0 de Hw3 ltac:(lia)
                    fuel) as (fuel' & K1 & K2); [lia|].
        rewrite K2.
        rewrite find_entry_page_skip; [|lia|lia|lia|].
        - rewrite Hr3. apply find_entry_page_here; [lia|lia| |].
          + subst d3.
            rewrite (de_rec_len_agree d2) by (apply set_entry_out; lia). lia.
          + apply set_entry_match; lia.
        - rewrite (ext2_match_agree d d3); [exact Hm|].
          intros k Hk. subst d3. rewrite set_entry_out by lia.
          apply Hout2; lia. }
      split; [apply set_entry_fields; lia|].
      split; [lia|]. split; lia.
Qed.

Lemma ext2_last_byte_min dir n :
  0 <= n -> n * 4096 <= i_size dir < 2 ^ 32 ->
  ext2_last_byte dir n = Z.min 4096 (i_size dir - n * 4096).
Proof.
  intros Hn Hs. unfold ext2_last_byte, PAGE_SIZE, PAGE_SHIFT.
  rewrite Z.shiftl_mul_pow2 by lia. change (2 ^ 12) with 4096.
  rewrite (Z.mod_small (i_size dir) (2 ^ 32) ltac:(lia)
           : u32 (i_size dir) = i_size dir).
  rewrite (Z.mod_small (n * 4096) (2 ^ 64) ltac:(lia)
           : u64 (n * 4096) = n * 4096).
  rewrite (Z.mod_small (i_size dir - n * 4096) (2 ^ 32) ltac:(lia)
           : u32 (i_size dir - n * 4096) = i_size dir - n * 4096).
  destruct (Z.ltb_spec 4096 (i_size dir - n * 4096)); lia.
Qed.

Lemma ext2_check_folio_quiet fs dir n quiet quiet' d :
  fst (ext2_check_folio fs dir n quiet d)
  = fst (ext2_check_folio fs dir n quiet' d).
Proof.
  unfold ext2_check_folio.
  repeat match goal with
         | |- context [if ?c then _ else _] => destruct c
         | |- context [match ?c with CheckEnd _ => _ | CheckBad _ => _ end] =>
             destruct c
         end; reflexivity.
Qed.

(** A page that passes [ext2_check_folio] is a chain of records up to the
    end of the directory in the page, which is the end of the page or
    leaves a whole chunk free. *)
Lemma ext2_check_folio_chain fs dir n quiet d :
  In (s_blocksize (fs_sbi fs)) [1024; 2048; 4096] ->
  0 <= n -> n * 4096 <= i_size dir < 2 ^ 32 ->
  fst (ext2_check_folio fs dir n quiet d) = true ->
  chain d (ext2_chunk_size fs) (Z.min 4096 (i_size dir - n * 4096)) 0
  /\ (Z.min 4096 (i_size dir - n * 4096) = 4096
      \/ Z.min 4096 (i_size dir - n * 4096) <= 4096 - 1024).
Proof.
  intros Hc Hn Hs. unfold ext2_check_folio. fold (ext2_chunk_size fs).
  unfold PAGE_SIZE.
  set (cs := ext2_chunk_size fs).
  assert (Hcs : exists k, 10 <= k <= 12 /\ cs - 1 = Z.ones k /\ cs = 2 ^ k).
  { subst cs. unfold ext2_chunk_size. apply chunk_cases in Hc.
    destruct Hc as [-> | [-> | ->]];
      [exists 10 | exists 11 | exists 12]; repeat split; lia. }
  destruct Hcs as (k & Hk & Hones & Hpow).
  change (4096 - 1) with (Z.ones 12). rewrite Z.land_ones by lia.
  change (2 ^ 12) with 4096.
  assert (Hrec : forall limit,
            12 <= limit <= 4096 ->
            fst (match check_records (S (Z.to_nat limit)) d cs
                         (s_inodes_count (s_es (fs_sbi fs))) limit 0 with
                 | CheckEnd offs =>
                     if offs =? limit then (true, fs)
                     else (false,
                           if quiet then fs
                           else ext2_error fs
                                  "entry in directory spans the page boundary")
                 | CheckBad msg =>
                     (false, if quiet then fs else ext2_error fs msg)
                 end) = true ->
            chain d cs limit 0).
  { intros limit Hl.
    destruct (check_records _ d cs _ limit 0) as [offs | msg] eqn:E;
      [|discriminate].
    destruct (Z.eqb_spec offs limit) as [-> | ?]; [|discriminate].
    intros _. rewrite Hpow in *.
    eapply check_records_chain; [lia | exact Hl | lia | exact E]. }
  destruct (Z.ltb_spec (i_size dir) (n * 4096 + 4096)).
  - assert (Hm : i_size dir mod 4096 = i_size dir - n * 4096).
    { symmetry. apply (Z.mod_unique_pos _ _ n); lia. }
    rewrite Hm. rewrite Z.min_r by lia.
    set (limit := i_size dir - n * 4096) in *.
    rewrite Hones, Z.land_ones by lia.
    destruct (Z.eqb_spec (limit mod 2 ^ k) 0) as [Hz |]; [|discriminate].
    cbn [negb].
    assert (Hmul : limit = 0 \/ (1024 <= limit /\ limit <= 4096 - 1024)).
    { assert (Hd : limit mod 1024 = 0).
      { assert (E : 2 ^ k = 1024 \/ 2 ^ k = 2048 \/ 2 ^ k = 4096).
        { assert (k = 10 \/ k = 11 \/ k = 12) by lia.
          destruct H0 as [-> | [-> | ->]]; auto. }
        destruct E as [E | [E | E]]; rewrite E in Hz;
          Z.div_mod_to_equations; lia. }
      Z.div_mod_to_equations. lia. }
    destruct (Z.eqb_spec limit 0) as [-> | Hnz].
    + intros _. split; [apply chain_end | right; lia].
    + intros H'. split; [apply Hrec; [lia | exact H'] | right; lia].
  - rewrite Z.min_l by lia. intros H'.
    split; [apply Hrec; [lia | exact H'] | left; reflexivity].
Qed.

(** The cached pages are whole pages, and those marked as checked are
    valid. *)
Definition pages_sound (fs : ext2_fs) (dir : inode) : Prop :=
  forall j f,
    read_mapping_folio dir j = Ok f ->
    length (f_data f) = 4096%nat
    /\ (f_checked f = true ->
        fst (ext2_check_folio fs dir j true (f_data f)) = true).

Lemma ext2_get_folio_sound fs dir n d fs1 dir1 :
  0 <= n -> pages_sound fs dir ->
  ext2_get_folio fs dir n false = (Ok d, fs1, dir1) ->
  fs1 = fs /\ i_size dir1 = i_size dir
  /\ read_mapping_folio dir1 n = Ok {| f_data := d; f_checked := true |}
  /\ (forall j, j <> n -> read_mapping_folio dir1 j = read_mapping_folio dir j)
  /\ length d = 4096%nat
  /\ fst (ext2_check_folio fs dir n true d) = true
  /\ pages_sound fs dir1.
Proof.
  intros Hn Hsound. unfold ext2_get_folio.
  destruct (read_mapping_folio dir n) as [f | e] eqn:Hread; [|discriminate].
  destruct (Hsound n f Hread) as (Hlen & Hchk).
  destruct (f_checked f) eqn:Hf.
  - intros [= <- <- <-]. split; [reflexivity|]. split; [reflexivity|].
    split; [rewrite Hread; destruct f; cbn in *; congruence|].
    split; [reflexivity|]. split; [exact Hlen|]. split; [auto | exact Hsound].
  - destruct (ext2_check_folio fs dir n false (f_data f)) as [[|] fs0] eqn:E;
      [|discriminate].
    assert (Hok : fst (ext2_check_folio fs dir n false (f_data f)) = true)
      by (rewrite E; reflexivity).
    pose proof (ext2_check_folio_passes _ _ _ _ _ Hok) as Hp.
    rewrite Hp in E. injection E as <-.
    intros [= <- <- <-].
    pose proof (store_folio_same_but_page dir n
                  {| f_data := f_data f; f_checked := true |} Hn)
      as (_ & _ & _ & Hsize & _ & _ & Hpages).
    split; [reflexivity|]. split; [exact Hsize|].
    split; [apply read_mapping_folio_store; exact Hn|].
    split; [exact Hpages|]. split; [exact Hlen|].
    assert (Hq : fst (ext2_check_folio fs dir n true (f_data f)) = true)
      by (rewrite (ext2_check_folio_quiet _ _ _ true false); exact Hok).
    split; [exact Hq|].
    intros j g Hg. destruct (Z.eq_dec j n) as [-> | Hne].
    + rewrite read_mapping_folio_store in Hg by exact Hn. injection Hg as <-.
      cbn [f_data f_checked]. split; [exact Hlen|]. intros _.
      rewrite (ext2_check_folio_verdict fs fs dir) by auto. exact Hq.
    + rewrite Hpages in Hg by exact Hne.
      destruct (Hsound j g Hg) as (K1 & K2). split; [exact K1|].
      intros Hc. rewrite (ext2_check_folio_verdict fs fs dir) by auto. auto.
Qed.

(** The pages before [n] that [ext2_add_link] has given up: full pages,
    cached as checked, in which no record carries the name. *)
Definition passed (name : list Z) (dir : inode) (n : Z) : Prop :=
  forall j, 0 <= j < n ->
    (j + 1) * 4096 <= i_size dir
    /\ exists d,
         read_mapping_folio dir j = Ok {| f_data := d; f_checked := true |}
         /\ length d = 4096%nat /\ walked d name 0 4096.

(** The record of the name: in page [m] at [de], within the directory,
    found by the walk over the page and holding the inode number. *)
Definition entered (name : list Z) (child : Z) (dir : inode) (m de : Z)
  : Prop :=
  passed name dir m
  /\ 0 <= m /\ 0 <= de /\ de + 12 <= 4096
  /\ m * 4096 + de + 12 <= i_size dir < 2 ^ 32
  /\ exists d,
       read_mapping_folio dir m = Ok {| f_data := d; f_checked := true |}
       /\ length d = 4096%nat
       /\ (forall limit fuel, de <= limit -> de < Z.of_nat fuel ->
             find_entry_page fuel d name limit 0 = Found de)
       /\ de_inode d de = u32 child.

Lemma read_mapping_folio_mapping a b j :
  i_mapping a = i_mapping b -> read_mapping_folio a j = read_mapping_folio b j.
Proof. intros H. unfold read_mapping_folio. rewrite H. reflexivity. Qed.

Lemma passed_frame name dir dir' n :
  i_size dir <= i_size dir' ->
  (forall j, 0 <= j < n -> read_mapping_folio dir' j = read_mapping_folio dir j) ->
  passed name dir n -> passed name dir' n.
Proof.
  intros Hs Hp H j Hj. destruct (H j Hj) as (K1 & d & K2 & K3 & K4).
  split; [lia|]. exists d. rewrite Hp by exact Hj. auto.
Qed.

Lemma add_link_pages_entered be name child :
  0 < Z.of_nat (length name) <= 255 -> u32 child <> 0 ->
  forall todo fs dir n fs' dir',
    In (s_blocksize (fs_sbi fs)) [1024; 2048; 4096] ->
    0 <= n -> n * 4096 <= i_size dir < 2 ^ 31 ->
    pages_sound fs dir -> passed name dir n ->
    add_link_pages be todo fs dir name child n = (Ok tt, fs', dir') ->
    exists m de, entered name child dir' m de.
Proof.
  intros Hname Hchild.
  pose proof (EXT2_DIR_REC_LEN_bounds (Z.of_nat (length name)) ltac:(lia))
    as Hrec.
  assert (Hrec12 : 12 <= EXT2_DIR_REC_LEN (Z.of_nat (length name))).
  { rewrite EXT2_DIR_REC_LEN_div by lia. Z.div_mod_to_equations. lia. }
  induction todo as [|todo IH]; intros fs dir n fs' dir' Hbs Hn Hsize Hsound
    Hpassed; cbn [add_link_pages]; [discriminate|].
  destruct (ext2_get_folio fs dir n false) as [[[d | e] fs1] dir1] eqn:Hget;
    [|discriminate].
  destruct (ext2_get_folio_sound _ _ _ _ _ _ Hn Hsound Hget)
    as (-> & Hsz1 & Hread1 & Hpages1 & Hlen & Hvalid & Hsound1).
  destruct (ext2_check_folio_chain fs dir n true d Hbs Hn ltac:(lia) Hvalid)
    as (Hchain & Hfull).
  rewrite (ext2_last_byte_min dir1 n) by (rewrite ?Hsz1; lia).
  rewrite Hsz1.
  set (limit := Z.min 4096 (i_size dir - n * 4096)) in *.
  set (reclen := EXT2_DIR_REC_LEN (Z.of_nat (length name))) in *.
  rewrite (Z.mod_small reclen (2 ^ 32) ltac:(lia) : u32 reclen = reclen).
  change PAGE_SIZE with 4096.
  rewrite (Z.mod_small (4096 - reclen) (2 ^ 64) ltac:(lia)
           : u64 (4096 - reclen) = 4096 - reclen).
  assert (Hcs : 1024 <= ext2_chunk_size fs <= 4096).
  { unfold ext2_chunk_size. apply chunk_cases in Hbs.
    destruct Hbs as [-> | [-> | ->]]; vm_compute; split; discriminate. }
  pose proof (add_link_scan_chain d name (ext2_chunk_size fs) limit
                Hrec12 ltac:(lia) ltac:(fold reclen; lia) 0 Hchain
                (walked_here _ _ _) (S (length d)) ltac:(lia)) as Hscan.
  fold reclen in Hscan.
  destruct (add_link_scan (S (length d)) d name (ext2_chunk_size fs) reclen
              (4096 - reclen) limit 0) as [d1 de nl rl | e | |];
    [| discriminate | discriminate |].
  - (* the record is written into page [n] *)
    destruct Hscan as (Hw & Hde & Hcase).
    pose proof (got_it_page_found d name child (ext2_chunk_size fs) limit de
                  d1 nl rl Hlen Hname Hchild ltac:(lia) ltac:(lia) Hw Hde
                  Hcase) as Hfound.
    cbv zeta in Hfound.
    destruct Hfound as (Hlen' & Hfind & Hino & Hde0 & Hde12 & Hend).
    assert (Hrl : 0 <= rl < 65536).
    { destruct Hcase as [(_ & _ & _ & ->) | (_ & _ & -> & _)].
      - unfold u16. apply Z.mod_pos_bound. lia.
      - unfold de_rec_len, le16_at.
        pose proof (byte_at_nonneg d (de + 4)).
        pose proof (byte_at_nonneg d (de + 4 + 1)). lia. }
    rewrite add_link_got_it_page. change PAGE_SIZE with 4096.
    destruct (ext2_prepare_chunk be fs _ (n * 4096 + de) rl)
      as [[[[] | e] fs2] dir2] eqn:Hprep; [|discriminate].
    apply ext2_prepare_chunk_inode in Hprep. destruct Hprep as (dd & bb & ->).
    unfold sync_inode_metadata. intros Hsync.
    apply ext2_do_write_inode_frame in Hsync. destruct Hsync as (_ & st & ->).
    set (d' := fst (got_it_page d1 de nl rl name child)) in *.
    set (de' := snd (got_it_page d1 de nl rl name child)) in *.
    set (dirA := store_folio dir1 n {| f_data := d1; f_checked := true |}).
    set (dirB := store_folio (touch dirA dd bb) n
                   {| f_data := d'; f_checked := true |}).
    assert (HsizeB : i_size dirB = i_size dir).
    { subst dirB dirA. unfold store_folio, touch. cbn [i_size set_i_mapping
        set_i_blocks set_i_data]. exact Hsz1. }
    assert (HreadB : forall j, j <> n ->
              read_mapping_folio dirB j = read_mapping_folio dir j).
    { intros j Hj. subst dirB.
      destruct (store_folio_same_but_page (touch dirA dd bb) n
                  {| f_data := d'; f_checked := true |} Hn)
        as (_ & _ & _ & _ & _ & _ & K). rewrite K by exact Hj.
      rewrite (read_mapping_folio_mapping (touch dirA dd bb) dirA)
        by reflexivity.
      subst dirA.
      destruct (store_folio_same_but_page dir1 n
                  {| f_data := d1; f_checked := true |} Hn)
        as (_ & _ & _ & _ & _ & _ & K'). rewrite K' by exact Hj.
      apply Hpages1. exact Hj. }
    assert (HreadBn : read_mapping_folio dirB n
                      = Ok {| f_data := d'; f_checked := true |})
      by (subst dirB; apply read_mapping_folio_store; exact Hn).
    set (dirC := ext2_commit_chunk dirB (n * 4096 + de) rl).
    assert (HmapC : i_mapping dirC = i_mapping dirB).
    { subst dirC. unfold ext2_commit_chunk.
      destruct (i_size dirB <? n * 4096 + de + rl); reflexivity. }
    assert (HsizeC : i_size dirC = Z.max (i_size dir) (n * 4096 + de + rl)).
    { subst dirC. unfold ext2_commit_chunk. rewrite HsizeB.
      destruct (Z.ltb_spec (i_size dir) (n * 4096 + de + rl));
        cbn [i_size set_i_size]; rewrite ?HsizeB; lia. }
    exists n, de'. unfold entered.
    assert (HsizeS : i_size (set_i_state dirC st) = i_size dirC) by reflexivity.
    assert (HreadS : forall j,
              read_mapping_folio (set_i_state dirC st) j
              = read_mapping_folio dirB j).
    { intros j. apply read_mapping_folio_mapping. exact HmapC. }
    split.
    { apply (passed_frame name dir); [rewrite HsizeS, HsizeC; lia | | exact Hpassed].
      intros j Hj. rewrite HreadS. apply HreadB. lia. }
    split; [exact Hn|]. split; [exact Hde0|].
    split; [exact Hend|].
    rewrite HsizeS, HsizeC. split; [lia|].
    exists d'. rewrite HreadS. split; [exact HreadBn|].
    split; [exact Hlen'|]. split; [exact Hfind | exact Hino].
  - (* the page is full: on to the next *)
    destruct Hscan as (Hlim & Hw). intros Hrest.
    apply (IH fs dir1 (n + 1) fs' dir'); try assumption; try lia.
    intros j Hj. destruct (Z.eq_dec j n) as [-> | Hne].
      * split; [rewrite Hsz1; lia|]. exists d. auto.
      * destruct (Hpassed j ltac:(lia)) as (K1 & dj & K2 & K3 & K4).
        split; [rewrite Hsz1; lia|]. exists dj.
        rewrite Hpages1 by exact Hne. auto.
Qed.

Lemma ext2_get_folio_checked fs dir j d :
  read_mapping_folio dir j = Ok {| f_data := d; f_checked := true |} ->
  ext2_get_folio fs dir j false = (Ok d, fs, dir).
Proof. intros H. unfold ext2_get_folio. rewrite H. reflexivity. Qed.

(** [ext2_find_entry] comes to the record through the pages before it. *)
Lemma find_entry_pages_entered name child fs dir m de :
  entered name child dir m de ->
  forall k i, 0 <= i -> i + Z.of_nat k = m ->
  forall todo, (k < todo)%nat ->
    find_entry_pages todo fs dir name i = (Ok (m, de), fs, dir).
Proof.
  intros (Hpassed & Hm & Hde & Hde12 & Hsize & d & Hread & Hlen & Hfind & _).
  induction k as [|k IH]; intros i Hi Him todo Htodo;
    (destruct todo as [|todo]; [lia|]); cbn [find_entry_pages].
  - assert (i = m) by lia. subst i.
    rewrite (ext2_get_folio_checked fs dir m d Hread).
    rewrite (ext2_last_byte_min dir m) by lia.
    change (EXT2_DIR_REC_LEN 1) with 12.
    rewrite Hfind by lia. reflexivity.
  - destruct (Hpassed i ltac:(lia)) as (Hfull & dj & Hrj & Hlj & Hwj).
    rewrite (ext2_get_folio_checked fs dir i dj Hrj).
    rewrite (ext2_last_byte_min dir i) by lia.
    rewrite Z.min_l by lia. change (4096 - EXT2_DIR_REC_LEN 1) with 4084.
    rewrite (find_entry_page_walked_end dj name 4084) by (try exact Hwj; lia).
    apply IH; lia.
Qed.

Lemma add_link_then_lookup be fs dir name child fs' dir' :
  In (s_blocksize (fs_sbi fs)) [1024; 2048; 4096] ->
  0 <= i_size dir < 2 ^ 31 ->
  pages_sound fs dir ->
  0 < Z.of_nat (length name) <= 255 ->
  u32 child <> 0 ->
  ext2_add_link be fs dir name child = (Ok tt, fs', dir') ->
  fst (fst (ext2_inode_by_name fs' dir' name)) = Ok (u32 child).
Proof.
  intros Hbs Hsize Hsound Hname Hchild Hadd. unfold ext2_add_link in Hadd.
  destruct (add_link_pages_entered be name child Hname Hchild _ fs dir 0 fs'
              dir' Hbs ltac:(lia) ltac:(lia) Hsound ltac:(intros j Hj; lia)
              Hadd) as (m & de & Hent).
  pose proof Hent as (_ & Hm & Hde & _ & Hsz & d & Hread & _ & _ & Hino).
  unfold ext2_inode_by_name, ext2_find_entry, dir_pages, PAGE_SIZE, PAGE_SHIFT.
  rewrite (Z.mod_small (i_size dir' + 4096 - 1) (2 ^ 64) ltac:(lia)
           : u64 (i_size dir' + 4096 - 1) = i_size dir' + 4096 - 1).
  rewrite Z.shiftr_div_pow2 by lia. change (2 ^ 12) with 4096.
  assert (Hnp : m < (i_size dir' + 4096 - 1) / 4096).
  { Z.div_mod_to_equations. lia. }
  destruct (Z.eqb_spec ((i_size dir' + 4096 - 1) / 4096) 0); [lia|].
  rewrite (find_entry_pages_entered name child fs' dir' m de Hent
             (Z.to_nat m) 0) by lia.
  rewrite Hread. cbn [fst f_data]. rewrite Hino. reflexivity.
Qed.

Lemma sample_root_pages_sound : pages_sound sample_fs sample_root.
Proof.
  intros j f. unfold read_mapping_folio.
  destruct (j <? 0); [discriminate|]. cbn [i_mapping sample_root].
  destruct (Z.to_nat j) as [|k]; cbn.
  - intros [= <-]. split; [vm_compute; reflexivity | discriminate].
  - intros [= <-]. split; [vm_compute; reflexivity | discriminate].
Qed.

(** A name that [ext2_add_link] has entered into a directory is found
    again: [ext2_inode_by_name], asked for the name in the state and the
    directory that the call has left, returns the inode number that was
    linked.  The name has between 1 and 255 bytes, the inode number is not
    0 as a 32-bit value, the directory is smaller than 2 GiB, and its
    cached pages are whole pages that are valid where they are marked as
    checked. *)
Theorem ext2_add_link_lookup be fs dir name child fs' dir' :
  In (s_blocksize (fs_sbi fs)) [1024; 2048; 4096] ->
  0 <= i_size dir < 2 ^ 31 ->
  pages_sound fs dir ->
  0 < Z.of_nat (length name) <= 255 ->
  u32 child <> 0 ->
  ext2_add_link be fs dir name child = (Ok tt, fs', dir') ->
  fst (fst (ext2_inode_by_name fs' dir' name)) = Ok (u32 child).
Proof. apply add_link_then_lookup. Qed.

Lemma ext2_add_link_lookup_witness :
  match ext2_add_link false sample_fs sample_root [97] 12 with
  | (Ok _, fs', dir') =>
      fst (fst (ext2_inode_by_name fs' dir' [97])) = Ok 12
  | _ => False
  end.
Proof.
  destruct (ext2_add_link false sample_fs sample_root [97] 12)
    as [[[[] | e] fs'] dir'] eqn:E.
  - apply (ext2_add_link_lookup false sample_fs sample_root [97] 12 fs' dir').
    + left. reflexivity.
    + split; [discriminate | reflexivity].
    + exact sample_root_pages_sound.
    + split; [reflexivity | discriminate].
    + discriminate.
    + exact E.
  - vm_compute in E. discriminate.
Defined.

(** [ext2_link] gives the inode one more link and a second name: after a
    successful call the link count is one higher and the new name resolves
    to the inode; after a failed call the link count is back at its old
    value, and the mode, the size and the block array are untouched (the
    change time that the call has set by then stays set).  The conditions
    are those of the directory and the name above, a link count that is a
    32-bit value and an inode number that is not 0. *)
Theorem ext2_link_lookup be fs dir name ino r fs' dir' ino' :
  In (s_blocksize (fs_sbi fs)) [1024; 2048; 4096] ->
  0 <= i_size dir < 2 ^ 31 ->
  pages_sound fs dir ->
  0 < Z.of_nat (length name) <= 255 ->
  u32 (i_ino ino) <> 0 ->
  0 <= i_nlink ino < 2 ^ 32 ->
  ext2_link be fs dir name ino = (r, fs', dir', ino') ->
  match r with
  | Ok _ =>
      i_nlink ino' = u32 (i_nlink ino + 1)
      /\ fst (fst (ext2_inode_by_name fs' dir' name)) = Ok (u32 (i_ino ino))
  | Err _ =>
      i_nlink ino' = i_nlink ino /\ i_mode ino' = i_mode ino
      /\ i_size ino' = i_size ino /\ i_data ino' = i_data ino
  end.
Proof.
  intros Hbs Hsize Hsound Hname Hchild Hnlink. unfold ext2_link.
  cbn [i_ino inode_inc_link_count set_i_nlink].
  destruct (ext2_add_link be fs dir name (i_ino ino))
    as [[[[] | e] fs1] dir1] eqn:Hadd; intros [= <- <- <- <-].
  - split; [reflexivity|].
    apply (add_link_then_lookup be fs dir name (i_ino ino) fs1 dir1);
      assumption.
  - unfold inode_dec_link_count, inode_inc_link_count.
    cbn [i_nlink set_i_nlink].
    assert (E : u32 (u32 (i_nlink ino + 1) - 1) = i_nlink ino).
    { unfold u32.
      destruct (Z.eq_dec (i_nlink ino) (2 ^ 32 - 1)) as [-> | Hne];
        [reflexivity|].
      rewrite (Z.mod_small (i_nlink ino + 1)) by lia.
      replace (i_nlink ino + 1 - 1) with (i_nlink ino) by lia.
      apply Z.mod_small. lia. }
    rewrite E. repeat split.
Qed.

Lemma ext2_link_lookup_witness :
  match ext2_link false sample_fs sample_root [97] sample_file with
  | (Ok _, fs', dir', ino') =>
      i_nlink ino' = 2
      /\ fst (fst (ext2_inode_by_name fs' dir' [97])) = Ok 12
  | _ => False
  end.
Proof.
  destruct (ext2_link false sample_fs sample_root [97] sample_file)
    as [[[[[] | e] fs'] dir'] ino'] eqn:E.
  - apply (ext2_link_lookup false sample_fs sample_root [97] sample_file
             (Ok tt) fs' dir' ino').
    + left. reflexivity.
    + split; [discriminate | reflexivity].
    + exact sample_root_pages_sound.
    + split; [reflexivity | discriminate].
    + discriminate.
    + split; [discriminate | reflexivity].
    + exact E.
  - vm_compute in E. discriminate.
Defined.

(** *** When [ext2_new_inode] reports that there is no space *)

Lemma desc_some_in_range fs g d fs' :
  s_groups_count (fs_sbi fs) < 2 ^ 31 -> - 2 ^ 31 <= g < 2 ^ 31 ->
  ext2_get_group_desc fs g = (Some d, fs') ->
  0 <= g < s_groups_count (fs_sbi fs).
Proof.
  intros Hn Hg H. apply ext2_get_group_desc_spec in H.
  destruct H as (_ & _ & Hlt & _). unfold u32 in Hlt.
  destruct (Z.lt_ge_cases g 0); [|rewrite Z.mod_small in Hlt; lia].
  rewrite <- (Z.mod_add g 1 (2 ^ 32)) in Hlt by lia.
  rewrite Z.mod_small in Hlt; lia.
Qed.

Lemma find_group_hash_in_range fuel fs group i n g fs' :
  n = s_groups_count (fs_sbi fs) -> n < 2 ^ 31 ->
  find_group_hash fuel fs group i n = (Some g, fs') ->
  0 <= g < n.
Proof.
  intros En Hn. revert fs group i En.
  induction fuel as [|fuel IH]; intros fs group i En;
    cbn [find_group_hash]; [discriminate|].
  destruct (i <? _); [|discriminate].
  set (g1 := s32 (group + i)).
  set (g2 := if n <=? g1 then s32 (g1 - n) else g1).
  assert (Hg2 : - 2 ^ 31 <= g2 < 2 ^ 31).
  { subst g2 g1. destruct (_ <=? s32 (group + i)); apply s32_range. }
  destruct (ext2_get_group_desc fs g2) as [desc fs0] eqn:Hd.
  pose proof Hd as Hd'. apply ext2_get_group_desc_spec in Hd'.
  destruct Hd' as ((Hsbi & _) & _).
  assert (En0 : n = s_groups_count (fs_sbi fs0)) by (rewrite Hsbi; exact En).
  destruct desc as [d|]; cbn [desc_has_inodes_and_blocks].
  - destruct (_ && _).
    + intros [= <- <-]. rewrite En.
      eapply desc_some_in_range; [lia | exact Hg2 | exact Hd].
    + apply IH. exact En0.
  - apply IH. exact En0.
Qed.

(** Started from a group of the filesystem, the linear search visits the
    groups after [group], each in turn. *)
Lemma find_group_linear_cases todo fs group n g fs' :
  n = s_groups_count (fs_sbi fs) -> 0 < n < 2 ^ 31 -> 0 <= group < n ->
  find_group_linear todo fs group n = (g, fs') ->
  0 <= g < n
  \/ (g = -1
      /\ forall k grp,
           1 <= k <= Z.of_nat todo ->
           group_at fs ((group + k) mod n) = Some grp ->
           bg_free_inodes_count (g_desc grp) = 0).
Proof.
  intros En Hn. revert fs group En.
  induction todo as [|todo IH]; intros fs group En Hgroup;
    cbn [find_group_linear].
  - intros [= <- <-]. right. split; [reflexivity|]. intros k grp Hk. lia.
  - pose proof (Z.mod_pos_bound (group + 1) n ltac:(lia)) as Hg1.
    assert (Hrem : Z.rem (s32 (group + 1)) n = (group + 1) mod n).
    { rewrite s32_small by lia. apply Z.rem_mod_nonneg; lia. }
    rewrite Hrem.
    destruct (ext2_get_group_desc fs ((group + 1) mod n)) as [desc fs0] eqn:Hd.
    apply ext2_get_group_desc_spec in Hd. destruct Hd as (Hc & Hd).
    pose proof Hc as (Hsbi & _).
    assert (Hu : u32 ((group + 1) mod n) = (group + 1) mod n)
      by (unfold u32; apply Z.mod_small; lia).
    rewrite Hu in Hd.
    destruct (desc_has_inodes desc) eqn:Hhas.
    + intros [= <- <-]. left. exact Hg1.
    + intros H. apply IH in H; [|rewrite Hsbi; exact En|exact Hg1].
      destruct H as [H | (-> & H)]; [left; exact H|].
      right. split; [reflexivity|]. intros k grp Hk Hat.
      destruct (Z.eq_dec k 1) as [-> | Hne].
      * destruct desc as [d|].
        -- destruct Hd as (_ & _ & grp' & Hat' & ->).
           assert (grp' = grp) by congruence. subst grp'.
           cbn [desc_has_inodes] in Hhas.
           apply negb_false_iff, Z.eqb_eq in Hhas. exact Hhas.
        -- destruct Hd as (_ & [? | Hnone]); [lia | congruence].
      * apply (H (k - 1) grp); [lia|].
        rewrite (same_core_group_at fs fs0) by exact Hc.
        rewrite <- Hat. f_equal.
        rewrite Zplus_mod_idemp_l. f_equal. lia.
Qed.

Lemma mod_cover n g t :
  0 < n -> 0 <= t < n -> (g + (t - g) mod n) mod n = t.
Proof.
  intros Hn Ht. rewrite Zplus_mod_idemp_r.
  replace (g + (t - g)) with t by lia. apply Z.mod_small. exact Ht.
Qed.

(** For a parent that lies in a group of the filesystem, [find_group] gives
    a group of the filesystem, or -1 where no descriptor reports a free
    inode. *)
Lemma find_group_cases fs parent g fs' :
  0 < s_groups_count (fs_sbi fs) < 2 ^ 31 ->
  0 <= i_block_group parent < s_groups_count (fs_sbi fs) ->
  find_group fs parent = (g, fs') ->
  0 <= g < s_groups_count (fs_sbi fs)
  \/ (g = -1
      /\ forall t grp,
           0 <= t < s_groups_count (fs_sbi fs) ->
           group_at fs t = Some grp ->
           bg_free_inodes_count (g_desc grp) = 0).
Proof.
  intros Hn Hparent. unfold find_group.
  rewrite (s32_small (s_groups_count (fs_sbi fs))) by lia.
  assert (Hp : 0 <= s32 (i_block_group parent) < s_groups_count (fs_sbi fs))
    by (rewrite s32_small by lia; exact Hparent).
  destruct (ext2_get_group_desc fs (s32 (i_block_group parent)))
    as [desc fs0] eqn:Hd.
  pose proof Hd as Hd'. apply ext2_get_group_desc_spec in Hd'.
  destruct Hd' as (Hc & _). pose proof Hc as (Hsbi & _).
  destruct (desc_has_inodes_and_blocks desc) eqn:Hhas.
  { intros [= <- <-]. left. destruct desc as [d|]; [|discriminate].
    eapply desc_some_in_range; [lia | apply s32_range | exact Hd]. }
  match goal with
  | |- context [find_group_hash ?f ?a ?b ?c ?d] =>
      destruct (find_group_hash f a b c d) as [[gh|] fs1] eqn:Hh
  end.
  { intros [= <- <-]. left.
    apply find_group_hash_in_range in Hh; [exact Hh | congruence | lia]. }
  apply find_group_hash_spec in Hh. destruct Hh as (Hc1 & _).
  pose proof Hc1 as (Hsbi1 & _).
  intros H. apply find_group_linear_cases in H; [|congruence|lia|exact Hp].
  destruct H as [H | (-> & H)]; [left; exact H|].
  right. split; [reflexivity|]. intros t grp Ht Hat.
  set (n := s_groups_count (fs_sbi fs)) in *.
  set (p := s32 (i_block_group parent)) in *.
  apply (H ((t - p - 1) mod n + 1) grp).
  - pose proof (Z.mod_pos_bound (t - p - 1) n ltac:(lia)).
    rewrite Z2Nat.id by lia. lia.
  - rewrite (same_core_group_at fs0 fs1) by exact Hc1.
    rewrite (same_core_group_at fs fs0) by exact Hc.
    rewrite <- Hat. f_equal.
    replace (p + ((t - p - 1) mod n + 1)) with (p + 1 + (t - (p + 1)) mod n).
    + apply mod_cover; lia.
    + replace (t - (p + 1)) with (t - p - 1) by lia. lia.
Qed.

(** The group loop reports no space only after it has found the bitmap of
    every group it came to full. *)
Lemma new_inode_scan_enospc todo fs group fs' :
  0 < s_inodes_per_group (fs_sbi fs) ->
  0 < s_groups_count (fs_sbi fs) < 2 ^ 31 ->
  0 <= group < s_groups_count (fs_sbi fs) ->
  new_inode_scan todo fs group = (Err ENOSPC, fs') ->
  forall k grp,
    0 <= k < Z.of_nat todo ->
    group_at fs ((group + k) mod s_groups_count (fs_sbi fs)) = Some grp ->
    forall b, 0 <= b < s_inodes_per_group (fs_sbi fs) ->
      Z.testbit (g_inode_bitmap grp) b = true.
Proof.
  revert fs group.
  induction todo as [|todo IH]; intros fs group Hipg Hn Hg;
    cbn [new_inode_scan]; [intros _ k grp Hk; lia|].
  set (n := s_groups_count (fs_sbi fs)) in *.
  assert (Hnext : s32 (u64 (group + 1) mod n) = (group + 1) mod n).
  { rewrite (Z.mod_small (group + 1) (2 ^ 64) ltac:(lia)
             : u64 (group + 1) = group + 1).
    pose proof (Z.mod_pos_bound (group + 1) n ltac:(lia)).
    apply s32_small. lia. }
  rewrite Hnext.
  pose proof (Z.mod_pos_bound (group + 1) n ltac:(lia)) as Hnx.
  assert (Hu : u32 group = group) by (unfold u32; apply Z.mod_small; lia).
  assert (Hstep : forall k, ((group + 1) mod n + (k - 1)) mod n = (group + k) mod n).
  { intros k. rewrite Zplus_mod_idemp_l. f_equal. lia. }
  assert (Hzero : (group + 0) mod n = group)
    by (rewrite Z.add_0_r; apply Z.mod_small; lia).
  destruct (ext2_get_group_desc fs group) as [[gdp|] fs0] eqn:Hd;
    apply ext2_get_group_desc_spec in Hd; destruct Hd as (Hc & Hd).
  2:{ intros H k grp Hk Hat. pose proof Hc as (Hsbi & _).
      destruct (Z.eq_dec k 0) as [-> | Hne].
      - rewrite Hzero in Hat. rewrite Hu in Hd.
        destruct Hd as (_ & [? | Hnone]); [lia | congruence].
      - intros b Hb.
        apply (IH fs0 ((group + 1) mod n)) with (k := k - 1) (grp := grp) (b := b)
          in H; rewrite ?Hsbi; fold n; try assumption; try lia.
        rewrite Hstep. rewrite (same_core_group_at fs fs0) by exact Hc.
        exact Hat. }
  destruct Hd as (-> & Hlt & grp0 & Hat0 & ->). rewrite Hu in Hat0.
  destruct (read_inode_bitmap fs group) as [[bm|] fs1] eqn:Hr;
    apply read_inode_bitmap_spec in Hr; destruct Hr as (Hc1 & Hr);
    [|discriminate].
  destruct Hr as (-> & _ & grp1 & Hat1 & -> & Hread). rewrite Hu in Hat1.
  assert (grp1 = grp0) by congruence. subst grp1.
  destruct (new_inode_in_group _ (g_inode_bitmap grp0) _ 0)
    as [[bit|] bm'] eqn:Hin; [discriminate|].
  apply new_inode_in_group_exact in Hin; [|lia].
  destruct Hin as (-> & Hfull). rewrite Hu.
  rewrite (set_inode_bitmap_id fs group grp0 Hat0).
  intros H k grp Hk Hat.
  destruct (Z.eq_dec k 0) as [-> | Hne].
  - rewrite Hzero in Hat. assert (grp = grp0) by congruence. subst grp.
    intros b Hb. apply Hfull. lia.
  - intros b Hb. apply (IH fs ((group + 1) mod n) Hipg Hn Hnx H (k - 1) grp);
      [lia | | exact Hb].
    fold n. rewrite Hstep. exact Hat.
Qed.

(** For a parent directory that lies in a group of the filesystem (its
    [i_block_group] is below [s_groups_count]), [ext2_new_inode] reports
    ENOSPC in two cases only: no descriptor of the filesystem reports a free
    inode, or the inode bitmap of every group is full.  The hypothesis on
    the parent is needed: [find_group] steps with [(group+1) % ngroups] on
    [int]s, which from a negative [parent_group] stays negative and can
    leave groups unvisited. *)
Theorem ext2_new_inode_enospc fs dir mode fs' :
  0 < s_inodes_per_group (fs_sbi fs) ->
  0 < s_groups_count (fs_sbi fs) < 2 ^ 31 ->
  0 <= i_block_group dir < s_groups_count (fs_sbi fs) ->
  ext2_new_inode fs dir mode = (Err ENOSPC, fs') ->
  (forall g grp,
     0 <= g < s_groups_count (fs_sbi fs) -> group_at fs g = Some grp ->
     bg_free_inodes_count (g_desc grp) = 0)
  \/ (forall g grp,
        0 <= g < s_groups_count (fs_sbi fs) -> group_at fs g = Some grp ->
        forall b, 0 <= b < s_inodes_per_group (fs_sbi fs) ->
          Z.testbit (g_inode_bitmap grp) b = true).
Proof.
  intros Hipg Hn Hdir. unfold ext2_new_inode.
  destruct (find_group fs dir) as [group fs0] eqn:Hfg.
  pose proof (find_group_spec _ _ _ _ Hn Hfg) as (Hc0 & _).
  pose proof Hc0 as (Hsbi0 & _).
  apply find_group_cases in Hfg; [|exact Hn|exact Hdir].
  destruct Hfg as [Hg | (-> & Hnone)]; [|intros _; left; exact Hnone].
  destruct (Z.eqb_spec group (-1)); [lia|].
  destruct (new_inode_scan _ fs0 group) as [[[g bit] | e] fs1] eqn:Hscan.
  { match goal with |- context [if ?c then _ else _] => destruct c end;
      discriminate. }
  intros [= -> <-]. right. intros g grp Hgr Hat b Hb.
  rewrite <- Hsbi0 in Hscan.
  apply (new_inode_scan_enospc _ fs0 group fs1) with
    (k := (g - group) mod s_groups_count (fs_sbi fs)) (grp := grp) (b := b) in Hscan;
    rewrite ?Hsbi0; try assumption; try lia.
  - pose proof (Z.mod_pos_bound (g - group) (s_groups_count (fs_sbi fs))
                  ltac:(lia)). rewrite Z2Nat.id by lia. lia.
  - rewrite mod_cover by lia. rewrite (same_core_group_at fs fs0) by exact Hc0.
    exact Hat.
Qed.

Lemma ext2_new_inode_enospc_witness :
  let fs := set_desc sample_fs 0
              (desc_add_inodes (g_desc sample_group) (-2038) 0) in
  (forall g grp,
     0 <= g < s_groups_count (fs_sbi fs) -> group_at fs g = Some grp ->
     bg_free_inodes_count (g_desc grp) = 0)
  \/ (forall g grp,
        0 <= g < s_groups_count (fs_sbi fs) -> group_at fs g = Some grp ->
        forall b, 0 <= b < s_inodes_per_group (fs_sbi fs) ->
          Z.testbit (g_inode_bitmap grp) b = true).
Proof.
  intros fs.
  apply (ext2_new_inode_enospc fs sample_root S_IFREG
           (snd (ext2_new_inode fs sample_root S_IFREG))).
  - reflexivity.
  - split; reflexivity.
  - split; [discriminate | reflexivity].
  - vm_compute. reflexivity.
Defined.

(** *** A name that [ext2_unlink] has removed is not found again *)

(** The offsets of the records of a page: the first one, and the one
    after a record of twelve bytes or more. *)
Inductive record_at (d : list Z) : Z -> Prop :=
  | record_at_first : record_at d 0
  | record_at_next off :
      record_at d off -> 12 <= de_rec_len d off ->
      record_at d (off + de_rec_len d off).

(** At most one record of the directory carries the name. *)
Definition name_once (name : list Z) (dir : inode) : Prop :=
  forall j j' f f' off off',
    read_mapping_folio dir j = Ok f ->
    read_mapping_folio dir j' = Ok f' ->
    record_at (f_data f) off -> record_at (f_data f') off' ->
    ext2_match name (f_data f) off = true ->
    ext2_match name (f_data f') off' = true ->
    j = j' /\ off = off'.

Lemma walked_record_at d name a b :
  walked d name a b -> record_at d a -> record_at d b.
Proof.
  induction 1 as [|a b H0 H1 H2 H3 _ IH]; intros Ha; [exact Ha|].
  apply IH. apply record_at_next; assumption.
Qed.

(** The records of a valid page from a record on, none of which carries
    the name, are a walk to the end. *)
Lemma chain_walked d name cs limit a :
  chain d cs limit a -> 0 <= a -> record_at d a ->
  (forall off, record_at d off -> a <= off ->
               ext2_match name d off = false) ->
  walked d name a limit.
Proof.
  induction 1 as [|a H0 H1 H2 H3 Hc IH]; intros Ha Hr Hno; [apply walked_here|].
  apply walked_step; try assumption.
  - apply Hno; [exact Hr | lia].
  - apply IH; [lia | apply record_at_next; assumption |].
    intros off Hoff Hle. apply Hno; [exact Hoff | lia].
Qed.

(** [ext2_find_entry] on a valid page: the record it finds is one of the
    chain and carries the name, and the walk up to it has passed records
    of other names only. *)
Lemma find_entry_page_chain d name cs limit a :
  chain d cs limit a ->
  forall fuel, limit - a < Z.of_nat fuel ->
    match find_entry_page fuel d name (limit - 12) a with
    | Found de =>
        chain d cs limit de /\ 0 <= de <= limit - 12
        /\ ext2_match name d de = true /\ walked d name a de
    | NotInPage => walked d name a limit
    | ZeroLength => False
    end.
Proof.
  induction 1 as [|a H0 H1 H2 H3 Hc IH]; intros fuel Hfuel;
    (destruct fuel as [|fuel]; [lia|]); cbn [find_entry_page].
  - destruct (Z.leb_spec limit (limit - 12)); [lia|]. apply walked_here.
  - destruct (Z.leb_spec a (limit - 12)); [|lia].
    destruct (Z.eqb_spec (de_rec_len d a) 0); [lia|].
    destruct (ext2_match name d a) eqn:Hm.
    + split; [apply chain_step; assumption|]. split; [lia|].
      split; [exact Hm | apply walked_here].
    + unfold ext2_next_entry.
      pose proof (chain_le _ _ _ _ Hc) as Hle.
      specialize (IH fuel ltac:(lia)).
      destruct (find_entry_page fuel d name (limit - 12) (a + de_rec_len d a))
        as [de | |].
      * destruct IH as (K1 & K2 & K3 & K4). repeat split; try assumption; try lia.
        apply walked_step; try assumption. lia.
      * exact IH.
      * apply walked_step; try assumption. lia.
Qed.

(** No record crosses the end of a chunk: a walk passes through the start
    of each chunk it comes to. *)
Lemma walked_chunk_start d name cs limit a de :
  0 < cs ->
  walked d name a de -> chain d cs limit a -> de <= limit - 12 ->
  forall c, a <= c <= de -> c mod cs = 0 ->
    walked d name a c /\ walked d name c de.
Proof.
  intros Hcs. induction 1 as [a | a de H0 H1 H2 H3 Hw IH];
    intros Hc Hde c Hac Hmod.
  - assert (c = a) by lia. subst c. split; apply walked_here.
  - destruct (Z.eq_dec c a) as [-> | Hne].
    { split; [apply walked_here|]. apply walked_step; assumption. }
    pose proof (walked_le _ _ _ _ Hw) as Hle.
    inversion Hc as [E | a' K0 K1 K2 K3 K4 E]; [lia|]. subst a'.
    assert (Hnext : a + de_rec_len d a <= c).
    { assert (a / cs < c / cs).
      { apply Z.div_exact in Hmod; [|lia].
        apply Z.div_lt_upper_bound; [lia|]. lia. }
      rewrite <- K3 in H.
      destruct (Z.lt_ge_cases (a + de_rec_len d a - 1) c) as [? | Hge]; [lia|].
      apply (Z.div_le_mono _ _ cs) in Hge; lia. }
    destruct (IH K4 Hde c ltac:(lia) Hmod) as (W1 & W2).
    split; [|exact W2]. apply walked_step; assumption.
Qed.

(** The loop of [ext2_delete_entry] follows the walk from the start of the
    chunk: it ends at the record with the record before it, if there is
    one. *)
Lemma delete_entry_walk_walked d name c de :
  walked d name c de ->
  forall fuel pde, de - c < Z.of_nat fuel ->
    exists pde',
      delete_entry_walk fuel d de c pde = Ok pde'
      /\ ((c = de /\ pde' = pde)
          \/ exists p,
               pde' = Some p /\ c <= p /\ walked d name c p
               /\ p + de_rec_len d p = de
               /\ 12 <= de_rec_len d p
               /\ EXT2_DIR_REC_LEN (de_name_len d p) <= de_rec_len d p
               /\ ext2_match name d p = false).
Proof.
  induction 1 as [c | c de H0 H1 H2 H3 Hw IH]; intros fuel pde Hfuel.
  - destruct fuel as [|fuel]; [lia|]. cbn [delete_entry_walk].
    destruct (Z.ltb_spec c c); [lia|]. exists pde. split; [reflexivity|].
    left. split; reflexivity.
  - pose proof (walked_le _ _ _ _ Hw) as Hle.
    destruct fuel as [|fuel]; [lia|]. cbn [delete_entry_walk].
    destruct (Z.ltb_spec c de); [|lia].
    destruct (Z.eqb_spec (de_rec_len d c) 0); [lia|].
    unfold ext2_next_entry.
    destruct (IH fuel (Some c) ltac:(lia)) as (pde' & K1 & K2).
    exists pde'. split; [exact K1|]. right.
    destruct K2 as [(E & ->) | (p & -> & K3 & K4 & K5 & K6 & K7 & K8)].
    + exists c. split; [reflexivity|]. split; [lia|].
      split; [apply walked_here|]. auto.
    + exists p. split; [reflexivity|]. split; [lia|].
      split; [apply walked_step; assumption|]. auto.
Qed.

(** The page that [ext2_delete_entry] writes: the record before takes the
    bytes of the deleted one, whose inode number is cleared. *)
Definition deleted_page (d : list Z) (pde : option Z) (de : Z) : list Z :=
  put_le32
    (match pde with
     | Some p => put_le16 d (p + 4) (u16 (de + de_rec_len d de - p))
     | None => d
     end) de 0.

Lemma ext2_match_unused name d de : de_inode d de = 0 -> ext2_match name d de = false.
Proof.
  intros H. unfold ext2_match. rewrite H.
  destruct (negb _); reflexivity.
Qed.

(** After the deletion the walk of [ext2_find_entry] over the page comes
    to its end, where no other record of the page carries the name. *)
Lemma deleted_page_walked d name cs limit de pde :
  length d = 4096%nat -> limit <= 4096 ->
  walked d name 0 de -> chain d cs limit de -> de <= limit - 12 ->
  (forall off, record_at d off -> off <> de -> ext2_match name d off = false) ->
  pde = None
  \/ (exists p,
        pde = Some p /\ walked d name 0 p
        /\ p + de_rec_len d p = de
        /\ 12 <= de_rec_len d p
        /\ EXT2_DIR_REC_LEN (de_name_len d p) <= de_rec_len d p
        /\ ext2_match name d p = false) ->
  walked (deleted_page d pde de) name 0 limit.
Proof.
  intros Hlen Hl Hw Hc Hde Hno Hpde.
  pose proof (walked_le _ _ _ _ Hw) as Hde0.
  inversion Hc as [E | a K0 K1 K2 K3 K4 E]; [lia|]. subst a.
  pose proof (chain_le _ _ _ _ K4) as Hs.
  set (s := de + de_rec_len d de) in *.
  assert (Hrde : record_at d de)
    by (apply (walked_record_at d name 0); [exact Hw | apply record_at_first]).
  assert (Hrs : record_at d s) by (apply record_at_next; assumption).
  assert (Wtail : walked d name s limit).
  { apply (chain_walked d name cs); [exact K4 | lia | exact Hrs |].
    intros off Hoff Hle. apply Hno; [exact Hoff | lia]. }
  destruct Hpde as [-> | (p & -> & Wp & Hp & Hp1 & Hp2 & Hp3)];
    unfold deleted_page.
  - set (d' := put_le32 d de 0).
    assert (Hout : forall k, k < de \/ de + 4 <= k -> byte_at d' k = byte_at d k)
      by (intros k Hk; apply byte_at_put_le32_out; exact Hk).
    apply (walked_trans _ _ _ de).
    { apply (walked_agree d); [exact Hw|]. intros k Hk. apply Hout. lia. }
    assert (Er : de_rec_len d' de = de_rec_len d de)
      by (apply de_rec_len_agree; apply Hout; lia).
    apply walked_step.
    + lia.
    + rewrite Er. exact K1.
    + rewrite Er. unfold de_name_len. rewrite Hout by lia. exact K2.
    + apply ext2_match_unused. unfold de_inode.
      apply le32_at_put_le32; lia.
    + rewrite Er. apply (walked_agree d); [exact Wtail|].
      intros k Hk. apply Hout. lia.
  - pose proof (walked_le _ _ _ _ Wp) as Hp0.
    pose proof (de_name_len_range d p) as Hnl.
    pose proof (EXT2_DIR_REC_LEN_bounds (de_name_len d p) ltac:(lia)) as Hrb.
    fold s.
    set (d' := put_le32 (put_le16 d (p + 4) (u16 (s - p))) de 0).
    assert (Hout : forall k,
               k < p + 4 \/ p + 6 <= k < de \/ de + 4 <= k ->
               byte_at d' k = byte_at d k).
    { intros k Hk. subst d'.
      rewrite byte_at_put_le32_out, byte_at_put_le16_out by lia. reflexivity. }
    apply (walked_trans _ _ _ p).
    { apply (walked_agree d); [exact Wp|]. intros k Hk. apply Hout. lia. }
    assert (Er : de_rec_len d' p = s - p).
    { subst d'.
      rewrite (de_rec_len_agree (put_le16 d (p + 4) (u16 (s - p))))
        by (apply byte_at_put_le32_out; lia).
      unfold de_rec_len. rewrite le16_at_put_le16; try lia.
      - apply u16_small_id. lia.
      - rewrite u16_small_id by lia. lia. }
    apply walked_step.
    + lia.
    + rewrite Er. lia.
    + rewrite Er. unfold de_name_len. rewrite Hout by lia.
      fold (de_name_len d p). lia.
    + rewrite (ext2_match_agree d d'); [exact Hp3|].
      intros k Hk. apply Hout. lia.
    + rewrite Er. replace (p + (s - p)) with s by lia.
      apply (walked_agree d); [exact Wtail|].
      intros k Hk. apply Hout. lia.
Qed.

(** The same pages, some of them marked as checked since. *)
Definition same_pages (dir dir1 : inode) : Prop :=
  i_size dir1 = i_size dir
  /\ forall j f1,
       read_mapping_folio dir1 j = Ok f1 ->
       exists f, read_mapping_folio dir j = Ok f /\ f_data f = f_data f1.

Lemma same_pages_refl dir : same_pages dir dir.
Proof. split; [reflexivity|]. intros j f H. exists f. auto. Qed.

Lemma same_pages_trans a b c :
  same_pages a b -> same_pages b c -> same_pages a c.
Proof.
  intros (S1 & P1) (S2 & P2). split; [congruence|].
  intros j f3 H3. destruct (P2 j f3 H3) as (f2 & H2 & E2).
  destruct (P1 j f2 H2) as (f1 & H1 & E1). exists f1. split; congruence.
Qed.

Lemma name_once_same_pages name dir dir1 :
  same_pages dir dir1 -> name_once name dir -> name_once name dir1.
Proof.
  intros (_ & HP) H j j' f f' off off' R R' A A' M M'.
  destruct (HP j f R) as (g & G & E). destruct (HP j' f' R') as (g' & G' & E').
  apply (H j j' g g' off off' G G'); congruence.
Qed.

Lemma pages_sound_core fs fs' dir :
  fs_sbi fs' = fs_sbi fs -> pages_sound fs dir -> pages_sound fs' dir.
Proof.
  intros Hs H j f R. destruct (H j f R) as (K1 & K2). split; [exact K1|].
  intros Hc. rewrite (ext2_check_folio_verdict fs fs' dir dir) by auto. auto.
Qed.

Lemma ext2_get_folio_err fs dir n e fs' dir' :
  ext2_get_folio fs dir n false = (Err e, fs', dir') ->
  dir' = dir /\ fs_sbi fs' = fs_sbi fs.
Proof.
  unfold ext2_get_folio.
  destruct (read_mapping_folio dir n) as [f | e0];
    [|intros [= <- <- <-]; auto].
  destruct (f_checked f); [discriminate|].
  destruct (ext2_check_folio fs dir n false (f_data f)) as [[|] fs0] eqn:E;
    [discriminate|].
  intros [= <- <- <-]. split; [reflexivity|].
  apply ext2_check_folio_same_core in E. apply E.
Qed.

Lemma chain_limit d cs limit : chain d cs limit 0 -> limit = 0 \/ 12 <= limit.
Proof. inversion 1; [left; reflexivity | right; lia]. Qed.

(** What [ext2_find_entry] has found: a record of a valid page that carries
    the name, with records of other names before it in the page. *)
Lemma find_entry_pages_inv name :
  forall todo fs dir i n de fs1 dir1,
    In (s_blocksize (fs_sbi fs)) [1024; 2048; 4096] ->
    0 <= i -> 0 <= i_size dir < 2 ^ 31 ->
    (i + Z.of_nat todo) * 4096 < i_size dir + 4096 ->
    pages_sound fs dir ->
    find_entry_pages todo fs dir name i = (Ok (n, de), fs1, dir1) ->
    fs_sbi fs1 = fs_sbi fs /\ 0 <= n /\ n * 4096 < i_size dir
    /\ pages_sound fs dir1 /\ same_pages dir dir1
    /\ exists d,
         read_mapping_folio dir1 n = Ok {| f_data := d; f_checked := true |}
         /\ length d = 4096%nat
         /\ chain d (ext2_chunk_size fs) (Z.min 4096 (i_size dir - n * 4096)) de
         /\ 0 <= de <= Z.min 4096 (i_size dir - n * 4096) - 12
         /\ ext2_match name d de = true
         /\ walked d name 0 de.
Proof.
  induction todo as [|todo IH]; intros fs dir i n de fs1 dir1 Hbs Hi Hsize
    Htodo Hsound; cbn [find_entry_pages]; [discriminate|].
  destruct (ext2_get_folio fs dir i false) as [[[d | e] fs0] dir0] eqn:Hget.
  - destruct (ext2_get_folio_sound _ _ _ _ _ _ Hi Hsound Hget)
      as (-> & Hsz & Hread & Hpages & Hlen & Hvalid & Hsound0).
    assert (Hsame : same_pages dir dir0).
    { split; [exact Hsz|]. intros j f1 Hj.
      destruct (Z.eq_dec j i) as [-> | Hne].
      - rewrite Hread in Hj. injection Hj as <-.
        unfold ext2_get_folio in Hget.
        destruct (read_mapping_folio dir i) as [f | e0]; [|discriminate].
        exists f. split; [reflexivity|]. cbn [f_data].
        destruct (f_checked f); [injection Hget as <- _; reflexivity|].
        destruct (ext2_check_folio fs dir i false (f_data f)) as [[|] ?];
          [|discriminate].
        injection Hget as <- _ _. reflexivity.
      - rewrite Hpages in Hj by exact Hne. exists f1. auto. }
    destruct (ext2_check_folio_chain fs dir i true d Hbs Hi ltac:(lia) Hvalid)
      as (Hchain & _).
    rewrite (ext2_last_byte_min dir0 i) by (rewrite ?Hsz; lia). rewrite Hsz.
    set (limit := Z.min 4096 (i_size dir - i * 4096)) in *.
    assert (Hl12 : 12 <= limit)
      by (destruct (chain_limit _ _ _ Hchain); lia).
    change (EXT2_DIR_REC_LEN 1) with 12.
    pose proof (find_entry_page_chain d name _ limit 0 Hchain (S (length d))
                  ltac:(lia)) as Hfind.
    destruct (find_entry_page (S (length d)) d name (limit - 12) 0)
      as [de0 | |]; [| contradiction |].
    + intros [= <- <- <- <-].
      destruct Hfind as (K1 & K2 & K3 & K4).
      split; [reflexivity|]. split; [exact Hi|]. split; [lia|].
      split; [exact Hsound0|]. split; [exact Hsame|].
      exists d. auto 10.
    + intros Hrest.
      apply IH in Hrest; try assumption; try lia; [|rewrite Hsz; lia..].
      rewrite Hsz in Hrest.
      destruct Hrest as (R1 & R2 & R3 & R4 & R5 & R6).
      split; [exact R1|]. split; [exact R2|]. split; [exact R3|].
      split; [exact R4|].
      split; [eapply same_pages_trans; eassumption | exact R6].
  - apply ext2_get_folio_err in Hget. destruct Hget as (-> & Hsbi).
    intros Hrest.
    apply IH in Hrest; rewrite ?Hsbi; try assumption; try lia;
      [|apply (pages_sound_core fs); assumption].
    destruct Hrest as (R1 & R2 & R3 & R4 & R5 & R6).
    split; [congruence|]. split; [exact R2|]. split; [exact R3|].
    split; [apply (pages_sound_core fs0); [congruence | exact R4]|].
    split; [exact R5|].
    unfold ext2_chunk_size in *. rewrite Hsbi in R6. exact R6.
Qed.

(** No page that [ext2_get_folio] hands out holds the name. *)
Definition nothing_found (name : list Z) (fs : ext2_fs) (dir : inode) : Prop :=
  forall j f,
    0 <= j -> j * 4096 < i_size dir ->
    read_mapping_folio dir j = Ok f ->
    f_checked f = true
    \/ fst (ext2_check_folio fs dir j false (f_data f)) = true ->
    find_entry_page (S (length (f_data f))) (f_data f) name
      (ext2_last_byte dir j - EXT2_DIR_REC_LEN 1) 0 = NotInPage.

Lemma nothing_found_core name fs fs' dir :
  fs_sbi fs' = fs_sbi fs -> nothing_found name fs dir ->
  nothing_found name fs' dir.
Proof.
  intros Hs H j f Hj Hin R Hok. apply H; try assumption.
  destruct Hok as [? | Hok]; [left; assumption | right].
  rewrite <- (ext2_check_folio_verdict fs fs' dir dir) by auto. exact Hok.
Qed.

Lemma find_entry_pages_enoent name :
  forall todo fs dir i,
    0 <= i -> (i + Z.of_nat todo) * 4096 < i_size dir + 4096 ->
    nothing_found name fs dir ->
    fst (fst (find_entry_pages todo fs dir name i)) = Err ENOENT.
Proof.
  induction todo as [|todo IH]; intros fs dir i Hi Htodo Hnf;
    cbn [find_entry_pages]; [reflexivity|].
  unfold ext2_get_folio.
  destruct (read_mapping_folio dir i) as [f | e] eqn:Hread;
    [|apply IH; [lia | lia | exact Hnf]].
  destruct (f_checked f) eqn:Hf.
  - rewrite (Hnf i f Hi ltac:(lia) Hread (or_introl Hf)).
    apply IH; [lia | lia | exact Hnf].
  - destruct (ext2_check_folio fs dir i false (f_data f)) as [[|] fs0] eqn:E.
    + assert (Hok : fst (ext2_check_folio fs dir i false (f_data f)) = true)
        by (rewrite E; reflexivity).
      pose proof (ext2_check_folio_passes _ _ _ _ _ Hok) as Hp.
      rewrite Hp in E. injection E as <-.
      pose proof (store_folio_same_but_page dir i
                    {| f_data := f_data f; f_checked := true |} Hi)
        as (_ & _ & _ & Hsize & _ & _ & Hpages).
      rewrite (ext2_last_byte_size dir (store_folio dir i _)) by exact Hsize.
      rewrite (Hnf i f Hi ltac:(lia) Hread (or_intror Hok)).
      apply IH; [lia | rewrite Hsize; lia |].
      intros j g Hj Hin Hg Hgok. rewrite Hsize in Hin.
      rewrite (ext2_last_byte_size dir (store_folio dir i _)) by exact Hsize.
      destruct (Z.eq_dec j i) as [-> | Hne].
      * rewrite read_mapping_folio_store in Hg by exact Hi. injection Hg as <-.
        cbn [f_data]. apply (Hnf i f Hi Hin Hread). right. exact Hok.
      * rewrite Hpages in Hg by exact Hne. apply (Hnf j g Hj Hin Hg).
        destruct Hgok as [? | Hgok]; [left; assumption | right].
        rewrite <- (ext2_check_folio_verdict fs fs dir
                      (store_folio dir i
                         {| f_data := f_data f; f_checked := true |}))
          by auto.
        exact Hgok.
    + apply ext2_check_folio_same_core in E. destruct E as (Hsbi & _).
      apply IH; [lia | lia |]. apply (nothing_found_core name fs); assumption.
Qed.

Lemma ext2_delete_entry_page be fs dir n de d flag pde :
  read_mapping_folio dir n = Ok {| f_data := d; f_checked := flag |} ->
  delete_entry_walk (S (length d)) d de
    (Z.land de (u32 (Z.lnot (ext2_chunk_size fs - 1)))) None = Ok pde ->
  ext2_delete_entry be fs dir n de
  = let from := match pde with
                | Some p => p
                | None => Z.land de (u32 (Z.lnot (ext2_chunk_size fs - 1)))
                end in
    match ext2_prepare_chunk be fs dir (n * PAGE_SIZE + from)
            (de + de_rec_len d de - from) with
    | (Err e, fs, dir) => (Err e, fs, dir)
    | (Ok _, fs, dir) =>
        sync_inode_metadata be fs
          (ext2_commit_chunk
             (store_folio dir n
                {| f_data := deleted_page d pde de; f_checked := flag |})
             (n * PAGE_SIZE + from) (de + de_rec_len d de - from))
    end.
Proof.
  intros Hread Hwalk. unfold ext2_delete_entry. rewrite Hread.
  cbn [f_data f_checked]. rewrite Hwalk. cbv zeta.
  destruct (ext2_prepare_chunk _ _ _ _ _) as [[[[]|e] fs1] dir1]; [|reflexivity].
  unfold deleted_page. destruct pde; reflexivity.
Qed.

(** After the deletion no page of the directory holds the name. *)
Lemma deleted_nothing_found name fs fs2 dir1 dir2 n de d pde :
  In (s_blocksize (fs_sbi fs)) [1024; 2048; 4096] ->
  0 <= i_size dir1 < 2 ^ 31 ->
  pages_sound fs dir1 -> name_once name dir1 ->
  0 <= n -> n * 4096 < i_size dir1 ->
  read_mapping_folio dir1 n = Ok {| f_data := d; f_checked := true |} ->
  length d = 4096%nat ->
  chain d (ext2_chunk_size fs) (Z.min 4096 (i_size dir1 - n * 4096)) de ->
  0 <= de <= Z.min 4096 (i_size dir1 - n * 4096) - 12 ->
  ext2_match name d de = true ->
  walked d name 0 de ->
  pde = None
  \/ (exists p,
        pde = Some p /\ walked d name 0 p
        /\ p + de_rec_len d p = de
        /\ 12 <= de_rec_len d p
        /\ EXT2_DIR_REC_LEN (de_name_len d p) <= de_rec_len d p
        /\ ext2_match name d p = false) ->
  fs_sbi fs2 = fs_sbi fs -> i_size dir2 = i_size dir1 ->
  read_mapping_folio dir2 n
  = Ok {| f_data := deleted_page d pde de; f_checked := true |} ->
  (forall j, j <> n -> read_mapping_folio dir2 j = read_mapping_folio dir1 j) ->
  nothing_found name fs2 dir2.
Proof.
  intros Hbs Hsize Hsound Honce Hn Hnin Hread Hlen Hchain Hde Hm Hw Hpde
    Hsbi Hsz2 Hread2 Hpages2 j f Hj Hin R Hok.
  rewrite Hsz2 in Hin.
  rewrite (ext2_last_byte_min dir2 j) by (rewrite ?Hsz2; lia). rewrite Hsz2.
  change (EXT2_DIR_REC_LEN 1) with 12.
  assert (Hrde : record_at d de)
    by (apply (walked_record_at d name 0); [exact Hw | apply record_at_first]).
  destruct (Z.eq_dec j n) as [-> | Hne].
  - rewrite Hread2 in R. injection R as <-. cbn [f_data].
    set (limit := Z.min 4096 (i_size dir1 - n * 4096)) in *.
    assert (Hlen' : length (deleted_page d pde de) = 4096%nat).
    { unfold deleted_page. destruct pde; put_len; exact Hlen. }
    apply find_entry_page_walked_end; [|lia].
    replace (limit - 12 + 12) with limit by lia.
    apply (deleted_page_walked d name (ext2_chunk_size fs)); try assumption;
      try lia.
    intros off Hoff Hneq.
    destruct (ext2_match name d off) eqn:Hmo; [|reflexivity].
    exfalso. apply Hneq.
    apply (Honce n n _ _ off de Hread Hread Hoff Hrde Hmo Hm).
  - rewrite Hpages2 in R by exact Hne.
    destruct (Hsound j f R) as (Hlenf & Hchk).
    assert (Hvalid : fst (ext2_check_folio fs dir1 j true (f_data f)) = true).
    { destruct Hok as [Hc | Hc]; [auto|].
      rewrite (ext2_check_folio_quiet _ _ _ true false).
      rewrite <- (ext2_check_folio_verdict fs fs2 dir1 dir2) by auto.
      exact Hc. }
    destruct (ext2_check_folio_chain fs dir1 j true (f_data f) Hbs Hj
                ltac:(lia) Hvalid) as (Hcj & _).
    set (limit := Z.min 4096 (i_size dir1 - j * 4096)) in *.
    assert (Hl12 : 12 <= limit)
      by (destruct (chain_limit _ _ _ Hcj); lia).
    apply find_entry_page_walked_end; [|lia].
    replace (limit - 12 + 12) with limit by lia.
    apply (chain_walked _ name (ext2_chunk_size fs));
      [exact Hcj | lia | apply record_at_first |].
    intros off Hoff _.
    destruct (ext2_match name (f_data f) off) eqn:Hmo; [|reflexivity].
    exfalso. apply Hne.
    apply (Honce j n f _ off de R Hread Hoff Hrde Hmo Hm).
Qed.

Lemma dir_pages_div dir :
  0 <= i_size dir < 2 ^ 31 -> dir_pages dir = (i_size dir + 4095) / 4096.
Proof.
  intros H. unfold dir_pages, PAGE_SIZE, PAGE_SHIFT.
  rewrite (Z.mod_small (i_size dir + 4096 - 1) (2 ^ 64) ltac:(lia)
           : u64 (i_size dir + 4096 - 1) = i_size dir + 4096 - 1).
  rewrite Z.shiftr_div_pow2 by lia. change (2 ^ 12) with 4096.
  f_equal. lia.
Qed.

(** A name that [ext2_unlink] has removed is gone: where at most one
    record of the directory carried the name, [ext2_inode_by_name] in the
    state and the directory that a successful [ext2_unlink] has left
    returns ENOENT for it, and the inode has one link less.  The directory
    is smaller than 2 GiB, and its cached pages are whole pages that are
    valid where they are marked as checked. *)
Theorem ext2_unlink_lookup be fs dir name ino fs' dir' ino' :
  In (s_blocksize (fs_sbi fs)) [1024; 2048; 4096] ->
  0 <= i_size dir < 2 ^ 31 ->
  pages_sound fs dir ->
  name_once name dir ->
  ext2_unlink be fs dir name ino = (Ok tt, fs', dir', ino') ->
  fst (fst (ext2_inode_by_name fs' dir' name)) = Err ENOENT
  /\ i_nlink ino' = u32 (i_nlink ino - 1).
Proof.
  intros Hbs Hsize Hsound Honce. unfold ext2_unlink.
  destruct (ext2_find_entry fs dir name) as [[[[n de] | e] fs1] dir1] eqn:Hfind;
    [|discriminate].
  unfold ext2_find_entry in Hfind.
  destruct (dir_pages dir =? 0); [discriminate|].
  rewrite (dir_pages_div dir Hsize) in Hfind.
  apply find_entry_pages_inv in Hfind; try assumption; try lia.
  2:{ rewrite Z2Nat.id by (Z.div_mod_to_equations; lia).
      Z.div_mod_to_equations. lia. }
  destruct Hfind as (Hsbi1 & Hn & Hnin & Hsound1 & Hsame & d & Hread1 & Hlen
                     & Hchain & Hde & Hm & Hw).
  pose proof Hsame as (Hsz1 & _).
  rewrite <- Hsz1 in Hchain, Hde, Hnin.
  set (limit := Z.min 4096 (i_size dir1 - n * 4096)) in *.
  assert (Hlim : limit <= 4096 /\ n * 4096 + limit <= i_size dir1)
    by (subst limit; lia).
  assert (Hdel : 0 <= de < 4096) by lia.
  assert (Hcs : exists k, 0 <= k /\ ext2_chunk_size fs = 2 ^ k).
  { unfold ext2_chunk_size. apply chunk_cases in Hbs.
    destruct Hbs as [E | [E | E]]; rewrite E;
      [exists 10 | exists 11 | exists 12]; split; try lia; reflexivity. }
  destruct Hcs as (k & Hk & Hcs).
  assert (Hcs1 : ext2_chunk_size fs1 = 2 ^ k)
    by (unfold ext2_chunk_size in *; rewrite Hsbi1; exact Hcs).
  (* the page is valid from its first record on *)
  destruct (Hsound1 n _ Hread1) as (_ & Hvalid). specialize (Hvalid eq_refl).
  cbn [f_data] in Hvalid.
  destruct (ext2_check_folio_chain fs dir1 n true d Hbs Hn ltac:(lia) Hvalid)
    as (Hchain0 & _). fold limit in Hchain0.
  (* the walk from the start of the chunk *)
  set (c := Z.land de (u32 (Z.lnot (ext2_chunk_size fs1 - 1)))).
  assert (Hde32 : 0 <= de < 2 ^ 32) by (clear - Hdel; lia).
  assert (Hc : c = 2 ^ k * (de / 2 ^ k))
    by (subst c; rewrite Hcs1; apply chunk_start_bits; assumption).
  assert (Hpow : 0 < 2 ^ k) by (apply Z.pow_pos_nonneg; lia).
  assert (Hcr : 0 <= c <= de /\ c mod 2 ^ k = 0).
  { rewrite Hc. split.
    - split; [apply Z.mul_nonneg_nonneg; [|apply Z.div_pos]
             | apply Z.mul_div_le]; clear - Hpow Hdel; lia.
    - rewrite Z.mul_comm. apply Z.mod_mul. clear - Hpow. lia. }
  destruct Hcr as (Hcr & Hcm).
  rewrite Hcs in Hchain0, Hchain.
  destruct (walked_chunk_start d name (2 ^ k) limit 0 de Hpow Hw Hchain0
              ltac:(lia) c Hcr Hcm) as (W0c & Wc).
  destruct (delete_entry_walk_walked d name c de Wc (S (length d)) None
              ltac:(lia)) as (pde & Hwalk & Hpde).
  rewrite (ext2_delete_entry_page be fs1 dir1 n de d true pde Hread1 Hwalk).
  cbv zeta. fold c. change PAGE_SIZE with 4096.
  set (from := match pde with Some p => p | None => c end).
  pose proof (ext2_prepare_chunk_sbi be fs1 dir1 (n * 4096 + from)
                (de + de_rec_len d de - from)) as Hsbi2.
  destruct (ext2_prepare_chunk be fs1 dir1 (n * 4096 + from)
              (de + de_rec_len d de - from)) as [[[[] | e] fs2] dir2] eqn:Hprep;
    [|discriminate].
  cbn [fst snd] in Hsbi2.
  apply ext2_prepare_chunk_inode in Hprep. destruct Hprep as (dd & bb & ->).
  unfold sync_inode_metadata.
  match goal with
  | |- context [ext2_do_write_inode be fs2 ?i] =>
      destruct (ext2_do_write_inode be fs2 i) as [[r fs3] dir3] eqn:Hsync
  end.
  apply ext2_do_write_inode_frame in Hsync.
  destruct Hsync as ((Hsbi3 & _) & st & ->).
  destruct r as [[] | e]; [|discriminate].
  intros [= <- <- <-]. split; [|reflexivity].
  (* the directory does not grow *)
  inversion Hchain as [E | a K0 K1 K2 K3 K4 E]; [lia|]. subst a.
  pose proof (chain_le _ _ _ _ K4) as Hto.
  set (dirB := store_folio (touch dir1 dd bb) n
                 {| f_data := deleted_page d pde de; f_checked := true |}).
  assert (HsizeB : i_size dirB = i_size dir1) by reflexivity.
  assert (Hcommit : ext2_commit_chunk dirB (n * 4096 + from)
                      (de + de_rec_len d de - from) = dirB).
  { unfold ext2_commit_chunk. rewrite HsizeB.
    destruct (Z.ltb_spec (i_size dir1)
                (n * 4096 + from + (de + de_rec_len d de - from)));
      [lia | reflexivity]. }
  rewrite Hcommit.
  assert (Hnf : nothing_found name fs3 (set_i_state dirB st)).
  { apply (deleted_nothing_found name fs fs3 dir1 (set_i_state dirB st) n de d
             pde); try assumption; try lia.
    - apply (name_once_same_pages name dir); assumption.
    - rewrite Hcs. exact Hchain.
    - destruct Hpde as [(_ & ->) | (p & -> & K5 & K6 & K7)]; [left; reflexivity|].
      right. exists p. split; [reflexivity|].
      split; [apply (walked_trans _ _ _ c); assumption | exact K7].
    - congruence.
    - rewrite (read_mapping_folio_mapping (set_i_state dirB st) dirB)
        by reflexivity.
      subst dirB. apply read_mapping_folio_store. exact Hn.
    - intros j Hj.
      rewrite (read_mapping_folio_mapping (set_i_state dirB st) dirB)
        by reflexivity.
      subst dirB.
      destruct (store_folio_same_but_page (touch dir1 dd bb) n
                  {| f_data := deleted_page d pde de; f_checked := true |} Hn)
        as (_ & _ & _ & _ & _ & _ & K). rewrite K by exact Hj.
      apply read_mapping_folio_mapping. reflexivity. }
  unfold ext2_inode_by_name, ext2_find_entry.
  destruct (dir_pages (set_i_state dirB st) =? 0); [reflexivity|].
  assert (Hsz3 : i_size (set_i_state dirB st) = i_size dir1) by reflexivity.
  pose proof (find_entry_pages_enoent name
                (Z.to_nat (dir_pages (set_i_state dirB st))) fs3
                (set_i_state dirB st) 0 ltac:(lia)) as Hno.
  rewrite (dir_pages_div (set_i_state dirB st)) in * by (rewrite Hsz3; lia).
  rewrite Hsz3 in *.
  specialize (Hno ltac:(rewrite Z2Nat.id by (Z.div_mod_to_equations; lia);
                        Z.div_mod_to_equations; lia) Hnf).
  destruct (find_entry_pages _ fs3 (set_i_state dirB st) name 0)
    as [[[[n' de'] | e'] fs4] dir4]; cbn [fst] in Hno; [discriminate|].
  cbn [fst]. injection Hno as ->. reflexivity.
Qed.

Lemma sample_named_dir_pages_sound : pages_sound sample_fs sample_named_dir.
Proof.
  intros j f. unfold read_mapping_folio.
  destruct (j <? 0); [discriminate|].
  cbn [i_mapping sample_named_dir set_i_mapping].
  destruct (Z.to_nat j) as [|k]; cbn.
  - intros [= <-]. split; [vm_compute; reflexivity | discriminate].
  - intros [= <-]. split; [vm_compute; reflexivity | discriminate].
Qed.

Lemma sample_named_page_records off :
  record_at sample_named_page off ->
  off = 0 \/ off = 12 \/ off = 24 \/ off = 1024.
Proof.
  induction 1 as [|off _ IH Hr]; [auto|].
  destruct IH as [-> | [-> | [-> | ->]]];
    [right; left | right; right; left | right; right; right |];
    try (vm_compute; reflexivity).
  vm_compute in Hr. exfalso. apply Hr. reflexivity.
Qed.

Lemma zero_page_records off : record_at zero_page off -> off = 0.
Proof.
  induction 1 as [|off _ IH Hr]; [reflexivity|]. subst off.
  vm_compute in Hr. exfalso. apply Hr. reflexivity.
Qed.

Lemma sample_named_dir_only j f off :
  read_mapping_folio sample_named_dir j = Ok f ->
  record_at (f_data f) off ->
  ext2_match [99] (f_data f) off = true ->
  j = 0 /\ off = 24.
Proof.
  unfold read_mapping_folio. destruct (Z.ltb_spec j 0); [discriminate|].
  cbn [i_mapping sample_named_dir set_i_mapping].
  destruct (Z.to_nat j) as [|k] eqn:Hj; cbn.
  - intros [= <-]. cbn [f_data]. intros Hr Hm. split; [lia|].
    apply sample_named_page_records in Hr.
    destruct Hr as [-> | [-> | [-> | ->]]];
      first [reflexivity | vm_compute in Hm; discriminate].
  - intros [= <-]. cbn [f_data zero_folio]. intros Hr Hm.
    apply zero_page_records in Hr. subst off.
    vm_compute in Hm. discriminate.
Qed.

Lemma sample_named_dir_name_once : name_once [99] sample_named_dir.
Proof.
  intros j j' f f' off off' R R' A A' M M'.
  destruct (sample_named_dir_only j f off R A M) as (-> & ->).
  destruct (sample_named_dir_only j' f' off' R' A' M') as (-> & ->).
  split; reflexivity.
Qed.

Lemma ext2_unlink_lookup_witness :
  match ext2_unlink false sample_fs sample_named_dir [99] sample_file with
  | (Ok _, fs', dir', ino') =>
      fst (fst (ext2_inode_by_name fs' dir' [99])) = Err ENOENT
      /\ i_nlink ino' = 0
  | _ => False
  end.
Proof.
  destruct (ext2_unlink false sample_fs sample_named_dir [99] sample_file)
    as [[[[[] | e] fs'] dir'] ino'] eqn:E.
  - apply (ext2_unlink_lookup false sample_fs sample_named_dir [99]
             sample_file fs' dir' ino').
    + left. reflexivity.
    + split; [discriminate | reflexivity].
    + exact sample_named_dir_pages_sound.
    + exact sample_named_dir_name_once.
    + exact E.
  - vm_compute in E. discriminate.
Defined.
